(** * VirtualListView: a shallow embedding of the list virtualisation engine

    The engine lives in [dist/VirtualListView.js].  Every instance field of
    the JavaScript class becomes a field of the record [VirtualListView]
    below and every method becomes a function on that record, written in
    state-passing style and keeping the method's name.

    Conventions of the embedding.

    - Numbers.  Item heights, scroll offsets, layout sizes and cell tops
      are whole pixels, type [Z] with exact arithmetic; the counters of the
      render block are [Z] as well (JavaScript does not truncate a
      subtraction).  The overdraw and cull factors are fractions (0.5 in
      the default configuration), so the margins derived from them are
      rationals, type [Q], and a pixel position is compared with a margin
      after [inject_Z].
    - Exceptions.  Reading a property of [undefined] throws a TypeError in
      JavaScript.  A method that can do so returns [option]: [None] is the
      uncaught TypeError.
    - The host.  The mounted [VirtualListCell] components, the animated
      container value, the scroll view and React's [forceUpdate] are not
      part of the engine.  Calls into them are appended to [_hostCalls];
      callbacks from them are events.  Work handed to [_.defer] is queued
      in [_deferred] and run by a later event. *)

From Stdlib Require Import ZArith QArith Qminmax Lia Lqa Ascii.
From stdpp Require Import gmap strings list fin_maps.

Local Open Scope Z_scope.

(** ** Data model *)

(** [VirtualListViewItemInfo] of the type declarations. [measureHeight] and
    [isNavigable] are optional booleans there; an absent flag behaves as
    [false] in every test the engine makes. *)
Module ItemInfo.
Record t := mk {
  key : string;
  height : Z;
  measureHeight : bool;
  template : option string;
  isNavigable : bool
}.
End ItemInfo.

#[global] Instance ItemInfo_eq_dec : EqDecision ItemInfo.t.
Proof. solve_decision. Defined.

Record Props := mkProps {
  itemList : list ItemInfo.t;
  initialSelectedKey : option string;
  padding : Z;
  animateChanges : bool;
  skipRenderIfItemUnchanged : bool;
  keyboardFocusScrollOffset : Z
}.

#[global] Instance Props_eq_dec : EqDecision Props.
Proof. solve_decision. Defined.

Record VirtualListViewState := mkViewState {
  lastFocusedItemKey : option string;
  isFocused : bool;
  selectedItemKey : option string
}.

(** [VirtualCellInfo]. [cellRef] is [cellRef.current]: the mounted cell
    component, of which the engine reads [props.itemKey] only, or [None]
    while the cell is not mounted; [virtualKey] is the number [n] of the
    key ['vc_' + n]. *)
Module CellInfo.
Record Mounted := mkMounted { propsItemKey : option string }.

Record t := mk {
  cellRef : option Mounted;
  virtualKey : nat;
  itemTemplate : option string;
  isHeightConstant : bool;
  height : Z;
  cachedItemKey : string;
  top : Z;
  isVisible : bool;
  shouldUpdate : bool
}.

Definition setTopAndVisibility (v : bool) (y : Z) (c : t) : t :=
  {| cellRef := cellRef c; virtualKey := virtualKey c; itemTemplate := itemTemplate c;
     isHeightConstant := isHeightConstant c; height := height c;
     cachedItemKey := cachedItemKey c; top := y; isVisible := v;
     shouldUpdate := shouldUpdate c |}.

Definition setShouldUpdate (b : bool) (c : t) : t :=
  {| cellRef := cellRef c; virtualKey := virtualKey c; itemTemplate := itemTemplate c;
     isHeightConstant := isHeightConstant c; height := height c;
     cachedItemKey := cachedItemKey c; top := top c; isVisible := isVisible c;
     shouldUpdate := b |}.

Definition setCellRef (b : option Mounted) (c : t) : t :=
  {| cellRef := b; virtualKey := virtualKey c; itemTemplate := itemTemplate c;
     isHeightConstant := isHeightConstant c; height := height c;
     cachedItemKey := cachedItemKey c; top := top c; isVisible := isVisible c;
     shouldUpdate := shouldUpdate c |}.
End CellInfo.

Abbreviation VirtualCellInfo := CellInfo.t.

#[global] Instance Mounted_eq_dec : EqDecision CellInfo.Mounted.
Proof. solve_decision. Defined.

#[global] Instance CellInfo_eq_dec : EqDecision CellInfo.t.
Proof. solve_decision. Defined.

Inductive FocusDirection := Up | Down.

(** [FocusDirection.Up = -1], [FocusDirection.Down = 1]. *)
Definition directionValue (d : FocusDirection) : Z :=
  match d with Up => -1 | Down => 1 end.

(** [RX.Platform.getType()]. *)
Inductive Platform := web | android | ios | otherPlatform.

Definition _isNativeAndroid (p : Platform) : bool :=
  match p with android => true | _ => false end.
Definition _isNativeIOS (p : Platform) : bool :=
  match p with ios => true | _ => false end.

(** Calls the engine makes into its host, in the order it makes them. A
    cell is named by its virtual key. *)
Inductive HostCall :=
| CellSetVisibility (virtualKey : nat) (isVisible : bool)
| CellSetTop (virtualKey : nat) (top : Z) (animate : bool)
| CellSetItemKey (virtualKey : nat) (itemKey : string)
| CellFocus (virtualKey : nat)
| ContainerHeightSetValue (height : Z)
| ScrollViewSetScrollTop (top : Z) (animated : bool)
| ForceUpdate.

(** The two closures the engine passes to [_.defer]: the one of
    [_componentDidRender] and the one of [_onAnimateStartStopItem]. *)
Inductive DeferredTask := AfterRender | AfterAnimationStop.

Record VirtualListView := mkView {
  _platform : Platform;
  _props : Props;
  _state : VirtualListViewState;
  _lastScrollTop : Z;
  _layoutHeight : Z;
  _layoutWidth : Z;
  _contentWidth : Z;
  _isMounted : bool;
  _containerHeight : Z;
  _itemMap : gmap string nat;
  _isRenderDirty : bool;
  _pendingAnimations : gset string;
  _heightAboveRenderAdjustment : Z;
  _heightAboveRenderBlock : Z;
  _heightOfRenderBlock : Z;
  _heightBelowRenderBlock : Z;
  _itemsAboveRenderBlock : Z;
  _itemsInRenderBlock : Z;
  _itemsBelowRenderBlock : Z;
  _pendingMeasurements : gset string;
  _isInitialFillComplete : bool;
  _heightCache : gmap string Z;
  _nextCellKey : nat;
  _activeCells : gmap string VirtualCellInfo;
  _recycledCells : list VirtualCellInfo;
  _navigatableItemsRendered : list (string * nat);
  _pendingFocusDirection : option FocusDirection;
  _maxRecycledCells : Z;
  _isScreenReaderEnabled : bool;
  _renderOverdrawFactor : Q;
  _minOverdrawAmount : Q;
  _maxOverdrawAmount : Q;
  _cullFraction : Q;
  _minCullAmount : Q;
  _deferred : list DeferredTask;
  _hostCalls : list HostCall
}.

(** Field assignment [this.f = v]. The setter of a field is obtained from
    the eta-expansion of the record by abstracting the field's
    projection. *)
Definition viewEta (s : VirtualListView) : VirtualListView :=
  mkView (_platform s) (_props s) (_state s) (_lastScrollTop s) (_layoutHeight s)
    (_layoutWidth s) (_contentWidth s) (_isMounted s) (_containerHeight s) (_itemMap s)
    (_isRenderDirty s) (_pendingAnimations s) (_heightAboveRenderAdjustment s)
    (_heightAboveRenderBlock s) (_heightOfRenderBlock s) (_heightBelowRenderBlock s)
    (_itemsAboveRenderBlock s) (_itemsInRenderBlock s) (_itemsBelowRenderBlock s)
    (_pendingMeasurements s) (_isInitialFillComplete s) (_heightCache s) (_nextCellKey s)
    (_activeCells s) (_recycledCells s) (_navigatableItemsRendered s)
    (_pendingFocusDirection s) (_maxRecycledCells s) (_isScreenReaderEnabled s)
    (_renderOverdrawFactor s) (_minOverdrawAmount s) (_maxOverdrawAmount s)
    (_cullFraction s) (_minCullAmount s) (_deferred s) (_hostCalls s).

Ltac assign proj :=
  let e := eval cbv [viewEta] in viewEta in
  let e' := eval pattern proj in e in
  match e' with
  | ?f _ => let t := eval cbv beta in (fun v s => f (fun _ => v) s) in exact t
  end.

Definition set_props : Props -> VirtualListView -> VirtualListView :=
  ltac:(assign _props).
Definition set_state : VirtualListViewState -> VirtualListView -> VirtualListView :=
  ltac:(assign _state).
Definition set_lastScrollTop : Z -> VirtualListView -> VirtualListView :=
  ltac:(assign _lastScrollTop).
Definition set_layoutHeight : Z -> VirtualListView -> VirtualListView :=
  ltac:(assign _layoutHeight).
Definition set_layoutWidth : Z -> VirtualListView -> VirtualListView :=
  ltac:(assign _layoutWidth).
Definition set_contentWidth : Z -> VirtualListView -> VirtualListView :=
  ltac:(assign _contentWidth).
Definition set_isMounted : bool -> VirtualListView -> VirtualListView :=
  ltac:(assign _isMounted).
Definition set_containerHeight : Z -> VirtualListView -> VirtualListView :=
  ltac:(assign _containerHeight).
Definition set_itemMap : gmap string nat -> VirtualListView -> VirtualListView :=
  ltac:(assign _itemMap).
Definition set_isRenderDirty : bool -> VirtualListView -> VirtualListView :=
  ltac:(assign _isRenderDirty).
Definition set_pendingAnimations : gset string -> VirtualListView -> VirtualListView :=
  ltac:(assign _pendingAnimations).
Definition set_heightAboveRenderAdjustment : Z -> VirtualListView -> VirtualListView :=
  ltac:(assign _heightAboveRenderAdjustment).
Definition set_heightAboveRenderBlock : Z -> VirtualListView -> VirtualListView :=
  ltac:(assign _heightAboveRenderBlock).
Definition set_heightOfRenderBlock : Z -> VirtualListView -> VirtualListView :=
  ltac:(assign _heightOfRenderBlock).
Definition set_heightBelowRenderBlock : Z -> VirtualListView -> VirtualListView :=
  ltac:(assign _heightBelowRenderBlock).
Definition set_itemsAboveRenderBlock : Z -> VirtualListView -> VirtualListView :=
  ltac:(assign _itemsAboveRenderBlock).
Definition set_itemsInRenderBlock : Z -> VirtualListView -> VirtualListView :=
  ltac:(assign _itemsInRenderBlock).
Definition set_itemsBelowRenderBlock : Z -> VirtualListView -> VirtualListView :=
  ltac:(assign _itemsBelowRenderBlock).
Definition set_pendingMeasurements : gset string -> VirtualListView -> VirtualListView :=
  ltac:(assign _pendingMeasurements).
Definition set_isInitialFillComplete : bool -> VirtualListView -> VirtualListView :=
  ltac:(assign _isInitialFillComplete).
Definition set_heightCache : gmap string Z -> VirtualListView -> VirtualListView :=
  ltac:(assign _heightCache).
Definition set_nextCellKey : nat -> VirtualListView -> VirtualListView :=
  ltac:(assign _nextCellKey).
Definition set_activeCells :
  gmap string VirtualCellInfo -> VirtualListView -> VirtualListView :=
  ltac:(assign _activeCells).
Definition set_recycledCells :
  list VirtualCellInfo -> VirtualListView -> VirtualListView :=
  ltac:(assign _recycledCells).
Definition set_navigatableItemsRendered :
  list (string * nat) -> VirtualListView -> VirtualListView :=
  ltac:(assign _navigatableItemsRendered).
Definition set_pendingFocusDirection :
  option FocusDirection -> VirtualListView -> VirtualListView :=
  ltac:(assign _pendingFocusDirection).
Definition set_maxRecycledCells : Z -> VirtualListView -> VirtualListView :=
  ltac:(assign _maxRecycledCells).
Definition set_isScreenReaderEnabled : bool -> VirtualListView -> VirtualListView :=
  ltac:(assign _isScreenReaderEnabled).
Definition set_renderOverdrawFactor : Q -> VirtualListView -> VirtualListView :=
  ltac:(assign _renderOverdrawFactor).
Definition set_minOverdrawAmount : Q -> VirtualListView -> VirtualListView :=
  ltac:(assign _minOverdrawAmount).
Definition set_maxOverdrawAmount : Q -> VirtualListView -> VirtualListView :=
  ltac:(assign _maxOverdrawAmount).
Definition set_cullFraction : Q -> VirtualListView -> VirtualListView :=
  ltac:(assign _cullFraction).
Definition set_minCullAmount : Q -> VirtualListView -> VirtualListView :=
  ltac:(assign _minCullAmount).
Definition set_deferred : list DeferredTask -> VirtualListView -> VirtualListView :=
  ltac:(assign _deferred).
Definition set_hostCalls : list HostCall -> VirtualListView -> VirtualListView :=
  ltac:(assign _hostCalls).

(** [hostCalls.push(c)]: the engine performs one more call into the host. *)
Definition call (c : HostCall) (s : VirtualListView) : VirtualListView :=
  set_hostCalls (_hostCalls s ++ [c]) s.

(** [_.defer(task)]. *)
Definition defer (t : DeferredTask) (s : VirtualListView) : VirtualListView :=
  set_deferred (_deferred s ++ [t]) s.

(** [this.setState({ lastFocusedItemKey: k })], applied at once. *)
Definition setLastFocusedItemKey (k : option string) (s : VirtualListView) :
  VirtualListView :=
  set_state {| lastFocusedItemKey := k; isFocused := isFocused (_state s);
               selectedItemKey := selectedItemKey (_state s) |} s.

(** ** Constants of the module *)

Definition _maxSimultaneousMeasures : nat := 16.
Definition _maxRecycledCellsDefault : Z := 50.
Definition _maxRecycledCellsForAccessibility : Z := 0.

(** ** Helpers for JavaScript idioms *)

(** Truthiness of an optional string: [undefined] and [''] are falsy. *)
Definition truthy (t : option string) : bool :=
  match t with
  | Some x => negb (String.eqb x "")
  | None => false
  end.

(** [_.findIndex(l, p)], with [None] for [-1]. *)
Fixpoint findIndex {A : Type} (p : A -> bool) (l : list A) : option nat :=
  match l with
  | [] => None
  | x :: l' => if p x then Some O else S <$> findIndex p l'
  end.

(** [props.itemList[i]] for a number [i]: [undefined] out of range. *)
Definition itemAt (props : Props) (i : Z) : option ItemInfo.t :=
  if i <? 0 then None else itemList props !! Z.to_nat i.

(** [Array.prototype.splice(i, 1)]. *)
Definition splice1 {A : Type} (i : nat) (l : list A) : list A :=
  take i l ++ drop (S i) l.

(** Comparison of a pixel position with a rational margin. *)
Definition ZleQ (z : Z) (q : Q) : bool := Qle_bool (inject_Z z) q.
Definition ZltQ (z : Z) (q : Q) : bool := negb (Qle_bool q (inject_Z z)).
Definition ZgeQ (z : Z) (q : Q) : bool := Qle_bool q (inject_Z z).
Definition ZgtQ (z : Z) (q : Q) : bool := negb (Qle_bool (inject_Z z) q).

(** ** Local helper functions for item information *)

Definition _isItemHeightKnown (s : VirtualListView) (item : ItemInfo.t) : bool :=
  negb (ItemInfo.measureHeight item)
  || match _heightCache s !! ItemInfo.key item with Some _ => true | None => false end.

Definition _getHeightOfItem (s : VirtualListView) (item : option ItemInfo.t) : Z :=
  match item with
  | None => 0
  | Some item =>
      if negb (ItemInfo.measureHeight item) then ItemInfo.height item
      else match _heightCache s !! ItemInfo.key item with
           | Some cachedHeight => cachedHeight
           | None => ItemInfo.height item
           end
  end.

Definition _calcHeightOfItems (s : VirtualListView) (props : Props)
    (startIndex endIndex : Z) : Z :=
  foldl (fun count i => count + _getHeightOfItem s (itemAt props i)) 0
        (seqZ startIndex (endIndex - startIndex + 1)).

Definition _shouldShowItem (s : VirtualListView) (item : ItemInfo.t) : bool :=
  let isMeasuring := negb (_isItemHeightKnown s item) in
  let shouldHide := isMeasuring || negb (_isInitialFillComplete s) in
  negb shouldHide.

Definition _isAndroidScreenReaderEnabled (s : VirtualListView) : bool :=
  _isScreenReaderEnabled s && _isNativeAndroid (_platform s).

Definition _calcOverdrawAmount (s : VirtualListView) : Q :=
  if _isInitialFillComplete s then
    Qmin (Qmax (inject_Z (_layoutHeight s) * _renderOverdrawFactor s)
               (_minOverdrawAmount s))
         (_maxOverdrawAmount s)
  else 0%Q.

(** ** Cell management methods *)

Definition _setCellTopAndVisibility (itemKey : string) (isVisibile : bool) (top : Z)
    (animateIfPreviouslyVisible : bool) (s : VirtualListView) : VirtualListView :=
  match _activeCells s !! itemKey with
  | None => s
  | Some cellInfo =>
      let animate := animateIfPreviouslyVisible && CellInfo.isVisible cellInfo
                     && negb (_isAndroidScreenReaderEnabled s) in
      let cellInfo' := CellInfo.setTopAndVisibility isVisibile top cellInfo in
      let s := set_activeCells (<[itemKey := cellInfo']> (_activeCells s)) s in
      if CellInfo.cellRef cellInfo is Some _ then
        call (CellSetTop (CellInfo.virtualKey cellInfo) top animate)
          (call (CellSetVisibility (CellInfo.virtualKey cellInfo) isVisibile) s)
      else s
  end.

Definition _isCellVisible (s : VirtualListView) (itemKey : string) : bool :=
  match _activeCells s !! itemKey with
  | Some cellInfo => CellInfo.isVisible cellInfo
  | None => false
  end.

(** The two searches of the recycling pool made by [_allocateCell]. *)
Definition isExactMatch (itemTemplate : option string) (itemKey : string) (height : Z)
    (cell : VirtualCellInfo) : bool :=
  bool_decide (CellInfo.itemTemplate cell = itemTemplate)
  && String.eqb (CellInfo.cachedItemKey cell) itemKey
  && (CellInfo.height cell =? height).

Definition isTemplateMatch (itemTemplate : option string) (cell : VirtualCellInfo) : bool :=
  bool_decide (CellInfo.itemTemplate cell = itemTemplate).

Definition bestOptionIndex (s : VirtualListView) (itemKey : string)
    (itemTemplate : option string) (height : Z) : option nat :=
  match findIndex (isExactMatch itemTemplate itemKey height) (_recycledCells s) with
  | Some i => Some i
  | None => findIndex (isTemplateMatch itemTemplate) (_recycledCells s)
  end.

(** The cell [_allocateCell] repurposes, if any, and the pool without it. *)
Definition existingCell (s : VirtualListView) (itemKey : string)
    (itemTemplate : option string) (isHeightConstant : bool) (height : Z) :
    option (VirtualCellInfo * list VirtualCellInfo) :=
  match _activeCells s !! itemKey with
  | Some newCell => Some (newCell, _recycledCells s)
  | None =>
      if truthy itemTemplate && isHeightConstant then
        match bestOptionIndex s itemKey itemTemplate height with
        | Some i =>
            match _recycledCells s !! i with
            | Some newCell => Some (newCell, splice1 i (_recycledCells s))
            | None => None
            end
        | None => None
        end
      else None
  end.

Definition _allocateCell (itemKey : string) (itemTemplate : option string) (itemIndex : Z)
    (isHeightConstant : bool) (height : Z) (top : Z) (isVisible : bool)
    (s : VirtualListView) : VirtualListView :=
  let s :=
    match existingCell s itemKey itemTemplate isHeightConstant height with
    | Some (newCell, pool) =>
        let s := set_recycledCells pool s in
        let newCell' :=
          CellInfo.setShouldUpdate true (CellInfo.setTopAndVisibility isVisible top newCell) in
        let s :=
          if CellInfo.cellRef newCell is Some _ then
            call (CellSetItemKey (CellInfo.virtualKey newCell) itemKey)
              (call (CellSetTop (CellInfo.virtualKey newCell) top false)
                 (call (CellSetVisibility (CellInfo.virtualKey newCell) isVisible) s))
          else s in
        set_activeCells (<[itemKey := newCell']> (_activeCells s)) s
    | None =>
        let newCell :=
          {| CellInfo.cellRef := None;
             CellInfo.virtualKey := _nextCellKey s;
             CellInfo.itemTemplate := itemTemplate;
             CellInfo.isHeightConstant := isHeightConstant;
             CellInfo.height := height;
             CellInfo.cachedItemKey := itemKey;
             CellInfo.top := top;
             CellInfo.isVisible := isVisible;
             CellInfo.shouldUpdate := true |} in
        let s := set_nextCellKey (_nextCellKey s + 1)%nat s in
        set_activeCells (<[itemKey := newCell]> (_activeCells s)) s
    end in
  set_isRenderDirty true s.

Definition _recycleCell (itemKey : string) (s : VirtualListView) : VirtualListView :=
  match _activeCells s !! itemKey with
  | None => s
  | Some virtualCellInfo =>
      let s :=
        if _maxRecycledCells s >? 0 then
          let s := _setCellTopAndVisibility itemKey false
                     (CellInfo.top virtualCellInfo) false s in
          if truthy (CellInfo.itemTemplate virtualCellInfo)
             && CellInfo.isHeightConstant virtualCellInfo then
            let hidden :=
              CellInfo.setTopAndVisibility false (CellInfo.top virtualCellInfo)
                virtualCellInfo in
            let s := set_recycledCells (_recycledCells s ++ [hidden]) s in
            if Z.of_nat (length (_recycledCells s)) >? _maxRecycledCells s then
              set_isRenderDirty true (set_recycledCells (splice1 0 (_recycledCells s)) s)
            else s
          else set_isRenderDirty true s
        else s in
      set_activeCells (delete itemKey (_activeCells s)) s
  end.

(** ** Scrolling and focus *)

(** [scrollToTop(animated, top)]. The scroll view's ref is attached exactly
    while the component is mounted. *)
Definition scrollToTop (animated : bool) (top : Z) (s : VirtualListView) :
  VirtualListView :=
  if _isMounted s then call (ScrollViewSetScrollTop top animated) s else s.

(** The index [_.each] leaves in [indexToSelect]: the callback returns
    [true], which does not stop [_.each], so the last match wins. *)
Fixpoint lastIndexOfKey (items : list ItemInfo.t) (idx : Z) (key : string)
    (indexToSelect : option Z) : option Z :=
  match items with
  | [] => indexToSelect
  | item :: items' =>
      lastIndexOfKey items' (idx + 1) key
        (if String.eqb (ItemInfo.key item) key then Some idx else indexToSelect)
  end.

Definition _scrollToItemIndex (index : Z) (s : VirtualListView) : VirtualListView :=
  scrollToTop false
    (_calcHeightOfItems s (_props s) 0 (index - 1) - keyboardFocusScrollOffset (_props s)) s.

Definition _scrollToItemKey (key : string) (s : VirtualListView) : VirtualListView :=
  match lastIndexOfKey (itemList (_props s)) 0 key None with
  | Some indexToSelect => _scrollToItemIndex indexToSelect s
  | None => s
  end.

(** [item.key === this.state.lastFocusedItemKey] on a rendered navigable item. *)
Definition isLastFocused (s : VirtualListView) (item : string * nat) : bool :=
  match lastFocusedItemKey (_state s) with
  | Some k => String.eqb (fst item) k
  | None => false
  end.

(** Returns [true] if successfully found/focused, [false] if not. *)
Definition _focusSubsequentItem (direction : FocusDirection) (viaKeyboard retry : bool)
    (s : VirtualListView) : bool * VirtualListView :=
  let index := findIndex (isLastFocused s) (_navigatableItemsRendered s) in
  let target :=
    match index with
    | Some index =>
        let next := Z.of_nat index + directionValue direction in
        if (next >? -1) && (next <? Z.of_nat (length (_navigatableItemsRendered s)))
        then _navigatableItemsRendered s !! Z.to_nat next
        else None
    | None => None
    end in
  match target with
  | Some (newFocusKey, _) =>
      let s :=
        match _activeCells s !! newFocusKey with
        | Some cellForFocus =>
            match CellInfo.cellRef cellForFocus with
            | Some newElementForFocus =>
                let s := call (CellFocus (CellInfo.virtualKey cellForFocus)) s in
                match CellInfo.propsItemKey newElementForFocus with
                | Some itemKey =>
                    if viaKeyboard && negb (String.eqb itemKey "")
                    then _scrollToItemKey itemKey s else s
                | None => s
                end
            | None => s
            end
        | None => s
        end in
      (true, s)
  | None =>
      match index, lastFocusedItemKey (_state s) with
      | None, Some focusedKey =>
          if retry then
            match _itemMap s !! focusedKey with
            | None => (false, s)
            | Some index =>
                let height :=
                  if (index =? 0)%nat then 0
                  else _calcHeightOfItems s (_props s) 0 (Z.of_nat index - 1) in
                (true, set_pendingFocusDirection (Some direction) (scrollToTop false height s))
            end
          else (false, s)
      | _, _ => (false, s)
      end
  end.

(** ** Rendering triggers *)

Definition _renderIfDirty (s : VirtualListView) : VirtualListView :=
  if _isRenderDirty s && _isMounted s then call ForceUpdate s else s.

Definition _componentDidRender (s : VirtualListView) : VirtualListView :=
  defer AfterRender (set_isRenderDirty false s).

(** ** Item list changes *)

(** First loop of [_handleItemListChange]: build the new item map and mark
    the active cells whose item is new or changed. *)
Definition markShouldUpdate (itemKey : string) (s : VirtualListView) : VirtualListView :=
  match _activeCells s !! itemKey with
  | Some cell =>
      set_activeCells (<[itemKey := CellInfo.setShouldUpdate true cell]> (_activeCells s)) s
  | None => s
  end.

Fixpoint buildItemMap (items : list ItemInfo.t) (itemIndex : nat)
    (newItemMap : gmap string nat) (s : VirtualListView) :
    gmap string nat * VirtualListView :=
  match items with
  | [] => (newItemMap, s)
  | item :: items' =>
      let newItemMap := <[ItemInfo.key item := itemIndex]> newItemMap in
      let s :=
        match _activeCells s !! ItemInfo.key item with
        | Some cell =>
            match _itemMap s !! ItemInfo.key item with
            | None => markShouldUpdate (ItemInfo.key item) s
            | Some oldItemIndex =>
                if skipRenderIfItemUnchanged (_props s)
                   || negb (bool_decide (itemList (_props s) !! oldItemIndex = Some item))
                then markShouldUpdate (ItemInfo.key item) s
                else s
            end
        | None => s
        end in
      buildItemMap items' (S itemIndex) newItemMap s
  end.

(** The focus update made when the removed item is the focused one. *)
Definition refocusAfterRemoval (s : VirtualListView) : VirtualListView :=
  let '(down, s) := _focusSubsequentItem Down false false s in
  if down then s
  else
    let '(up, s) := _focusSubsequentItem Up false false s in
    if up then s else setLastFocusedItemKey None s.

(** [if (this._activeCells.has(key)) this._recycleCell(key)]. *)
Definition recycleIfActive (itemKey : string) (s : VirtualListView) : VirtualListView :=
  match _activeCells s !! itemKey with
  | Some _ => _recycleCell itemKey s
  | None => s
  end.

(** What the second loop does for a deleted item besides the focus update. *)
Definition stopTrackingItem (item : ItemInfo.t) (itemIndex : Z) (s : VirtualListView) :
    VirtualListView :=
  let s :=
    if itemIndex <? _itemsAboveRenderBlock s then
      set_heightAboveRenderAdjustment
        (_heightAboveRenderAdjustment s + _getHeightOfItem s (Some item)) s
    else s in
  let s := set_heightCache (delete (ItemInfo.key item) (_heightCache s)) s in
  let s := set_pendingMeasurements (_pendingMeasurements s ∖ {[ItemInfo.key item]}) s in
  recycleIfActive (ItemInfo.key item) s.

(** Second loop: stop tracking the heights of deleted items. *)
Fixpoint stopTrackingDeleted (oldItems : list ItemInfo.t) (itemIndex : Z)
    (newItemMap : gmap string nat) (s : VirtualListView) : VirtualListView :=
  match oldItems with
  | [] => s
  | item :: oldItems' =>
      let s :=
        match newItemMap !! ItemInfo.key item with
        | Some _ => s
        | None =>
            let s :=
              if bool_decide (Some (ItemInfo.key item) = lastFocusedItemKey (_state s))
              then refocusAfterRemoval s else s in
            stopTrackingItem item itemIndex s
        end in
      stopTrackingDeleted oldItems' (itemIndex + 1) newItemMap s
  end.

(** [this._pendingMeasurements.add(key)] unless the height is known. *)
Definition awaitMeasurement (item : ItemInfo.t) (s : VirtualListView) : VirtualListView :=
  if _isItemHeightKnown s item then s
  else set_pendingMeasurements (_pendingMeasurements s ∪ {[ItemInfo.key item]}) s.

(** The body of the third loop for one item, [yPosition] being the
    position of its bottom edge. *)
Definition placeItem (props : Props) (item : ItemInfo.t) (itemIndex : Z)
    (renderBlockTopLimit renderBlockBottomLimit : Q) (itemHeight yPosition : Z)
    (lookingForStartOfRenderBlock : bool) (s : VirtualListView) :
    bool * VirtualListView :=
  if ZleQ yPosition renderBlockTopLimit then
    (lookingForStartOfRenderBlock, recycleIfActive (ItemInfo.key item) s)
  else
    let s :=
      if lookingForStartOfRenderBlock then set_itemsAboveRenderBlock itemIndex s
      else s in
    if ZltQ (yPosition - itemHeight) renderBlockBottomLimit then
      let s := set_itemsInRenderBlock (_itemsInRenderBlock s + 1) s in
      match _activeCells s !! ItemInfo.key item with
      | Some _ =>
          (false,
           _setCellTopAndVisibility (ItemInfo.key item) (_shouldShowItem s item)
             (yPosition - itemHeight) (animateChanges props) s)
      | None =>
          (false,
           awaitMeasurement item
             (_allocateCell (ItemInfo.key item) (ItemInfo.template item) itemIndex
                (negb (ItemInfo.measureHeight item)) (ItemInfo.height item)
                (yPosition - itemHeight) (_shouldShowItem s item) s))
      end
    else (false, recycleIfActive (ItemInfo.key item) s).

(** Third loop: determine the new bounds of the render block. *)
Fixpoint determineRenderBlock (props : Props) (items : list ItemInfo.t) (itemIndex : Z)
    (renderBlockTopLimit renderBlockBottomLimit : Q)
    (yPosition : Z) (lookingForStartOfRenderBlock : bool) (s : VirtualListView) :
    VirtualListView :=
  match items with
  | [] => s
  | item :: items' =>
      let itemHeight := _getHeightOfItem s (Some item) in
      let yPosition := yPosition + itemHeight in
      let '(looking, s) :=
        placeItem props item itemIndex renderBlockTopLimit renderBlockBottomLimit
          itemHeight yPosition lookingForStartOfRenderBlock s in
      determineRenderBlock props items' (itemIndex + 1) renderBlockTopLimit
        renderBlockBottomLimit yPosition looking s
  end.

(** The three cumulative heights are recomputed from the counters. *)
Definition recomputeBlockHeights (props : Props) (s : VirtualListView) : VirtualListView :=
  let len := Z.of_nat (length (itemList props)) in
  let s := set_itemsBelowRenderBlock
             (len - _itemsAboveRenderBlock s - _itemsInRenderBlock s) s in
  let s := set_heightAboveRenderBlock
             (_calcHeightOfItems s props 0 (_itemsAboveRenderBlock s - 1)) s in
  let s := set_heightOfRenderBlock
             (_calcHeightOfItems s props (_itemsAboveRenderBlock s)
                (_itemsAboveRenderBlock s + _itemsInRenderBlock s - 1)) s in
  set_heightBelowRenderBlock
    (_calcHeightOfItems s props (_itemsAboveRenderBlock s + _itemsInRenderBlock s)
       (len - 1)) s.

(** The middle of [_handleItemListChange]: the limits of the render block
    and the third loop. *)
Definition determineRenderBlockBounds (props : Props) (s : VirtualListView) :
    VirtualListView :=
  let overdrawAmount := _calcOverdrawAmount s in
  let renderBlockTopLimit := (inject_Z (_lastScrollTop s) - overdrawAmount)%Q in
  let renderBlockBottomLimit :=
    (inject_Z (_lastScrollTop s) + inject_Z (_layoutHeight s) + overdrawAmount)%Q in
  let yPosition := _heightAboveRenderAdjustment s in
  determineRenderBlock props (itemList props) 0 renderBlockTopLimit
    renderBlockBottomLimit yPosition true
    (set_itemsInRenderBlock 0 (set_itemsAboveRenderBlock 0 s)).

(** The end of [_handleItemListChange]: pre-populate the container height. *)
Definition prepopulateContainerHeight (s : VirtualListView) : VirtualListView :=
  if _containerHeight s =? 0 then
    let h := _heightAboveRenderBlock s + _heightOfRenderBlock s
             + _heightBelowRenderBlock s in
    call (ContainerHeightSetValue h) (set_containerHeight h s)
  else s.

Definition _handleItemListChange (props : Props) (s : VirtualListView) : VirtualListView :=
  let '(newItemMap, s) := buildItemMap (itemList props) 0 ∅ s in
  let oldItems := itemList (_props s) in
  let s := stopTrackingDeleted oldItems 0 newItemMap s in
  let s := determineRenderBlockBounds props s in
  let s := set_itemMap newItemMap s in
  let s := recomputeBlockHeights props s in
  prepopulateContainerHeight s.

(** ** Recalculation of the rendered item state *)

(** First [while] of [_calcNewRenderedItemState]: cut items out of the top.
    Every iteration decrements [_itemsInRenderBlock], so the loop makes at
    most that many iterations; [fuel] is that bound. *)
Fixpoint cullFromTop (fuel : nat) (props : Props) (topCullLine : Q)
    (s : VirtualListView) : option VirtualListView :=
  match fuel with
  | O => Some s
  | S fuel =>
      if _itemsInRenderBlock s >? 0 then
        item ← itemAt props (_itemsAboveRenderBlock s);
        if negb (_isItemHeightKnown s item) then Some s
        else
          let itemHeight := _getHeightOfItem s (Some item) in
          if ZgeQ (_heightAboveRenderAdjustment s + _heightAboveRenderBlock s + itemHeight)
                  topCullLine
          then Some s
          else
            let s := set_itemsInRenderBlock (_itemsInRenderBlock s - 1) s in
            let s := set_heightOfRenderBlock (_heightOfRenderBlock s - itemHeight) s in
            let s := set_itemsAboveRenderBlock (_itemsAboveRenderBlock s + 1) s in
            let s := set_heightAboveRenderBlock (_heightAboveRenderBlock s + itemHeight) s in
            cullFromTop fuel props topCullLine (_recycleCell (ItemInfo.key item) s)
      else Some s
  end.

(** Second [while]: cut items out of the bottom. *)
Fixpoint cullFromBottom (fuel : nat) (props : Props) (bottomCullLine : Q)
    (s : VirtualListView) : option VirtualListView :=
  match fuel with
  | O => Some s
  | S fuel =>
      if _itemsInRenderBlock s >? 0 then
        item ← itemAt props (_itemsAboveRenderBlock s + _itemsInRenderBlock s - 1);
        if negb (_isItemHeightKnown s item) then Some s
        else
          let itemHeight := _getHeightOfItem s (Some item) in
          if ZleQ (_heightAboveRenderAdjustment s + _heightAboveRenderBlock s
                   + _heightOfRenderBlock s - itemHeight) bottomCullLine
          then Some s
          else
            let s := set_itemsInRenderBlock (_itemsInRenderBlock s - 1) s in
            let s := set_heightOfRenderBlock (_heightOfRenderBlock s - itemHeight) s in
            let s := set_itemsBelowRenderBlock (_itemsBelowRenderBlock s + 1) s in
            let s := set_heightBelowRenderBlock (_heightBelowRenderBlock s + itemHeight) s in
            cullFromBottom fuel props bottomCullLine (_recycleCell (ItemInfo.key item) s)
      else Some s
  end.

(** The [for] loop of the seed pass: the first item whose bottom edge lies
    below the top limit, with its index and the position of its bottom. *)
Fixpoint findFirstInRenderBlock (s : VirtualListView) (items : list ItemInfo.t) (i : Z)
    (yPosition : Z) (renderBlockTopLimit : Q) : option (Z * ItemInfo.t * Z) :=
  match items with
  | [] => None
  | item :: items' =>
      let itemHeight := _getHeightOfItem s (Some item) in
      let yPosition := yPosition + itemHeight in
      if ZgtQ yPosition renderBlockTopLimit then Some (i, item, yPosition)
      else findFirstInRenderBlock s items' (i + 1) yPosition renderBlockTopLimit
  end.

Definition seedRenderBlock (props : Props) (renderBlockTopLimit : Q)
    (s : VirtualListView) : VirtualListView :=
  let yPosition := _heightAboveRenderAdjustment s in
  let s := set_itemsAboveRenderBlock 0 s in
  let s :=
    match findFirstInRenderBlock s (itemList props) 0 yPosition renderBlockTopLimit with
    | Some (i, item, yPosition) =>
        let itemHeight := _getHeightOfItem s (Some item) in
        let s := set_itemsInRenderBlock 1 (set_itemsAboveRenderBlock i s) in
        awaitMeasurement item
          (_allocateCell (ItemInfo.key item) (ItemInfo.template item) i
             (negb (ItemInfo.measureHeight item)) (ItemInfo.height item)
             (yPosition - itemHeight) (_shouldShowItem s item) s)
    | None => s
    end in
  recomputeBlockHeights props s.

(** The [for] loop that repositions the [n] items of the render block not
    yet visited, [i] being the loop counter. It returns the final
    [yPosition]. *)
Fixpoint repositionItems (n : nat) (props : Props) (i : Z) (yPosition : Z)
    (s : VirtualListView) : option (Z * VirtualListView) :=
  match n with
  | O => Some (yPosition, s)
  | S n =>
      let itemIndex := _itemsAboveRenderBlock s + i in
      item ← itemAt props itemIndex;
      let s := _setCellTopAndVisibility (ItemInfo.key item) (_shouldShowItem s item)
                 yPosition (animateChanges (_props s)) s in
      let height := _getHeightOfItem s (Some item) in
      repositionItems n props (i + 1) (yPosition + height) s
  end.

(** The closure [buildItem]; its captured variables [topOfRenderBlockY] and
    [bottomOfRenderBlockY] are passed and returned. *)
Definition buildItem (props : Props) (itemIndex : Z) (above : bool)
    (topOfRenderBlockY bottomOfRenderBlockY : Z) (s : VirtualListView) :
    option (Z * Z * VirtualListView) :=
  item ← itemAt props itemIndex;
  let isHeightKnown := _isItemHeightKnown s item in
  let itemHeight := _getHeightOfItem s (Some item) in
  let s := set_itemsInRenderBlock (_itemsInRenderBlock s + 1) s in
  let s := set_heightOfRenderBlock (_heightOfRenderBlock s + itemHeight) s in
  let '(yPlacement, topOfRenderBlockY, bottomOfRenderBlockY, s) :=
    if above then
      let s := set_itemsAboveRenderBlock (_itemsAboveRenderBlock s - 1) s in
      let s := set_heightAboveRenderBlock (_heightAboveRenderBlock s - itemHeight) s in
      (topOfRenderBlockY - itemHeight, topOfRenderBlockY - itemHeight,
       bottomOfRenderBlockY, s)
    else
      let s := set_itemsBelowRenderBlock (_itemsBelowRenderBlock s - 1) s in
      let s := set_heightBelowRenderBlock (_heightBelowRenderBlock s - itemHeight) s in
      (bottomOfRenderBlockY, topOfRenderBlockY, bottomOfRenderBlockY + itemHeight, s) in
  let s :=
    if isHeightKnown then s
    else set_pendingMeasurements (_pendingMeasurements s ∪ {[ItemInfo.key item]}) s in
  let s := _allocateCell (ItemInfo.key item) (ItemInfo.template item) itemIndex
             (negb (ItemInfo.measureHeight item)) (ItemInfo.height item) yPlacement
             (_shouldShowItem s item) s in
  Some (topOfRenderBlockY, bottomOfRenderBlockY, s).

(** Third [while]: add items to the bottom of the render block. Every
    iteration decrements [_itemsBelowRenderBlock], which bounds the loop. *)
Fixpoint growAtBottom (fuel : nat) (props : Props) (renderBlockBottomLimit : Q)
    (topOfRenderBlockY bottomOfRenderBlockY : Z) (s : VirtualListView) :
    option (Z * Z * VirtualListView) :=
  match fuel with
  | O => Some (topOfRenderBlockY, bottomOfRenderBlockY, s)
  | S fuel =>
      if (size (_pendingMeasurements s) <? _maxSimultaneousMeasures)%nat then
        if (_itemsBelowRenderBlock s <=? 0)
           || ZgeQ (_heightAboveRenderAdjustment s + _heightAboveRenderBlock s
                    + _heightOfRenderBlock s) renderBlockBottomLimit
        then Some (topOfRenderBlockY, bottomOfRenderBlockY, s)
        else
          '(topY, bottomY, s) ←
            buildItem props (_itemsAboveRenderBlock s + _itemsInRenderBlock s) false
              topOfRenderBlockY bottomOfRenderBlockY s;
          growAtBottom fuel props renderBlockBottomLimit topY bottomY s
      else Some (topOfRenderBlockY, bottomOfRenderBlockY, s)
  end.

(** Fourth [while]: add items to the top of the render block. Every
    iteration decrements [_itemsAboveRenderBlock], which bounds the loop. *)
Fixpoint growAtTop (fuel : nat) (props : Props) (renderBlockTopLimit : Q)
    (topOfRenderBlockY bottomOfRenderBlockY : Z) (s : VirtualListView) :
    option (Z * Z * VirtualListView) :=
  match fuel with
  | O => Some (topOfRenderBlockY, bottomOfRenderBlockY, s)
  | S fuel =>
      if (size (_pendingMeasurements s) <? _maxSimultaneousMeasures)%nat then
        if (_itemsAboveRenderBlock s <=? 0)
           || ZleQ (_heightAboveRenderAdjustment s + _heightAboveRenderBlock s)
                   renderBlockTopLimit
        then Some (topOfRenderBlockY, bottomOfRenderBlockY, s)
        else
          '(topY, bottomY, s) ←
            buildItem props (_itemsAboveRenderBlock s - 1) true
              topOfRenderBlockY bottomOfRenderBlockY s;
          growAtTop fuel props renderBlockTopLimit topY bottomY s
      else Some (topOfRenderBlockY, bottomOfRenderBlockY, s)
  end.

(** The [for] loop of [_popInvisibleIntoView] over the [n] items not yet
    visited. *)
Fixpoint popItems (n : nat) (props : Props) (i : Z) (s : VirtualListView) :
    option VirtualListView :=
  match n with
  | O => Some s
  | S n =>
      item ← itemAt props (_itemsAboveRenderBlock s + i);
      cellInfo ← _activeCells s !! ItemInfo.key item;
      popItems n props (i + 1)
        (_setCellTopAndVisibility (ItemInfo.key item) (_shouldShowItem s item)
           (CellInfo.top cellInfo) false s)
  end.

Definition _popInvisibleIntoView (props : Props) (s : VirtualListView) :
    option VirtualListView :=
  let s := set_isInitialFillComplete true s in
  popItems (Z.to_nat (_itemsInRenderBlock s)) props 0 s.

Definition cullMargin (s : VirtualListView) : Q :=
  Qmax (inject_Z (_layoutHeight s) * _cullFraction s) (_minCullAmount s).

Definition _calcNewRenderedItemState (props : Props) (s : VirtualListView) :
    option VirtualListView :=
  if _layoutHeight s =? 0 then Some s
  else if (length (itemList props) =? 0)%nat then Some s
  else if (0 <? size (_pendingMeasurements s))%nat then Some s
  else
    let topCullLine := (inject_Z (_lastScrollTop s) - cullMargin s)%Q in
    let bottomCullLine :=
      (inject_Z (_lastScrollTop s) + inject_Z (_layoutHeight s) + cullMargin s)%Q in
    s ← cullFromTop (Z.to_nat (_itemsInRenderBlock s)) props topCullLine s;
    s ← cullFromBottom (Z.to_nat (_itemsInRenderBlock s)) props bottomCullLine s;
    let overdrawAmount := _calcOverdrawAmount s in
    let renderMargin := if _isInitialFillComplete s then overdrawAmount else 0%Q in
    let renderBlockTopLimit := (inject_Z (_lastScrollTop s) - renderMargin)%Q in
    let renderBlockBottomLimit :=
      (inject_Z (_lastScrollTop s) + inject_Z (_layoutHeight s) + renderMargin)%Q in
    let s :=
      if _itemsInRenderBlock s =? 0 then seedRenderBlock props renderBlockTopLimit s
      else s in
    let itemBlockHeight :=
      _heightAboveRenderAdjustment s + _heightAboveRenderBlock s
      + _heightOfRenderBlock s + _heightBelowRenderBlock s in
    let containerHeight := Z.max itemBlockHeight (_layoutHeight s) in
    let yPosition := _heightAboveRenderBlock s + _heightAboveRenderAdjustment s in
    let topOfRenderBlockY := yPosition in
    '(bottomOfRenderBlockY, s) ←
      repositionItems (Z.to_nat (_itemsInRenderBlock s)) props 0 yPosition s;
    let s :=
      if negb (containerHeight =? _containerHeight s) then
        call (ContainerHeightSetValue containerHeight)
          (set_containerHeight containerHeight s)
      else s in
    '(topOfRenderBlockY, bottomOfRenderBlockY, s) ←
      growAtBottom (Z.to_nat (_itemsBelowRenderBlock s)) props renderBlockBottomLimit
        topOfRenderBlockY bottomOfRenderBlockY s;
    '(_, _, s) ←
      growAtTop (Z.to_nat (_itemsAboveRenderBlock s)) props renderBlockTopLimit
        topOfRenderBlockY bottomOfRenderBlockY s;
    if negb (_isInitialFillComplete s) && negb (_isRenderDirty s)
       && (size (_pendingMeasurements s) =? 0)%nat
    then _componentDidRender <$> _popInvisibleIntoView props s
    else Some s.

(** ** Reconciliation of the accumulated height error *)

(** The [for] loop of [_reconcileCorrections] over the [n] items of the
    render block not yet visited, starting at index [i]. *)
Fixpoint shiftCells (n : nat) (props : Props) (i : Z) (s : VirtualListView) :
    option VirtualListView :=
  match n with
  | O => Some s
  | S n =>
      item ← itemAt props i;
      cell ← _activeCells s !! ItemInfo.key item;
      shiftCells n props (i + 1)
        (_setCellTopAndVisibility (ItemInfo.key item) (CellInfo.isVisible cell)
           (CellInfo.top cell - _heightAboveRenderAdjustment s) false s)
  end.

Definition _reconcileCorrections (props : Props) (s : VirtualListView) :
    option VirtualListView :=
  if (0 <? size (_pendingAnimations s))%nat then Some s
  else
    let maxFakeSpaceOffset := 0 in
    let maxFakeSpaceOffset :=
      if (_lastScrollTop s =? 0) || (_lastScrollTop s <? _heightAboveRenderAdjustment s)
      then 0 else maxFakeSpaceOffset in
    if Z.abs (_heightAboveRenderAdjustment s) >? maxFakeSpaceOffset then
      let newContainerHeight := _containerHeight s - _heightAboveRenderAdjustment s in
      let s := call (ContainerHeightSetValue newContainerHeight)
                 (set_containerHeight newContainerHeight s) in
      s ← shiftCells (Z.to_nat (_itemsInRenderBlock s)) props (_itemsAboveRenderBlock s) s;
      Some (set_heightAboveRenderAdjustment 0 s)
    else Some s.

(** ** Entry points *)

Definition _resizeAllItems (s : VirtualListView) : VirtualListView :=
  if (_layoutWidth s >? 0) && negb (_layoutWidth s =? _contentWidth s) then
    call ForceUpdate (set_contentWidth (_layoutWidth s) s)
  else s.

Definition _onLayoutContainer (width height : Z) (s : VirtualListView) :
    option VirtualListView :=
  if negb (_isMounted s) then Some s
  else
    let layoutWidth := width - padding (_props s) in
    let layoutHeight := height in
    let s :=
      if negb (layoutWidth =? _layoutWidth s) then
        _resizeAllItems (set_layoutWidth layoutWidth s)
      else s in
    if negb (layoutHeight =? _layoutHeight s) then
      let s := set_layoutHeight layoutHeight s in
      s ← _calcNewRenderedItemState (_props s) s;
      let s := _renderIfDirty s in
      _reconcileCorrections (_props s) s
    else Some s.

(** The [for] loop of [_onLayoutItem] that looks for a visible item before
    the measured one; [n] bounds the indices left to visit. *)
Fixpoint foundVisibleItemBefore (n : nat) (s : VirtualListView) (i : Z) (itemIndex : Z) :
    option bool :=
  match n with
  | O => Some false
  | S n =>
      item ← itemAt (_props s) i;
      if _isCellVisible s (ItemInfo.key item) then Some true
      else if i =? itemIndex then Some false
      else foundVisibleItemBefore n s (i + 1) itemIndex
  end.

Definition _onLayoutItem (itemKey : string) (newHeight : Z) (s : VirtualListView) :
    option VirtualListView :=
  if negb (_isMounted s) then Some s
  else
    match _itemMap s !! itemKey with
    | None => Some s
    | Some itemIndex =>
        let itemIndex := Z.of_nat itemIndex in
        let item := itemAt (_props s) itemIndex in
        let oldHeight := _getHeightOfItem s item in
        item ← item;
        if negb (ItemInfo.measureHeight item) then Some s
        else
          let s := set_heightCache (<[itemKey := newHeight]> (_heightCache s)) s in
          if (itemIndex <? _itemsAboveRenderBlock s)
             || (itemIndex >=? _itemsAboveRenderBlock s + _itemsInRenderBlock s)
          then Some s
          else
            '(needsRecalc, s) ←
              (if negb (oldHeight =? newHeight) then
                 let s := set_heightOfRenderBlock
                            (_heightOfRenderBlock s + (newHeight - oldHeight)) s in
                 if _isInitialFillComplete s then
                   found ← foundVisibleItemBefore (Z.to_nat (_itemsInRenderBlock s)) s
                              (_itemsAboveRenderBlock s) itemIndex;
                   if negb found then
                     Some (true,
                           set_heightAboveRenderAdjustment
                             (_heightAboveRenderAdjustment s + (oldHeight - newHeight)) s)
                   else Some (true, s)
                 else Some (true, s)
               else Some (false, s));
            let s := set_pendingMeasurements (_pendingMeasurements s ∖ {[itemKey]}) s in
            let needsRecalc := needsRecalc || (size (_pendingMeasurements s) =? 0)%nat in
            s ← (if needsRecalc then
                   _renderIfDirty <$> _calcNewRenderedItemState (_props s) s
                 else Some s);
            _reconcileCorrections (_props s) s
    end.

Definition _onAnimateStartStopItem (itemKey : string) (animateStart : bool)
    (s : VirtualListView) : VirtualListView :=
  if _isMounted s then
    if animateStart then
      set_pendingAnimations (_pendingAnimations s ∪ {[itemKey]}) s
    else
      defer AfterAnimationStop
        (set_pendingAnimations (_pendingAnimations s ∖ {[itemKey]}) s)
  else s.

Definition _onScroll (scrollTop scrollLeft : Z) (s : VirtualListView) :
    option VirtualListView :=
  if _lastScrollTop s =? scrollTop then Some s
  else
    let s := set_lastScrollTop scrollTop s in
    s ← _calcNewRenderedItemState (_props s) s;
    let s := _renderIfDirty s in
    _reconcileCorrections (_props s) s.

Definition _onItemFocused (itemInfo : option ItemInfo.t) (s : VirtualListView) :
    VirtualListView :=
  match itemInfo with
  | Some itemInfo =>
      set_state {| lastFocusedItemKey := Some (ItemInfo.key itemInfo); isFocused := true;
                   selectedItemKey := selectedItemKey (_state s) |} s
  | None =>
      set_state {| lastFocusedItemKey := lastFocusedItemKey (_state s); isFocused := false;
                   selectedItemKey := selectedItemKey (_state s) |} s
  end.

Definition selectItemKey (key : string) (scrollToItem : bool) (s : VirtualListView) :
    VirtualListView :=
  let s := set_state {| lastFocusedItemKey := Some key; isFocused := isFocused (_state s);
                        selectedItemKey := Some key |} s in
  if scrollToItem then _scrollToItemKey key s else s.

Definition _onItemSelected (itemInfo : ItemInfo.t) (s : VirtualListView) :
    VirtualListView :=
  selectItemKey (ItemInfo.key itemInfo) false s.

(** [_onKeyDown] for an arrow key, named by its direction. *)
Definition _onKeyDown (direction : FocusDirection) (s : VirtualListView) :
    VirtualListView :=
  if _isMounted s then snd (_focusSubsequentItem direction true true s) else s.

Definition _setupForAccessibility (s : VirtualListView) : VirtualListView :=
  let s := set_isScreenReaderEnabled true s in
  if _isNativeIOS (_platform s) || _isNativeAndroid (_platform s) then
    let s :=
      if (0 <? length (_recycledCells s))%nat then
        set_isRenderDirty true (set_recycledCells [] s)
      else s in
    set_maxRecycledCells _maxRecycledCellsForAccessibility s
  else s.

Definition _tearDownForAccessibility (s : VirtualListView) : VirtualListView :=
  let s := set_isScreenReaderEnabled false s in
  if _isNativeIOS (_platform s) || _isNativeAndroid (_platform s) then
    set_maxRecycledCells _maxRecycledCellsDefault s
  else s.

Definition _screenReaderStateChanged (isEnabled : bool) (s : VirtualListView) :
    VirtualListView :=
  if isEnabled then
    let s := _setupForAccessibility s in
    let s := if _isNativeAndroid (_platform s) then set_isRenderDirty true s else s in
    _renderIfDirty s
  else _tearDownForAccessibility s.

Definition _updateStateFromProps (props : Props) (initialBuild : bool)
    (s : VirtualListView) : option VirtualListView :=
  let s :=
    if initialBuild && skipRenderIfItemUnchanged props then
      set_minCullAmount 3072%Q
        (set_cullFraction 6%Q
           (set_maxOverdrawAmount 4096%Q
              (set_minOverdrawAmount 2048%Q (set_renderOverdrawFactor 5%Q s))))
    else s in
  s ← (if initialBuild || negb (bool_decide (itemList (_props s) = itemList props)) then
         _calcNewRenderedItemState props (_handleItemListChange props s)
       else Some s);
  Some (_renderIfDirty s).

(** [_.some(props.itemList, item => item.key === key)]. *)
Definition someItemHasKey (props : Props) (key : option string) : bool :=
  match key with
  | Some key => existsb (fun item => String.eqb (ItemInfo.key item) key) (itemList props)
  | None => false
  end.

(** The instance fields as the constructor initialises them; [this.props]
    is already the constructor's argument. *)
Definition newView (platform : Platform) (props : Props) : VirtualListView :=
  {| _platform := platform;
     _props := props;
     _state := {| lastFocusedItemKey := None; isFocused := false;
                  selectedItemKey := None |};
     _lastScrollTop := 0;
     _layoutHeight := 0;
     _layoutWidth := 0;
     _contentWidth := -1;
     _isMounted := false;
     _containerHeight := 0;
     _itemMap := ∅;
     _isRenderDirty := false;
     _pendingAnimations := ∅;
     _heightAboveRenderAdjustment := 0;
     _heightAboveRenderBlock := 0;
     _heightOfRenderBlock := 0;
     _heightBelowRenderBlock := 0;
     _itemsAboveRenderBlock := 0;
     _itemsInRenderBlock := 0;
     _itemsBelowRenderBlock := 0;
     _pendingMeasurements := ∅;
     _isInitialFillComplete := false;
     _heightCache := ∅;
     _nextCellKey := 1;
     _activeCells := ∅;
     _recycledCells := [];
     _navigatableItemsRendered := [];
     _pendingFocusDirection := None;
     _maxRecycledCells := _maxRecycledCellsDefault;
     _isScreenReaderEnabled := false;
     _renderOverdrawFactor := 0.5%Q;
     _minOverdrawAmount := 512%Q;
     _maxOverdrawAmount := 4096%Q;
     _cullFraction := 1%Q;
     _minCullAmount := (512 * 2)%Q;
     _deferred := [];
     _hostCalls := [] |}.

Definition constructor (platform : Platform) (props : Props) : option VirtualListView :=
  s ← _updateStateFromProps props true (newView platform props);
  let selected :=
    if someItemHasKey props (initialSelectedKey props) then initialSelectedKey props
    else None in
  Some (set_state {| lastFocusedItemKey := selected; isFocused := false;
                     selectedItemKey := selected |} s).

(** React sets [this.props] to [nextProps] once the method has returned. *)
Definition UNSAFE_componentWillReceiveProps (nextProps : Props) (s : VirtualListView) :
    option VirtualListView :=
  s ← (if negb (bool_decide (_props s = nextProps))
       then _updateStateFromProps nextProps false s else Some s);
  Some (set_props nextProps s).

(** [nextProps] is [this.props] here, see above. *)
Definition UNSAFE_componentWillUpdate (s : VirtualListView) : VirtualListView :=
  let keep (k : option string) :=
    if truthy k && negb (someItemHasKey (_props s) k) then None else k in
  set_state {| lastFocusedItemKey := keep (lastFocusedItemKey (_state s));
               isFocused := isFocused (_state s);
               selectedItemKey := keep (selectedItemKey (_state s)) |} s.

(** The first loop of [render]: the cells of the render block, by index,
    and the navigable items among them. React mounts the cell it is given
    and resets [shouldUpdate]. *)
Fixpoint renderBlockCells (n : nat) (i : Z) (s : VirtualListView) :
    option VirtualListView :=
  match n with
  | O => Some s
  | S n =>
      item ← itemAt (_props s) (_itemsAboveRenderBlock s + i);
      virtualCellInfo ← _activeCells s !! ItemInfo.key item;
      let s :=
        if ItemInfo.isNavigable item then
          set_navigatableItemsRendered
            (_navigatableItemsRendered s
             ++ [(ItemInfo.key item, CellInfo.virtualKey virtualCellInfo)]) s
        else s in
      let rendered :=
        CellInfo.setShouldUpdate false
          (CellInfo.setCellRef
             (Some {| CellInfo.propsItemKey := Some (ItemInfo.key item) |})
             virtualCellInfo) in
      renderBlockCells n (i + 1)
        (set_activeCells (<[ItemInfo.key item := rendered]> (_activeCells s)) s)
  end.

Definition render (s : VirtualListView) : option VirtualListView :=
  let s := set_navigatableItemsRendered [] s in
  s ← renderBlockCells (Z.to_nat (_itemsInRenderBlock s)) 0 s;
  let recycled (c : VirtualCellInfo) :=
    CellInfo.setShouldUpdate false
      (CellInfo.setCellRef (Some {| CellInfo.propsItemKey := None |}) c) in
  Some (set_recycledCells (recycled <$> _recycledCells s) s).

Definition componentDidMount (screenReaderEnabled : bool) (s : VirtualListView) :
    VirtualListView :=
  let s := if screenReaderEnabled then _setupForAccessibility s else s in
  let s := set_isMounted true s in
  let s := _componentDidRender s in
  match initialSelectedKey (_props s) with
  | Some k => if negb (String.eqb k "") then _scrollToItemKey k s else s
  | None => s
  end.

Definition componentWillUnmount (s : VirtualListView) : VirtualListView :=
  set_isMounted false s.

Definition componentDidUpdate (s : VirtualListView) : VirtualListView :=
  _componentDidRender s.

Definition _setFocusIfNeeded (s : VirtualListView) : VirtualListView :=
  match _pendingFocusDirection s with
  | Some direction =>
      set_pendingFocusDirection None (snd (_focusSubsequentItem direction false false s))
  | None => s
  end.

(** The closure deferred by [_componentDidRender]. *)
Definition afterRender (s : VirtualListView) : option VirtualListView :=
  if _isMounted s then
    s ← _calcNewRenderedItemState (_props s) s;
    let s := _renderIfDirty s in
    s ← _reconcileCorrections (_props s) s;
    Some (_setFocusIfNeeded s)
  else Some s.

(** The closure deferred by [_onAnimateStartStopItem]. *)
Definition afterAnimationStop (s : VirtualListView) : option VirtualListView :=
  if _isMounted s then
    if (size (_pendingAnimations s) =? 0)%nat && _isMounted s then
      _reconcileCorrections (_props s) s
    else Some s
  else Some s.

(** ** Events *)

(** What can happen to a constructed view: React's life cycle, the
    callbacks of the host, and the event loop running a deferred task. *)
Inductive Event :=
| Mount (screenReaderEnabled : bool)
| ReceiveProps (nextProps : Props)
| Render
| Unmount
| LayoutContainer (width height : Z)
| LayoutItem (itemKey : string) (newHeight : Z)
| AnimateStartStopItem (itemKey : string) (animateStart : bool)
| Scroll (scrollTop scrollLeft : Z)
| ItemFocused (itemInfo : option ItemInfo.t)
| ItemSelected (itemInfo : ItemInfo.t)
| KeyDown (direction : FocusDirection)
| ScreenReaderStateChanged (isEnabled : bool)
| RunDeferred.

Definition handle (e : Event) (s : VirtualListView) : option VirtualListView :=
  match e with
  | Mount screenReaderEnabled => componentDidMount screenReaderEnabled <$> render s
  | ReceiveProps nextProps =>
      UNSAFE_componentWillUpdate <$> UNSAFE_componentWillReceiveProps nextProps s
  | Render => componentDidUpdate <$> render s
  | Unmount => Some (componentWillUnmount s)
  | LayoutContainer width height => _onLayoutContainer width height s
  | LayoutItem itemKey newHeight => _onLayoutItem itemKey newHeight s
  | AnimateStartStopItem itemKey animateStart =>
      Some (_onAnimateStartStopItem itemKey animateStart s)
  | Scroll scrollTop scrollLeft => _onScroll scrollTop scrollLeft s
  | ItemFocused itemInfo => Some (_onItemFocused itemInfo s)
  | ItemSelected itemInfo => Some (_onItemSelected itemInfo s)
  | KeyDown direction => Some (_onKeyDown direction s)
  | ScreenReaderStateChanged isEnabled => Some (_screenReaderStateChanged isEnabled s)
  | RunDeferred =>
      match _deferred s with
      | [] => Some s
      | task :: rest =>
          let s := set_deferred rest s in
          match task with
          | AfterRender => afterRender s
          | AfterAnimationStop => afterAnimationStop s
          end
      end
  end.

(** A run of the view: the handlers of the events, in order. *)
Fixpoint run (events : list Event) (s : VirtualListView) : option VirtualListView :=
  match events with
  | [] => Some s
  | e :: events' => s ← handle e s; run events' s
  end.

(** * Frame properties *)

(** The cell-management methods write five fields only. *)
Definition withCells (ac : gmap string VirtualCellInfo) (rc : list VirtualCellInfo)
    (nk : nat) (d : bool) (hc : list HostCall) (s : VirtualListView) : VirtualListView :=
  set_activeCells ac (set_recycledCells rc (set_nextCellKey nk
    (set_isRenderDirty d (set_hostCalls hc s)))).

Definition cellsOnly (s s' : VirtualListView) : Prop :=
  ∃ ac rc nk d hc, s' = withCells ac rc nk d hc s.

Lemma cellsOnly_refl s : cellsOnly s s.
Proof.
  exists (_activeCells s), (_recycledCells s), (_nextCellKey s), (_isRenderDirty s),
    (_hostCalls s).
  by destruct s.
Qed.

Lemma cellsOnly_trans s1 s2 s3 : cellsOnly s1 s2 → cellsOnly s2 s3 → cellsOnly s1 s3.
Proof.
  intros (ac & rc & nk & d & hc & ->) (ac' & rc' & nk' & d' & hc' & ->).
  by exists ac', rc', nk', d', hc'.
Qed.

Lemma cellsOnly_activeCells v s : cellsOnly s (set_activeCells v s).
Proof.
  exists v, (_recycledCells s), (_nextCellKey s), (_isRenderDirty s), (_hostCalls s).
  by destruct s.
Qed.
Lemma cellsOnly_recycledCells v s : cellsOnly s (set_recycledCells v s).
Proof.
  exists (_activeCells s), v, (_nextCellKey s), (_isRenderDirty s), (_hostCalls s).
  by destruct s.
Qed.
Lemma cellsOnly_nextCellKey v s : cellsOnly s (set_nextCellKey v s).
Proof.
  exists (_activeCells s), (_recycledCells s), v, (_isRenderDirty s), (_hostCalls s).
  by destruct s.
Qed.
Lemma cellsOnly_isRenderDirty v s : cellsOnly s (set_isRenderDirty v s).
Proof.
  exists (_activeCells s), (_recycledCells s), (_nextCellKey s), v, (_hostCalls s).
  by destruct s.
Qed.
Lemma cellsOnly_call c s : cellsOnly s (call c s).
Proof.
  exists (_activeCells s), (_recycledCells s), (_nextCellKey s), (_isRenderDirty s),
    (_hostCalls s ++ [c]).
  by destruct s.
Qed.

Create HintDb frame discriminated.
#[local] Hint Resolve cellsOnly_activeCells cellsOnly_recycledCells cellsOnly_nextCellKey
  cellsOnly_isRenderDirty cellsOnly_call : frame.

(** [frame] peels the writes off the right-hand state one at a time. *)
Ltac frame :=
  lazymatch goal with
  | |- cellsOnly ?s ?s => apply cellsOnly_refl
  | |- cellsOnly ?s (?g ?x) =>
      apply (cellsOnly_trans s x); [frame | solve [auto with frame]]
  end.

Lemma setCellTopAndVisibility_cellsOnly k v y a s :
  cellsOnly s (_setCellTopAndVisibility k v y a s).
Proof.
  unfold _setCellTopAndVisibility.
  destruct (_activeCells s !! k) as [c|]; [|frame].
  destruct (CellInfo.cellRef c); frame.
Qed.
#[local] Hint Resolve setCellTopAndVisibility_cellsOnly : frame.

Lemma allocateCell_cellsOnly k t i c h y v s :
  cellsOnly s (_allocateCell k t i c h y v s).
Proof.
  unfold _allocateCell.
  destruct (existingCell s k t c h) as [[newCell pool]|]; [|frame].
  destruct (CellInfo.cellRef newCell); frame.
Qed.
#[local] Hint Resolve allocateCell_cellsOnly : frame.

Lemma recycleCell_cellsOnly k s : cellsOnly s (_recycleCell k s).
Proof.
  unfold _recycleCell.
  destruct (_activeCells s !! k) as [c|]; [|frame].
  destruct (_maxRecycledCells s >? 0); [|frame].
  destruct (truthy (CellInfo.itemTemplate c) && CellInfo.isHeightConstant c); [|frame].
  match goal with |- context [if ?b then _ else _] => destruct b end; frame.
Qed.
#[local] Hint Resolve recycleCell_cellsOnly : frame.

Lemma recycleIfActive_cellsOnly k s : cellsOnly s (recycleIfActive k s).
Proof. unfold recycleIfActive. destruct (_ !! _); frame. Qed.
#[local] Hint Resolve recycleIfActive_cellsOnly : frame.

Lemma markShouldUpdate_cellsOnly k s : cellsOnly s (markShouldUpdate k s).
Proof. unfold markShouldUpdate. destruct (_ !! _); frame. Qed.
#[local] Hint Resolve markShouldUpdate_cellsOnly : frame.

(** The counters and what they are measured against. *)
Definition bookkeeping (s : VirtualListView) :=
  (_props s, _itemsAboveRenderBlock s, _itemsInRenderBlock s, _itemsBelowRenderBlock s,
   _heightAboveRenderBlock s, _heightOfRenderBlock s, _heightBelowRenderBlock s,
   _heightCache s, _itemMap s).

Lemma cellsOnly_bookkeeping s s' : cellsOnly s s' → bookkeeping s' = bookkeeping s.
Proof. by intros (ac & rc & nk & d & hc & ->). Qed.

Lemma bookkeeping_props s s' : bookkeeping s' = bookkeeping s → _props s' = _props s.
Proof. unfold bookkeeping. congruence. Qed.

(** Case analysis on the [if] and [match] heads of a goal that compares
    the bookkeeping of two states. *)
Ltac split_cases :=
  repeat match goal with
         | |- context [if ?b then _ else _] => destruct b
         | |- context [match ?o with Some _ => _ | None => _ end] => destruct o
         | |- context [let '(_, _) := ?p in _] => destruct p
         end.

Lemma scrollToTop_bookkeeping a y s : bookkeeping (scrollToTop a y s) = bookkeeping s.
Proof. unfold scrollToTop. by split_cases. Qed.

Lemma scrollToItemKey_bookkeeping k s : bookkeeping (_scrollToItemKey k s) = bookkeeping s.
Proof.
  unfold _scrollToItemKey, _scrollToItemIndex. destruct (lastIndexOfKey _ _ _ _); [|done].
  apply scrollToTop_bookkeeping.
Qed.

Lemma focusSubsequentItem_bookkeeping d v r s :
  bookkeeping (snd (_focusSubsequentItem d v r s)) = bookkeeping s.
Proof.
  unfold _focusSubsequentItem.
  destruct (match findIndex _ _ with Some _ => _ | None => _ end) as [[k vk]|].
  - simpl. destruct (_activeCells s !! k) as [c|]; [|done].
    destruct (CellInfo.cellRef c) as [m|]; [|done].
    destruct (CellInfo.propsItemKey m); [|done].
    destruct (_ && _); [|done]. by rewrite scrollToItemKey_bookkeeping.
  - destruct (findIndex _ _); [done|]. destruct (lastFocusedItemKey _); [|done].
    destruct r; [|done]. destruct (_itemMap s !! _); [|done].
    simpl. unfold bookkeeping; simpl. fold (bookkeeping (scrollToTop false
      (if (n =? 0)%nat then 0 else _calcHeightOfItems s (_props s) 0 (Z.of_nat n - 1)) s)).
    apply scrollToTop_bookkeeping.
Qed.

Lemma renderIfDirty_bookkeeping s : bookkeeping (_renderIfDirty s) = bookkeeping s.
Proof. unfold _renderIfDirty. by split_cases. Qed.

Lemma componentDidRender_bookkeeping s :
  bookkeeping (_componentDidRender s) = bookkeeping s.
Proof. done. Qed.

Lemma setFocusIfNeeded_bookkeeping s : bookkeeping (_setFocusIfNeeded s) = bookkeeping s.
Proof.
  unfold _setFocusIfNeeded. destruct (_pendingFocusDirection s) as [d|]; [|done].
  apply (focusSubsequentItem_bookkeeping d false false s).
Qed.

(** * The counters of the render block *)

Definition blockCountersSum (s : VirtualListView) : Z :=
  _itemsAboveRenderBlock s + _itemsInRenderBlock s + _itemsBelowRenderBlock s.

(** What recalculation reads and never writes. *)
Definition calcInputs (s : VirtualListView) :=
  (_platform s, _props s, _state s, _lastScrollTop s, _layoutHeight s, _isMounted s,
   _itemMap s, _pendingAnimations s, _heightAboveRenderAdjustment s, _heightCache s,
   _maxRecycledCells s, _isScreenReaderEnabled s,
   (_renderOverdrawFactor s, _minOverdrawAmount s, _maxOverdrawAmount s,
    _cullFraction s, _minCullAmount s)).

Lemma calcInputs_props s s' : calcInputs s' = calcInputs s → _props s' = _props s.
Proof. unfold calcInputs. congruence. Qed.

Lemma cellsOnly_calcInputs s s' : cellsOnly s s' → calcInputs s' = calcInputs s.
Proof. by intros (ac & rc & nk & d & hc & ->). Qed.

(** What a step of recalculation may do to the counters: keep their sum,
    and leave the inputs alone. *)
Definition keepsSum (s s' : VirtualListView) : Prop :=
  blockCountersSum s' = blockCountersSum s ∧ calcInputs s' = calcInputs s.

Lemma keepsSum_refl s : keepsSum s s.
Proof. done. Qed.

Lemma keepsSum_trans s1 s2 s3 : keepsSum s1 s2 → keepsSum s2 s3 → keepsSum s1 s3.
Proof. unfold keepsSum. intros [-> ->] [-> ->]. done. Qed.

Lemma cellsOnly_keepsSum s s' : cellsOnly s s' → keepsSum s s'.
Proof. by intros (ac & rc & nk & d & hc & ->). Qed.

(** Rewrites the result of a cell-management call that heads a hypothesis
    into the five writes it amounts to. *)
Ltac expose_cells H :=
  match type of H with
  | context [_recycleCell ?k ?x] =>
      let E := fresh "E" in
      destruct (recycleCell_cellsOnly k x) as (? & ? & ? & ? & ? & E); rewrite E in H
  | context [_allocateCell ?k ?t ?i ?c ?h ?y ?v ?x] =>
      let E := fresh "E" in
      destruct (allocateCell_cellsOnly k t i c h y v x) as (? & ? & ? & ? & ? & E);
      rewrite E in H
  | context [_setCellTopAndVisibility ?k ?v ?y ?a ?x] =>
      let E := fresh "E" in
      destruct (setCellTopAndVisibility_cellsOnly k v y a x) as (? & ? & ? & ? & ? & E);
      rewrite E in H
  end.

Lemma cullFromTop_keepsSum fuel props line s s' :
  cullFromTop fuel props line s = Some s' → keepsSum s s'.
Proof.
  revert s. induction fuel as [|fuel IH]; intros s; simpl.
  { by intros [= ->]. }
  destruct (_itemsInRenderBlock s >? 0); [|by intros [= ->]].
  destruct (itemAt props _) as [item|]; [simpl|done].
  destruct (negb _); [by intros [= ->]|].
  destruct (ZgeQ _ _); [by intros [= ->]|].
  intros H%IH. expose_cells H.
  unfold keepsSum, blockCountersSum in *. simpl in H. split; [lia|apply H].
Qed.

Lemma cullFromBottom_keepsSum fuel props line s s' :
  cullFromBottom fuel props line s = Some s' → keepsSum s s'.
Proof.
  revert s. induction fuel as [|fuel IH]; intros s; simpl.
  { by intros [= ->]. }
  destruct (_itemsInRenderBlock s >? 0); [|by intros [= ->]].
  destruct (itemAt props _) as [item|]; [simpl|done].
  destruct (negb _); [by intros [= ->]|].
  destruct (ZleQ _ _); [by intros [= ->]|].
  intros H%IH. expose_cells H.
  unfold keepsSum, blockCountersSum in *. simpl in H. split; [lia|apply H].
Qed.

Lemma awaitMeasurement_bookkeeping item s :
  bookkeeping (awaitMeasurement item s) = bookkeeping s.
Proof. unfold awaitMeasurement. by destruct (_isItemHeightKnown s item). Qed.

Lemma awaitMeasurement_calcInputs item s :
  calcInputs (awaitMeasurement item s) = calcInputs s.
Proof. unfold awaitMeasurement. by destruct (_isItemHeightKnown s item). Qed.

Lemma recomputeBlockHeights_sum props s :
  blockCountersSum (recomputeBlockHeights props s) = Z.of_nat (length (itemList props))
  ∧ calcInputs (recomputeBlockHeights props s) = calcInputs s.
Proof. unfold blockCountersSum. simpl. split; [lia|done]. Qed.

Lemma seedRenderBlock_sum props limit s :
  blockCountersSum (seedRenderBlock props limit s) = Z.of_nat (length (itemList props))
  ∧ calcInputs (seedRenderBlock props limit s) = calcInputs s.
Proof.
  unfold seedRenderBlock.
  match goal with
  | |- context [recomputeBlockHeights props ?x] =>
      destruct (recomputeBlockHeights_sum props x) as [H1 H2]
  end.
  split; [exact H1|]. rewrite H2.
  destruct (findFirstInRenderBlock _ _ _ _ _) as [[[i item] y]|]; [|done].
  rewrite awaitMeasurement_calcInputs.
  by rewrite (cellsOnly_calcInputs _ _ (allocateCell_cellsOnly _ _ _ _ _ _ _ _)).
Qed.

Lemma repositionItems_cellsOnly n props i y s y' s' :
  repositionItems n props i y s = Some (y', s') → cellsOnly s s'.
Proof.
  revert i y s. induction n as [|n IH]; intros i y s; simpl.
  { intros [= _ ->]. apply cellsOnly_refl. }
  destruct (itemAt props _) as [item|]; [simpl|done].
  intros H%IH. eapply cellsOnly_trans; [|exact H]. auto with frame.
Qed.

Lemma buildItem_keepsSum props idx above topY bottomY s topY' bottomY' s' :
  buildItem props idx above topY bottomY s = Some (topY', bottomY', s') → keepsSum s s'.
Proof.
  unfold buildItem. destruct (itemAt props idx) as [item|]; [simpl|done].
  destruct above, (_isItemHeightKnown s item); intros [= _ _ <-];
    (eapply keepsSum_trans; [|apply cellsOnly_keepsSum; auto with frame]);
    unfold keepsSum, blockCountersSum; simpl; split; (lia || done).
Qed.

Lemma growAtBottom_keepsSum fuel props limit topY bottomY s topY' bottomY' s' :
  growAtBottom fuel props limit topY bottomY s = Some (topY', bottomY', s') →
  keepsSum s s'.
Proof.
  revert topY bottomY s. induction fuel as [|fuel IH]; intros topY bottomY s; simpl.
  { by intros [= _ _ ->]. }
  destruct (_ <? _)%nat; [|by intros [= _ _ ->]].
  destruct (_ || _); [by intros [= _ _ ->]|].
  destruct (buildItem _ _ _ _ _ _) as [[[t b] s1]|] eqn:E; [simpl|done].
  intros H%IH. eapply keepsSum_trans; [|exact H]. by eapply buildItem_keepsSum.
Qed.

Lemma growAtTop_keepsSum fuel props limit topY bottomY s topY' bottomY' s' :
  growAtTop fuel props limit topY bottomY s = Some (topY', bottomY', s') →
  keepsSum s s'.
Proof.
  revert topY bottomY s. induction fuel as [|fuel IH]; intros topY bottomY s; simpl.
  { by intros [= _ _ ->]. }
  destruct (_ <? _)%nat; [|by intros [= _ _ ->]].
  destruct (_ || _); [by intros [= _ _ ->]|].
  destruct (buildItem _ _ _ _ _ _) as [[[t b] s1]|] eqn:E; [simpl|done].
  intros H%IH. eapply keepsSum_trans; [|exact H]. by eapply buildItem_keepsSum.
Qed.

Lemma popItems_cellsOnly n props i s s' :
  popItems n props i s = Some s' → cellsOnly s s'.
Proof.
  revert i s. induction n as [|n IH]; intros i s; simpl.
  { intros [= ->]. apply cellsOnly_refl. }
  destruct (itemAt props _) as [item|]; [simpl|done].
  destruct (_activeCells s !! _) as [c|]; [simpl|done].
  intros H%IH. eapply cellsOnly_trans; [|exact H]. auto with frame.
Qed.

Lemma popInvisibleIntoView_keepsSum props s s' :
  _popInvisibleIntoView props s = Some s' → keepsSum s s'.
Proof.
  unfold _popInvisibleIntoView. intros H%popItems_cellsOnly%cellsOnly_keepsSum.
  eapply keepsSum_trans; [|exact H]. done.
Qed.

(** Recalculation against [props] leaves the counters adding up to the
    length of [props.itemList] when they did so before. *)
Lemma calcNewRenderedItemState_sum props s s' :
  blockCountersSum s = Z.of_nat (length (itemList props)) →
  _calcNewRenderedItemState props s = Some s' →
  blockCountersSum s' = Z.of_nat (length (itemList props))
  ∧ calcInputs s' = calcInputs s.
Proof.
  intros Hs. unfold _calcNewRenderedItemState.
  destruct (_layoutHeight s =? 0); [by intros [= <-]|].
  destruct (_ =? _)%nat; [by intros [= <-]|].
  destruct (_ <? _)%nat; [by intros [= <-]|].
  destruct (cullFromTop _ _ _ _) as [s1|] eqn:E1; [simpl|done].
  destruct (cullFromBottom _ _ _ _) as [s2|] eqn:E2; [simpl|done].
  apply cullFromTop_keepsSum in E1 as [E1 P1].
  apply cullFromBottom_keepsSum in E2 as [E2 P2].
  set (s3 := if _itemsInRenderBlock s2 =? 0 then _ else s2).
  assert (blockCountersSum s3 = Z.of_nat (length (itemList props))
          ∧ calcInputs s3 = calcInputs s) as [E3 P3].
  { subst s3. destruct (_itemsInRenderBlock s2 =? 0).
    - destruct (seedRenderBlock_sum props
        (inject_Z (_lastScrollTop s2)
         - (if _isInitialFillComplete s2 then _calcOverdrawAmount s2 else 0))%Q s2) as [-> ->].
      split; congruence.
    - split; congruence. }
  clearbody s3.
  destruct (repositionItems _ _ _ _ _) as [[y4 s4]|] eqn:E4; [simpl|done].
  apply repositionItems_cellsOnly, cellsOnly_keepsSum in E4 as [E4 P4].
  set (s5 := if negb _ then _ else s4).
  assert (keepsSum s4 s5) as [E5 P5] by (subst s5; by destruct (negb _)).
  clearbody s5.
  destruct (growAtBottom _ _ _ _ _ _) as [[[t6 b6] s6]|] eqn:E6; [simpl|done].
  apply growAtBottom_keepsSum in E6 as [E6 P6].
  destruct (growAtTop _ _ _ _ _ _) as [[[t7 b7] s7]|] eqn:E7; [simpl|done].
  apply growAtTop_keepsSum in E7 as [E7 P7].
  destruct (_ && _).
  - destruct (_popInvisibleIntoView props s7) as [s8|] eqn:E8; [simpl|done].
    apply popInvisibleIntoView_keepsSum in E8 as [E8 P8].
    intros [= <-]. unfold blockCountersSum, calcInputs in *. simpl. split; congruence.
  - intros [= <-]. split; congruence.
Qed.

Lemma bookkeeping_sum s s' :
  bookkeeping s' = bookkeeping s → blockCountersSum s' = blockCountersSum s.
Proof. unfold bookkeeping, blockCountersSum. intros [=]. congruence. Qed.

Lemma bookkeeping_itemMap s s' : bookkeeping s' = bookkeeping s → _itemMap s' = _itemMap s.
Proof. unfold bookkeeping. congruence. Qed.

Lemma prepopulateContainerHeight_bookkeeping s :
  bookkeeping (prepopulateContainerHeight s) = bookkeeping s.
Proof. unfold prepopulateContainerHeight. by destruct (_ =? 0). Qed.

Lemma handleItemListChange_sum props s :
  blockCountersSum (_handleItemListChange props s) = Z.of_nat (length (itemList props)).
Proof.
  unfold _handleItemListChange.
  destruct (buildItemMap _ _ _ _) as [newItemMap s1]. cbv zeta.
  rewrite (bookkeeping_sum _ _ (prepopulateContainerHeight_bookkeeping _)).
  apply recomputeBlockHeights_sum.
Qed.

Lemma buildItemMap_props items i m s : _props (snd (buildItemMap items i m s)) = _props s.
Proof.
  revert i m s. induction items as [|item items IH]; intros i m s; simpl; [done|].
  rewrite IH.
  destruct (_activeCells s !! _); [|done]. destruct (_itemMap s !! _).
  - destruct (_ || _); [|done].
    apply (bookkeeping_props _ _ (cellsOnly_bookkeeping _ _ (markShouldUpdate_cellsOnly _ _))).
  - apply (bookkeeping_props _ _ (cellsOnly_bookkeeping _ _ (markShouldUpdate_cellsOnly _ _))).
Qed.

Lemma refocusAfterRemoval_props s : _props (refocusAfterRemoval s) = _props s.
Proof.
  unfold refocusAfterRemoval.
  pose proof (focusSubsequentItem_bookkeeping Down false false s) as H1.
  destruct (_focusSubsequentItem Down false false s) as [[] s1]; simpl in H1.
  { by apply bookkeeping_props. }
  pose proof (focusSubsequentItem_bookkeeping Up false false s1) as H2.
  destruct (_focusSubsequentItem Up false false s1) as [[] s2]; simpl in *.
  - rewrite (bookkeeping_props _ _ H2). by apply bookkeeping_props.
  - rewrite (bookkeeping_props _ _ H2). by apply bookkeeping_props.
Qed.

Lemma stopTrackingItem_props item i s : _props (stopTrackingItem item i s) = _props s.
Proof.
  unfold stopTrackingItem.
  rewrite (bookkeeping_props _ _ (cellsOnly_bookkeeping _ _ (recycleIfActive_cellsOnly _ _))).
  simpl. by destruct (_ <? _).
Qed.

Lemma stopTrackingDeleted_props oldItems i m s :
  _props (stopTrackingDeleted oldItems i m s) = _props s.
Proof.
  revert i s. induction oldItems as [|item items IH]; intros i s; simpl; [done|].
  rewrite IH. destruct (m !! _); [done|]. rewrite stopTrackingItem_props.
  destruct (bool_decide _); [apply refocusAfterRemoval_props|done].
Qed.

Lemma placeItem_props props item i top bottom h y looking s :
  _props (snd (placeItem props item i top bottom h y looking s)) = _props s.
Proof.
  unfold placeItem. destruct (ZleQ _ _); simpl.
  { apply (bookkeeping_props _ _ (cellsOnly_bookkeeping _ _ (recycleIfActive_cellsOnly _ _))). }
  destruct (ZltQ _ _); simpl.
  - destruct (_activeCells _ !! _); simpl.
    + rewrite (bookkeeping_props _ _ (cellsOnly_bookkeeping _ _
                 (setCellTopAndVisibility_cellsOnly _ _ _ _ _))).
      by destruct looking.
    + rewrite (bookkeeping_props _ _ (awaitMeasurement_bookkeeping _ _)).
      rewrite (bookkeeping_props _ _ (cellsOnly_bookkeeping _ _
                 (allocateCell_cellsOnly _ _ _ _ _ _ _ _))).
      by destruct looking.
  - rewrite (bookkeeping_props _ _ (cellsOnly_bookkeeping _ _ (recycleIfActive_cellsOnly _ _))).
    by destruct looking.
Qed.

Lemma determineRenderBlock_props props items i top bottom y looking s :
  _props (determineRenderBlock props items i top bottom y looking s) = _props s.
Proof.
  revert i y looking s.
  induction items as [|item items IH]; intros i y looking s; simpl; [done|].
  pose proof (placeItem_props props item i top bottom (_getHeightOfItem s (Some item))
                (y + _getHeightOfItem s (Some item)) looking s) as H.
  destruct (placeItem _ _ _ _ _ _ _ _ _) as [looking' s1]. by rewrite IH.
Qed.

Lemma determineRenderBlockBounds_props props s :
  _props (determineRenderBlockBounds props s) = _props s.
Proof. unfold determineRenderBlockBounds. by rewrite determineRenderBlock_props. Qed.

Lemma handleItemListChange_props props s :
  _props (_handleItemListChange props s) = _props s.
Proof.
  unfold _handleItemListChange.
  pose proof (buildItemMap_props (itemList props) 0 ∅ s) as H1.
  destruct (buildItemMap _ _ _ _) as [newItemMap s1]. simpl in H1. cbv zeta.
  rewrite (bookkeeping_props _ _ (prepopulateContainerHeight_bookkeeping _)).
  destruct (recomputeBlockHeights_sum props (set_itemMap newItemMap
       (determineRenderBlockBounds props
          (stopTrackingDeleted (itemList (_props s1)) 0 newItemMap s1)))) as [_ H].
  rewrite (calcInputs_props _ _ H).
  change (_props (determineRenderBlockBounds props
            (stopTrackingDeleted (itemList (_props s1)) 0 newItemMap s1)) = _props s).
  by rewrite determineRenderBlockBounds_props, stopTrackingDeleted_props.
Qed.

Lemma shiftCells_bookkeeping n props i s s' :
  shiftCells n props i s = Some s' → bookkeeping s' = bookkeeping s.
Proof.
  revert i s. induction n as [|n IH]; intros i s; simpl.
  { by intros [= ->]. }
  destruct (itemAt props _) as [item|]; [simpl|done].
  destruct (_activeCells s !! _) as [c|]; [simpl|done].
  intros H%IH. rewrite H. apply cellsOnly_bookkeeping. auto with frame.
Qed.

Lemma reconcileCorrections_bookkeeping props s s' :
  _reconcileCorrections props s = Some s' → bookkeeping s' = bookkeeping s.
Proof.
  unfold _reconcileCorrections.
  destruct (_ <? _)%nat; [by intros [= <-]|].
  destruct (_ >? _); [|by intros [= <-]].
  destruct (shiftCells _ _ _ _) as [s1|] eqn:E; [simpl|done].
  apply shiftCells_bookkeeping in E. by intros [= <-].
Qed.

(** The map from keys to indices that [_handleItemListChange] builds. *)
Fixpoint indexItems (items : list ItemInfo.t) (itemIndex : nat)
    (newItemMap : gmap string nat) : gmap string nat :=
  match items with
  | [] => newItemMap
  | item :: items' =>
      indexItems items' (S itemIndex) (<[ItemInfo.key item := itemIndex]> newItemMap)
  end.

(** [_itemMap] describes the current item list. *)
Definition itemMapInSync (s : VirtualListView) : Prop :=
  _itemMap s = indexItems (itemList (_props s)) 0 ∅.

Lemma buildItemMap_fst items i m s : fst (buildItemMap items i m s) = indexItems items i m.
Proof.
  revert i m s. induction items as [|item items IH]; intros i m s; simpl; [done|].
  apply IH.
Qed.

Lemma indexItems_lookup_None items i m k :
  indexItems items i m !! k = None ↔ m !! k = None ∧ k ∉ ItemInfo.key <$> items.
Proof.
  revert i m. induction items as [|item items IH]; intros i m; simpl.
  - split; [intros H; split; [done|apply not_elem_of_nil]|by intros [? _]].
  - rewrite IH, not_elem_of_cons. destruct (decide (ItemInfo.key item = k)) as [->|Hne].
    + rewrite lookup_insert_eq. split; [by intros [? _]|by intros [_ [? _]]].
    + rewrite lookup_insert_ne by done. split; [intros [? ?]|intros [? [? ?]]]; eauto.
Qed.

Lemma indexItems_lookup_Some items i m k j :
  indexItems items i m !! k = Some j →
  (∃ item, items !! (j - i)%nat = Some item ∧ ItemInfo.key item = k ∧ (i ≤ j)%nat)
  ∨ (m !! k = Some j ∧ k ∉ ItemInfo.key <$> items).
Proof.
  revert i m. induction items as [|item items IH]; intros i m; simpl.
  - intros H. right. split; [done|apply not_elem_of_nil].
  - intros [(it & Hit & Hk & Hle)|[Hm Hnot]]%IH.
    + left. exists it. replace (j - i)%nat with (S (j - S i)) by lia. split; [done|].
      split; [done|lia].
    + destruct (decide (ItemInfo.key item = k)) as [Heq|Hne].
      * rewrite Heq, lookup_insert_eq in Hm. injection Hm as <-. left. exists item.
        rewrite Nat.sub_diag. done.
      * rewrite lookup_insert_ne in Hm by done. right. split; [done|].
        rewrite not_elem_of_cons. done.
Qed.

Lemma itemMapInSync_lookup s k j :
  itemMapInSync s → _itemMap s !! k = Some j →
  ∃ item, itemList (_props s) !! j = Some item ∧ ItemInfo.key item = k.
Proof.
  intros -> [(item & Hi & Hk & _)|[H _]]%indexItems_lookup_Some; [|done].
  exists item. by rewrite Nat.sub_0_r in Hi.
Qed.

(** The invariant of the counters, against the list the view was given. *)
Definition countersAddUp (s : VirtualListView) : Prop :=
  blockCountersSum s = Z.of_nat (length (itemList (_props s))).

(** What every handler maintains whatever the item lists are. *)
Definition consistent (s : VirtualListView) : Prop :=
  countersAddUp s ∧ itemMapInSync s.

Lemma keepsSum_consistent s s' : keepsSum s s' → consistent s → consistent s'.
Proof.
  unfold keepsSum, consistent, countersAddUp, itemMapInSync, calcInputs.
  intros [-> [=]] [? ?]. split; congruence.
Qed.

Lemma bookkeeping_consistent s s' :
  bookkeeping s' = bookkeeping s → consistent s → consistent s'.
Proof.
  unfold bookkeeping, consistent, countersAddUp, itemMapInSync, blockCountersSum.
  intros [=] [? ?]. split; congruence.
Qed.

Lemma calc_consistent props s s' :
  props = _props s → consistent s →
  _calcNewRenderedItemState props s = Some s' → consistent s'.
Proof.
  intros -> [H1 H2] E.
  destruct (calcNewRenderedItemState_sum _ _ _ H1 E) as [E1 P].
  unfold consistent, countersAddUp, itemMapInSync, calcInputs in *.
  injection P as _ -> _ _ _ _ -> _ _ _ _ _ _ _ _ _ _. done.
Qed.

Lemma reconcile_consistent props s s' :
  consistent s → _reconcileCorrections props s = Some s' → consistent s'.
Proof.
  intros H E%reconcileCorrections_bookkeeping. by eapply bookkeeping_consistent.
Qed.

Lemma calcAndReconcile_consistent s s' :
  consistent s →
  (s1 ← _calcNewRenderedItemState (_props s) s;
   _reconcileCorrections (_props (_renderIfDirty s1)) (_renderIfDirty s1)) = Some s' →
  consistent s'.
Proof.
  intros H. destruct (_calcNewRenderedItemState _ _) as [s1|] eqn:E1; [simpl|done].
  intros E2. eapply reconcile_consistent; [|exact E2].
  eapply bookkeeping_consistent; [apply renderIfDirty_bookkeeping|].
  by eapply calc_consistent.
Qed.

Lemma onLayoutContainer_consistent w h s s' :
  consistent s → _onLayoutContainer w h s = Some s' → consistent s'.
Proof.
  intros H. unfold _onLayoutContainer.
  destruct (negb (_isMounted s)); [by intros [= <-]|].
  set (s1 := if negb (_ =? _layoutWidth s) then _ else s).
  assert (consistent s1) as H1.
  { subst s1. destruct (negb _); [|done]. unfold _resizeAllItems. simpl.
    by destruct (_ && _). }
  clearbody s1. destruct (negb _); [|by intros [= <-]].
  apply (calcAndReconcile_consistent (set_layoutHeight h s1)). exact H1.
Qed.

Lemma onScroll_consistent y x s s' :
  consistent s → _onScroll y x s = Some s' → consistent s'.
Proof.
  intros H. unfold _onScroll. destruct (_ =? _); [by intros [= <-]|].
  apply (calcAndReconcile_consistent (set_lastScrollTop y s)). exact H.
Qed.

Lemma onLayoutItem_consistent k h s s' :
  consistent s → _onLayoutItem k h s = Some s' → consistent s'.
Proof.
  intros H. unfold _onLayoutItem.
  destruct (negb (_isMounted s)); [by intros [= <-]|].
  destruct (_itemMap s !! k) as [idx|]; [|by intros [= <-]].
  destruct (itemAt _ _) as [item|]; [simpl|done].
  destruct (negb _); [by intros [= <-]|].
  destruct (_ || _); [by intros [= <-]|].
  set (r := if negb (_ =? h) then _ else _).
  assert (∀ b s1, r = Some (b, s1) → consistent s1) as Hr.
  { subst r. intros b s1. destruct (negb _); [|by intros [= _ <-]].
    simpl. destruct (_isInitialFillComplete s); [|by intros [= _ <-]].
    destruct (foundVisibleItemBefore _ _ _ _) as [[]|]; simpl; [| |done];
      by intros [= _ <-]. }
  destruct r as [[b s1]|]; [simpl|done]. specialize (Hr _ _ eq_refl).
  set (s2 := set_pendingMeasurements _ s1).
  assert (consistent s2 ∧ _props s1 = _props s2) as [H2 P2] by done. clearbody s2.
  destruct (_ || _).
  - destruct (_calcNewRenderedItemState _ s2) as [s3|] eqn:E3; [simpl|done].
    apply (reconcile_consistent _ (_renderIfDirty s3)).
    eapply bookkeeping_consistent; [apply renderIfDirty_bookkeeping|].
    by eapply calc_consistent.
  - simpl. by apply reconcile_consistent.
Qed.

Lemma renderBlockCells_bookkeeping n i s s' :
  renderBlockCells n i s = Some s' → bookkeeping s' = bookkeeping s.
Proof.
  revert i s. induction n as [|n IH]; intros i s; simpl.
  { by intros [= ->]. }
  destruct (itemAt _ _) as [item|]; [simpl|done].
  destruct (_activeCells s !! _) as [c|]; [simpl|done].
  intros H%IH. rewrite H. by destruct (ItemInfo.isNavigable item).
Qed.

Lemma render_bookkeeping s s' : render s = Some s' → bookkeeping s' = bookkeeping s.
Proof.
  unfold render. destruct (renderBlockCells _ _ _) as [s1|] eqn:E; [simpl|done].
  apply renderBlockCells_bookkeeping in E. by intros [= <-].
Qed.

Lemma setupForAccessibility_bookkeeping s :
  bookkeeping (_setupForAccessibility s) = bookkeeping s.
Proof. unfold _setupForAccessibility. by split_cases. Qed.

Lemma componentDidMount_bookkeeping b s :
  bookkeeping (componentDidMount b s) = bookkeeping s.
Proof.
  unfold componentDidMount.
  assert (∀ x, bookkeeping x = bookkeeping s →
               bookkeeping match initialSelectedKey (_props x) with
                           | Some k => if negb (String.eqb k "") then _scrollToItemKey k x
                                       else x
                           | None => x
                           end = bookkeeping s) as H.
  { intros x Hx. destruct (initialSelectedKey _); [|done]. destruct (negb _); [|done].
    by rewrite scrollToItemKey_bookkeeping. }
  apply H. destruct b; [|done]. simpl.
  change (bookkeeping (_setupForAccessibility s) = bookkeeping s).
  apply setupForAccessibility_bookkeeping.
Qed.

Lemma screenReaderStateChanged_bookkeeping b s :
  bookkeeping (_screenReaderStateChanged b s) = bookkeeping s.
Proof.
  unfold _screenReaderStateChanged, _tearDownForAccessibility. destruct b.
  - rewrite renderIfDirty_bookkeeping.
    destruct (_isNativeAndroid _); [|apply setupForAccessibility_bookkeeping].
    change (bookkeeping (_setupForAccessibility s) = bookkeeping s).
    apply setupForAccessibility_bookkeeping.
  - by split_cases.
Qed.

Lemma handleItemListChange_itemMap props s :
  _itemMap (_handleItemListChange props s) = indexItems (itemList props) 0 ∅.
Proof.
  unfold _handleItemListChange.
  pose proof (buildItemMap_fst (itemList props) 0 ∅ s) as H1.
  destruct (buildItemMap _ _ _ _) as [newItemMap s1]. simpl in H1. subst newItemMap.
  cbv zeta.
  by rewrite (bookkeeping_itemMap _ _ (prepopulateContainerHeight_bookkeeping _)).
Qed.

Lemma updateStateFromProps_consistent props initialBuild s s' :
  (initialBuild = false → consistent s) →
  _updateStateFromProps props initialBuild s = Some s' →
  consistent (set_props props s').
Proof.
  intros H. unfold _updateStateFromProps.
  set (s1 := if initialBuild && _ then _ else s).
  assert (bookkeeping s1 = bookkeeping s) as B1 by (subst s1; by destruct (_ && _)).
  clearbody s1.
  destruct (initialBuild || negb (bool_decide (itemList (_props s1) = itemList props)))
    eqn:Hc.
  - destruct (_calcNewRenderedItemState _ _) as [s2|] eqn:E; [simpl|done].
    apply calcNewRenderedItemState_sum in E as [E P]; [|apply handleItemListChange_sum].
    intros [= <-]. pose proof (renderIfDirty_bookkeeping s2) as B2.
    unfold consistent, countersAddUp, itemMapInSync, bookkeeping, blockCountersSum,
      calcInputs in *.
    simpl. injection B2 as _ -> -> -> _ _ _ _ ->.
    injection P as _ _ _ _ _ _ -> _ _ _ _ _ _ _ _ _ _.
    split; [exact E|apply handleItemListChange_itemMap].
  - simpl. intros [= <-].
    apply orb_false_iff in Hc as [-> Hc]. apply negb_false_iff, bool_decide_eq_true in Hc.
    destruct (H eq_refl) as [H1 H2].
    pose proof (renderIfDirty_bookkeeping s1) as B2. rewrite B1 in B2.
    unfold consistent, countersAddUp, itemMapInSync, bookkeeping, blockCountersSum in *.
    simpl. injection B2 as _ -> -> -> _ _ _ _ ->.
    injection B1 as B1 _ _ _ _ _ _ _ _. rewrite B1 in Hc. rewrite <- Hc. done.
Qed.

Lemma constructor_consistent platform props s :
  constructor platform props = Some s → consistent s.
Proof.
  unfold constructor.
  destruct (_updateStateFromProps _ _ _) as [s1|] eqn:E; [simpl|done].
  pose proof E as E'.
  apply updateStateFromProps_consistent in E; [|done].
  assert (_props s1 = props) as P.
  { revert E'. unfold _updateStateFromProps. simpl.
    destruct (_calcNewRenderedItemState _ _) as [s2|] eqn:E2; [simpl|done].
    apply calcNewRenderedItemState_sum in E2 as [_ P%calcInputs_props];
      [|apply handleItemListChange_sum].
    intros [= <-]. rewrite (bookkeeping_props _ _ (renderIfDirty_bookkeeping s2)), P.
    rewrite handleItemListChange_props. by destruct (skipRenderIfItemUnchanged props). }
  intros [= <-]. apply (bookkeeping_consistent (set_props props s1)); [|done].
  unfold bookkeeping. simpl. by rewrite P.
Qed.

Lemma componentWillReceiveProps_consistent nextProps s s' :
  consistent s → UNSAFE_componentWillReceiveProps nextProps s = Some s' →
  consistent s'.
Proof.
  intros H. unfold UNSAFE_componentWillReceiveProps.
  destruct (negb (bool_decide (_props s = nextProps))) eqn:Hc.
  - destruct (_updateStateFromProps _ _ _) as [s1|] eqn:E; [simpl|done].
    apply updateStateFromProps_consistent in E; [|done]. by intros [= <-].
  - simpl. intros [= <-]. apply negb_false_iff, bool_decide_eq_true in Hc.
    apply (bookkeeping_consistent s); [|done]. unfold bookkeeping. simpl. by rewrite Hc.
Qed.

Lemma afterRender_consistent s s' :
  consistent s → afterRender s = Some s' → consistent s'.
Proof.
  intros H. unfold afterRender. destruct (_isMounted s); [|by intros [= <-]].
  destruct (_calcNewRenderedItemState _ _) as [s1|] eqn:E1; [simpl|done].
  destruct (_reconcileCorrections _ _) as [s2|] eqn:E2; [simpl|done].
  intros [= <-].
  eapply bookkeeping_consistent; [apply setFocusIfNeeded_bookkeeping|].
  eapply reconcile_consistent; [|exact E2].
  eapply bookkeeping_consistent; [apply renderIfDirty_bookkeeping|].
  by eapply calc_consistent.
Qed.

Lemma handle_consistent e s s' :
  consistent s → handle e s = Some s' → consistent s'.
Proof.
  intros H. destruct e; simpl.
  - destruct (render s) as [s1|] eqn:E; [simpl|done]. intros [= <-].
    eapply bookkeeping_consistent; [apply componentDidMount_bookkeeping|].
    eapply bookkeeping_consistent; [by apply render_bookkeeping|done].
  - destruct (UNSAFE_componentWillReceiveProps _ _) as [s1|] eqn:E; [simpl|done].
    intros [= <-].
    apply (bookkeeping_consistent s1); [done|].
    by eapply componentWillReceiveProps_consistent.
  - destruct (render s) as [s1|] eqn:E; [simpl|done]. intros [= <-].
    apply (bookkeeping_consistent s1); [done|].
    eapply bookkeeping_consistent; [by apply render_bookkeeping|done].
  - by intros [= <-].
  - by apply onLayoutContainer_consistent.
  - by apply onLayoutItem_consistent.
  - intros [= <-]. unfold _onAnimateStartStopItem. by split_cases.
  - by apply onScroll_consistent.
  - intros [= <-]. unfold _onItemFocused. by split_cases.
  - intros [= <-]. done.
  - intros [= <-]. unfold _onKeyDown. destruct (_isMounted s); [|done].
    eapply bookkeeping_consistent; [apply focusSubsequentItem_bookkeeping|done].
  - intros [= <-].
    eapply bookkeeping_consistent; [apply screenReaderStateChanged_bookkeeping|done].
  - destruct (_deferred s) as [|[] rest]; [by intros [= <-]| |].
    + by apply afterRender_consistent.
    + unfold afterAnimationStop. simpl. destruct (_isMounted s); [|by intros [= <-]].
      destruct (_ && _); [|by intros [= <-]]. by apply reconcile_consistent.
Qed.

Lemma run_consistent platform props events s :
  constructor platform props ≫= run events = Some s → consistent s.
Proof.
  destruct (constructor platform props) as [s0|] eqn:E0; [simpl|done].
  apply constructor_consistent in E0. revert s0 E0.
  induction events as [|e events IH]; intros s0 H0; simpl.
  - by intros [= <-].
  - destruct (handle e s0) as [s1|] eqn:E1; [simpl|done].
    apply IH. by eapply handle_consistent.
Qed.

(** C1. For every item list and every sequence of events, after each event
    handler completes the render-block counters satisfy
    [_itemsAboveRenderBlock + _itemsInRenderBlock + _itemsBelowRenderBlock
     = itemList.length]: the property holds of the constructed view and of
    the state every completed run of handlers leads to. *)
Theorem render_block_counters_add_up platform props events s :
  constructor platform props ≫= run events = Some s →
  _itemsAboveRenderBlock s + _itemsInRenderBlock s + _itemsBelowRenderBlock s
  = Z.of_nat (length (itemList (_props s))).
Proof. intros H. apply (run_consistent _ _ _ _ H). Qed.

(** * Example views *)

(** The key of the [n]-th example item: the binary numeral of [n + 1],
    least significant bit first. *)
Fixpoint binaryKey (p : positive) : string :=
  match p with
  | xH => "1"
  | xO p => String "0"%char (binaryKey p)
  | xI p => String "1"%char (binaryKey p)
  end.

Definition keyOf (n : nat) : string := binaryKey (Pos.of_succ_nat n).

(** An item of declared constant height 50 and one whose height is to be
    measured, guessed at 50. *)
Definition constantItem (n : nat) : ItemInfo.t :=
  {| ItemInfo.key := keyOf n; ItemInfo.height := 50; ItemInfo.measureHeight := false;
     ItemInfo.template := None; ItemInfo.isNavigable := false |}.

Definition measuredItem (n : nat) : ItemInfo.t :=
  {| ItemInfo.key := keyOf n; ItemInfo.height := 50; ItemInfo.measureHeight := true;
     ItemInfo.template := None; ItemInfo.isNavigable := false |}.

Definition propsOf (items : list ItemInfo.t) : Props :=
  {| itemList := items; initialSelectedKey := None; padding := 0;
     animateChanges := false; skipRenderIfItemUnchanged := false;
     keyboardFocusScrollOffset := 0 |}.

(** Scenario A: 1000 items of declared height 50. *)
Definition scenarioA : Props := propsOf (constantItem <$> seq 0 1000).

(** The view is constructed, mounted and laid out in a viewport 500 high,
    and the deferred recalculation and the render it asks for have run. *)
Definition firstScreen : list Event :=
  [Mount false; LayoutContainer 300 500; RunDeferred; Render].

(** The state a run of events leads to from the constructed view. *)
Definition stateAfter (props : Props) (events : list Event) : VirtualListView :=
  default (newView web props) (constructor web props ≫= run events).

(** No handler of the run throws. *)
Definition completes (props : Props) (events : list Event) : bool :=
  if constructor web props ≫= run events is Some _ then true else false.

Lemma completes_stateAfter props events :
  completes props events = true →
  constructor web props ≫= run events = Some (stateAfter props events).
Proof.
  unfold completes, stateAfter. by destruct (constructor web props ≫= run events).
Qed.

Lemma render_block_counters_add_up_witness :
  constructor web scenarioA ≫= run firstScreen = Some (stateAfter scenarioA firstScreen)
  ∧ _itemsAboveRenderBlock (stateAfter scenarioA firstScreen)
    + _itemsInRenderBlock (stateAfter scenarioA firstScreen)
    + _itemsBelowRenderBlock (stateAfter scenarioA firstScreen)
    = Z.of_nat (length (itemList (_props (stateAfter scenarioA firstScreen)))).
Proof.
  assert (constructor web scenarioA ≫= run firstScreen
          = Some (stateAfter scenarioA firstScreen)) as E
    by (apply completes_stateAfter; vm_compute; reflexivity).
  split; [exact E|].
  exact (render_block_counters_add_up web scenarioA firstScreen _ E).
Defined.

(** * The height oracle *)

(** The height oracle as the specification words it. *)
Definition heightOf (heightCache : gmap string Z) (item : ItemInfo.t) : Z :=
  if ItemInfo.measureHeight item
  then default (ItemInfo.height item) (heightCache !! ItemInfo.key item)
  else ItemInfo.height item.

Lemma getHeightOfItem_heightOf s item :
  _getHeightOfItem s (Some item) = heightOf (_heightCache s) item.
Proof.
  unfold heightOf. simpl.
  destruct (ItemInfo.measureHeight item); [simpl|done]. by destruct (_ !! _).
Qed.

(** C6. For every item, [_getHeightOfItem] returns [item.height] when
    [measureHeight] is false, whatever the height cache holds, and a
    measurement report for such an item is ignored; otherwise it returns
    the height-cache entry for [item.key] when present, else [item.height];
    and [_isItemHeightKnown] is true iff [measureHeight] is false or the
    cache contains [item.key]. *)
Theorem height_oracle s item :
  _getHeightOfItem s (Some item) = heightOf (_heightCache s) item
  ∧ (ItemInfo.measureHeight item = false →
     (∀ heightCache,
        _getHeightOfItem (set_heightCache heightCache s) (Some item) = ItemInfo.height item)
     ∧ (∀ itemIndex newHeight,
          _itemMap s !! ItemInfo.key item = Some itemIndex →
          itemList (_props s) !! itemIndex = Some item →
          _onLayoutItem (ItemInfo.key item) newHeight s = Some s))
  ∧ (ItemInfo.measureHeight item = true →
     _getHeightOfItem s (Some item)
     = match _heightCache s !! ItemInfo.key item with
       | Some cachedHeight => cachedHeight
       | None => ItemInfo.height item
       end)
  ∧ (_isItemHeightKnown s item = true
     ↔ ItemInfo.measureHeight item = false
       ∨ is_Some (_heightCache s !! ItemInfo.key item)).
Proof.
  split; [apply getHeightOfItem_heightOf|]. split; [|split].
  - intros Hm. split.
    + intros heightCache. simpl. by rewrite Hm.
    + intros itemIndex newHeight Hi Hl. unfold _onLayoutItem.
      destruct (negb (_isMounted s)); [done|]. rewrite Hi.
      unfold itemAt. rewrite (proj2 (Z.ltb_ge (Z.of_nat itemIndex) 0)) by lia.
      rewrite Nat2Z.id, Hl. simpl. by rewrite Hm.
  - intros Hm. simpl. by rewrite Hm.
  - unfold _isItemHeightKnown. rewrite orb_true_iff, negb_true_iff.
    destruct (_heightCache s !! ItemInfo.key item) as [h|].
    + split; [intros _; right; by eexists|by right].
    + split; [intros [?|?]; [by left|done]|].
      intros [?|[? ?]]; [by left|done].
Qed.

(** * Stale reports *)




(** A list of sixty items whose first item is measured; the first screen is
    filled, the measurement of the first item arrives and agrees with the
    guess, the overdraw is rendered, and the user scrolls down by 2000,
    which culls the first nineteen items from the top of the block. *)
Definition measuredFirst : Props :=
  propsOf (measuredItem 0 :: (constantItem <$> seq 1 59)).

Definition scrolledDown : list Event :=
  [Mount false; LayoutContainer 300 500; LayoutItem (keyOf 0) 50; RunDeferred; Render;
   RunDeferred; RunDeferred; Render; RunDeferred; Scroll 2000 0].



Lemma height_oracle_witness :
  _getHeightOfItem (stateAfter measuredFirst scrolledDown) (Some (constantItem 1))
  = heightOf (_heightCache (stateAfter measuredFirst scrolledDown)) (constantItem 1)
  ∧ _onLayoutItem (keyOf 1) 70 (stateAfter measuredFirst scrolledDown)
    = Some (stateAfter measuredFirst scrolledDown)
  ∧ _getHeightOfItem (stateAfter measuredFirst scrolledDown) (Some (measuredItem 0)) = 50.
Proof.
  destruct (height_oracle (stateAfter measuredFirst scrolledDown) (constantItem 1))
    as (H1 & H2 & _ & _).
  destruct (height_oracle (stateAfter measuredFirst scrolledDown) (measuredItem 0))
    as (_ & _ & H3 & _).
  split; [exact H1|]. split.
  - destruct (H2 eq_refl) as [_ H]. apply (H 1%nat); vm_compute; reflexivity.
  - rewrite (H3 eq_refl). vm_compute. reflexivity.
Defined.




(** * Focus after a removal *)



Lemma findIndex_Some {A} (p : A → bool) l i :
  findIndex p l = Some i ↔
  (∃ x, l !! i = Some x ∧ p x = true) ∧ ∀ j y, (j < i)%nat → l !! j = Some y → p y = false.
Proof.
  revert i. induction l as [|x l IH]; intros i; simpl.
  - split; [done|]. intros [(y & Hy & _) _]. done.
  - destruct (p x) eqn:Hx.
    + split.
      * intros [= <-]. split; [by exists x|]. intros j y Hj. lia.
      * intros [(y & Hy & Hp) Hmin]. destruct i as [|i]; [done|].
        specialize (Hmin 0%nat x ltac:(lia) eq_refl). congruence.
    + destruct (findIndex p l) as [i'|] eqn:E; simpl.
      * split.
        -- intros [= <-]. destruct (proj1 (IH i') eq_refl) as [(y & Hy & Hp) Hmin].
           split; [by exists y|]. intros [|j] z Hj; simpl; [congruence|].
           apply Hmin. lia.
        -- intros [(y & Hy & Hp) Hmin]. destruct i as [|i]; [simpl in Hy; congruence|].
           f_equal. symmetry.
           assert (Some i' = Some i) as [= ->]; [|done].
           apply IH. split; [by exists y|]. intros j z Hj Hz.
           apply (Hmin (S j) z); [lia|done].
      * split; [done|]. intros [(y & Hy & Hp) Hmin]. destruct i as [|i]; [simpl in Hy; congruence|].
        assert (None = Some i) as [=]. apply IH. split; [by exists y|].
        intros j z Hj Hz. apply (Hmin (S j) z); [lia|done].
Qed.


Lemma isLastFocused_true s item :
  isLastFocused s item = true ↔ lastFocusedItemKey (_state s) = Some (fst item).
Proof.
  unfold isLastFocused. destruct (lastFocusedItemKey (_state s)) as [k|]; [|done].
  rewrite String.eqb_eq. split; [by intros ->|by intros [= ->]].
Qed.

Lemma focusedPosition_first s position :
  findIndex (isLastFocused s) (_navigatableItemsRendered s) = Some position ↔
  ∃ focusedKey,
    lastFocusedItemKey (_state s) = Some focusedKey
    ∧ (_navigatableItemsRendered s).*1 !! position = Some focusedKey
    ∧ ∀ j, (j < position)%nat → (_navigatableItemsRendered s).*1 !! j ≠ Some focusedKey.
Proof.
  rewrite findIndex_Some. split.
  - intros [(x & Hx & Hp%isLastFocused_true) Hmin]. exists (fst x).
    split; [done|]. split; [by rewrite list_lookup_fmap, Hx|].
    intros j Hj. rewrite list_lookup_fmap.
    destruct (_navigatableItemsRendered s !! j) as [y|] eqn:Hy; [simpl|done].
    intros [= E]. specialize (Hmin j y Hj Hy).
    assert (isLastFocused s y = true) by (apply isLastFocused_true; congruence).
    congruence.
  - intros (k & Hk & Hpos & Hmin). rewrite list_lookup_fmap in Hpos.
    destruct (_navigatableItemsRendered s !! position) as [x|] eqn:Hx; [|done].
    injection Hpos as <-. split; [exists x; split; [done|by apply isLastFocused_true]|].
    intros j y Hj Hy. destruct (isLastFocused s y) eqn:E; [|done].
    apply isLastFocused_true in E. exfalso. apply (Hmin j Hj).
    rewrite list_lookup_fmap, Hy. simpl. congruence.
Qed.




























(** * Reconciliation *)

(** The indices of the render block. *)
Definition inRenderBlock (s : VirtualListView) (index : Z) : Prop :=
  _itemsAboveRenderBlock s ≤ index < _itemsAboveRenderBlock s + _itemsInRenderBlock s.

(** Every item of the render block has an active cell. *)
Definition blockCellsPresent (props : Props) (s : VirtualListView) : Prop :=
  ∀ index, inRenderBlock s index →
    ∃ item cell, itemAt props index = Some item
                 ∧ _activeCells s !! ItemInfo.key item = Some cell.

(** No two items of the render block share a key. *)
Definition blockKeysDistinct (props : Props) (s : VirtualListView) : Prop :=
  ∀ i j item item', inRenderBlock s i → inRenderBlock s j →
    itemAt props i = Some item → itemAt props j = Some item' →
    ItemInfo.key item = ItemInfo.key item' → i = j.



Lemma setCellTopAndVisibility_active k v y a s cell :
  _activeCells s !! k = Some cell →
  _setCellTopAndVisibility k v y a s
  = withCells (<[k := CellInfo.setTopAndVisibility v y cell]> (_activeCells s))
      (_recycledCells s) (_nextCellKey s) (_isRenderDirty s)
      (_hostCalls s
       ++ if CellInfo.cellRef cell is Some _ then
            [CellSetVisibility (CellInfo.virtualKey cell) v;
             CellSetTop (CellInfo.virtualKey cell) y
               (a && CellInfo.isVisible cell && negb (_isAndroidScreenReaderEnabled s))]
          else []) s.
Proof.
  intros H. unfold _setCellTopAndVisibility. rewrite H.
  destruct (CellInfo.cellRef cell); unfold withCells, call; destruct s; simpl.
  - by rewrite <- app_assoc.
  - by rewrite app_nil_r.
Qed.




(** The keys of an item list are unique. *)
Definition uniqueKeys (props : Props) : Prop := NoDup (ItemInfo.key <$> itemList props).

Lemma itemAt_Some props index item :
  itemAt props index = Some item ↔
  0 ≤ index ∧ itemList props !! Z.to_nat index = Some item.
Proof.
  unfold itemAt. destruct (index <? 0) eqn:E.
  - apply Z.ltb_lt in E. split; [done|lia].
  - apply Z.ltb_ge in E. split; [done|by intros [_ ?]].
Qed.

Lemma uniqueKeys_index props i j item item' :
  uniqueKeys props → itemAt props i = Some item → itemAt props j = Some item' →
  ItemInfo.key item = ItemInfo.key item' → i = j.
Proof.
  intros Hu [Hi Hitem]%itemAt_Some [Hj Hitem']%itemAt_Some Hk.
  assert (Z.to_nat i = Z.to_nat j); [|lia].
  apply (NoDup_lookup _ _ _ (ItemInfo.key item) Hu); rewrite list_lookup_fmap.
  - by rewrite Hitem.
  - by rewrite Hitem', Hk.
Qed.

Lemma uniqueKeys_blockKeysDistinct props s : uniqueKeys props → blockKeysDistinct props s.
Proof. intros Hu i j item item' _ _. by apply uniqueKeys_index. Qed.









(** * Recycling *)

(** A cell as [_recycleCell] leaves it in the pool. *)
Definition hidden (cell : VirtualCellInfo) : VirtualCellInfo :=
  CellInfo.setTopAndVisibility false (CellInfo.top cell) cell.






(** Sixty items of one template and constant height 50. The first screen
    and its overdraw are rendered; the user scrolls down by 2000, then back
    to the top. *)
Definition templatedItem (n : nat) : ItemInfo.t :=
  {| ItemInfo.key := keyOf n; ItemInfo.height := 50; ItemInfo.measureHeight := false;
     ItemInfo.template := Some "row"; ItemInfo.isNavigable := false |}.

Definition rows : Props := propsOf (templatedItem <$> seq 0 60).

Definition filled : list Event :=
  [Mount false; LayoutContainer 300 500; RunDeferred; Render; RunDeferred; RunDeferred;
   Render; RunDeferred].






(** * The container height *)

(** [itemBlockHeight] of [_calcNewRenderedItemState]. *)
Definition itemBlockHeight (s : VirtualListView) : Z :=
  _heightAboveRenderAdjustment s + _heightAboveRenderBlock s
  + _heightOfRenderBlock s + _heightBelowRenderBlock s.





























Lemma default_Some {A} (d : A) (x : option A) :
  (if x is Some _ then true else false) = true → x = Some (default d x).
Proof. by destruct x. Qed.





(** * The cumulative heights *)

(** The height of the item at an index, [0] where there is none. *)
Definition heightAt (heightCache : gmap string Z) (props : Props) (i : Z) : Z :=
  match itemAt props i with
  | Some item => heightOf heightCache item
  | None => 0
  end.

(** The sum of the heights of the items at the indices from [startIndex]
    to [endIndex], both included. *)
Definition rangeHeight (heightCache : gmap string Z) (props : Props)
    (startIndex endIndex : Z) : Z :=
  foldl (λ count i, count + heightAt heightCache props i) 0
        (seqZ startIndex (endIndex - startIndex + 1)).

Lemma getHeightOfItem_heightAt s props i :
  _getHeightOfItem s (itemAt props i) = heightAt (_heightCache s) props i.
Proof.
  unfold heightAt. destruct (itemAt props i) as [item|]; [|done].
  apply getHeightOfItem_heightOf.
Qed.

Lemma foldl_sum_ext {A} (f g : A → Z) l z :
  (∀ x, f x = g x) →
  foldl (λ count i, count + f i) z l = foldl (λ count i, count + g i) z l.
Proof.
  intros Hfg. revert z. induction l as [|x l IH]; intros z; simpl; [done|].
  by rewrite Hfg, IH.
Qed.

Lemma foldl_sum_shift {A} (f : A → Z) l z :
  foldl (λ count i, count + f i) z l = z + foldl (λ count i, count + f i) 0 l.
Proof.
  revert z. induction l as [|x l IH]; intros z; simpl; [lia|].
  rewrite (IH (z + f x)), (IH (0 + f x)). lia.
Qed.

Lemma calcHeightOfItems_rangeHeight s props a b :
  _calcHeightOfItems s props a b = rangeHeight (_heightCache s) props a b.
Proof.
  unfold _calcHeightOfItems, rangeHeight. apply foldl_sum_ext.
  intros i. apply getHeightOfItem_heightAt.
Qed.

Lemma rangeHeight_empty cache props a b : b < a → rangeHeight cache props a b = 0.
Proof.
  intros H. unfold rangeHeight.
  replace (seqZ a (b - a + 1)) with (@nil Z); [done|].
  symmetry. apply seqZ_nil. lia.
Qed.

(** One more item at the end of the range. *)
Lemma rangeHeight_snoc cache props a b :
  a ≤ b + 1 →
  rangeHeight cache props a (b + 1) = rangeHeight cache props a b + heightAt cache props (b + 1).
Proof.
  intros H. unfold rangeHeight.
  replace (b + 1 - a + 1) with ((b - a + 1) + 1) by lia.
  rewrite seqZ_app by lia. rewrite foldl_app.
  replace (seqZ (a + (b - a + 1)) 1) with [b + 1]; [reflexivity|].
  rewrite seqZ_cons by lia. rewrite seqZ_nil by lia. f_equal. lia.
Qed.

(** One more item at the start of the range. *)
Lemma rangeHeight_cons cache props a b :
  a ≤ b →
  rangeHeight cache props a b = heightAt cache props a + rangeHeight cache props (a + 1) b.
Proof.
  intros H. unfold rangeHeight.
  rewrite (seqZ_cons a) by lia. simpl.
  rewrite foldl_sum_shift.
  replace (Z.succ a) with (a + 1) by lia.
  replace (Z.pred (b - a + 1)) with (b - (a + 1) + 1) by lia. done.
Qed.

(** The counters delimit three ranges of the list. *)
Definition ranged (props : Props) (s : VirtualListView) : Prop :=
  0 ≤ _itemsAboveRenderBlock s ∧ 0 ≤ _itemsInRenderBlock s
  ∧ 0 ≤ _itemsBelowRenderBlock s
  ∧ blockCountersSum s = Z.of_nat (length (itemList props)).

(** The three cumulative heights are the sums over these ranges. *)
Definition summed (props : Props) (s : VirtualListView) : Prop :=
  _heightAboveRenderBlock s
  = rangeHeight (_heightCache s) props 0 (_itemsAboveRenderBlock s - 1)
  ∧ _heightOfRenderBlock s
    = rangeHeight (_heightCache s) props (_itemsAboveRenderBlock s)
        (_itemsAboveRenderBlock s + _itemsInRenderBlock s - 1)
  ∧ _heightBelowRenderBlock s
    = rangeHeight (_heightCache s) props
        (_itemsAboveRenderBlock s + _itemsInRenderBlock s)
        (Z.of_nat (length (itemList props)) - 1).

Definition tracked (props : Props) (s : VirtualListView) : Prop :=
  ranged props s ∧ summed props s.

Lemma bookkeeping_tracked props s s' :
  bookkeeping s' = bookkeeping s → tracked props s → tracked props s'.
Proof.
  unfold bookkeeping, tracked, ranged, summed, blockCountersSum.
  intros [= _ -> -> -> -> -> -> -> _]. done.
Qed.



Lemma itemAt_range props i item :
  itemAt props i = Some item → 0 ≤ i < Z.of_nat (length (itemList props)).
Proof. intros [H1 H2%lookup_lt_Some]%itemAt_Some. lia. Qed.

Lemma rangeHeight_eq cache props a b a' b' :
  a = a' → b = b' → rangeHeight cache props a b = rangeHeight cache props a' b'.
Proof. by intros -> ->. Qed.





(** Recomputing the heights from the counters establishes the sums. *)
Lemma recomputeBlockHeights_tracked props s :
  0 ≤ _itemsAboveRenderBlock s → 0 ≤ _itemsInRenderBlock s →
  _itemsAboveRenderBlock s + _itemsInRenderBlock s ≤ Z.of_nat (length (itemList props)) →
  tracked props (recomputeBlockHeights props s).
Proof.
  intros Ha Hn Hlen. unfold recomputeBlockHeights, tracked, ranged, summed, blockCountersSum.
  cbv zeta. rewrite !calcHeightOfItems_rangeHeight. simpl.
  repeat split; (lia || done).
Qed.

Lemma findFirstInRenderBlock_range s items i0 y limit i item y' :
  findFirstInRenderBlock s items i0 y limit = Some (i, item, y') →
  i0 ≤ i < i0 + Z.of_nat (length items).
Proof.
  revert i0 y. induction items as [|x items IH]; intros i0 y; simpl; [done|].
  destruct (ZgtQ _ _).
  - intros [= <- _ _]. lia.
  - intros H%IH. lia.
Qed.

Lemma bookkeeping_counters s s' :
  bookkeeping s' = bookkeeping s →
  _itemsAboveRenderBlock s' = _itemsAboveRenderBlock s
  ∧ _itemsInRenderBlock s' = _itemsInRenderBlock s.
Proof. unfold bookkeeping. intros [= _ -> -> _ _ _ _ _ _]. done. Qed.

Lemma seedRenderBlock_tracked props limit s :
  _itemsInRenderBlock s = 0 → tracked props (seedRenderBlock props limit s).
Proof.
  intros Hn. unfold seedRenderBlock. cbv zeta.
  destruct (findFirstInRenderBlock _ _ _ _ _) as [[[i item] y]|] eqn:E.
  - apply findFirstInRenderBlock_range in E.
    match goal with
    | |- tracked props (recomputeBlockHeights props ?x) =>
        assert (_itemsAboveRenderBlock x = i ∧ _itemsInRenderBlock x = 1) as [Ha Hi]
    end.
    { match goal with
      | |- context [awaitMeasurement ?it ?x] =>
          destruct (bookkeeping_counters _ _ (awaitMeasurement_bookkeeping it x)) as [-> ->]
      end.
      match goal with
      | |- context [_allocateCell ?k ?t ?j ?c ?h ?y ?v ?x] =>
          destruct (bookkeeping_counters _ _
                      (cellsOnly_bookkeeping _ _ (allocateCell_cellsOnly k t j c h y v x)))
            as [-> ->]
      end.
      done. }
    apply recomputeBlockHeights_tracked; lia.
  - apply recomputeBlockHeights_tracked; simpl; lia.
Qed.








(** The counters while the third loop of [_handleItemListChange] is at
    index [i]. *)
Definition bounded (looking : bool) (i : Z) (s : VirtualListView) : Prop :=
  0 ≤ _itemsAboveRenderBlock s ∧ 0 ≤ _itemsInRenderBlock s
  ∧ if looking then _itemsAboveRenderBlock s = 0 ∧ _itemsInRenderBlock s = 0
    else _itemsAboveRenderBlock s + _itemsInRenderBlock s ≤ i.

Lemma bookkeeping_bounded looking i s s' :
  bookkeeping s' = bookkeeping s → bounded looking i s → bounded looking i s'.
Proof. unfold bounded. by intros [-> ->]%bookkeeping_counters. Qed.

Lemma cellsOnly_bounded looking i s s' :
  cellsOnly s s' → bounded looking i s → bounded looking i s'.
Proof. intros H%cellsOnly_bookkeeping. by apply bookkeeping_bounded. Qed.

Lemma placeItem_bounded props item i top bottom h y looking s :
  0 ≤ i → bounded looking i s →
  bounded (fst (placeItem props item i top bottom h y looking s)) (i + 1)
    (snd (placeItem props item i top bottom h y looking s)).
Proof.
  intros Hi (Ha & Hn & Hl). unfold placeItem. destruct (ZleQ _ _); simpl.
  { eapply cellsOnly_bounded; [apply recycleIfActive_cellsOnly|].
    unfold bounded. destruct looking; [done|]. repeat split; lia. }
  destruct (ZltQ _ _); simpl.
  - destruct (_activeCells _ !! _); simpl.
    + eapply cellsOnly_bounded; [apply setCellTopAndVisibility_cellsOnly|].
      unfold bounded. destruct looking; simpl; repeat split; lia.
    + eapply bookkeeping_bounded; [apply awaitMeasurement_bookkeeping|].
      eapply cellsOnly_bounded; [apply allocateCell_cellsOnly|].
      unfold bounded. destruct looking; simpl; repeat split; lia.
  - eapply cellsOnly_bounded; [apply recycleIfActive_cellsOnly|].
    unfold bounded. destruct looking; simpl; repeat split; lia.
Qed.

Lemma determineRenderBlock_bounded props items i top bottom y looking s :
  0 ≤ i → bounded looking i s →
  ∃ looking',
    bounded looking' (i + Z.of_nat (length items))
      (determineRenderBlock props items i top bottom y looking s).
Proof.
  revert i y looking s.
  induction items as [|item items IH]; intros i y looking s Hi Hb; simpl.
  { exists looking. destruct Hb as (? & ? & Hl). unfold bounded.
    destruct looking; repeat split; (lia || tauto). }
  pose proof (placeItem_bounded props item i top bottom (_getHeightOfItem s (Some item))
                (y + _getHeightOfItem s (Some item)) looking s Hi Hb) as H.
  destruct (placeItem _ _ _ _ _ _ _ _ _) as [looking' s1]. simpl in H.
  destruct (IH (i + 1) (y + _getHeightOfItem s (Some item)) looking' s1) as [l H'];
    [lia|done|].
  exists l. replace (i + Z.of_nat (S (length items)))
    with (i + 1 + Z.of_nat (length items)) by lia. exact H'.
Qed.

(** The item-list change recomputes the cumulative heights from counters
    that delimit three ranges of the new list. *)
Lemma handleItemListChange_tracked props s :
  tracked props (_handleItemListChange props s).
Proof.
  unfold _handleItemListChange.
  destruct (buildItemMap _ _ _ _) as [newItemMap s1]. cbv zeta.
  eapply bookkeeping_tracked; [apply prepopulateContainerHeight_bookkeeping|].
  set (s2 := stopTrackingDeleted _ _ _ _).
  destruct (determineRenderBlock_bounded props (itemList props) 0
              (inject_Z (_lastScrollTop s2) - _calcOverdrawAmount s2)%Q
              (inject_Z (_lastScrollTop s2) + inject_Z (_layoutHeight s2)
               + _calcOverdrawAmount s2)%Q
              (_heightAboveRenderAdjustment s2) true
              (set_itemsInRenderBlock 0 (set_itemsAboveRenderBlock 0 s2)))
    as [looking (Ha & Hn & Hl)]; [lia|unfold bounded; simpl; repeat split; lia|].
  fold (determineRenderBlockBounds props s2) in Ha, Hn, Hl. clearbody s2.
  apply recomputeBlockHeights_tracked; simpl; [done|done|].
  destruct looking; lia.
Qed.




(** The sum of [heightOf] over a list of items. *)
Definition sumHeightOf (heightCache : gmap string Z) (items : list ItemInfo.t) : Z :=
  foldr (λ item sum, heightOf heightCache item + sum) 0 items.

Lemma sumHeightOf_app cache l1 l2 :
  sumHeightOf cache (l1 ++ l2) = sumHeightOf cache l1 + sumHeightOf cache l2.
Proof. induction l1 as [|x l1 IH]; simpl; [done|]. rewrite IH. lia. Qed.

(** The sum over a range of indices is the sum over the slice of the list. *)
Lemma rangeHeight_slice cache props a n :
  0 ≤ a →
  rangeHeight cache props a (a + Z.of_nat n - 1)
  = sumHeightOf cache (take n (drop (Z.to_nat a) (itemList props))).
Proof.
  intros Ha. induction n as [|n IH].
  - rewrite rangeHeight_empty by lia. by rewrite take_0.
  - rewrite (rangeHeight_eq _ _ a (a + Z.of_nat (S n) - 1) a (a + Z.of_nat n - 1 + 1))
      by lia.
    rewrite rangeHeight_snoc by lia. rewrite IH.
    replace (a + Z.of_nat n - 1 + 1) with (a + Z.of_nat n) by lia.
    unfold heightAt, itemAt.
    replace (a + Z.of_nat n <? 0) with false by (symmetry; apply Z.ltb_ge; lia).
    replace (Z.to_nat (a + Z.of_nat n)) with (Z.to_nat a + n)%nat by lia.
    rewrite <- lookup_drop.
    destruct (drop (Z.to_nat a) (itemList props) !! n) as [item|] eqn:E.
    + rewrite (take_S_r _ _ _ E), sumHeightOf_app. simpl. lia.
    + apply lookup_ge_None in E. rewrite !take_ge by lia. lia.
Qed.














Lemma uniqueKeys_itemList props props' :
  itemList props = itemList props' → uniqueKeys props → uniqueKeys props'.
Proof. unfold uniqueKeys. by intros ->. Qed.















(** * Recalculating twice *)

(** The four lines recalculation compares positions with. *)
Definition renderMargin (s : VirtualListView) : Q :=
  if _isInitialFillComplete s then _calcOverdrawAmount s else 0%Q.

Definition topCullLine (s : VirtualListView) : Q :=
  (inject_Z (_lastScrollTop s) - cullMargin s)%Q.

Definition bottomCullLine (s : VirtualListView) : Q :=
  (inject_Z (_lastScrollTop s) + inject_Z (_layoutHeight s) + cullMargin s)%Q.

Definition renderBlockTopLimit (s : VirtualListView) : Q :=
  (inject_Z (_lastScrollTop s) - renderMargin s)%Q.

Definition renderBlockBottomLimit (s : VirtualListView) : Q :=
  (inject_Z (_lastScrollTop s) + inject_Z (_layoutHeight s) + renderMargin s)%Q.

(** What recalculation reads and writes only when it completes the
    initial fill. *)
Definition steady (s : VirtualListView) :=
  (calcInputs s, _isInitialFillComplete s).



Lemma cellsOnly_steady s s' : cellsOnly s s' → steady s' = steady s.
Proof. by intros (ac & rc & nk & d & hc & ->). Qed.

Lemma ZgeQ_true z q : ZgeQ z q = true ↔ (q <= inject_Z z)%Q.
Proof. apply Qle_bool_iff. Qed.

Lemma ZleQ_true z q : ZleQ z q = true ↔ (inject_Z z <= q)%Q.
Proof. apply Qle_bool_iff. Qed.

Lemma ZgeQ_false z q : ZgeQ z q = false ↔ (inject_Z z < q)%Q.
Proof.
  unfold ZgeQ. rewrite <- not_true_iff_false, Qle_bool_iff. split.
  - apply Qnot_le_lt.
  - apply Qlt_not_le.
Qed.

Lemma ZleQ_false z q : ZleQ z q = false ↔ (q < inject_Z z)%Q.
Proof.
  unfold ZleQ. rewrite <- not_true_iff_false, Qle_bool_iff. split.
  - apply Qnot_le_lt.
  - apply Qlt_not_le.
Qed.



#[local] Arguments _getHeightOfItem : simpl never.
#[local] Arguments _isItemHeightKnown : simpl never.










Lemma rangeHeight_single cache props i :
  rangeHeight cache props i i = heightAt cache props i.
Proof.
  rewrite rangeHeight_cons by lia. rewrite (rangeHeight_empty _ _ (i + 1) i) by lia. lia.
Qed.

(** The seed pass finds the first item whose bottom edge is below the
    limit. *)
Lemma findFirstInRenderBlock_spec props s limit items i0 y i item y' :
  0 ≤ i0 → drop (Z.to_nat i0) (itemList props) = items →
  findFirstInRenderBlock s items i0 y limit = Some (i, item, y') →
  itemAt props i = Some item ∧ i0 ≤ i
  ∧ y' = y + rangeHeight (_heightCache s) props i0 i
  ∧ ZgtQ y' limit = true
  ∧ (i0 < i → ZgtQ (y' - heightOf (_heightCache s) item) limit = false).
Proof.
  revert i0 y. induction items as [|item0 items IH]; intros i0 y Hi0 Hdrop; simpl; [done|].
  assert (itemAt props i0 = Some item0) as Hitem0.
  { apply itemAt_Some. split; [done|].
    rewrite <- (Nat.add_0_r (Z.to_nat i0)), <- lookup_drop, Hdrop. done. }
  assert (heightAt (_heightCache s) props i0 = heightOf (_heightCache s) item0) as Hh0
    by (unfold heightAt; by rewrite Hitem0).
  rewrite getHeightOfItem_heightOf.
  destruct (ZgtQ (y + heightOf (_heightCache s) item0) limit) eqn:Hgt.
  - intros [= <- <- <-]. rewrite rangeHeight_single, Hh0. repeat split; (done || lia).
  - intros E. apply IH in E as (H1 & H2 & H3 & H4 & H5); [|lia|].
    + split; [done|]. split; [lia|]. split; [|split; [done|]].
      * rewrite H3, (rangeHeight_cons _ _ i0 i), Hh0 by lia. lia.
      * intros _. destruct (decide (i = i0 + 1)) as [->|Hne]; [|apply H5; lia].
        rewrite H3, rangeHeight_single. unfold heightAt. rewrite H1.
        replace (y + heightOf (_heightCache s) item0 + heightOf (_heightCache s) item
                 - heightOf (_heightCache s) item)
          with (y + heightOf (_heightCache s) item0) by lia.
        done.
    + replace (Z.to_nat (i0 + 1)) with (Z.to_nat i0 + 1)%nat by lia.
      by rewrite <- drop_drop, Hdrop.
Qed.











Lemma setCellTopAndVisibility_lookup k v y a s k' :
  _activeCells (_setCellTopAndVisibility k v y a s) !! k'
  = if decide (k' = k)
    then CellInfo.setTopAndVisibility v y <$> _activeCells s !! k
    else _activeCells s !! k'.
Proof.
  destruct (_activeCells s !! k) as [cell|] eqn:E.
  - rewrite (setCellTopAndVisibility_active _ _ _ _ _ _ E). simpl.
    destruct (decide (k' = k)) as [->|Hne].
    + by rewrite lookup_insert_eq.
    + by rewrite lookup_insert_ne.
  - unfold _setCellTopAndVisibility. rewrite E.
    destruct (decide (k' = k)) as [->|Hne]; [by rewrite E|done].
Qed.

Lemma cellsOnly_shouldShowItem s s' item :
  cellsOnly s s' → _shouldShowItem s' item = _shouldShowItem s item.
Proof. by intros (ac & rc & nk & d & hc & ->). Qed.









Lemma allocateCell_lookup_ne k t i c h y v s k' :
  k' ≠ k → _activeCells (_allocateCell k t i c h y v s) !! k' = _activeCells s !! k'.
Proof.
  intros Hne. unfold _allocateCell.
  destruct (existingCell s k t c h) as [[newCell pool]|]; simpl.
  - destruct (CellInfo.cellRef newCell); simpl; by rewrite lookup_insert_ne.
  - by rewrite lookup_insert_ne.
Qed.

Lemma allocateCell_lookup_eq k t i c h y v s :
  ∃ cell, _activeCells (_allocateCell k t i c h y v s) !! k = Some cell
          ∧ CellInfo.top cell = y ∧ CellInfo.isVisible cell = v.
Proof.
  unfold _allocateCell.
  destruct (existingCell s k t c h) as [[newCell pool]|]; simpl.
  - destruct (CellInfo.cellRef newCell); simpl; rewrite lookup_insert_eq; by eexists.
  - rewrite lookup_insert_eq. by eexists.
Qed.

(** The geometry of the render block. *)
Definition geometry (s : VirtualListView) :=
  (_itemsAboveRenderBlock s, _itemsInRenderBlock s, _itemsBelowRenderBlock s,
   _heightAboveRenderBlock s, _heightOfRenderBlock s).

Lemma cellsOnly_geometry s s' : cellsOnly s s' → geometry s' = geometry s.
Proof. by intros (ac & rc & nk & d & hc & ->). Qed.


(** What [buildItem] does to the state. *)
Lemma buildItem_spec props idx above topY bottomY s topY' bottomY' s' :
  buildItem props idx above topY bottomY s = Some (topY', bottomY', s') →
  ∃ item,
    itemAt props idx = Some item
    ∧ steady s' = steady s
    ∧ _containerHeight s' = _containerHeight s
    ∧ _pendingMeasurements s ⊆ _pendingMeasurements s'
    ∧ geometry s'
      = (if above
         then (_itemsAboveRenderBlock s - 1, _itemsInRenderBlock s + 1,
               _itemsBelowRenderBlock s,
               _heightAboveRenderBlock s - heightOf (_heightCache s) item,
               _heightOfRenderBlock s + heightOf (_heightCache s) item)
         else (_itemsAboveRenderBlock s, _itemsInRenderBlock s + 1,
               _itemsBelowRenderBlock s - 1,
               _heightAboveRenderBlock s,
               _heightOfRenderBlock s + heightOf (_heightCache s) item))
    ∧ (topY', bottomY')
      = (if above then (topY - heightOf (_heightCache s) item, bottomY)
         else (topY, bottomY + heightOf (_heightCache s) item))
    ∧ (∀ k, k ≠ ItemInfo.key item → _activeCells s' !! k = _activeCells s !! k)
    ∧ ∃ cell, _activeCells s' !! ItemInfo.key item = Some cell
              ∧ CellInfo.top cell
                = (if above then topY - heightOf (_heightCache s) item else bottomY)
              ∧ CellInfo.isVisible cell = _shouldShowItem s item.
Proof.
  unfold buildItem. destruct (itemAt props idx) as [item|]; [simpl|done].
  rewrite getHeightOfItem_heightOf.
  set (h := heightOf (_heightCache s) item).
  assert (∀ x y v,
            steady x = steady s → _containerHeight x = _containerHeight s →
            _pendingMeasurements s ⊆ _pendingMeasurements x →
            _activeCells x = _activeCells s →
            v = _shouldShowItem s item →
            let r := _allocateCell (ItemInfo.key item) (ItemInfo.template item) idx
                       (negb (ItemInfo.measureHeight item)) (ItemInfo.height item) y v x in
            steady r = steady s ∧ _containerHeight r = _containerHeight s
            ∧ _pendingMeasurements s ⊆ _pendingMeasurements r
            ∧ geometry r = geometry x
            ∧ (∀ k, k ≠ ItemInfo.key item → _activeCells r !! k = _activeCells s !! k)
            ∧ ∃ cell, _activeCells r !! ItemInfo.key item = Some cell
                      ∧ CellInfo.top cell = y
                      ∧ CellInfo.isVisible cell = _shouldShowItem s item) as Halloc.
  { intros x y v Hs Hc Hp Hac -> r. subst r.
    match goal with
    | |- context [_allocateCell ?k ?t ?i ?c ?h ?y ?v ?x] =>
        pose proof (allocateCell_cellsOnly k t i c h y v x) as Hcells;
        destruct (allocateCell_lookup_eq k t i c h y v x) as (cell & Hcell & Htop & Hvis);
        pose proof (λ k', allocateCell_lookup_ne k t i c h y v x k') as Hother
    end.
    rewrite (cellsOnly_steady _ _ Hcells), (cellsOnly_geometry _ _ Hcells).
    split; [done|]. split; [|split; [|split; [done|split]]].
    - destruct Hcells as (ac & rc & nk & d & hc & ->). done.
    - destruct Hcells as (ac & rc & nk & d & hc & ->). done.
    - intros k Hk'. by rewrite Hother, Hac.
    - by exists cell. }
  destruct above, (_isItemHeightKnown s item) eqn:Hk; intros [= <- <- <-]; exists item;
    (split; [done|]);
    match goal with
    | |- context [_allocateCell _ _ _ _ _ ?y ?v ?x] =>
        destruct (Halloc x y v) as (H1 & H2 & H3 & H4 & H5 & H6);
          [done|done|simpl; first [reflexivity|apply union_subseteq_l]|done|
           unfold _shouldShowItem, _isItemHeightKnown; done|]
    end;
    (split; [exact H1|]); (split; [exact H2|]); (split; [exact H3|]);
    (split; [rewrite H4; reflexivity|]); (split; [reflexivity|]);
    (split; [exact H5|exact H6]).
Qed.
























(** * The cell store *)

(** The five constants that size the overdraw and cull margins. *)
Definition tuning (s : VirtualListView) : Q * Q * Q * Q * Q :=
  (_renderOverdrawFactor s, _minOverdrawAmount s, _maxOverdrawAmount s,
   _cullFraction s, _minCullAmount s).

(** The cells the view owns and the settings it manages them under: the
    active cells by item key, the recycling pool, the next virtual key and
    the capacity of the pool; the platform, whether a screen reader is on,
    and the tuning constants. *)
Definition CellStore : Type :=
  gmap string VirtualCellInfo * list VirtualCellInfo * nat * Z * Platform * bool
  * (Q * Q * Q * Q * Q).

Definition cellStore (s : VirtualListView) : CellStore :=
  (_activeCells s, _recycledCells s, _nextCellKey s, _maxRecycledCells s,
   _platform s, _isScreenReaderEnabled s, tuning s).

Lemma cellsOnly_maxRecycledCells s s' :
  cellsOnly s s' → _maxRecycledCells s' = _maxRecycledCells s.
Proof. by intros (ac & rc & nk & d & hc & ->). Qed.

Lemma scrollToTop_cellStore a y s : cellStore (scrollToTop a y s) = cellStore s.
Proof. unfold scrollToTop. by split_cases. Qed.

Lemma scrollToItemKey_cellStore k s : cellStore (_scrollToItemKey k s) = cellStore s.
Proof.
  unfold _scrollToItemKey, _scrollToItemIndex. destruct (lastIndexOfKey _ _ _ _); [|done].
  apply scrollToTop_cellStore.
Qed.

Lemma focusSubsequentItem_cellStore d v r s :
  cellStore (snd (_focusSubsequentItem d v r s)) = cellStore s.
Proof.
  unfold _focusSubsequentItem.
  destruct (match findIndex _ _ with Some _ => _ | None => _ end) as [[k vk]|].
  - simpl. destruct (_activeCells s !! k) as [c|]; [|done].
    destruct (CellInfo.cellRef c) as [m|]; [|done].
    destruct (CellInfo.propsItemKey m); [|done].
    destruct (_ && _); [|done]. by rewrite scrollToItemKey_cellStore.
  - destruct (findIndex _ _); [done|]. destruct (lastFocusedItemKey _); [|done].
    destruct r; [|done]. destruct (_itemMap s !! _); [|done].
    simpl. unfold cellStore; simpl. fold (cellStore (scrollToTop false
      (if (n =? 0)%nat then 0 else _calcHeightOfItems s (_props s) 0 (Z.of_nat n - 1)) s)).
    apply scrollToTop_cellStore.
Qed.

Lemma refocusAfterRemoval_cellStore s : cellStore (refocusAfterRemoval s) = cellStore s.
Proof.
  unfold refocusAfterRemoval.
  pose proof (focusSubsequentItem_cellStore Down false false s) as Hd.
  destruct (_focusSubsequentItem Down false false s) as [[] s1]; simpl in Hd; [done|].
  pose proof (focusSubsequentItem_cellStore Up false false s1) as Hu.
  destruct (_focusSubsequentItem Up false false s1) as [[] s2]; simpl in Hu; [congruence|].
  unfold cellStore, tuning in *. simpl. congruence.
Qed.

Lemma renderIfDirty_cellStore s : cellStore (_renderIfDirty s) = cellStore s.
Proof. unfold _renderIfDirty. by split_cases. Qed.

Lemma setFocusIfNeeded_cellStore s : cellStore (_setFocusIfNeeded s) = cellStore s.
Proof.
  unfold _setFocusIfNeeded. destruct (_pendingFocusDirection s) as [d|]; [|done].
  apply (focusSubsequentItem_cellStore d false false s).
Qed.

Lemma awaitMeasurement_cellStore item s :
  cellStore (awaitMeasurement item s) = cellStore s.
Proof. unfold awaitMeasurement. by destruct (_isItemHeightKnown s item). Qed.

Lemma resizeAllItems_cellStore s : cellStore (_resizeAllItems s) = cellStore s.
Proof. unfold _resizeAllItems. by split_cases. Qed.

(** The constants [_updateStateFromProps] chooses on the initial build
    when unchanged items are not to be rendered again. *)
Definition initialTuning (props : Props) (initialBuild : bool) (s : VirtualListView) :
    VirtualListView :=
  if initialBuild && skipRenderIfItemUnchanged props then
    set_minCullAmount 3072%Q
      (set_cullFraction 6%Q
         (set_maxOverdrawAmount 4096%Q
            (set_minOverdrawAmount 2048%Q (set_renderOverdrawFactor 5%Q s))))
  else s.

(** An invariant of the cell store is a property of its components
    that the cell-management methods, rendering and the two accessibility
    switches keep, and that holds of a new view.  Every handler then keeps
    it: the rest of the engine reaches the store through these methods
    only. *)
Section CellStoreInvariant.

Variable I : CellStore → Prop.

Definition storeInvariant (s : VirtualListView) : Prop := I (cellStore s).

Hypothesis setCellTopAndVisibility_keeps : ∀ k v y a s,
  storeInvariant s → storeInvariant (_setCellTopAndVisibility k v y a s).
Hypothesis allocateCell_keeps : ∀ k t i c h y v s,
  storeInvariant s → storeInvariant (_allocateCell k t i c h y v s).
Hypothesis recycleCell_keeps : ∀ k s,
  storeInvariant s → storeInvariant (_recycleCell k s).
Hypothesis markShouldUpdate_keeps : ∀ k s,
  storeInvariant s → storeInvariant (markShouldUpdate k s).
Hypothesis render_keeps : ∀ s s',
  render s = Some s' → storeInvariant s → storeInvariant s'.
Hypothesis setupForAccessibility_keeps : ∀ s,
  storeInvariant s → storeInvariant (_setupForAccessibility s).
Hypothesis tearDownForAccessibility_keeps : ∀ s,
  storeInvariant s → storeInvariant (_tearDownForAccessibility s).
Hypothesis newView_holds : ∀ platform props,
  storeInvariant (initialTuning props true (newView platform props)).

Lemma cellStore_keeps s s' : cellStore s' = cellStore s → storeInvariant s → storeInvariant s'.
Proof. unfold storeInvariant. by intros ->. Qed.

Lemma recycleIfActive_keeps k s : storeInvariant s → storeInvariant (recycleIfActive k s).
Proof. unfold recycleIfActive. destruct (_ !! _); [apply recycleCell_keeps|done]. Qed.

Lemma buildItemMap_keeps items i m s :
  storeInvariant s → storeInvariant (snd (buildItemMap items i m s)).
Proof.
  revert i m s. induction items as [|item items IH]; intros i m s Hs; simpl; [done|].
  apply IH. destruct (_activeCells s !! _); [|done].
  destruct (_itemMap s !! _); [|by apply markShouldUpdate_keeps].
  destruct (_ || _); [by apply markShouldUpdate_keeps|done].
Qed.

Lemma stopTrackingItem_keeps item i s :
  storeInvariant s → storeInvariant (stopTrackingItem item i s).
Proof.
  intros Hs. unfold stopTrackingItem. apply recycleIfActive_keeps.
  by destruct (i <? _itemsAboveRenderBlock s).
Qed.

Lemma stopTrackingDeleted_keeps oldItems i m s :
  storeInvariant s → storeInvariant (stopTrackingDeleted oldItems i m s).
Proof.
  revert i s. induction oldItems as [|item oldItems IH]; intros i s Hs; simpl; [done|].
  apply IH. destruct (m !! _); [done|]. apply stopTrackingItem_keeps.
  destruct (bool_decide _); [|done].
  by eapply cellStore_keeps; [apply refocusAfterRemoval_cellStore|].
Qed.

Lemma placeItem_keeps props item i top bottom h y looking s :
  storeInvariant s →
  storeInvariant (snd (placeItem props item i top bottom h y looking s)).
Proof.
  intros Hs. unfold placeItem.
  destruct (ZleQ y top); [by apply recycleIfActive_keeps|].
  destruct (ZltQ _ _).
  - match goal with |- context [_activeCells ?x !! _] => destruct (_activeCells x !! _) end;
      simpl.
    + apply setCellTopAndVisibility_keeps. by destruct looking.
    + eapply cellStore_keeps; [apply awaitMeasurement_cellStore|].
      apply allocateCell_keeps. by destruct looking.
  - apply recycleIfActive_keeps. by destruct looking.
Qed.

Lemma determineRenderBlock_keeps props items i top bottom y looking s :
  storeInvariant s →
  storeInvariant (determineRenderBlock props items i top bottom y looking s).
Proof.
  revert i y looking s.
  induction items as [|item items IH]; intros i y looking s Hs; simpl; [done|].
  pose proof (placeItem_keeps props item i top bottom (_getHeightOfItem s (Some item))
                (y + _getHeightOfItem s (Some item)) looking s Hs) as H.
  destruct (placeItem _ _ _ _ _ _ _ _ _) as [looking' s1]. by apply IH.
Qed.

Lemma handleItemListChange_keeps props s :
  storeInvariant s → storeInvariant (_handleItemListChange props s).
Proof.
  intros Hs. unfold _handleItemListChange.
  pose proof (buildItemMap_keeps (itemList props) 0 ∅ s Hs) as H1.
  destruct (buildItemMap _ _ _ _) as [m s1]. simpl in H1.
  apply (stopTrackingDeleted_keeps (itemList (_props s1)) 0 m) in H1.
  set (s2 := stopTrackingDeleted _ _ _ _) in *. clearbody s2.
  assert (storeInvariant (determineRenderBlockBounds props s2)) as H3
    by (by apply determineRenderBlock_keeps).
  set (s3 := determineRenderBlockBounds props s2) in *. clearbody s3.
  unfold prepopulateContainerHeight. by destruct (_ =? 0).
Qed.

Lemma cullFromTop_keeps fuel props line s s' :
  cullFromTop fuel props line s = Some s' → storeInvariant s → storeInvariant s'.
Proof.
  revert s. induction fuel as [|fuel IH]; intros s; simpl.
  { by intros [= ->]. }
  destruct (_itemsInRenderBlock s >? 0); [|by intros [= ->]].
  destruct (itemAt props _) as [item|]; [simpl|done].
  destruct (negb _); [by intros [= ->]|].
  destruct (ZgeQ _ _); [by intros [= ->]|].
  intros H Hs. apply (IH _ H). by apply recycleCell_keeps.
Qed.

Lemma cullFromBottom_keeps fuel props line s s' :
  cullFromBottom fuel props line s = Some s' → storeInvariant s → storeInvariant s'.
Proof.
  revert s. induction fuel as [|fuel IH]; intros s; simpl.
  { by intros [= ->]. }
  destruct (_itemsInRenderBlock s >? 0); [|by intros [= ->]].
  destruct (itemAt props _) as [item|]; [simpl|done].
  destruct (negb _); [by intros [= ->]|].
  destruct (ZleQ _ _); [by intros [= ->]|].
  intros H Hs. apply (IH _ H). by apply recycleCell_keeps.
Qed.

Lemma seedRenderBlock_keeps props limit s :
  storeInvariant s → storeInvariant (seedRenderBlock props limit s).
Proof.
  intros Hs. unfold seedRenderBlock.
  destruct (findFirstInRenderBlock _ _ _ _ _) as [[[i item] y]|]; [|done].
  apply (cellStore_keeps (awaitMeasurement item
    (_allocateCell (ItemInfo.key item) (ItemInfo.template item) i
       (negb (ItemInfo.measureHeight item)) (ItemInfo.height item)
       (y - _getHeightOfItem (set_itemsAboveRenderBlock 0 s) (Some item))
       (_shouldShowItem (set_itemsAboveRenderBlock 0 s) item)
       (set_itemsInRenderBlock 1 (set_itemsAboveRenderBlock i
          (set_itemsAboveRenderBlock 0 s)))))); [done|].
  eapply cellStore_keeps; [apply awaitMeasurement_cellStore|].
  by apply allocateCell_keeps.
Qed.

Lemma repositionItems_keeps n props i y s y' s' :
  repositionItems n props i y s = Some (y', s') → storeInvariant s → storeInvariant s'.
Proof.
  revert i y s. induction n as [|n IH]; intros i y s; simpl.
  { by intros [= _ ->]. }
  destruct (itemAt props _) as [item|]; [simpl|done].
  intros H Hs. apply (IH _ _ _ H). by apply setCellTopAndVisibility_keeps.
Qed.

Lemma buildItem_keeps props idx above topY bottomY s topY' bottomY' s' :
  buildItem props idx above topY bottomY s = Some (topY', bottomY', s') →
  storeInvariant s → storeInvariant s'.
Proof.
  unfold buildItem. destruct (itemAt props idx) as [item|]; [simpl|done].
  destruct above, (_isItemHeightKnown s item); intros [= _ _ <-] Hs;
    by apply allocateCell_keeps.
Qed.

Lemma growAtBottom_keeps fuel props limit topY bottomY s topY' bottomY' s' :
  growAtBottom fuel props limit topY bottomY s = Some (topY', bottomY', s') →
  storeInvariant s → storeInvariant s'.
Proof.
  revert topY bottomY s. induction fuel as [|fuel IH]; intros topY bottomY s; simpl.
  { by intros [= _ _ ->]. }
  destruct (_ <? _)%nat; [|by intros [= _ _ ->]].
  destruct (_ || _); [by intros [= _ _ ->]|].
  destruct (buildItem _ _ _ _ _ _) as [[[t b] s1]|] eqn:E; [simpl|done].
  intros H Hs. apply (IH _ _ _ H). by eapply buildItem_keeps.
Qed.

Lemma growAtTop_keeps fuel props limit topY bottomY s topY' bottomY' s' :
  growAtTop fuel props limit topY bottomY s = Some (topY', bottomY', s') →
  storeInvariant s → storeInvariant s'.
Proof.
  revert topY bottomY s. induction fuel as [|fuel IH]; intros topY bottomY s; simpl.
  { by intros [= _ _ ->]. }
  destruct (_ <? _)%nat; [|by intros [= _ _ ->]].
  destruct (_ || _); [by intros [= _ _ ->]|].
  destruct (buildItem _ _ _ _ _ _) as [[[t b] s1]|] eqn:E; [simpl|done].
  intros H Hs. apply (IH _ _ _ H). by eapply buildItem_keeps.
Qed.

Lemma popItems_keeps n props i s s' :
  popItems n props i s = Some s' → storeInvariant s → storeInvariant s'.
Proof.
  revert i s. induction n as [|n IH]; intros i s; simpl.
  { by intros [= ->]. }
  destruct (itemAt props _) as [item|]; [simpl|done].
  destruct (_activeCells s !! _) as [c|]; [simpl|done].
  intros H Hs. apply (IH _ _ H). by apply setCellTopAndVisibility_keeps.
Qed.

Lemma calc_keeps props s s' :
  _calcNewRenderedItemState props s = Some s' → storeInvariant s → storeInvariant s'.
Proof.
  unfold _calcNewRenderedItemState.
  destruct (_layoutHeight s =? 0); [by intros [= <-]|].
  destruct (_ =? _)%nat; [by intros [= <-]|].
  destruct (_ <? _)%nat; [by intros [= <-]|].
  destruct (cullFromTop _ _ _ _) as [s1|] eqn:E1; [simpl|done].
  destruct (cullFromBottom _ _ _ _) as [s2|] eqn:E2; [simpl|done].
  set (s3 := if _itemsInRenderBlock s2 =? 0 then _ else s2).
  destruct (repositionItems _ _ _ _ _) as [[y4 s4]|] eqn:E4; [simpl|done].
  set (s5 := if negb _ then _ else s4).
  destruct (growAtBottom _ _ _ _ _ _) as [[[t6 b6] s6]|] eqn:E6; [simpl|done].
  destruct (growAtTop _ _ _ _ _ _) as [[[t7 b7] s7]|] eqn:E7; [simpl|done].
  intros H Hs.
  apply (cullFromTop_keeps _ _ _ _ _ E1) in Hs.
  apply (cullFromBottom_keeps _ _ _ _ _ E2) in Hs.
  assert (storeInvariant s3) as H3.
  { subst s3. destruct (_itemsInRenderBlock s2 =? 0); [|done].
    by apply seedRenderBlock_keeps. }
  apply (repositionItems_keeps _ _ _ _ _ _ _ E4) in H3.
  assert (storeInvariant s5) as H5 by (subst s5; by destruct (negb _)).
  apply (growAtBottom_keeps _ _ _ _ _ _ _ _ _ E6) in H5.
  apply (growAtTop_keeps _ _ _ _ _ _ _ _ _ E7) in H5.
  destruct (_ && _); [|by injection H as <-].
  unfold _popInvisibleIntoView in H.
  destruct (popItems _ _ _ _) as [s8|] eqn:E8; [|done].
  injection H as <-. by apply (popItems_keeps _ _ _ _ _ E8).
Qed.

Lemma shiftCells_keeps n props i s s' :
  shiftCells n props i s = Some s' → storeInvariant s → storeInvariant s'.
Proof.
  revert i s. induction n as [|n IH]; intros i s; simpl.
  { by intros [= ->]. }
  destruct (itemAt props _) as [item|]; [simpl|done].
  destruct (_activeCells s !! _) as [c|]; [simpl|done].
  intros H Hs. apply (IH _ _ H). by apply setCellTopAndVisibility_keeps.
Qed.

Lemma reconcile_keeps props s s' :
  _reconcileCorrections props s = Some s' → storeInvariant s → storeInvariant s'.
Proof.
  unfold _reconcileCorrections.
  destruct (_ <? _)%nat; [by intros [= <-]|].
  destruct (_ >? _); [|by intros [= <-]].
  destruct (shiftCells _ _ _ _) as [s1|] eqn:E; [simpl|done].
  intros [= <-] Hs. by apply (shiftCells_keeps _ _ _ _ _ E).
Qed.

Lemma calcAndReconcile_keeps s s' :
  (s1 ← _calcNewRenderedItemState (_props s) s;
   _reconcileCorrections (_props (_renderIfDirty s1)) (_renderIfDirty s1)) = Some s' →
  storeInvariant s → storeInvariant s'.
Proof.
  destruct (_calcNewRenderedItemState _ _) as [s1|] eqn:E1; [simpl|done].
  intros E2 Hs. apply (reconcile_keeps _ _ _ E2).
  eapply cellStore_keeps; [apply renderIfDirty_cellStore|].
  by apply (calc_keeps _ _ _ E1).
Qed.

Lemma onLayoutContainer_keeps w h s s' :
  _onLayoutContainer w h s = Some s' → storeInvariant s → storeInvariant s'.
Proof.
  unfold _onLayoutContainer. destruct (negb (_isMounted s)); [by intros [= <-]|].
  set (s1 := if negb _ then _ else s).
  assert (cellStore s1 = cellStore s) as H1.
  { subst s1. destruct (negb _); [|done].
    by rewrite resizeAllItems_cellStore. }
  clearbody s1. destruct (negb _); [|intros [= <-]; by apply (cellStore_keeps s)].
  intros H Hs. apply (calcAndReconcile_keeps (set_layoutHeight h s1) _ H).
  by apply (cellStore_keeps s).
Qed.

Lemma onScroll_keeps y x s s' :
  _onScroll y x s = Some s' → storeInvariant s → storeInvariant s'.
Proof.
  unfold _onScroll. destruct (_ =? _); [by intros [= <-]|].
  intros H Hs. by apply (calcAndReconcile_keeps (set_lastScrollTop y s) _ H).
Qed.

Lemma onLayoutItem_keeps k h s s' :
  _onLayoutItem k h s = Some s' → storeInvariant s → storeInvariant s'.
Proof.
  unfold _onLayoutItem. destruct (negb (_isMounted s)); [by intros [= <-]|].
  destruct (_itemMap s !! k) as [idx|]; [|by intros [= <-]].
  destruct (itemAt _ _) as [item|]; [simpl|done].
  destruct (negb (ItemInfo.measureHeight item)); [by intros [= <-]|].
  destruct (_ || _); [by intros [= <-]|].
  match goal with
  | |- context [mbind _ ?m] => destruct m as [[needsRecalc s1]|] eqn:E1; [simpl|done]
  end.
  intros H Hs.
  assert (cellStore s1 = cellStore s) as H1.
  { revert E1. destruct (negb (_ =? _)); [|by intros [= _ <-]].
    destruct (_isInitialFillComplete _); [|by intros [= _ <-]].
    destruct (foundVisibleItemBefore _ _ _ _) as [found|]; [simpl|done].
    destruct (negb found); by intros [= _ <-]. }
  revert H.
  match goal with
  | |- context [if ?b then _ else _] => destruct b
  end.
  - destruct (_calcNewRenderedItemState _ _) as [s2|] eqn:E2; [simpl|done].
    intros E3. apply (reconcile_keeps _ _ _ E3).
    eapply cellStore_keeps; [apply renderIfDirty_cellStore|].
    apply (calc_keeps _ _ _ E2). by apply (cellStore_keeps s).
  - simpl. intros E3. apply (reconcile_keeps _ _ _ E3). by apply (cellStore_keeps s).
Qed.

Lemma updateStateFromProps_keeps props initialBuild s s' :
  _updateStateFromProps props initialBuild s = Some s' →
  storeInvariant (initialTuning props initialBuild s) → storeInvariant s'.
Proof.
  unfold _updateStateFromProps. fold (initialTuning props initialBuild s).
  set (s1 := initialTuning props initialBuild s).
  assert (itemList (_props s1) = itemList (_props s)) as Hp
    by (subst s1; unfold initialTuning; by destruct (_ && _)).
  clearbody s1. intros H Hs. revert H.
  destruct (_ || _).
  - destruct (_calcNewRenderedItemState _ _) as [s2|] eqn:E2; [simpl|done].
    intros [= <-]. eapply cellStore_keeps; [apply renderIfDirty_cellStore|].
    apply (calc_keeps _ _ _ E2). by apply handleItemListChange_keeps.
  - simpl. intros [= <-]. by eapply cellStore_keeps; [apply renderIfDirty_cellStore|].
Qed.

Lemma componentDidMount_keeps b s :
  storeInvariant s → storeInvariant (componentDidMount b s).
Proof.
  intros Hs. unfold componentDidMount.
  set (s1 := if b then _ else s).
  assert (storeInvariant s1) as H1
    by (subst s1; destruct b; [by apply setupForAccessibility_keeps|done]).
  clearbody s1.
  destruct (initialSelectedKey _) as [k|]; [|done].
  destruct (negb _); [|done].
  eapply cellStore_keeps; [apply scrollToItemKey_cellStore|done].
Qed.

Lemma screenReaderStateChanged_keeps b s :
  storeInvariant s → storeInvariant (_screenReaderStateChanged b s).
Proof.
  intros Hs. unfold _screenReaderStateChanged.
  destruct b; [|by apply tearDownForAccessibility_keeps].
  eapply cellStore_keeps; [apply renderIfDirty_cellStore|].
  apply setupForAccessibility_keeps in Hs.
  by destruct (_isNativeAndroid _).
Qed.

Lemma onKeyDown_cellStore d s : cellStore (_onKeyDown d s) = cellStore s.
Proof.
  unfold _onKeyDown. destruct (_isMounted s); [|done].
  apply focusSubsequentItem_cellStore.
Qed.

Lemma afterRender_keeps s s' :
  afterRender s = Some s' → storeInvariant s → storeInvariant s'.
Proof.
  unfold afterRender. destruct (_isMounted s); [|by intros [= <-]].
  destruct (_calcNewRenderedItemState _ _) as [s1|] eqn:E1; [simpl|done].
  destruct (_reconcileCorrections _ _) as [s2|] eqn:E2; [simpl|done].
  intros [= <-] Hs. eapply cellStore_keeps; [apply setFocusIfNeeded_cellStore|].
  apply (reconcile_keeps _ _ _ E2).
  eapply cellStore_keeps; [apply renderIfDirty_cellStore|].
  by apply (calc_keeps _ _ _ E1).
Qed.

Lemma handle_keeps e s s' :
  handle e s = Some s' → storeInvariant s → storeInvariant s'.
Proof.
  destruct e; simpl.
  - destruct (render s) as [s1|] eqn:E; [simpl|done]. intros [= <-] Hs.
    apply componentDidMount_keeps. by apply (render_keeps _ _ E).
  - unfold UNSAFE_componentWillReceiveProps.
    destruct (negb _).
    + destruct (_updateStateFromProps _ _ _) as [s1|] eqn:E; [simpl|done].
      intros [= <-] Hs. by apply (updateStateFromProps_keeps _ _ _ _ E) in Hs.
    + simpl. by intros [= <-].
  - destruct (render s) as [s1|] eqn:E; [simpl|done]. intros [= <-] Hs.
    by apply (render_keeps _ _ E) in Hs.
  - by intros [= <-].
  - apply onLayoutContainer_keeps.
  - apply onLayoutItem_keeps.
  - intros [= <-]. unfold _onAnimateStartStopItem. by split_cases.
  - apply onScroll_keeps.
  - intros [= <-]. unfold _onItemFocused. by destruct itemInfo.
  - intros [= <-] Hs. unfold _onItemSelected, selectItemKey. done.
  - intros [= <-] Hs. by eapply cellStore_keeps; [apply onKeyDown_cellStore|].
  - intros [= <-]. apply screenReaderStateChanged_keeps.
  - destruct (_deferred s) as [|[] rest]; [by intros [= <-]| |].
    + intros H Hs. by apply (afterRender_keeps _ _ H).
    + unfold afterAnimationStop. simpl. destruct (_isMounted s); [|by intros [= <-]].
      destruct (_ && _); [|by intros [= <-]].
      intros H Hs. by apply (reconcile_keeps _ _ _ H).
Qed.

Lemma run_keeps events s s' :
  run events s = Some s' → storeInvariant s → storeInvariant s'.
Proof.
  revert s. induction events as [|e events IH]; intros s; simpl.
  { by intros [= <-]. }
  destruct (handle e s) as [s1|] eqn:E; [simpl|done].
  intros H Hs. apply (IH _ H). by apply (handle_keeps _ _ _ E).
Qed.

Lemma constructor_keeps platform props s :
  constructor platform props = Some s → storeInvariant s.
Proof.
  unfold constructor.
  destruct (_updateStateFromProps _ _ _) as [s1|] eqn:E; [simpl|done].
  intros [= <-]. by apply (updateStateFromProps_keeps _ _ _ _ E).
Qed.

Lemma reachable_keeps platform props events s :
  constructor platform props ≫= run events = Some s → storeInvariant s.
Proof.
  destruct (constructor platform props) as [s0|] eqn:E; [simpl|done].
  intros H. apply (run_keeps _ _ _ H). by apply (constructor_keeps _ _ _ E).
Qed.

End CellStoreInvariant.

(** ** What the cell-management methods do to the store *)

Lemma splice1_delete {A} (i : nat) (l : list A) : splice1 i l = delete i l.
Proof. unfold splice1. by rewrite delete_take_drop. Qed.

Lemma setCellTopAndVisibility_cellStore k v y a s :
  cellStore (_setCellTopAndVisibility k v y a s)
  = match _activeCells s !! k with
    | Some c =>
        (<[k := CellInfo.setTopAndVisibility v y c]> (_activeCells s), _recycledCells s,
         _nextCellKey s, _maxRecycledCells s,
         _platform s, _isScreenReaderEnabled s, tuning s)
    | None => cellStore s
    end.
Proof.
  unfold _setCellTopAndVisibility. destruct (_activeCells s !! k) as [c|]; [|done].
  by destruct (CellInfo.cellRef c).
Qed.

Lemma allocateCell_cellStore k t i c h y v s :
  cellStore (_allocateCell k t i c h y v s)
  = match existingCell s k t c h with
    | Some (newCell, pool) =>
        (<[k := CellInfo.setShouldUpdate true (CellInfo.setTopAndVisibility v y newCell)]>
           (_activeCells s), pool, _nextCellKey s, _maxRecycledCells s,
         _platform s, _isScreenReaderEnabled s, tuning s)
    | None =>
        (<[k := CellInfo.mk None (_nextCellKey s) t c h k y v true]> (_activeCells s),
         _recycledCells s, S (_nextCellKey s), _maxRecycledCells s,
         _platform s, _isScreenReaderEnabled s, tuning s)
    end.
Proof.
  unfold _allocateCell. destruct (existingCell s k t c h) as [[newCell pool]|].
  - by destruct (CellInfo.cellRef newCell).
  - unfold cellStore. simpl. by rewrite Nat.add_1_r.
Qed.

(** The pool after [_recycleCell] has offered it the cell [c]. *)
Definition pooled (s : VirtualListView) (c : VirtualCellInfo) : list VirtualCellInfo :=
  if (_maxRecycledCells s >? 0)
     && truthy (CellInfo.itemTemplate c) && CellInfo.isHeightConstant c
  then
    let pool := _recycledCells s ++ [CellInfo.setTopAndVisibility false (CellInfo.top c) c] in
    if Z.of_nat (length pool) >? _maxRecycledCells s then delete 0%nat pool else pool
  else _recycledCells s.

Lemma recycleCell_cellStore k s :
  cellStore (_recycleCell k s)
  = match _activeCells s !! k with
    | Some c => (delete k (_activeCells s), pooled s c, _nextCellKey s, _maxRecycledCells s,
         _platform s, _isScreenReaderEnabled s, tuning s)
    | None => cellStore s
    end.
Proof.
  unfold _recycleCell, pooled. destruct (_activeCells s !! k) as [c|] eqn:Hc; [|done].
  destruct (_maxRecycledCells s >? 0) eqn:Hmax; [|done].
  pose proof (setCellTopAndVisibility_cellStore k false (CellInfo.top c) false s) as E.
  rewrite Hc in E. set (s1 := _setCellTopAndVisibility _ _ _ _ _) in *. clearbody s1.
  pose proof (f_equal snd E) as E7. simpl in E7.
  pose proof (f_equal fst E) as E'. simpl in E'. injection E' as E1 E2 E3 E4 E5 E6.
  unfold tuning in E7. injection E7 as T1 T2 T3 T4 T5.
  simpl. destruct (truthy _ && _); simpl.
  - rewrite E2, E4. rewrite splice1_delete.
    destruct (Z.of_nat (length _) >? _); unfold cellStore, tuning; simpl;
      by rewrite E1, E3, E4, E5, E6, T1, T2, T3, T4, T5, delete_insert_eq.
  - unfold cellStore, tuning; simpl.
    by rewrite E1, E2, E3, E4, E5, E6, T1, T2, T3, T4, T5, delete_insert_eq.
Qed.

Lemma markShouldUpdate_cellStore k s :
  cellStore (markShouldUpdate k s)
  = match _activeCells s !! k with
    | Some c =>
        (<[k := CellInfo.setShouldUpdate true c]> (_activeCells s), _recycledCells s,
         _nextCellKey s, _maxRecycledCells s,
         _platform s, _isScreenReaderEnabled s, tuning s)
    | None => cellStore s
    end.
Proof. unfold markShouldUpdate. by destruct (_activeCells s !! k). Qed.

(** The cell React has mounted and rendered. *)
Definition renderedCell (itemKey : option string) (c : VirtualCellInfo) : VirtualCellInfo :=
  CellInfo.setShouldUpdate false
    (CellInfo.setCellRef (Some {| CellInfo.propsItemKey := itemKey |}) c).

(** Rendering changes the cells of the store one by one, keeping each
    one's virtual key. *)
Inductive sameCells :
  gmap string VirtualCellInfo → gmap string VirtualCellInfo → Prop :=
| sameCells_refl ac : sameCells ac ac
| sameCells_step ac ac' k c c' :
    sameCells ac ac' → ac' !! k = Some c → CellInfo.virtualKey c' = CellInfo.virtualKey c →
    sameCells ac (<[k := c']> ac').

Lemma sameCells_trans ac1 ac2 ac3 :
  sameCells ac1 ac2 → sameCells ac2 ac3 → sameCells ac1 ac3.
Proof.
  intros H12 H23. induction H23 as [|ac2 ac' k c c' H IH Hk Hvk]; [exact H12|].
  eapply sameCells_step; [by apply IH|exact Hk|exact Hvk].
Qed.

Lemma renderBlockCells_sameCells n i s s' :
  renderBlockCells n i s = Some s' →
  sameCells (_activeCells s) (_activeCells s')
  ∧ (_recycledCells s', _nextCellKey s', _maxRecycledCells s', _platform s',
     _isScreenReaderEnabled s', tuning s')
    = (_recycledCells s, _nextCellKey s, _maxRecycledCells s, _platform s,
       _isScreenReaderEnabled s, tuning s).
Proof.
  revert i s. induction n as [|n IH]; intros i s; simpl.
  { intros [= <-]. split; [constructor|done]. }
  destruct (itemAt _ _) as [item|]; [simpl|done].
  destruct (_activeCells s !! _) as [c|] eqn:Hc; [simpl|done].
  destruct (ItemInfo.isNavigable item); intros [H1 H2]%IH; simpl in H1, H2;
    (split; [|exact H2]);
    (eapply sameCells_trans; [|exact H1]);
    (eapply sameCells_step; [constructor|exact Hc|done]).
Qed.

Lemma render_cellStore s s' :
  render s = Some s' →
  sameCells (_activeCells s) (_activeCells s')
  ∧ _recycledCells s' = renderedCell None <$> _recycledCells s
  ∧ _nextCellKey s' = _nextCellKey s
  ∧ _maxRecycledCells s' = _maxRecycledCells s
  ∧ _platform s' = _platform s
  ∧ _isScreenReaderEnabled s' = _isScreenReaderEnabled s
  ∧ tuning s' = tuning s.
Proof.
  unfold render. destruct (renderBlockCells _ _ _) as [s1|] eqn:E; [simpl|done].
  intros [= <-]. apply renderBlockCells_sameCells in E as [H1 H2].
  pose proof (f_equal snd H2) as H7. simpl in H7.
  pose proof (f_equal fst H2) as H8. simpl in H8. injection H8 as H2' H3 H4 H5 H6.
  unfold tuning in *. simpl in *. by rewrite H2'.
Qed.

Lemma existingCell_Some s k t c h newCell pool :
  existingCell s k t c h = Some (newCell, pool) →
  (_activeCells s !! k = Some newCell ∧ pool = _recycledCells s)
  ∨ (_activeCells s !! k = None
     ∧ ∃ i, _recycledCells s !! i = Some newCell ∧ pool = delete i (_recycledCells s)).
Proof.
  unfold existingCell. destruct (_activeCells s !! k) as [c0|].
  { intros [= <- <-]. by left. }
  destruct (_ && _); [|done].
  destruct (bestOptionIndex _ _ _ _) as [i|]; [|done].
  destruct (_recycledCells s !! i) as [c0|] eqn:Hi; [|done].
  intros [= <- <-]. right. split; [done|]. exists i. by rewrite splice1_delete.
Qed.

Lemma existingCell_None s k t c h :
  existingCell s k t c h = None → _activeCells s !! k = None.
Proof. unfold existingCell. by destruct (_activeCells s !! k). Qed.

(** ** Virtual keys are never shared *)

(** No two cells of the store carry the same virtual key, and every
    virtual key in use lies below the next one to be handed out. *)
Definition distinctVirtualKeys (store : CellStore) : Prop :=
  let '(ac, rc, nk, _, _, _, _) := store in
  (∀ k1 k2 c1 c2, ac !! k1 = Some c1 → ac !! k2 = Some c2 →
     CellInfo.virtualKey c1 = CellInfo.virtualKey c2 → k1 = k2)
  ∧ NoDup (CellInfo.virtualKey <$> rc)
  ∧ (∀ k c c', ac !! k = Some c → c' ∈ rc →
       CellInfo.virtualKey c ≠ CellInfo.virtualKey c')
  ∧ (∀ k c, ac !! k = Some c → (CellInfo.virtualKey c < nk)%nat)
  ∧ (∀ c, c ∈ rc → (CellInfo.virtualKey c < nk)%nat).

Lemma distinct_update ac rc nk m m' p e t k c c' :
  distinctVirtualKeys (ac, rc, nk, m, p, e, t) → ac !! k = Some c →
  CellInfo.virtualKey c' = CellInfo.virtualKey c →
  distinctVirtualKeys (<[k := c']> ac, rc, nk, m', p, e, t).
Proof.
  intros (Ha & Hr & Har & Hna & Hnr) Hk Hvk. split; [|split; [|split; [|split]]].
  - intros k1 k2 c1 c2 [[<- <-]|[? H1]]%lookup_insert_Some
      [[<- <-]|[? H2]]%lookup_insert_Some E; [done| | |].
    + apply (Ha k k2 c c2); congruence.
    + apply (Ha k1 k c1 c); congruence.
    + by apply (Ha k1 k2 c1 c2).
  - done.
  - intros k1 c1 c1' [[<- <-]|[? H1]]%lookup_insert_Some Hc1.
    + rewrite Hvk. by apply (Har k c c1').
    + by apply (Har k1 c1 c1').
  - intros k1 c1 [[<- <-]|[? H1]]%lookup_insert_Some.
    + rewrite Hvk. by apply (Hna k c).
    + by apply (Hna k1 c1).
  - done.
Qed.

Lemma distinct_sameCells ac ac' rc nk m p e t :
  sameCells ac ac' → distinctVirtualKeys (ac, rc, nk, m, p, e, t) →
  distinctVirtualKeys (ac', rc, nk, m, p, e, t).
Proof.
  induction 1 as [|ac ac' k c c' H IH Hk Hvk]; [done|].
  intros Hd. eapply distinct_update; [by apply IH|exact Hk|exact Hvk].
Qed.

Lemma distinct_pool ac rc rc' nk m m' p e e' t :
  distinctVirtualKeys (ac, rc, nk, m, p, e, t) →
  CellInfo.virtualKey <$> rc' `sublist_of` CellInfo.virtualKey <$> rc →
  distinctVirtualKeys (ac, rc', nk, m', p, e', t).
Proof.
  intros (Ha & Hr & Har & Hna & Hnr) Hsub.
  assert (∀ c', c' ∈ rc' → ∃ c, c ∈ rc ∧ CellInfo.virtualKey c = CellInfo.virtualKey c')
    as Hin.
  { intros c' Hc'.
    assert (CellInfo.virtualKey c' ∈ CellInfo.virtualKey <$> rc) as (c & E & Hc)%list_elem_of_fmap.
    { eapply elem_of_sublist; [|exact Hsub]. apply list_elem_of_fmap. by exists c'. }
    by exists c. }
  split; [done|]. split; [by eapply sublist_NoDup|]. split; [|split; [done|]].
  - intros k c c' Hk (c0 & Hc0 & E)%Hin. rewrite <- E. by apply (Har k c c0).
  - intros c' (c0 & Hc0 & E)%Hin. rewrite <- E. by apply Hnr.
Qed.

Lemma distinct_delete ac rc nk m p e t k :
  distinctVirtualKeys (ac, rc, nk, m, p, e, t) → distinctVirtualKeys (delete k ac, rc, nk, m, p, e, t).
Proof.
  intros (Ha & Hr & Har & Hna & Hnr). split; [|split; [|split; [|split]]]; [|done| | |done].
  - intros k1 k2 c1 c2 [_ H1]%lookup_delete_Some [_ H2]%lookup_delete_Some.
    by apply Ha.
  - intros k1 c1 c' [_ H1]%lookup_delete_Some. by apply (Har k1).
  - intros k1 c1 [_ H1]%lookup_delete_Some. by apply (Hna k1).
Qed.

Lemma distinct_to_pool ac rc nk m p e t k c c' :
  distinctVirtualKeys (ac, rc, nk, m, p, e, t) → ac !! k = Some c →
  CellInfo.virtualKey c' = CellInfo.virtualKey c →
  distinctVirtualKeys (delete k ac, rc ++ [c'], nk, m, p, e, t).
Proof.
  intros (Ha & Hr & Har & Hna & Hnr) Hk Hvk. split; [|split; [|split; [|split]]].
  - intros k1 k2 c1 c2 [_ H1]%lookup_delete_Some [_ H2]%lookup_delete_Some.
    by apply Ha.
  - rewrite fmap_app. apply NoDup_app. split; [done|]. split; [|apply NoDup_singleton].
    intros vk (c0 & -> & Hc0)%list_elem_of_fmap [E|[]%elem_of_nil]%elem_of_cons.
    apply (Har k c c0 Hk Hc0). simpl in E. congruence.
  - intros k1 c1 c0 [Hne H1]%lookup_delete_Some [Hc0|[->|[]%elem_of_nil]%elem_of_cons]%elem_of_app.
    + by apply (Har k1).
    + rewrite Hvk. intros E. apply Hne. by apply (Ha k k1 c c1).
  - intros k1 c1 [_ H1]%lookup_delete_Some. by apply (Hna k1).
  - intros c0 [Hc0|[->|[]%elem_of_nil]%elem_of_cons]%elem_of_app; [by apply Hnr|].
    rewrite Hvk. by apply (Hna k).
Qed.

Lemma distinct_from_pool ac rc nk m p e t k i c c' :
  distinctVirtualKeys (ac, rc, nk, m, p, e, t) → ac !! k = None → rc !! i = Some c →
  CellInfo.virtualKey c' = CellInfo.virtualKey c →
  distinctVirtualKeys (<[k := c']> ac, delete i rc, nk, m, p, e, t).
Proof.
  intros (Ha & Hr & Har & Hna & Hnr) Hk Hi Hvk.
  pose proof (delete_Permutation rc i c Hi) as Hperm.
  assert (NoDup (CellInfo.virtualKey c :: (CellInfo.virtualKey <$> delete i rc))) as Hnd.
  { change (NoDup (CellInfo.virtualKey <$> c :: delete i rc)). by rewrite <- Hperm. }
  apply NoDup_cons in Hnd as [Hnotin Hnd].
  assert (c ∈ rc) as Hc by (by eapply list_elem_of_lookup_2).
  assert (∀ c0, c0 ∈ delete i rc → c0 ∈ rc) as Hsub.
  { intros c0 Hc0. rewrite Hperm. apply elem_of_cons. by right. }
  split; [|split; [|split; [|split]]].
  - intros k1 k2 c1 c2 [[<- <-]|[? H1]]%lookup_insert_Some
      [[<- <-]|[? H2]]%lookup_insert_Some E; [done| | |].
    + exfalso. apply (Har k2 c2 c H2 Hc). congruence.
    + exfalso. apply (Har k1 c1 c H1 Hc). congruence.
    + by apply (Ha k1 k2 c1 c2).
  - done.
  - intros k1 c1 c0 [[<- <-]|[? H1]]%lookup_insert_Some Hc0.
    + rewrite Hvk. intros E. apply Hnotin. apply list_elem_of_fmap. by exists c0.
    + apply (Har k1 c1 c0 H1). by apply Hsub.
  - intros k1 c1 [[<- <-]|[? H1]]%lookup_insert_Some.
    + rewrite Hvk. by apply Hnr.
    + by apply (Hna k1).
  - intros c0 Hc0. by apply Hnr, Hsub.
Qed.

Lemma distinct_fresh ac rc nk m p e t k c :
  distinctVirtualKeys (ac, rc, nk, m, p, e, t) → CellInfo.virtualKey c = nk →
  distinctVirtualKeys (<[k := c]> ac, rc, S nk, m, p, e, t).
Proof.
  intros (Ha & Hr & Har & Hna & Hnr) Hvk. split; [|split; [|split; [|split]]].
  - intros k1 k2 c1 c2 [[<- <-]|[? H1]]%lookup_insert_Some
      [[<- <-]|[? H2]]%lookup_insert_Some E; [done| | |].
    + apply Hna in H2. lia.
    + apply Hna in H1. lia.
    + by apply (Ha k1 k2 c1 c2).
  - done.
  - intros k1 c1 c0 [[<- <-]|[? H1]]%lookup_insert_Some Hc0.
    + apply Hnr in Hc0. lia.
    + by apply (Har k1 c1 c0).
  - intros k1 c1 [[<- <-]|[? H1]]%lookup_insert_Some; [lia|].
    apply Hna in H1. lia.
  - intros c0 Hc0%Hnr. lia.
Qed.

Lemma distinct_setCellTopAndVisibility k v y a s :
  storeInvariant distinctVirtualKeys s →
  storeInvariant distinctVirtualKeys (_setCellTopAndVisibility k v y a s).
Proof.
  unfold storeInvariant. rewrite setCellTopAndVisibility_cellStore.
  destruct (_activeCells s !! k) as [c|] eqn:Hc; [|done].
  intros H. by eapply distinct_update.
Qed.

Lemma distinct_allocateCell k t i c h y v s :
  storeInvariant distinctVirtualKeys s →
  storeInvariant distinctVirtualKeys (_allocateCell k t i c h y v s).
Proof.
  unfold storeInvariant. rewrite allocateCell_cellStore. intros H.
  destruct (existingCell s k t c h) as [[newCell pool]|] eqn:E.
  - apply existingCell_Some in E as [[Hk ->]|(Hk & j & Hj & ->)].
    + by eapply distinct_update.
    + by eapply distinct_from_pool.
  - by apply distinct_fresh.
Qed.

Lemma distinct_recycleCell k s :
  storeInvariant distinctVirtualKeys s →
  storeInvariant distinctVirtualKeys (_recycleCell k s).
Proof.
  unfold storeInvariant. rewrite recycleCell_cellStore.
  destruct (_activeCells s !! k) as [c|] eqn:Hc; [|done].
  intros H. unfold pooled. destruct (_ && _); [|by apply distinct_delete].
  pose proof (distinct_to_pool _ _ _ _ _ _ _ k c
    (CellInfo.setTopAndVisibility false (CellInfo.top c) c) H Hc eq_refl) as H'.
  simpl. destruct (_ >? _); [|exact H'].
  apply (distinct_pool _ _ _ _ (_maxRecycledCells s) (_maxRecycledCells s) _
           (_isScreenReaderEnabled s) (_isScreenReaderEnabled s) _ H').
  apply fmap_sublist, sublist_delete.
Qed.

Lemma distinct_markShouldUpdate k s :
  storeInvariant distinctVirtualKeys s →
  storeInvariant distinctVirtualKeys (markShouldUpdate k s).
Proof.
  unfold storeInvariant. rewrite markShouldUpdate_cellStore.
  destruct (_activeCells s !! k) as [c|] eqn:Hc; [|done].
  intros H. by eapply distinct_update.
Qed.

Lemma distinct_render s s' :
  render s = Some s' →
  storeInvariant distinctVirtualKeys s → storeInvariant distinctVirtualKeys s'.
Proof.
  intros (Ha & Hr & Hn & Hm & Hp & He & Ht)%render_cellStore.
  unfold storeInvariant, cellStore. rewrite Hr, Hn, Hm, Hp, He, Ht. intros H.
  apply (distinct_pool _ (_recycledCells s) _ _ (_maxRecycledCells s) (_maxRecycledCells s)
           _ (_isScreenReaderEnabled s) (_isScreenReaderEnabled s) (tuning s));
    [by eapply distinct_sameCells|].
  rewrite <- list_fmap_compose. done.
Qed.

Lemma distinct_setupForAccessibility s :
  storeInvariant distinctVirtualKeys s →
  storeInvariant distinctVirtualKeys (_setupForAccessibility s).
Proof.
  unfold storeInvariant, _setupForAccessibility. intros H.
  destruct (_ || _); [|done]. destruct (0 <? _)%nat; [|done].
  apply (distinct_pool _ _ _ _ (_maxRecycledCells s) _maxRecycledCellsForAccessibility
           _ (_isScreenReaderEnabled s) true _ H), sublist_nil_l.
Qed.

Lemma distinct_tearDownForAccessibility s :
  storeInvariant distinctVirtualKeys s →
  storeInvariant distinctVirtualKeys (_tearDownForAccessibility s).
Proof. unfold storeInvariant, _tearDownForAccessibility. by destruct (_ || _). Qed.

Lemma distinct_newView platform props :
  storeInvariant distinctVirtualKeys (initialTuning props true (newView platform props)).
Proof.
  unfold initialTuning. destruct (_ && _);
    (split; [|split; [|split; [|split]]]); try done.
  - apply NoDup_nil_2.
  - by intros c []%elem_of_nil.
  - apply NoDup_nil_2.
  - by intros c []%elem_of_nil.
Qed.

(** X1. The view never hands one virtual key to two cells: after any run
    of a constructed view no two active cells share a virtual key, no two
    cells of the recycling pool do, no active cell shares one with a cell
    of the pool, and every virtual key in use is smaller than the next
    one to be handed out. *)
Theorem virtual_keys_never_shared platform props events s :
  constructor platform props ≫= run events = Some s →
  (∀ k1 k2 c1 c2,
     _activeCells s !! k1 = Some c1 → _activeCells s !! k2 = Some c2 →
     CellInfo.virtualKey c1 = CellInfo.virtualKey c2 → k1 = k2)
  ∧ NoDup (CellInfo.virtualKey <$> _recycledCells s)
  ∧ (∀ k c c', _activeCells s !! k = Some c → c' ∈ _recycledCells s →
       CellInfo.virtualKey c ≠ CellInfo.virtualKey c')
  ∧ (∀ k c, _activeCells s !! k = Some c → (CellInfo.virtualKey c < _nextCellKey s)%nat)
  ∧ (∀ c, c ∈ _recycledCells s → (CellInfo.virtualKey c < _nextCellKey s)%nat).
Proof.
  apply (reachable_keeps distinctVirtualKeys distinct_setCellTopAndVisibility
           distinct_allocateCell distinct_recycleCell distinct_markShouldUpdate
           distinct_render distinct_setupForAccessibility
           distinct_tearDownForAccessibility distinct_newView).
Qed.

(** ** The capacity of the recycling pool *)

(** The pool holds no more cells than its capacity, and the capacity is
    that of the accessibility mode exactly while a screen reader is on on
    iOS or Android. *)
Definition poolWithinCapacity (store : CellStore) : Prop :=
  let '(_, rc, _, m, p, e, _) := store in
  Z.of_nat (length rc) ≤ m
  ∧ m = if e && (_isNativeIOS p || _isNativeAndroid p)
        then _maxRecycledCellsForAccessibility else _maxRecycledCellsDefault.

Lemma capacity_setCellTopAndVisibility k v y a s :
  storeInvariant poolWithinCapacity s →
  storeInvariant poolWithinCapacity (_setCellTopAndVisibility k v y a s).
Proof.
  unfold storeInvariant. rewrite setCellTopAndVisibility_cellStore.
  by destruct (_activeCells s !! k).
Qed.

Lemma capacity_allocateCell k t i c h y v s :
  storeInvariant poolWithinCapacity s →
  storeInvariant poolWithinCapacity (_allocateCell k t i c h y v s).
Proof.
  unfold storeInvariant. rewrite allocateCell_cellStore. intros [H1 H2].
  destruct (existingCell s k t c h) as [[newCell pool]|] eqn:E; [|done].
  apply existingCell_Some in E as [[Hk ->]|(Hk & j & Hj & ->)]; [done|].
  split; [|done]. pose proof (sublist_length _ _ (sublist_delete (_recycledCells s) j)).
  lia.
Qed.

Lemma capacity_recycleCell k s :
  storeInvariant poolWithinCapacity s →
  storeInvariant poolWithinCapacity (_recycleCell k s).
Proof.
  unfold storeInvariant. rewrite recycleCell_cellStore.
  destruct (_activeCells s !! k) as [c|]; [|done].
  intros [H1 H2]. split; [|exact H2]. unfold pooled.
  destruct ((_maxRecycledCells s >? 0) && _ && _); [simpl|exact H1].
  destruct (_ >? _) eqn:E.
  - rewrite length_delete by (apply lookup_lt_is_Some; rewrite length_app; simpl; lia).
    rewrite length_app. simpl. lia.
  - rewrite Z.gtb_ltb in E. apply Z.ltb_ge in E. exact E.
Qed.

Lemma capacity_markShouldUpdate k s :
  storeInvariant poolWithinCapacity s →
  storeInvariant poolWithinCapacity (markShouldUpdate k s).
Proof.
  unfold storeInvariant. rewrite markShouldUpdate_cellStore.
  by destruct (_activeCells s !! k).
Qed.

Lemma capacity_render s s' :
  render s = Some s' →
  storeInvariant poolWithinCapacity s → storeInvariant poolWithinCapacity s'.
Proof.
  intros (Ha & Hr & Hn & Hm & Hp & He & Ht)%render_cellStore.
  unfold storeInvariant, cellStore. rewrite Hr, Hn, Hm, Hp, He, Ht. simpl.
  by rewrite length_fmap.
Qed.

Lemma capacity_setupForAccessibility s :
  storeInvariant poolWithinCapacity s →
  storeInvariant poolWithinCapacity (_setupForAccessibility s).
Proof.
  unfold storeInvariant, _setupForAccessibility. intros [H1 H2]. simpl in H1, H2.
  destruct (_isNativeIOS (_platform (set_isScreenReaderEnabled true s)) || _) eqn:Hnative;
    simpl in Hnative.
  - destruct (0 <? _)%nat eqn:E; simpl; rewrite Hnative; [done|].
    apply Nat.ltb_ge in E. simpl in E. unfold _maxRecycledCellsForAccessibility.
    split; [lia|done].
  - simpl. rewrite Hnative. rewrite Hnative, andb_false_r in H2. done.
Qed.

Lemma capacity_tearDownForAccessibility s :
  storeInvariant poolWithinCapacity s →
  storeInvariant poolWithinCapacity (_tearDownForAccessibility s).
Proof.
  unfold storeInvariant, _tearDownForAccessibility. intros [H1 H2]. simpl in H1, H2.
  destruct (_isNativeIOS (_platform (set_isScreenReaderEnabled false s)) || _) eqn:Hnative;
    simpl in Hnative; simpl.
  - split; [|done]. revert H1. rewrite H2.
    destruct (_isScreenReaderEnabled s && _);
      unfold _maxRecycledCellsForAccessibility, _maxRecycledCellsDefault; lia.
  - rewrite Hnative, andb_false_r in H2. done.
Qed.

Lemma capacity_newView platform props :
  storeInvariant poolWithinCapacity (initialTuning props true (newView platform props)).
Proof. unfold initialTuning. by destruct (_ && _). Qed.

(** X2. The recycling pool never outgrows its capacity.  After any run of
    a constructed view the pool holds at most [_maxRecycledCells] cells;
    that capacity is 0 exactly while a screen reader is on on iOS or
    Android, and 50 otherwise; so the pool is empty for as long as a
    screen reader is on there. *)
Theorem recycling_pool_within_capacity platform props events s :
  constructor platform props ≫= run events = Some s →
  Z.of_nat (length (_recycledCells s)) ≤ _maxRecycledCells s
  ∧ _maxRecycledCells s
    = (if _isScreenReaderEnabled s && (_isNativeIOS (_platform s) || _isNativeAndroid (_platform s))
       then 0 else 50)
  ∧ (_isScreenReaderEnabled s && (_isNativeIOS (_platform s) || _isNativeAndroid (_platform s))
     = true → _recycledCells s = []).
Proof.
  intros H.
  pose proof (reachable_keeps poolWithinCapacity capacity_setCellTopAndVisibility
    capacity_allocateCell capacity_recycleCell capacity_markShouldUpdate
    capacity_render capacity_setupForAccessibility
    capacity_tearDownForAccessibility capacity_newView _ _ _ _ H) as [H1 H2].
  split; [exact H1|]. split; [exact H2|].
  intros E. rewrite E in H2. rewrite H2 in H1.
  destruct (_recycledCells s); [done|]. simpl in H1.
  unfold _maxRecycledCellsForAccessibility in H1. lia.
Qed.

(** ** The overdraw and cull margins *)

(** The two sets of tuning constants the constructor chooses between. *)
Definition defaultTuning : Q * Q * Q * Q * Q := (0.5, 512, 4096, 1, 1024)%Q.
Definition skippedRendersTuning : Q * Q * Q * Q * Q := (5, 2048, 4096, 6, 3072)%Q.

Definition tuned (store : CellStore) : Prop :=
  let '(_, _, _, _, _, _, t) := store in t = defaultTuning ∨ t = skippedRendersTuning.

(** The tuning constants have some given value. *)
Definition tunedAs (t0 : Q * Q * Q * Q * Q) (store : CellStore) : Prop :=
  let '(_, _, _, _, _, _, t) := store in t = t0.

Lemma tuning_setCellTopAndVisibility k v y a s :
  tuning (_setCellTopAndVisibility k v y a s) = tuning s.
Proof.
  pose proof (f_equal snd (setCellTopAndVisibility_cellStore k v y a s)) as E.
  simpl in E. rewrite E. by destruct (_activeCells s !! k).
Qed.

Lemma tuning_allocateCell k t i c h y v s :
  tuning (_allocateCell k t i c h y v s) = tuning s.
Proof.
  pose proof (f_equal snd (allocateCell_cellStore k t i c h y v s)) as E.
  simpl in E. rewrite E. by destruct (existingCell s k t c h) as [[newCell pool]|].
Qed.

Lemma tuning_recycleCell k s : tuning (_recycleCell k s) = tuning s.
Proof.
  pose proof (f_equal snd (recycleCell_cellStore k s)) as E.
  simpl in E. rewrite E. by destruct (_activeCells s !! k).
Qed.

Lemma tuning_markShouldUpdate k s : tuning (markShouldUpdate k s) = tuning s.
Proof. unfold markShouldUpdate. by destruct (_activeCells s !! k). Qed.

Lemma tuning_setupForAccessibility s : tuning (_setupForAccessibility s) = tuning s.
Proof. unfold _setupForAccessibility. by split_cases. Qed.

Lemma tuning_tearDownForAccessibility s : tuning (_tearDownForAccessibility s) = tuning s.
Proof. unfold _tearDownForAccessibility. by split_cases. Qed.

(** Every handler leaves the tuning constants as it found them. *)
Lemma run_tuning events s s' : run events s = Some s' → tuning s' = tuning s.
Proof.
  intros H.
  refine (run_keeps (tunedAs (tuning s)) _ _ _ _ _ _ _ events s s' H eq_refl);
    unfold storeInvariant, tunedAs, cellStore.
  - intros k v y a x. by rewrite tuning_setCellTopAndVisibility.
  - intros k t i c h y v x. by rewrite tuning_allocateCell.
  - intros k x. by rewrite tuning_recycleCell.
  - intros k x. by rewrite tuning_markShouldUpdate.
  - intros x x' (_ & _ & _ & _ & _ & _ & ->)%render_cellStore. done.
  - intros x. by rewrite tuning_setupForAccessibility.
  - intros x. by rewrite tuning_tearDownForAccessibility.
Qed.

Lemma constructor_tuned platform props s :
  constructor platform props = Some s →
  tuning s = if skipRenderIfItemUnchanged props then skippedRendersTuning
             else defaultTuning.
Proof.
  unfold constructor.
  destruct (_updateStateFromProps _ _ _) as [s1|] eqn:E; [simpl|done].
  intros [= <-].
  refine (updateStateFromProps_keeps
            (tunedAs (if skipRenderIfItemUnchanged props then skippedRendersTuning
                      else defaultTuning)) _ _ _ _ props true _ s1 E _);
    unfold storeInvariant, tunedAs, cellStore.
  - intros k v y a x. by rewrite tuning_setCellTopAndVisibility.
  - intros k t i c h y v x. by rewrite tuning_allocateCell.
  - intros k x. by rewrite tuning_recycleCell.
  - intros k x. by rewrite tuning_markShouldUpdate.
  - unfold initialTuning. simpl. by destruct (skipRenderIfItemUnchanged props).
Qed.

Lemma overdraw_below_cull (L f m M c mc : Q) :
  (f, m, M, c, mc) = defaultTuning ∨ (f, m, M, c, mc) = skippedRendersTuning →
  (m <= Qmin (Qmax (L * f) m) M ∧ Qmin (Qmax (L * f) m) M <= M
   ∧ Qmin (Qmax (L * f) m) M < Qmax (L * c) mc)%Q.
Proof.
  intros [[= -> -> -> -> ->]|[= -> -> -> -> ->]].
  - destruct (Q.max_spec (L * 0.5) 512) as [[H1 E1]|[H1 E1]];
      destruct (Q.max_spec (L * 1) 1024) as [[H2 E2]|[H2 E2]];
      destruct (Q.min_spec (Qmax (L * 0.5) 512) 4096) as [[H3 E3]|[H3 E3]];
      rewrite E3, ?E1, E2; rewrite ?E1 in H3; repeat split; lra.
  - destruct (Q.max_spec (L * 5) 2048) as [[H1 E1]|[H1 E1]];
      destruct (Q.max_spec (L * 6) 3072) as [[H2 E2]|[H2 E2]];
      destruct (Q.min_spec (Qmax (L * 5) 2048) 4096) as [[H3 E3]|[H3 E3]];
      rewrite E3, ?E1, E2; rewrite ?E1 in H3; repeat split; lra.
Qed.

(** X6. The margins avoid feedback loops.  The constructor chooses one
    of two sets of tuning constants and no handler changes them; with
    either set, in every state a run leads to, the overdraw amount lies
    between 0 and [_maxOverdrawAmount], is at least [_minOverdrawAmount]
    once the initial fill is complete, and is smaller than the cull
    margin whatever the height of the viewport: an item rendered into the
    overdraw region is not culled at the same scroll position. *)
Theorem overdraw_within_cull_margin platform props events s :
  constructor platform props ≫= run events = Some s →
  tuning s = (if skipRenderIfItemUnchanged props then skippedRendersTuning
              else defaultTuning)
  ∧ (0 <= _calcOverdrawAmount s)%Q
  ∧ (_calcOverdrawAmount s <= _maxOverdrawAmount s)%Q
  ∧ (_isInitialFillComplete s = true → _minOverdrawAmount s <= _calcOverdrawAmount s)%Q
  ∧ (_calcOverdrawAmount s < cullMargin s)%Q.
Proof.
  destruct (constructor platform props) as [s0|] eqn:E0; [simpl|done].
  intros H. apply constructor_tuned in E0. apply run_tuning in H. rewrite E0 in H.
  split; [exact H|].
  assert (tuning s = defaultTuning ∨ tuning s = skippedRendersTuning) as Ht
    by (rewrite H; destruct (skipRenderIfItemUnchanged props); [by right|by left]).
  destruct (overdraw_below_cull (inject_Z (_layoutHeight s)) (_renderOverdrawFactor s)
              (_minOverdrawAmount s) (_maxOverdrawAmount s) (_cullFraction s)
              (_minCullAmount s) Ht) as (H1 & H2 & H3).
  assert (0 <= _minOverdrawAmount s ∧ 0 < _minCullAmount s
          ∧ 0 <= _maxOverdrawAmount s)%Q as (Hm & Hc & HM).
  { unfold tuning, defaultTuning, skippedRendersTuning in Ht.
    destruct Ht as [[= _ -> -> _ ->]|[= _ -> -> _ ->]]; repeat split; lra. }
  unfold _calcOverdrawAmount, cullMargin in *.
  destruct (_isInitialFillComplete s).
  - split; [apply (Qle_trans _ (_minOverdrawAmount s)); [exact Hm|exact H1]|].
    split; [exact H2|]. split; [intros _; exact H1|exact H3].
  - split; [apply Qle_refl|]. split; [exact HM|]. split; [intros [=]|].
    eapply Qlt_le_trans; [exact Hc|]. apply Q.le_max_r.
Qed.


(** * The render block is a range of the list *)

Lemma bookkeeping_ranged props s s' :
  bookkeeping s' = bookkeeping s → ranged props s → ranged props s'.
Proof.
  unfold bookkeeping, ranged, blockCountersSum.
  intros [= _ -> -> -> _ _ _ _ _]. done.
Qed.

Lemma cellsOnly_ranged props s s' : cellsOnly s s' → ranged props s → ranged props s'.
Proof. intros H%cellsOnly_bookkeeping. by apply bookkeeping_ranged. Qed.

Lemma cullFromTop_ranged fuel props line s s' :
  ranged props s → cullFromTop fuel props line s = Some s' → ranged props s'.
Proof.
  revert s. induction fuel as [|fuel IH]; intros s Hr; simpl.
  { by intros [= <-]. }
  destruct (_itemsInRenderBlock s >? 0) eqn:Hn; [|by intros [= <-]].
  destruct (itemAt props _) as [item|]; [simpl|done].
  destruct (negb _); [by intros [= <-]|].
  destruct (ZgeQ _ _); [by intros [= <-]|].
  apply IH. eapply cellsOnly_ranged; [apply recycleCell_cellsOnly|].
  apply Z.gtb_lt in Hn. unfold ranged, blockCountersSum in *. simpl. lia.
Qed.

Lemma cullFromBottom_ranged fuel props line s s' :
  ranged props s → cullFromBottom fuel props line s = Some s' → ranged props s'.
Proof.
  revert s. induction fuel as [|fuel IH]; intros s Hr; simpl.
  { by intros [= <-]. }
  destruct (_itemsInRenderBlock s >? 0) eqn:Hn; [|by intros [= <-]].
  destruct (itemAt props _) as [item|]; [simpl|done].
  destruct (negb _); [by intros [= <-]|].
  destruct (ZleQ _ _); [by intros [= <-]|].
  apply IH. eapply cellsOnly_ranged; [apply recycleCell_cellsOnly|].
  apply Z.gtb_lt in Hn. unfold ranged, blockCountersSum in *. simpl. lia.
Qed.

Lemma buildItem_ranged props idx (above : bool) topY bottomY s topY' bottomY' s' :
  ranged props s →
  0 < (if above then _itemsAboveRenderBlock s else _itemsBelowRenderBlock s) →
  buildItem props idx above topY bottomY s = Some (topY', bottomY', s') →
  ranged props s'.
Proof.
  intros Hr Hpos. unfold buildItem. destruct (itemAt props idx) as [item|]; [simpl|done].
  destruct above, (_isItemHeightKnown s item); intros [= _ _ <-];
    (eapply cellsOnly_ranged; [apply allocateCell_cellsOnly|]);
    unfold ranged, blockCountersSum in *; simpl; lia.
Qed.

Lemma growAtBottom_ranged fuel props limit topY bottomY s topY' bottomY' s' :
  ranged props s →
  growAtBottom fuel props limit topY bottomY s = Some (topY', bottomY', s') →
  ranged props s'.
Proof.
  revert topY bottomY s. induction fuel as [|fuel IH]; intros topY bottomY s Hr; simpl.
  { by intros [= _ _ <-]. }
  destruct (_ <? _)%nat; [|by intros [= _ _ <-]].
  destruct (_itemsBelowRenderBlock s <=? 0) eqn:Hb; [by intros [= _ _ <-]|].
  destruct (ZgeQ _ _); [by intros [= _ _ <-]|]. simpl.
  destruct (buildItem _ _ _ _ _ _) as [[[t b] s1]|] eqn:E; [simpl|done].
  apply IH. apply Z.leb_gt in Hb. by eapply (buildItem_ranged _ _ false).
Qed.

Lemma growAtTop_ranged fuel props limit topY bottomY s topY' bottomY' s' :
  ranged props s →
  growAtTop fuel props limit topY bottomY s = Some (topY', bottomY', s') →
  ranged props s'.
Proof.
  revert topY bottomY s. induction fuel as [|fuel IH]; intros topY bottomY s Hr; simpl.
  { by intros [= _ _ <-]. }
  destruct (_ <? _)%nat; [|by intros [= _ _ <-]].
  destruct (_itemsAboveRenderBlock s <=? 0) eqn:Hb; [by intros [= _ _ <-]|].
  destruct (ZleQ _ _); [by intros [= _ _ <-]|]. simpl.
  destruct (buildItem _ _ _ _ _ _) as [[[t b] s1]|] eqn:E; [simpl|done].
  apply IH. apply Z.leb_gt in Hb. by eapply (buildItem_ranged _ _ true).
Qed.

Lemma calc_ranged props s s' :
  ranged props s → _calcNewRenderedItemState props s = Some s' → ranged props s'.
Proof.
  intros Hr. unfold _calcNewRenderedItemState.
  destruct (_layoutHeight s =? 0); [by intros [= <-]|].
  destruct (_ =? _)%nat; [by intros [= <-]|].
  destruct (_ <? _)%nat; [by intros [= <-]|].
  destruct (cullFromTop _ _ _ _) as [s1|] eqn:E1; [simpl|done].
  destruct (cullFromBottom _ _ _ _) as [s2|] eqn:E2; [simpl|done].
  apply cullFromTop_ranged in E1; [|done].
  apply cullFromBottom_ranged in E2; [|done].
  set (s3 := if _itemsInRenderBlock s2 =? 0 then _ else s2).
  assert (ranged props s3) as H3.
  { subst s3. destruct (Z.eqb_spec (_itemsInRenderBlock s2) 0); [|done].
    by apply seedRenderBlock_tracked. }
  clearbody s3.
  destruct (repositionItems _ _ _ _ _) as [[y4 s4]|] eqn:E4; [simpl|done].
  apply repositionItems_cellsOnly in E4.
  pose proof (cellsOnly_ranged props _ _ E4 H3) as H4.
  set (s5 := if negb _ then _ else s4).
  assert (ranged props s5) as H5 by (subst s5; by destruct (negb _)).
  clearbody s5.
  destruct (growAtBottom _ _ _ _ _ _) as [[[t6 b6] s6]|] eqn:E6; [simpl|done].
  apply growAtBottom_ranged in E6; [|done].
  destruct (growAtTop _ _ _ _ _ _) as [[[t7 b7] s7]|] eqn:E7; [simpl|done].
  apply growAtTop_ranged in E7; [|done].
  destruct (_ && _); [|by intros [= <-]].
  destruct (_popInvisibleIntoView props s7) as [s8|] eqn:E8; [simpl|done].
  unfold _popInvisibleIntoView in E8. apply popItems_cellsOnly in E8.
  intros [= <-]. eapply bookkeeping_ranged; [|exact E7].
  unfold _componentDidRender. apply cellsOnly_bookkeeping in E8.
  unfold bookkeeping in *. simpl in *. exact E8.
Qed.

Lemma reconcile_ranged props s s' :
  ranged props s → _reconcileCorrections props s = Some s' → ranged props s'.
Proof.
  intros Hr H%reconcileCorrections_bookkeeping. by eapply bookkeeping_ranged.
Qed.

Lemma calcAndReconcile_ranged s s' :
  ranged (_props s) s →
  (s1 ← _calcNewRenderedItemState (_props s) s;
   _reconcileCorrections (_props (_renderIfDirty s1)) (_renderIfDirty s1)) = Some s' →
  ranged (_props s') s'.
Proof.
  intros Hr. destruct (_calcNewRenderedItemState _ _) as [s1|] eqn:E1; [simpl|done].
  intros E2. pose proof (calc_ranged _ _ _ Hr E1) as H1.
  assert (_props s1 = _props s) as Hp1.
  { apply calcInputs_props. eapply calcNewRenderedItemState_sum; [|exact E1]. apply Hr. }
  pose proof (renderIfDirty_bookkeeping s1) as Hb.
  pose proof (reconcileCorrections_bookkeeping _ _ _ E2) as Hb2.
  rewrite (bookkeeping_props _ _ Hb2), (bookkeeping_props _ _ Hb), Hp1.
  eapply bookkeeping_ranged; [exact Hb2|]. by eapply bookkeeping_ranged.
Qed.

Lemma onLayoutContainer_ranged w h s s' :
  ranged (_props s) s → _onLayoutContainer w h s = Some s' → ranged (_props s') s'.
Proof.
  intros Hr. unfold _onLayoutContainer. destruct (negb (_isMounted s)); [by intros [= <-]|].
  set (s1 := if negb _ then _ else s).
  assert (bookkeeping s1 = bookkeeping s) as H1.
  { subst s1. destruct (negb _); [|done]. unfold _resizeAllItems. by split_cases. }
  clearbody s1.
  assert (ranged (_props s1) s1) as Hr1.
  { rewrite (bookkeeping_props _ _ H1). by eapply bookkeeping_ranged. }
  destruct (negb _); [|by intros [= <-]].
  apply (calcAndReconcile_ranged (set_layoutHeight h s1)). exact Hr1.
Qed.

Lemma onScroll_ranged y x s s' :
  ranged (_props s) s → _onScroll y x s = Some s' → ranged (_props s') s'.
Proof.
  intros Hr. unfold _onScroll. destruct (_ =? _); [by intros [= <-]|].
  apply (calcAndReconcile_ranged (set_lastScrollTop y s)). exact Hr.
Qed.

Lemma onLayoutItem_ranged k h s s' :
  ranged (_props s) s → _onLayoutItem k h s = Some s' → ranged (_props s') s'.
Proof.
  intros Hr. unfold _onLayoutItem. destruct (negb (_isMounted s)); [by intros [= <-]|].
  destruct (_itemMap s !! k) as [idx|]; [|by intros [= <-]].
  destruct (itemAt _ _) as [item|]; [simpl|done].
  destruct (negb (ItemInfo.measureHeight item)); [by intros [= <-]|].
  destruct (_ || _); [by intros [= <-]|].
  match goal with
  | |- context [mbind _ ?m] => destruct m as [[needsRecalc s1]|] eqn:E1; [simpl|done]
  end.
  assert (ranged (_props s1) s1 ∧ _props s1 = _props s) as [Hr1 Hp1].
  { revert E1. destruct (negb (_ =? _)); [|intros [= _ <-]; split; [exact Hr|reflexivity]].
    destruct (_isInitialFillComplete _); [|intros [= _ <-]; split; [exact Hr|reflexivity]].
    destruct (foundVisibleItemBefore _ _ _ _) as [found|]; [simpl|done].
    destruct (negb found); intros [= _ <-]; (split; [exact Hr|reflexivity]). }
  match goal with
  | |- context [if ?b then _ else _] => destruct b
  end.
  - destruct (_calcNewRenderedItemState _ _) as [s2|] eqn:E2; [simpl|done].
    intros E3.
    pose proof (calc_ranged _ (set_pendingMeasurements (_pendingMeasurements s1 ∖ {[k]}) s1)
                  _ Hr1 E2) as H2.
    assert (_props s2 = _props s1) as Hp2.
    { apply (calcInputs_props (set_pendingMeasurements (_pendingMeasurements s1 ∖ {[k]}) s1) s2).
      eapply calcNewRenderedItemState_sum; [|exact E2]. apply Hr1. }
    pose proof (renderIfDirty_bookkeeping s2) as Hb.
    pose proof (reconcileCorrections_bookkeeping _ _ _ E3) as Hb3.
    rewrite (bookkeeping_props _ _ Hb3), (bookkeeping_props _ _ Hb), Hp2.
    eapply bookkeeping_ranged; [exact Hb3|]. by eapply bookkeeping_ranged.
  - simpl. intros E3. pose proof (reconcileCorrections_bookkeeping _ _ _ E3) as Hb3.
    rewrite (bookkeeping_props _ _ Hb3). eapply bookkeeping_ranged; [exact Hb3|]. exact Hr1.
Qed.

Lemma ranged_itemList props props' s :
  itemList props' = itemList props → ranged props s → ranged props' s.
Proof. unfold ranged. by intros ->. Qed.

Lemma updateStateFromProps_ranged props initialBuild s s' :
  (initialBuild = false → ranged (_props s) s) →
  _updateStateFromProps props initialBuild s = Some s' →
  ranged props s'.
Proof.
  intros H. unfold _updateStateFromProps.
  set (s1 := if initialBuild && _ then _ else s).
  assert (bookkeeping s1 = bookkeeping s) as B1 by (subst s1; by destruct (_ && _)).
  clearbody s1.
  destruct (initialBuild || negb (bool_decide (itemList (_props s1) = itemList props)))
    eqn:Hc.
  - destruct (_calcNewRenderedItemState _ _) as [s2|] eqn:E; [simpl|done].
    apply calc_ranged in E; [|apply handleItemListChange_tracked].
    intros [= <-]. eapply bookkeeping_ranged; [apply renderIfDirty_bookkeeping|done].
  - simpl. intros [= <-].
    apply orb_false_iff in Hc as [-> Hc]. apply negb_false_iff, bool_decide_eq_true in Hc.
    eapply bookkeeping_ranged; [apply renderIfDirty_bookkeeping|].
    eapply bookkeeping_ranged; [exact B1|].
    apply (ranged_itemList (_props s)); [|by apply H].
    by rewrite <- Hc, (bookkeeping_props _ _ B1).
Qed.

Lemma componentWillReceiveProps_ranged nextProps s s' :
  ranged (_props s) s → UNSAFE_componentWillReceiveProps nextProps s = Some s' →
  ranged (_props s') s'.
Proof.
  intros H. unfold UNSAFE_componentWillReceiveProps.
  destruct (negb (bool_decide (_props s = nextProps))) eqn:Hc.
  - destruct (_updateStateFromProps _ _ _) as [s1|] eqn:E; [simpl|done].
    apply updateStateFromProps_ranged in E; [|done]. by intros [= <-].
  - simpl. intros [= <-]. apply negb_false_iff, bool_decide_eq_true in Hc.
    simpl. by rewrite <- Hc.
Qed.

Lemma afterRender_ranged s s' :
  ranged (_props s) s → afterRender s = Some s' → ranged (_props s') s'.
Proof.
  intros H. unfold afterRender. destruct (_isMounted s); [|by intros [= <-]].
  pose proof (calcAndReconcile_ranged s) as Hc.
  destruct (_calcNewRenderedItemState _ _) as [s1|] eqn:E1; [simpl in *|done].
  destruct (_reconcileCorrections _ _) as [s2|] eqn:E2; [simpl|done].
  intros [= <-]. specialize (Hc s2 H eq_refl).
  pose proof (setFocusIfNeeded_bookkeeping s2) as Hb.
  rewrite (bookkeeping_props _ _ Hb). by eapply bookkeeping_ranged.
Qed.

(** A handler that leaves the counters and the properties alone. *)
Lemma bookkeeping_ranged_props s s' :
  bookkeeping s' = bookkeeping s → ranged (_props s) s → ranged (_props s') s'.
Proof.
  intros Hb Hr. rewrite (bookkeeping_props _ _ Hb). by eapply bookkeeping_ranged.
Qed.

Lemma handle_ranged e s s' :
  ranged (_props s) s → handle e s = Some s' → ranged (_props s') s'.
Proof.
  intros H. destruct e; simpl.
  - destruct (render s) as [s1|] eqn:E; [simpl|done]. intros [= <-].
    eapply bookkeeping_ranged_props; [apply componentDidMount_bookkeeping|].
    eapply bookkeeping_ranged_props; [by apply render_bookkeeping|done].
  - destruct (UNSAFE_componentWillReceiveProps _ _) as [s1|] eqn:E; [simpl|done].
    intros [= <-]. apply (bookkeeping_ranged_props s1); [done|].
    by eapply componentWillReceiveProps_ranged.
  - destruct (render s) as [s1|] eqn:E; [simpl|done]. intros [= <-].
    apply (bookkeeping_ranged_props s1); [done|].
    eapply bookkeeping_ranged_props; [by apply render_bookkeeping|done].
  - by intros [= <-].
  - by apply onLayoutContainer_ranged.
  - by apply onLayoutItem_ranged.
  - intros [= <-]. unfold _onAnimateStartStopItem. split_cases; exact H.
  - by apply onScroll_ranged.
  - intros [= <-]. unfold _onItemFocused. split_cases; exact H.
  - intros [= <-]. exact H.
  - intros [= <-]. unfold _onKeyDown. destruct (_isMounted s); [|done].
    eapply bookkeeping_ranged_props; [apply focusSubsequentItem_bookkeeping|done].
  - intros [= <-].
    eapply bookkeeping_ranged_props; [apply screenReaderStateChanged_bookkeeping|done].
  - destruct (_deferred s) as [|[] rest]; [by intros [= <-]| |].
    + by apply afterRender_ranged.
    + unfold afterAnimationStop. simpl. destruct (_isMounted s); [|by intros [= <-]].
      destruct (_ && _); [|by intros [= <-]].
      intros E. apply reconcileCorrections_bookkeeping in E.
      by apply (bookkeeping_ranged_props (set_deferred rest s)).
Qed.

Lemma constructor_props platform props s :
  constructor platform props = Some s → _props s = props.
Proof.
  unfold constructor.
  destruct (_updateStateFromProps _ _ _) as [s1|] eqn:E; [simpl|done].
  intros [= <-]. simpl. revert E. unfold _updateStateFromProps. simpl.
  destruct (_calcNewRenderedItemState _ _) as [s2|] eqn:E2; [simpl|done].
  apply calcNewRenderedItemState_sum in E2 as [_ P%calcInputs_props];
    [|apply handleItemListChange_sum].
  intros [= <-]. rewrite (bookkeeping_props _ _ (renderIfDirty_bookkeeping s2)), P.
  rewrite handleItemListChange_props. by destruct (skipRenderIfItemUnchanged props).
Qed.

Lemma constructor_ranged platform props s :
  constructor platform props = Some s → ranged (_props s) s.
Proof.
  intros H. rewrite (constructor_props _ _ _ H). revert H. unfold constructor.
  destruct (_updateStateFromProps _ _ _) as [s1|] eqn:E; [simpl|done].
  apply updateStateFromProps_ranged in E; [|done]. by intros [= <-].
Qed.

Lemma run_ranged events s s' :
  ranged (_props s) s → run events s = Some s' → ranged (_props s') s'.
Proof.
  revert s. induction events as [|e events IH]; intros s Hr; simpl.
  { by intros [= <-]. }
  destruct (handle e s) as [s1|] eqn:E; [simpl|done].
  apply IH. by eapply handle_ranged.
Qed.

(** X3. The render block is always a range of the item list.  After any
    run of a constructed view, whatever was reported and in whatever
    order, none of the three counters is negative, so that
    [0 ≤ _itemsAboveRenderBlock] and
    [_itemsAboveRenderBlock + _itemsInRenderBlock ≤ itemList.length]. *)
Theorem render_block_within_list platform props events s :
  constructor platform props ≫= run events = Some s →
  0 ≤ _itemsAboveRenderBlock s ∧ 0 ≤ _itemsInRenderBlock s
  ∧ 0 ≤ _itemsBelowRenderBlock s
  ∧ _itemsAboveRenderBlock s + _itemsInRenderBlock s
    ≤ Z.of_nat (length (itemList (_props s))).
Proof.
  destruct (constructor platform props) as [s0|] eqn:E0; [simpl|done].
  intros H. apply constructor_ranged in E0.
  destruct (run_ranged _ _ _ E0 H) as (Ha & Hn & Hb & Hsum).
  unfold blockCountersSum in Hsum. lia.
Qed.


(** * No handler throws *)

(** ** The keys of the active cells *)

Definition activeKeys (s : VirtualListView) : gset string := dom (_activeCells s).

Lemma elem_of_activeKeys k s : k ∈ activeKeys s ↔ is_Some (_activeCells s !! k).
Proof. apply elem_of_dom. Qed.

Lemma activeKeys_cellStore s : activeKeys s = dom (cellStore s).1.1.1.1.1.1.
Proof. done. Qed.

Lemma setCellTopAndVisibility_activeKeys k v y a s :
  activeKeys (_setCellTopAndVisibility k v y a s) = activeKeys s.
Proof.
  rewrite (activeKeys_cellStore (_setCellTopAndVisibility k v y a s)).
  rewrite setCellTopAndVisibility_cellStore.
  destruct (_activeCells s !! k) as [c|] eqn:Hc; [|done].
  simpl. apply dom_insert_lookup_L. by exists c.
Qed.

Lemma allocateCell_activeKeys k t i c h y v s :
  activeKeys (_allocateCell k t i c h y v s) = {[k]} ∪ activeKeys s.
Proof.
  rewrite (activeKeys_cellStore (_allocateCell k t i c h y v s)).
  rewrite allocateCell_cellStore.
  destruct (existingCell s k t c h) as [[newCell pool]|]; simpl; apply dom_insert_L.
Qed.

Lemma recycleCell_activeKeys k s :
  activeKeys (_recycleCell k s) = activeKeys s ∖ {[k]}.
Proof.
  rewrite (activeKeys_cellStore (_recycleCell k s)), recycleCell_cellStore.
  destruct (_activeCells s !! k) as [c|] eqn:Hc; simpl.
  - apply dom_delete_L.
  - apply not_elem_of_dom in Hc. unfold activeKeys.
    rewrite difference_disjoint_L; [done|]. by apply disjoint_singleton_r.
Qed.

Lemma recycleIfActive_activeKeys k s :
  activeKeys (recycleIfActive k s) = activeKeys s ∖ {[k]}.
Proof.
  unfold recycleIfActive. destruct (_activeCells s !! k) as [c|] eqn:Hc.
  - apply recycleCell_activeKeys.
  - unfold activeKeys. apply not_elem_of_dom in Hc.
    rewrite difference_disjoint_L; [done|]. by apply disjoint_singleton_r.
Qed.

(** ** The cells of the render block *)

(** The items at the [n] indices from [a] on all have a cell among
    [cells]. *)
Definition presentAt (props : Props) (a n : Z) (cells : gset string) : Prop :=
  ∀ i, a ≤ i < a + n → ∃ item, itemAt props i = Some item ∧ ItemInfo.key item ∈ cells.

Definition present (props : Props) (s : VirtualListView) : Prop :=
  presentAt props (_itemsAboveRenderBlock s) (_itemsInRenderBlock s) (activeKeys s).

Lemma present_blockCellsPresent props s : present props s ↔ blockCellsPresent props s.
Proof.
  unfold present, presentAt, blockCellsPresent, inRenderBlock, activeKeys. split.
  - intros H i Hi. destruct (H i Hi) as (item & Hitem & [cell Hcell]%elem_of_dom).
    by exists item, cell.
  - intros H i Hi. destruct (H i Hi) as (item & cell & Hitem & Hcell).
    exists item. split; [done|]. apply elem_of_dom. by exists cell.
Qed.

(** What [present] and [ranged] read. *)
Definition blockView (s : VirtualListView) :=
  (_itemsAboveRenderBlock s, _itemsInRenderBlock s, _itemsBelowRenderBlock s,
   _activeCells s).

Lemma blockView_present props s s' :
  blockView s' = blockView s → present props s → present props s'.
Proof. unfold blockView, present, activeKeys. by intros [= -> -> _ ->]. Qed.

Lemma blockView_ranged props s s' :
  blockView s' = blockView s → ranged props s → ranged props s'.
Proof. unfold blockView, ranged, blockCountersSum. by intros [= -> -> -> _]. Qed.

Lemma itemAt_is_Some props i :
  0 ≤ i < Z.of_nat (length (itemList props)) → is_Some (itemAt props i).
Proof.
  intros Hi. unfold itemAt. rewrite (proj2 (Z.ltb_ge i 0)) by lia.
  apply lookup_lt_is_Some. lia.
Qed.

(** The state recalculation works on: the counters delimit a range of the
    list, and every item of the render block has an active cell. *)
Definition valid (props : Props) (s : VirtualListView) : Prop :=
  ranged props s ∧ present props s.

Lemma blockView_valid props s s' :
  blockView s' = blockView s → valid props s → valid props s'.
Proof.
  intros H [H1 H2]. split; [by eapply blockView_ranged|by eapply blockView_present].
Qed.

(** The render block as a pair of counters. *)
Definition blockRange (s : VirtualListView) : Z * Z :=
  (_itemsAboveRenderBlock s, _itemsInRenderBlock s).

Lemma present_blockRange props s :
  present props s ↔ presentAt props (blockRange s).1 (blockRange s).2 (activeKeys s).
Proof. done. Qed.

Lemma blockRange_parts s s' :
  blockRange s' = blockRange s →
  _itemsAboveRenderBlock s' = _itemsAboveRenderBlock s
  ∧ _itemsInRenderBlock s' = _itemsInRenderBlock s.
Proof. by intros [= -> ->]. Qed.

Lemma cellsOnly_blockRange s s' : cellsOnly s s' → blockRange s' = blockRange s.
Proof. by intros (ac & rc & nk & d & hc & ->). Qed.

Lemma recycleCell_counters k s : blockRange (_recycleCell k s) = blockRange s.
Proof. apply cellsOnly_blockRange, recycleCell_cellsOnly. Qed.

Lemma allocateCell_counters k t i c h y v s :
  blockRange (_allocateCell k t i c h y v s) = blockRange s.
Proof. apply cellsOnly_blockRange, allocateCell_cellsOnly. Qed.

Lemma setCellTopAndVisibility_counters k v y a s :
  blockRange (_setCellTopAndVisibility k v y a s) = blockRange s.
Proof. apply cellsOnly_blockRange, setCellTopAndVisibility_cellsOnly. Qed.

Lemma setCellTopAndVisibility_valid props k v y a s :
  valid props s → valid props (_setCellTopAndVisibility k v y a s).
Proof.
  intros [H1 H2]. split.
  - eapply cellsOnly_ranged; [apply setCellTopAndVisibility_cellsOnly|done].
  - apply present_blockRange.
    rewrite setCellTopAndVisibility_activeKeys, setCellTopAndVisibility_counters.
    exact H2.
Qed.

Section RenderBlockCells.

Variable props : Props.
Hypothesis props_unique : uniqueKeys props.

Lemma cullFromTop_valid fuel line s :
  valid props s → ∃ s', cullFromTop fuel props line s = Some s' ∧ valid props s'.
Proof.
  revert s. induction fuel as [|fuel IH]; intros s Hv; simpl.
  { by exists s. }
  destruct (_itemsInRenderBlock s >? 0) eqn:Hn; [|by exists s].
  apply Z.gtb_lt in Hn. destruct Hv as [Hr Hp].
  destruct (Hp (_itemsAboveRenderBlock s)) as (item & Hitem & Hcell); [lia|].
  rewrite Hitem. simpl.
  destruct (negb _); [by exists s|].
  destruct (ZgeQ _ _); [by exists s|].
  apply IH. split.
  - eapply cellsOnly_ranged; [apply recycleCell_cellsOnly|].
    unfold ranged, blockCountersSum in *. simpl. lia.
  - apply present_blockRange. rewrite recycleCell_activeKeys, recycleCell_counters.
    simpl. intros i Hi. destruct (Hp i) as (item' & Hitem' & Hcell'); [lia|].
    exists item'. split; [done|]. apply elem_of_difference. split; [done|].
    intros E%elem_of_singleton.
    pose proof (uniqueKeys_index _ _ _ _ _ props_unique Hitem' Hitem E). lia.
Qed.

Lemma cullFromBottom_valid fuel line s :
  valid props s → ∃ s', cullFromBottom fuel props line s = Some s' ∧ valid props s'.
Proof.
  revert s. induction fuel as [|fuel IH]; intros s Hv; simpl.
  { by exists s. }
  destruct (_itemsInRenderBlock s >? 0) eqn:Hn; [|by exists s].
  apply Z.gtb_lt in Hn. destruct Hv as [Hr Hp].
  destruct (Hp (_itemsAboveRenderBlock s + _itemsInRenderBlock s - 1))
    as (item & Hitem & Hcell); [lia|].
  rewrite Hitem. simpl.
  destruct (negb _); [by exists s|].
  destruct (ZleQ _ _); [by exists s|].
  apply IH. split.
  - eapply cellsOnly_ranged; [apply recycleCell_cellsOnly|].
    unfold ranged, blockCountersSum in *. simpl. lia.
  - apply present_blockRange. rewrite recycleCell_activeKeys, recycleCell_counters.
    simpl. intros i Hi. destruct (Hp i) as (item' & Hitem' & Hcell'); [lia|].
    exists item'. split; [done|]. apply elem_of_difference. split; [done|].
    intros E%elem_of_singleton.
    pose proof (uniqueKeys_index _ _ _ _ _ props_unique Hitem' Hitem E). lia.
Qed.

Lemma recomputeBlockHeights_blockView p s :
  blockRange (recomputeBlockHeights p s) = blockRange s
  ∧ activeKeys (recomputeBlockHeights p s) = activeKeys s.
Proof. done. Qed.

Lemma awaitMeasurement_blockView item s :
  blockRange (awaitMeasurement item s) = blockRange s
  ∧ activeKeys (awaitMeasurement item s) = activeKeys s.
Proof. unfold awaitMeasurement. by destruct (_isItemHeightKnown s item). Qed.

Lemma seedRenderBlock_valid limit s :
  _itemsInRenderBlock s = 0 → valid props (seedRenderBlock props limit s).
Proof.
  intros Hn. split; [by apply seedRenderBlock_tracked|].
  apply present_blockRange. unfold seedRenderBlock.
  destruct (findFirstInRenderBlock _ _ _ _ _) as [[[i item] y]|] eqn:E.
  - apply (findFirstInRenderBlock_spec props) in E as (Hitem & _); [|done|done].
    match goal with
    | |- context [recomputeBlockHeights props ?x] =>
        destruct (recomputeBlockHeights_blockView props x) as [-> ->]
    end.
    match goal with
    | |- context [awaitMeasurement item ?x] =>
        destruct (awaitMeasurement_blockView item x) as [-> ->]
    end.
    rewrite allocateCell_counters, allocateCell_activeKeys. simpl.
    intros j Hj. assert (j = i) as -> by lia. exists item. split; [done|].
    apply elem_of_union_l. by apply elem_of_singleton.
  - match goal with
    | |- context [recomputeBlockHeights props ?x] =>
        destruct (recomputeBlockHeights_blockView props x) as [-> ->]
    end.
    simpl. rewrite Hn. intros j Hj. lia.
Qed.

Lemma repositionItems_valid n i y s :
  valid props s → 0 ≤ i → i + Z.of_nat n ≤ _itemsInRenderBlock s →
  ∃ y' s', repositionItems n props i y s = Some (y', s') ∧ valid props s'.
Proof.
  revert i y s. induction n as [|n IH]; intros i y s Hv Hi Hn; simpl.
  { by exists y, s. }
  destruct (proj2 Hv (_itemsAboveRenderBlock s + i)) as (item & Hitem & _); [lia|].
  rewrite Hitem. simpl. apply IH; [by apply setCellTopAndVisibility_valid|lia|].
  pose proof (setCellTopAndVisibility_counters (ItemInfo.key item) (_shouldShowItem s item)
                y (animateChanges (_props s)) s) as [= _ ->]. lia.
Qed.

Lemma buildItem_is_Some idx above topY bottomY s :
  is_Some (itemAt props idx) → is_Some (buildItem props idx above topY bottomY s).
Proof.
  intros [item Hitem]. unfold buildItem. rewrite Hitem. simpl. by destruct above.
Qed.

Lemma buildItem_valid idx (above : bool) topY bottomY s topY' bottomY' s' :
  valid props s →
  (if above then idx = _itemsAboveRenderBlock s - 1 ∧ 0 < _itemsAboveRenderBlock s
   else idx = _itemsAboveRenderBlock s + _itemsInRenderBlock s
        ∧ 0 < _itemsBelowRenderBlock s) →
  buildItem props idx above topY bottomY s = Some (topY', bottomY', s') →
  valid props s'.
Proof.
  intros [Hr Hp] Hidx E. split.
  { eapply buildItem_ranged; [exact Hr| |exact E]. destruct above; apply Hidx. }
  apply buildItem_spec in E
    as (item & Hitem & _ & _ & _ & Hg & _ & Hother & cell & Hcell & _).
  assert (blockRange s'
          = if above then (_itemsAboveRenderBlock s - 1, _itemsInRenderBlock s + 1)
            else (_itemsAboveRenderBlock s, _itemsInRenderBlock s + 1)) as Hrange.
  { unfold blockRange. unfold geometry in Hg. destruct above; by injection Hg as -> -> _ _ _. }
  apply present_blockRange. rewrite Hrange.
  assert (∀ i item', itemAt props i = Some item' →
            (i = idx ∨ ItemInfo.key item' ∈ activeKeys s) →
            ItemInfo.key item' ∈ activeKeys s') as Hin.
  { intros i item' Hitem' Hor. unfold activeKeys in *. apply elem_of_dom.
    destruct (decide (ItemInfo.key item' = ItemInfo.key item)) as [->|Hne]; [by exists cell|].
    rewrite (Hother _ Hne). apply elem_of_dom. destruct Hor as [->|H]; [|done].
    congruence. }
  destruct above; simpl; intros i Hi.
  - destruct (decide (i = idx)) as [->|Hne].
    + exists item. split; [done|]. apply (Hin idx); [done|by left].
    + destruct (Hp i) as (item' & Hitem' & Hcell'); [lia|].
      exists item'. split; [done|]. apply (Hin i); [done|by right].
  - destruct (decide (i = idx)) as [->|Hne].
    + exists item. split; [done|]. apply (Hin idx); [done|by left].
    + destruct (Hp i) as (item' & Hitem' & Hcell'); [lia|].
      exists item'. split; [done|]. apply (Hin i); [done|by right].
Qed.

Lemma growAtBottom_valid fuel limit topY bottomY s :
  valid props s →
  ∃ topY' bottomY' s',
    growAtBottom fuel props limit topY bottomY s = Some (topY', bottomY', s')
    ∧ valid props s'.
Proof.
  revert topY bottomY s. induction fuel as [|fuel IH]; intros topY bottomY s Hv; simpl.
  { by exists topY, bottomY, s. }
  destruct (_ <? _)%nat; [|by exists topY, bottomY, s].
  destruct (_itemsBelowRenderBlock s <=? 0) eqn:Hb; [by exists topY, bottomY, s|].
  destruct (ZgeQ _ _); [by exists topY, bottomY, s|]. simpl.
  apply Z.leb_gt in Hb.
  destruct (buildItem_is_Some (_itemsAboveRenderBlock s + _itemsInRenderBlock s) false
              topY bottomY s) as [[[t b] s1] E].
  { apply itemAt_is_Some. destruct Hv as [Hr _]. unfold ranged, blockCountersSum in Hr. lia. }
  rewrite E. simpl. apply IH. by eapply (buildItem_valid _ false).
Qed.

Lemma growAtTop_valid fuel limit topY bottomY s :
  valid props s →
  ∃ topY' bottomY' s',
    growAtTop fuel props limit topY bottomY s = Some (topY', bottomY', s')
    ∧ valid props s'.
Proof.
  revert topY bottomY s. induction fuel as [|fuel IH]; intros topY bottomY s Hv; simpl.
  { by exists topY, bottomY, s. }
  destruct (_ <? _)%nat; [|by exists topY, bottomY, s].
  destruct (_itemsAboveRenderBlock s <=? 0) eqn:Hb; [by exists topY, bottomY, s|].
  destruct (ZleQ _ _); [by exists topY, bottomY, s|]. simpl.
  apply Z.leb_gt in Hb.
  destruct (buildItem_is_Some (_itemsAboveRenderBlock s - 1) true topY bottomY s)
    as [[[t b] s1] E].
  { apply itemAt_is_Some. destruct Hv as [Hr _]. unfold ranged, blockCountersSum in Hr. lia. }
  rewrite E. simpl. apply IH. by eapply (buildItem_valid _ true).
Qed.

Lemma popItems_valid n i s :
  valid props s → 0 ≤ i → i + Z.of_nat n ≤ _itemsInRenderBlock s →
  ∃ s', popItems n props i s = Some s' ∧ valid props s'.
Proof.
  revert i s. induction n as [|n IH]; intros i s Hv Hi Hn; simpl.
  { by exists s. }
  destruct (proj2 Hv (_itemsAboveRenderBlock s + i))
    as (item & Hitem & [cell Hcell]%elem_of_activeKeys); [lia|].
  rewrite Hitem. simpl. rewrite Hcell. simpl.
  apply IH; [by apply setCellTopAndVisibility_valid|lia|].
  pose proof (setCellTopAndVisibility_counters (ItemInfo.key item) (_shouldShowItem s item)
                (CellInfo.top cell) false s) as [= _ ->]. lia.
Qed.

Lemma shiftCells_valid n i s :
  valid props s → _itemsAboveRenderBlock s ≤ i →
  i + Z.of_nat n ≤ _itemsAboveRenderBlock s + _itemsInRenderBlock s →
  ∃ s', shiftCells n props i s = Some s' ∧ valid props s'.
Proof.
  revert i s. induction n as [|n IH]; intros i s Hv Hi Hn; simpl.
  { by exists s. }
  destruct (proj2 Hv i) as (item & Hitem & [cell Hcell]%elem_of_activeKeys); [lia|].
  rewrite Hitem. simpl. rewrite Hcell. simpl.
  pose proof (setCellTopAndVisibility_counters (ItemInfo.key item) (CellInfo.isVisible cell)
                (CellInfo.top cell - _heightAboveRenderAdjustment s) false s) as [= Ha Hb].
  apply IH; [by apply setCellTopAndVisibility_valid|lia|]. rewrite Ha, Hb. lia.
Qed.

Lemma calc_valid s :
  valid props s → ∃ s', _calcNewRenderedItemState props s = Some s' ∧ valid props s'.
Proof.
  intros Hv. unfold _calcNewRenderedItemState.
  destruct (_layoutHeight s =? 0); [by exists s|].
  destruct (_ =? _)%nat; [by exists s|].
  destruct (_ <? _)%nat; [by exists s|].
  match goal with
  | |- context [cullFromTop ?f props ?l s] =>
      destruct (cullFromTop_valid f l s Hv) as (s1 & -> & H1)
  end.
  simpl.
  match goal with
  | |- context [cullFromBottom ?f props ?l s1] =>
      destruct (cullFromBottom_valid f l s1 H1) as (s2 & -> & H2)
  end.
  simpl.
  set (s3 := if _itemsInRenderBlock s2 =? 0 then _ else s2).
  assert (valid props s3) as H3.
  { subst s3. destruct (Z.eqb_spec (_itemsInRenderBlock s2) 0); [|done].
    by apply seedRenderBlock_valid. }
  clearbody s3.
  destruct (repositionItems_valid (Z.to_nat (_itemsInRenderBlock s3)) 0
    (_heightAboveRenderBlock s3 + _heightAboveRenderAdjustment s3) s3 H3)
    as (y4 & s4 & -> & H4); [lia| |].
  { destruct H3 as [(_ & ? & _) _]. lia. }
  simpl. set (s5 := if negb _ then _ else s4).
  assert (valid props s5) as H5 by (subst s5; by destruct (negb _)).
  clearbody s5.
  match goal with
  | |- context [growAtBottom ?f props ?l ?t ?b s5] =>
      destruct (growAtBottom_valid f l t b s5 H5) as (t6 & b6 & s6 & -> & H6)
  end.
  simpl.
  match goal with
  | |- context [growAtTop ?f props ?l ?t ?b s6] =>
      destruct (growAtTop_valid f l t b s6 H6) as (t7 & b7 & s7 & -> & H7)
  end.
  simpl. destruct (_ && _); [|by exists s7].
  unfold _popInvisibleIntoView.
  destruct (popItems_valid (Z.to_nat (_itemsInRenderBlock s7)) 0
    (set_isInitialFillComplete true s7)) as (s8 & E8 & H8); [done|lia| |].
  { simpl. destruct H7 as [(_ & ? & _) _]. lia. }
  simpl in E8. simpl. rewrite E8. simpl. by exists (_componentDidRender s8).
Qed.

Lemma reconcile_valid s :
  valid props s → ∃ s', _reconcileCorrections props s = Some s' ∧ valid props s'.
Proof.
  intros Hv. unfold _reconcileCorrections.
  destruct (_ <? _)%nat; [by exists s|].
  destruct (_ >? _); [|by exists s].
  match goal with
  | |- context [shiftCells ?n props ?i ?x] =>
      destruct (shiftCells_valid n i x) as (s1 & E & H1)
  end; [done|simpl; lia| |].
  { simpl. destruct Hv as [(_ & ? & _) _]. lia. }
  simpl in E. simpl. rewrite E. simpl. by exists (set_heightAboveRenderAdjustment 0 s1).
Qed.

(** ** The render block chosen for a new item list *)

(** The state of the third loop of [_handleItemListChange] before it
    visits index [i], [y] being the bottom edge of the item before: once
    the start of the render block is found, the edge is below the top
    limit; the block ends at [i] unless the edge has reached the bottom
    limit; and the items of the block have their cells. *)
Definition placedUpTo (top bottom : Q) (i y : Z) (looking : bool)
    (s : VirtualListView) : Prop :=
  if looking then _itemsAboveRenderBlock s = 0 ∧ _itemsInRenderBlock s = 0
  else 0 ≤ _itemsAboveRenderBlock s ∧ 0 ≤ _itemsInRenderBlock s
       ∧ _itemsAboveRenderBlock s + _itemsInRenderBlock s ≤ i
       ∧ (top < inject_Z y)%Q
       ∧ (_itemsAboveRenderBlock s + _itemsInRenderBlock s = i ∨ (bottom <= inject_Z y)%Q)
       ∧ present props s.

Lemma ZltQ_true z q : ZltQ z q = true ↔ (inject_Z z < q)%Q.
Proof. unfold ZltQ. rewrite negb_true_iff. apply ZgeQ_false. Qed.

Lemma ZltQ_false z q : ZltQ z q = false ↔ (q <= inject_Z z)%Q.
Proof. unfold ZltQ. rewrite negb_false_iff. apply ZgeQ_true. Qed.

Lemma present_recycleIfActive k s :
  (∀ i item, _itemsAboveRenderBlock s ≤ i < _itemsAboveRenderBlock s + _itemsInRenderBlock s →
     itemAt props i = Some item → ItemInfo.key item ≠ k) →
  present props s → present props (recycleIfActive k s).
Proof.
  intros Hne Hp. apply present_blockRange.
  rewrite recycleIfActive_activeKeys,
    (cellsOnly_blockRange _ _ (recycleIfActive_cellsOnly k s)).
  intros i Hi. destruct (Hp i Hi) as (item & Hitem & Hcell). exists item.
  split; [done|]. apply elem_of_difference. split; [done|].
  intros E%elem_of_singleton. by apply (Hne i item).
Qed.

Lemma placeItem_placedUpTo item i top bottom h y looking s :
  itemAt props i = Some item → 0 ≤ h →
  placedUpTo top bottom i y looking s →
  placedUpTo top bottom (i + 1) (y + h)
    (fst (placeItem props item i top bottom h (y + h) looking s))
    (snd (placeItem props item i top bottom h (y + h) looking s)).
Proof.
  intros Hitem Hh Hpl. unfold placeItem.
  assert (inject_Z y <= inject_Z (y + h))%Q as Hmono by (rewrite <- Zle_Qle; lia).
  assert (∀ j item', j < i → itemAt props j = Some item' →
            ItemInfo.key item' ≠ ItemInfo.key item) as Hfresh.
  { intros j item' Hj Hitem' E.
    pose proof (uniqueKeys_index _ _ _ _ _ props_unique Hitem' Hitem E). lia. }
  destruct (ZleQ (y + h) top) eqn:Htop; [simpl|cbv zeta].
  { apply ZleQ_true in Htop. destruct looking.
    - destruct Hpl as [Ha Hn]. unfold placedUpTo.
      destruct (blockRange_parts _ _ (cellsOnly_blockRange _ _
        (recycleIfActive_cellsOnly (ItemInfo.key item) s))) as [-> ->]. done.
    - destruct Hpl as (_ & _ & _ & Hy & _). exfalso.
      apply (Qlt_irrefl top). eapply Qlt_le_trans; [exact Hy|]. by eapply Qle_trans. }
  apply ZleQ_false in Htop.
  replace (y + h - h) with y by lia.
  destruct (ZltQ y bottom) eqn:Hbottom.
  - apply ZltQ_true in Hbottom.
    set (s1 := set_itemsInRenderBlock _ _).
    assert (_itemsAboveRenderBlock s1 + _itemsInRenderBlock s1 = i + 1
            ∧ 0 ≤ _itemsAboveRenderBlock s1 ∧ 0 ≤ _itemsInRenderBlock s1
            ∧ activeKeys s1 = activeKeys s
            ∧ (if looking then _itemsAboveRenderBlock s1 = i
               else presentAt props (_itemsAboveRenderBlock s1) (_itemsInRenderBlock s1 - 1)
                      (activeKeys s)))
      as (Hsum & Ha1 & Hn1 & Hkeys & Hold).
    { subst s1. destruct looking; simpl.
      - destruct Hpl as [Ha Hn]. rewrite Hn.
        pose proof (itemAt_range _ _ _ Hitem). repeat split; (lia || done).
      - destruct Hpl as (Ha & Hn & Hle & _ & [Heq|Hpast] & Hp).
        + split; [lia|]. split; [done|]. split; [lia|]. split; [done|].
          replace (_itemsInRenderBlock s + 1 - 1) with (_itemsInRenderBlock s) by lia.
          exact Hp.
        + exfalso. apply (Qlt_irrefl bottom). by eapply Qle_lt_trans. }
    clearbody s1.
    assert (∀ s2, blockRange s2 = blockRange s1 →
              activeKeys s2 = activeKeys s1
              ∨ activeKeys s2 = {[ItemInfo.key item]} ∪ activeKeys s1 →
              ItemInfo.key item ∈ activeKeys s2 →
              placedUpTo top bottom (i + 1) (y + h) false s2) as Hfinish.
    { intros s2 [Ha2 Hn2]%blockRange_parts Hk2 Hin2. unfold placedUpTo. rewrite Ha2, Hn2.
      split; [done|]. split; [done|]. split; [lia|]. split; [done|]. split; [by left|].
      apply present_blockRange. unfold blockRange. rewrite Ha2, Hn2. simpl.
      intros j Hj. destruct (decide (j = i)) as [->|Hne].
      - exists item. by split.
      - destruct looking; [lia|].
        destruct (Hold j) as (item' & Hitem' & Hcell'); [lia|].
        exists item'. split; [done|].
        destruct Hk2 as [->| ->]; rewrite Hkeys; [done|by apply elem_of_union_r]. }
    destruct (_activeCells s1 !! ItemInfo.key item) as [cell|] eqn:Hcell; simpl.
    + apply Hfinish.
      * apply setCellTopAndVisibility_counters.
      * left. apply setCellTopAndVisibility_activeKeys.
      * rewrite setCellTopAndVisibility_activeKeys. apply elem_of_activeKeys. by exists cell.
    + match goal with
      | |- context [awaitMeasurement item ?x] =>
          destruct (awaitMeasurement_blockView item x) as [Hr Hk]
      end.
      apply Hfinish.
      * rewrite Hr. apply allocateCell_counters.
      * right. rewrite Hk. apply allocateCell_activeKeys.
      * rewrite Hk, allocateCell_activeKeys. apply elem_of_union_l.
        by apply elem_of_singleton.
  - apply ZltQ_false in Hbottom. simpl.
    set (s1 := if looking then _ else s).
    assert (placedUpTo top bottom (i + 1) (y + h) false s1
            ∧ _itemsAboveRenderBlock s1 + _itemsInRenderBlock s1 ≤ i) as [H1 Hi1].
    { subst s1. unfold placedUpTo. destruct looking; simpl.
      - destruct Hpl as [Ha Hn]. rewrite Hn.
        pose proof (itemAt_range _ _ _ Hitem). split; [|lia].
        split; [lia|]. split; [done|]. split; [lia|]. split; [done|].
        split; [right; by eapply Qle_trans|].
        intros j Hj. simpl in Hj. rewrite Hn in Hj. lia.
      - destruct Hpl as (Ha & Hn & Hle & _ & _ & Hp). split; [|done].
        split; [done|]. split; [done|]. split; [lia|]. split; [done|].
        split; [right; by eapply Qle_trans|done]. }
    clearbody s1. destruct H1 as (Ha & Hn & Hle & Hy & Hor & Hp).
    unfold placedUpTo.
    destruct (blockRange_parts _ _ (cellsOnly_blockRange _ _
      (recycleIfActive_cellsOnly (ItemInfo.key item) s1))) as [Ha' Hn'].
    rewrite Ha', Hn'. split; [done|]. split; [done|]. split; [done|]. split; [done|].
    split; [done|]. apply present_recycleIfActive; [|done].
    intros j item' Hj Hitem'. apply (Hfresh j); [lia|done].
Qed.

Lemma placeItem_calcInputs item i top bottom h y looking s :
  calcInputs (snd (placeItem props item i top bottom h y looking s)) = calcInputs s.
Proof.
  unfold placeItem. destruct (ZleQ y top); simpl.
  { apply cellsOnly_calcInputs, recycleIfActive_cellsOnly. }
  destruct (ZltQ _ _).
  - match goal with |- context [_activeCells ?x !! _] => destruct (_activeCells x !! _) end;
      simpl.
    + rewrite (cellsOnly_calcInputs _ _ (setCellTopAndVisibility_cellsOnly _ _ _ _ _)).
      by destruct looking.
    + rewrite awaitMeasurement_calcInputs.
      rewrite (cellsOnly_calcInputs _ _ (allocateCell_cellsOnly _ _ _ _ _ _ _ _)).
      by destruct looking.
  - simpl. rewrite (cellsOnly_calcInputs _ _ (recycleIfActive_cellsOnly _ _)).
    by destruct looking.
Qed.

Lemma calcInputs_heightCache s s' :
  calcInputs s' = calcInputs s → _heightCache s' = _heightCache s.
Proof. unfold calcInputs. congruence. Qed.

Lemma determineRenderBlock_present items i top bottom y looking s :
  0 ≤ i → drop (Z.to_nat i) (itemList props) = items →
  (∀ item, item ∈ items → 0 ≤ heightOf (_heightCache s) item) →
  placedUpTo top bottom i y looking s →
  present props (determineRenderBlock props items i top bottom y looking s).
Proof.
  revert i y looking s.
  induction items as [|item items IH]; intros i y looking s Hi Hdrop Hh Hpl; simpl.
  { destruct looking.
    - destruct Hpl as [Ha Hn]. intros j Hj. lia.
    - by destruct Hpl as (_ & _ & _ & _ & _ & Hp). }
  assert (itemAt props i = Some item) as Hitem.
  { apply itemAt_Some. split; [done|].
    rewrite <- (Nat.add_0_r (Z.to_nat i)), <- lookup_drop, Hdrop. done. }
  rewrite getHeightOfItem_heightOf.
  assert (0 ≤ heightOf (_heightCache s) item) as Hh0
    by (apply Hh, elem_of_cons; by left).
  pose proof (placeItem_placedUpTo item i top bottom _ y looking s Hitem Hh0 Hpl) as H.
  pose proof (placeItem_calcInputs item i top bottom (heightOf (_heightCache s) item)
                (y + heightOf (_heightCache s) item) looking s) as Hc.
  destruct (placeItem _ _ _ _ _ _ _ _ _) as [looking' s1]. simpl in H, Hc.
  apply IH; [lia| | |exact H].
  - replace (Z.to_nat (i + 1)) with (Z.to_nat i + 1)%nat by lia.
    by rewrite <- drop_drop, Hdrop.
  - intros item' Hitem'. rewrite (calcInputs_heightCache _ _ Hc).
    apply Hh, elem_of_cons. by right.
Qed.

End RenderBlockCells.

(** ** Heights that are not negative *)

(** Every height the view has been told of is at least 0: the declared
    heights of the items and the measured heights in the cache. *)
Definition declaredHeights (props : Props) : Prop :=
  Forall (λ item, 0 ≤ ItemInfo.height item) (itemList props).

Definition cachedHeights (s : VirtualListView) : Prop :=
  ∀ k h, _heightCache s !! k = Some h → 0 ≤ h.

Lemma heightOf_nonneg props s item :
  declaredHeights props → cachedHeights s → item ∈ itemList props →
  0 ≤ heightOf (_heightCache s) item.
Proof.
  intros Hd Hc Hitem. unfold heightOf.
  pose proof (proj1 (Forall_forall _ _) Hd item Hitem) as Hdeclared. simpl in Hdeclared.
  destruct (ItemInfo.measureHeight item); [|done].
  destruct (_heightCache s !! ItemInfo.key item) as [h|] eqn:E; simpl; [|done].
  by apply (Hc (ItemInfo.key item)).
Qed.

Lemma bookkeeping_cachedHeights s s' :
  bookkeeping s' = bookkeeping s → cachedHeights s → cachedHeights s'.
Proof. unfold bookkeeping, cachedHeights. by intros [= _ _ _ _ _ _ _ -> _]. Qed.

Lemma buildItemMap_cachedHeights items i m s :
  cachedHeights s → cachedHeights (snd (buildItemMap items i m s)).
Proof.
  revert i m s. induction items as [|item items IH]; intros i m s Hs; simpl; [done|].
  apply IH. destruct (_activeCells s !! _); [|done].
  assert (cachedHeights (markShouldUpdate (ItemInfo.key item) s)) as H.
  { eapply bookkeeping_cachedHeights; [|exact Hs].
    apply cellsOnly_bookkeeping, markShouldUpdate_cellsOnly. }
  destruct (_itemMap s !! _); [|done]. by destruct (_ || _).
Qed.

Lemma refocusAfterRemoval_bookkeeping s :
  bookkeeping (refocusAfterRemoval s) = bookkeeping s.
Proof.
  unfold refocusAfterRemoval.
  pose proof (focusSubsequentItem_bookkeeping Down false false s) as H1.
  destruct (_focusSubsequentItem Down false false s) as [[] s1]; simpl in H1; [done|].
  pose proof (focusSubsequentItem_bookkeeping Up false false s1) as H2.
  destruct (_focusSubsequentItem Up false false s1) as [[] s2]; simpl in *; [congruence|].
  unfold bookkeeping in *. simpl. congruence.
Qed.

Lemma stopTrackingItem_cachedHeights item i s :
  cachedHeights s → cachedHeights (stopTrackingItem item i s).
Proof.
  intros Hs. unfold stopTrackingItem.
  eapply bookkeeping_cachedHeights;
    [apply cellsOnly_bookkeeping, recycleIfActive_cellsOnly|].
  intros k h. simpl. intros [_ Hk]%lookup_delete_Some. revert Hk.
  destruct (i <? _); simpl; apply Hs.
Qed.

Lemma stopTrackingDeleted_cachedHeights oldItems i m s :
  cachedHeights s → cachedHeights (stopTrackingDeleted oldItems i m s).
Proof.
  revert i s. induction oldItems as [|item oldItems IH]; intros i s Hs; simpl; [done|].
  apply IH. destruct (m !! _); [done|]. apply stopTrackingItem_cachedHeights.
  destruct (bool_decide _); [|done].
  eapply bookkeeping_cachedHeights; [apply refocusAfterRemoval_bookkeeping|done].
Qed.

Lemma handleItemListChange_cachedHeights props s :
  cachedHeights s → cachedHeights (_handleItemListChange props s).
Proof.
  intros Hs. unfold _handleItemListChange.
  pose proof (buildItemMap_cachedHeights (itemList props) 0 ∅ s Hs) as H1.
  destruct (buildItemMap _ _ _ _) as [m s1]. simpl in H1. cbv zeta.
  eapply bookkeeping_cachedHeights; [apply prepopulateContainerHeight_bookkeeping|].
  apply (stopTrackingDeleted_cachedHeights (itemList (_props s1)) 0 m) in H1.
  set (s2 := stopTrackingDeleted _ _ _ _) in *. clearbody s2.
  assert (_heightCache (determineRenderBlockBounds props s2) = _heightCache s2) as E.
  { unfold determineRenderBlockBounds. cbv zeta.
    generalize (inject_Z (_lastScrollTop s2) - _calcOverdrawAmount s2)%Q.
    generalize (inject_Z (_lastScrollTop s2) + inject_Z (_layoutHeight s2)
                + _calcOverdrawAmount s2)%Q.
    generalize (_heightAboveRenderAdjustment s2).
    change (_heightCache s2)
      with (_heightCache (set_itemsInRenderBlock 0 (set_itemsAboveRenderBlock 0 s2))).
    generalize (set_itemsInRenderBlock 0 (set_itemsAboveRenderBlock 0 s2)).
    generalize true. generalize 0 at 1.
    induction (itemList props) as [|item items IH]; intros i looking x y bottom top;
      simpl; [done|].
    pose proof (placeItem_calcInputs props item i top bottom (_getHeightOfItem x (Some item))
                  (y + _getHeightOfItem x (Some item)) looking x) as Hc.
    destruct (placeItem _ _ _ _ _ _ _ _ _) as [looking' x1]. simpl in Hc.
    rewrite IH. by apply calcInputs_heightCache. }
  intros k h. simpl. rewrite E. apply H1.
Qed.

Lemma handleItemListChange_valid props s :
  uniqueKeys props → declaredHeights props → cachedHeights s →
  valid props (_handleItemListChange props s).
Proof.
  intros Hu Hd Hs. split; [apply handleItemListChange_tracked|].
  unfold _handleItemListChange.
  pose proof (buildItemMap_cachedHeights (itemList props) 0 ∅ s Hs) as H1.
  destruct (buildItemMap _ _ _ _) as [m s1]. simpl in H1. cbv zeta.
  apply (stopTrackingDeleted_cachedHeights (itemList (_props s1)) 0 m) in H1.
  set (s2 := stopTrackingDeleted _ _ _ _) in *. clearbody s2.
  assert (present props (determineRenderBlockBounds props s2)) as H3.
  { unfold determineRenderBlockBounds. cbv zeta.
    apply determineRenderBlock_present; [done|done|done| |done].
    intros item Hitem. by apply (heightOf_nonneg props s2). }
  set (s3 := determineRenderBlockBounds props s2) in *. clearbody s3.
  apply present_blockRange.
  assert (∀ x, blockRange (prepopulateContainerHeight x) = blockRange x
               ∧ activeKeys (prepopulateContainerHeight x) = activeKeys x) as Hpre.
  { intros x. unfold prepopulateContainerHeight. by destruct (_ =? 0). }
  destruct (Hpre (recomputeBlockHeights props (set_itemMap m s3))) as [-> ->].
  exact H3.
Qed.

(** ** Well-formed views *)

(** An item list the view can work with: no two items share a key and no
    declared height is negative. *)
Definition validProps (props : Props) : Prop :=
  uniqueKeys props ∧ declaredHeights props.

(** The events of a host that passes valid item lists and reports no
    negative height. *)
Definition validEvent (e : Event) : Prop :=
  match e with
  | ReceiveProps nextProps => validProps nextProps
  | LayoutItem _ newHeight => 0 ≤ newHeight
  | _ => True
  end.

#[global] Instance validProps_dec props : Decision (validProps props).
Proof. unfold validProps, uniqueKeys, declaredHeights. apply _. Defined.

#[global] Instance validEvent_dec e : Decision (validEvent e).
Proof. destruct e; simpl; apply _. Defined.

Definition wellFormed (s : VirtualListView) : Prop :=
  validProps (_props s) ∧ cachedHeights s ∧ itemMapInSync s ∧ valid (_props s) s.

(** What [wellFormed] reads besides the render block. *)
Definition inputs (s : VirtualListView) := (_props s, _itemMap s, _heightCache s).

Lemma bookkeeping_inputs s s' : bookkeeping s' = bookkeeping s → inputs s' = inputs s.
Proof. unfold bookkeeping, inputs. congruence. Qed.

Lemma calcInputs_inputs s s' : calcInputs s' = calcInputs s → inputs s' = inputs s.
Proof. unfold calcInputs, inputs. congruence. Qed.

Lemma wellFormed_inputs s s' :
  inputs s' = inputs s → wellFormed s → valid (_props s) s' → wellFormed s'.
Proof.
  unfold inputs, wellFormed, cachedHeights, itemMapInSync.
  intros [= -> -> ->] (H1 & H2 & H3 & _) H4. done.
Qed.

Lemma wellFormed_bookkeeping s s' :
  bookkeeping s' = bookkeeping s → _activeCells s' = _activeCells s →
  wellFormed s → wellFormed s'.
Proof.
  intros Hb Hc H. apply (wellFormed_inputs s); [by apply bookkeeping_inputs|done|].
  destruct H as (_ & _ & _ & H). eapply blockView_valid; [|exact H].
  unfold blockView, bookkeeping in *. congruence.
Qed.

Lemma calc_wellFormed s s0 :
  inputs s = inputs s0 → wellFormed s0 → valid (_props s0) s →
  ∃ s', _calcNewRenderedItemState (_props s) s = Some s' ∧ inputs s' = inputs s0
        ∧ valid (_props s0) s'.
Proof.
  intros Hi Hw Hv. assert (_props s = _props s0) as Hp by (unfold inputs in Hi; congruence).
  rewrite Hp. destruct (calc_valid (_props s0) (proj1 (proj1 Hw)) s Hv) as (s' & E & Hv').
  exists s'. split; [done|]. split; [|done]. rewrite <- Hi.
  apply calcInputs_inputs. eapply calcNewRenderedItemState_sum; [|exact E].
  apply Hv.
Qed.

Lemma renderIfDirty_blockView s : blockView (_renderIfDirty s) = blockView s.
Proof. unfold _renderIfDirty. by split_cases. Qed.

Lemma reconcile_wellFormed s s0 :
  inputs s = inputs s0 → wellFormed s0 → valid (_props s0) s →
  ∃ s', _reconcileCorrections (_props s) s = Some s' ∧ wellFormed s'.
Proof.
  intros Hi Hw Hv. assert (_props s = _props s0) as Hp by (unfold inputs in Hi; congruence).
  rewrite Hp. destruct (reconcile_valid (_props s0) s Hv) as (s' & E & Hv').
  exists s'. split; [done|]. apply (wellFormed_inputs s0); [|done|done].
  rewrite <- Hi. apply bookkeeping_inputs. by eapply reconcileCorrections_bookkeeping.
Qed.

Lemma calcAndReconcile_wellFormed s s0 :
  inputs s = inputs s0 → wellFormed s0 → valid (_props s0) s →
  ∃ s', (s1 ← _calcNewRenderedItemState (_props s) s;
         _reconcileCorrections (_props (_renderIfDirty s1)) (_renderIfDirty s1)) = Some s'
        ∧ wellFormed s'.
Proof.
  intros Hi Hw Hv. destruct (calc_wellFormed s s0 Hi Hw Hv) as (s1 & -> & Hi1 & Hv1).
  simpl. apply (reconcile_wellFormed _ s0); [|done|].
  - rewrite <- Hi1. apply bookkeeping_inputs, renderIfDirty_bookkeeping.
  - eapply blockView_valid; [apply renderIfDirty_blockView|done].
Qed.

Lemma cellStore_activeCells s s' :
  cellStore s' = cellStore s → _activeCells s' = _activeCells s.
Proof. unfold cellStore. congruence. Qed.

Lemma renderBlockCells_valid props n i s :
  _props s = props → valid props s → 0 ≤ i →
  i + Z.of_nat n ≤ _itemsInRenderBlock s →
  ∃ s', renderBlockCells n i s = Some s' ∧ valid props s'.
Proof.
  revert i s. induction n as [|n IH]; intros i s Hp Hv Hi Hn; simpl.
  { by exists s. }
  destruct (proj2 Hv (_itemsAboveRenderBlock s + i))
    as (item & Hitem & [cell Hcell]%elem_of_activeKeys); [lia|].
  rewrite Hp, Hitem. simpl. rewrite Hcell. simpl.
  set (s1 := set_activeCells _ _).
  assert (_props s1 = props ∧ blockRange s1 = blockRange s
          ∧ _itemsBelowRenderBlock s1 = _itemsBelowRenderBlock s
          ∧ activeKeys s1 = activeKeys s) as (Hp1 & Hr1 & Hb1 & Hk1).
  { subst s1. unfold activeKeys. simpl.
    destruct (ItemInfo.isNavigable item); simpl;
      (split; [exact Hp|]); (split; [reflexivity|]); (split; [reflexivity|]);
      apply dom_insert_lookup_L; by exists cell. }
  clearbody s1. destruct (blockRange_parts _ _ Hr1) as [Ha1 Hn1].
  apply IH; [done| |lia|lia].
  destruct Hv as [Hr Hpr]. split.
  - unfold ranged, blockCountersSum in *. rewrite Ha1, Hn1, Hb1. exact Hr.
  - apply present_blockRange. rewrite Hr1, Hk1. exact Hpr.
Qed.

Lemma render_wellFormed s : wellFormed s → ∃ s', render s = Some s' ∧ wellFormed s'.
Proof.
  intros Hw. unfold render.
  destruct (renderBlockCells_valid (_props s) (Z.to_nat (_itemsInRenderBlock s)) 0
              (set_navigatableItemsRendered [] s)) as (s1 & E & H1);
    [done|apply Hw|done| |].
  { simpl. destruct Hw as (_ & _ & _ & (_ & ? & _) & _). lia. }
  simpl in E. simpl. rewrite E. simpl. eexists. split; [done|].
  apply (wellFormed_inputs s); [|done|].
  - apply bookkeeping_inputs. by apply renderBlockCells_bookkeeping in E.
  - eapply blockView_valid; [|exact H1]. done.
Qed.

Lemma componentDidMount_activeCells b s :
  _activeCells (componentDidMount b s) = _activeCells s.
Proof.
  unfold componentDidMount.
  set (s1 := if b then _ else s).
  assert (_activeCells s1 = _activeCells s) as H1.
  { subst s1. destruct b; [|done]. unfold _setupForAccessibility. by split_cases. }
  clearbody s1.
  destruct (initialSelectedKey _) as [k|]; [|done].
  destruct (negb _); [|done].
  by rewrite (cellStore_activeCells _ _ (scrollToItemKey_cellStore _ _)).
Qed.

Lemma screenReaderStateChanged_activeCells b s :
  _activeCells (_screenReaderStateChanged b s) = _activeCells s.
Proof.
  unfold _screenReaderStateChanged, _tearDownForAccessibility, _setupForAccessibility.
  destruct b; [|by split_cases].
  rewrite (cellStore_activeCells _ _ (renderIfDirty_cellStore _)). by split_cases.
Qed.

Lemma valid_itemList props props' s :
  itemList props' = itemList props → valid props s → valid props' s.
Proof.
  intros E [Hr Hp]. split; [by apply (ranged_itemList props)|].
  unfold present, presentAt, itemAt in *. by rewrite E.
Qed.

Lemma updateStateFromProps_wellFormed props initialBuild s :
  validProps props → cachedHeights s →
  (initialBuild = false → wellFormed s) →
  ∃ s', _updateStateFromProps props initialBuild s = Some s'
        ∧ wellFormed (set_props props s').
Proof.
  intros Hprops Hcache Hw. unfold _updateStateFromProps.
  set (s1 := if initialBuild && _ then _ else s).
  assert (bookkeeping s1 = bookkeeping s ∧ _activeCells s1 = _activeCells s) as [B1 A1]
    by (subst s1; by destruct (_ && _)).
  clearbody s1.
  destruct (initialBuild || negb (bool_decide (itemList (_props s1) = itemList props)))
    eqn:Hc.
  - pose proof (handleItemListChange_valid props s1 (proj1 Hprops) (proj2 Hprops)
                  (bookkeeping_cachedHeights _ _ B1 Hcache)) as Hv.
    destruct (calc_valid props (proj1 Hprops) _ Hv) as (s2 & E & H2).
    rewrite E. simpl. eexists. split; [done|].
    pose proof (calcNewRenderedItemState_sum _ _ _ (handleItemListChange_sum props s1) E)
      as [_ Hin%calcInputs_inputs].
    pose proof (bookkeeping_inputs _ _ (renderIfDirty_bookkeeping s2)) as Hin2.
    unfold inputs in Hin, Hin2. injection Hin as _ Hm Hh. injection Hin2 as _ Hm2 Hh2.
    split; [exact Hprops|]. split; [|split].
    + unfold cachedHeights. simpl. rewrite Hh2, Hh.
      apply handleItemListChange_cachedHeights.
      eapply bookkeeping_cachedHeights; [exact B1|exact Hcache].
    + unfold itemMapInSync. simpl. rewrite Hm2, Hm. apply handleItemListChange_itemMap.
    + simpl. eapply blockView_valid; [|exact H2].
      pose proof (renderIfDirty_blockView s2) as Hb. unfold blockView in *. exact Hb.
  - simpl. eexists. split; [done|].
    apply orb_false_iff in Hc as [-> Hc]. apply negb_false_iff, bool_decide_eq_true in Hc.
    destruct (Hw eq_refl) as (_ & _ & Hsync & Hv).
    pose proof (renderIfDirty_bookkeeping s1) as B2.
    pose proof (bookkeeping_inputs _ _ B2) as Hin2. pose proof (bookkeeping_inputs _ _ B1) as Hin1.
    unfold inputs in Hin1, Hin2. injection Hin1 as Hp1 Hm1 Hh1. injection Hin2 as _ Hm2 Hh2.
    rewrite Hp1 in Hc.
    split; [exact Hprops|]. split; [|split].
    + unfold cachedHeights. simpl. rewrite Hh2, Hh1. exact Hcache.
    + unfold itemMapInSync. simpl. rewrite Hm2, Hm1, <- Hc. exact Hsync.
    + simpl. apply (valid_itemList (_props s)); [done|].
      eapply blockView_valid; [|exact Hv].
      change (blockView (_renderIfDirty s1) = blockView s).
      rewrite renderIfDirty_blockView. unfold blockView, bookkeeping in *. congruence.
Qed.

Lemma constructor_wellFormed platform props :
  validProps props → ∃ s, constructor platform props = Some s ∧ wellFormed s.
Proof.
  intros Hprops. unfold constructor.
  destruct (updateStateFromProps_wellFormed props true (newView platform props))
    as (s1 & E & H1); [done|done|done|].
  rewrite E. simpl. eexists. split; [done|].
  assert (_props s1 = props) as Hp.
  { assert (constructor platform props
            = Some (set_state
                 {| lastFocusedItemKey :=
                      if someItemHasKey props (initialSelectedKey props)
                      then initialSelectedKey props else None;
                    isFocused := false;
                    selectedItemKey :=
                      if someItemHasKey props (initialSelectedKey props)
                      then initialSelectedKey props else None |} s1)) as Hc
      by (unfold constructor; by rewrite E).
    by apply constructor_props in Hc. }
  apply (wellFormed_bookkeeping (set_props props s1)); [|done|done].
  unfold bookkeeping. simpl. by rewrite Hp.
Qed.

Lemma componentWillReceiveProps_wellFormed nextProps s :
  validProps nextProps → wellFormed s →
  ∃ s', UNSAFE_componentWillReceiveProps nextProps s = Some s' ∧ wellFormed s'.
Proof.
  intros Hprops Hw. unfold UNSAFE_componentWillReceiveProps.
  destruct (negb (bool_decide (_props s = nextProps))) eqn:Hc.
  - destruct (updateStateFromProps_wellFormed nextProps false s)
      as (s1 & E & H1); [done|apply Hw|done|].
    rewrite E. simpl. by eexists.
  - simpl. eexists. split; [done|]. apply negb_false_iff, bool_decide_eq_true in Hc.
    apply (wellFormed_bookkeeping s); [|done|done].
    unfold bookkeeping. simpl. by rewrite Hc.
Qed.

Lemma onLayoutContainer_wellFormed w h s :
  wellFormed s → ∃ s', _onLayoutContainer w h s = Some s' ∧ wellFormed s'.
Proof.
  intros Hw. unfold _onLayoutContainer. destruct (negb (_isMounted s)); [by exists s|].
  set (s1 := if negb _ then _ else s).
  assert (bookkeeping s1 = bookkeeping s ∧ blockView s1 = blockView s) as [H1 V1].
  { subst s1. destruct (negb _); [|done]. unfold _resizeAllItems. by split_cases. }
  clearbody s1. destruct (negb _).
  - apply (calcAndReconcile_wellFormed (set_layoutHeight h s1) s).
    + by apply bookkeeping_inputs in H1.
    + done.
    + eapply blockView_valid; [|apply Hw]. exact V1.
  - exists s1. split; [done|]. apply (wellFormed_bookkeeping s); [done| |done].
    unfold blockView in V1. congruence.
Qed.

Lemma onScroll_wellFormed y x s :
  wellFormed s → ∃ s', _onScroll y x s = Some s' ∧ wellFormed s'.
Proof.
  intros Hw. unfold _onScroll. destruct (_ =? _); [by exists s|].
  apply (calcAndReconcile_wellFormed (set_lastScrollTop y s) s); [done|done|apply Hw].
Qed.

Lemma foundVisibleItemBefore_is_Some n s i idx :
  i ≤ idx → (∀ j, i ≤ j ≤ idx → is_Some (itemAt (_props s) j)) →
  is_Some (foundVisibleItemBefore n s i idx).
Proof.
  revert i. induction n as [|n IH]; intros i Hi H; simpl; [done|].
  destruct (H i) as [item Hitem]; [lia|].
  rewrite Hitem. simpl. destruct (_isCellVisible _ _); [done|].
  destruct (Z.eqb_spec i idx) as [->|Hne]; [done|].
  apply IH; [lia|]. intros j Hj. apply H. lia.
Qed.

Lemma onLayoutItem_wellFormed k h s :
  0 ≤ h → wellFormed s → ∃ s', _onLayoutItem k h s = Some s' ∧ wellFormed s'.
Proof.
  intros Hh Hw. unfold _onLayoutItem. destruct (negb (_isMounted s)); [by exists s|].
  destruct (_itemMap s !! k) as [idx|] eqn:Hidx; [|by exists s].
  destruct (itemMapInSync_lookup s k idx) as (item & Hitem & Hkey); [apply Hw|done|].
  assert (itemAt (_props s) (Z.of_nat idx) = Some item) as ->
    by (apply itemAt_Some; split; [lia|by rewrite Nat2Z.id]).
  simpl. destruct (negb (ItemInfo.measureHeight item)); [by exists s|].
  set (s0 := set_heightCache (<[k := h]> (_heightCache s)) s).
  assert (wellFormed s0) as Hw0.
  { destruct Hw as (H1 & H2 & H3 & H4). split; [done|]. split; [|done].
    intros k' h'. subst s0. simpl.
    intros [[_ <-]|[_ H]]%lookup_insert_Some; [done|by apply (H2 k')]. }
  destruct (_ || _) eqn:Hblock; [by exists s0|].
  apply orb_false_iff in Hblock as [Hlow Hhigh].
  apply Z.ltb_ge in Hlow. rewrite Z.geb_leb in Hhigh. apply Z.leb_gt in Hhigh.
  simpl in Hlow, Hhigh.
  match goal with
  | |- context [mbind _ ?m] =>
      assert (∃ needsRecalc s1, m = Some (needsRecalc, s1) ∧ inputs s1 = inputs s0
                                ∧ blockView s1 = blockView s0)
        as (needsRecalc & s1 & -> & Hi1 & Hv1)
  end.
  { destruct (negb (_ =? _)); [|by exists false, s0].
    destruct (_isInitialFillComplete _); [|by eexists true, _].
    match goal with
    | |- context [foundVisibleItemBefore ?n ?x ?i ?j] =>
        destruct (foundVisibleItemBefore_is_Some n x i j) as [found ->]
    end.
    - simpl. lia.
    - intros j Hj. simpl. apply itemAt_is_Some. simpl in Hj.
      destruct Hw as (_ & _ & _ & (Ha & Hn & Hb & Hsum) & _).
      unfold blockCountersSum in Hsum. lia.
    - simpl. destruct (negb found); by eexists true, _. }
  simpl.
  assert (valid (_props s0) s1) as Hval1.
  { eapply blockView_valid; [exact Hv1|apply Hw0]. }
  match goal with
  | |- context [if ?b then _ else _] => destruct b
  end.
  - destruct (calc_wellFormed (set_pendingMeasurements (_pendingMeasurements s1 ∖ {[k]}) s1)
                s0 Hi1 Hw0 Hval1) as (s2 & E2 & Hi2 & Hv2).
    simpl in E2. rewrite E2. simpl. apply (reconcile_wellFormed _ s0); [|done|].
    + rewrite <- Hi2. apply bookkeeping_inputs, renderIfDirty_bookkeeping.
    + eapply blockView_valid; [apply renderIfDirty_blockView|done].
  - simpl.
    apply (reconcile_wellFormed
             (set_pendingMeasurements (_pendingMeasurements s1 ∖ {[k]}) s1) s0);
      [exact Hi1|exact Hw0|exact Hval1].
Qed.

Lemma setFocusIfNeeded_activeCells s :
  _activeCells (_setFocusIfNeeded s) = _activeCells s.
Proof. apply cellStore_activeCells, setFocusIfNeeded_cellStore. Qed.

Lemma afterRender_wellFormed s :
  wellFormed s → ∃ s', afterRender s = Some s' ∧ wellFormed s'.
Proof.
  intros Hw. unfold afterRender. destruct (_isMounted s); [|by exists s].
  destruct (calcAndReconcile_wellFormed s s) as (s2 & E & H2); [done|done|apply Hw|].
  destruct (_calcNewRenderedItemState _ _) as [s1|]; [simpl in *|done].
  rewrite E. simpl. eexists. split; [done|].
  apply (wellFormed_bookkeeping s2);
    [apply setFocusIfNeeded_bookkeeping|apply setFocusIfNeeded_activeCells|done].
Qed.

Lemma handle_wellFormed e s :
  validEvent e → wellFormed s → ∃ s', handle e s = Some s' ∧ wellFormed s'.
Proof.
  intros He Hw. destruct e; simpl.
  - destruct (render_wellFormed s Hw) as (s1 & -> & H1). simpl. eexists. split; [done|].
    apply (wellFormed_bookkeeping s1);
      [apply componentDidMount_bookkeeping|apply componentDidMount_activeCells|done].
  - destruct (componentWillReceiveProps_wellFormed nextProps s He Hw) as (s1 & -> & H1).
    simpl. eexists. split; [done|]. by apply (wellFormed_bookkeeping s1).
  - destruct (render_wellFormed s Hw) as (s1 & -> & H1). simpl. eexists. split; [done|].
    by apply (wellFormed_bookkeeping s1).
  - eexists. split; [done|]. by apply (wellFormed_bookkeeping s).
  - by apply onLayoutContainer_wellFormed.
  - by apply onLayoutItem_wellFormed.
  - eexists. split; [done|]. apply (wellFormed_bookkeeping s); [| |done];
      unfold _onAnimateStartStopItem; by split_cases.
  - by apply onScroll_wellFormed.
  - eexists. split; [done|]. apply (wellFormed_bookkeeping s); [| |done];
      unfold _onItemFocused; by split_cases.
  - eexists. split; [done|]. by apply (wellFormed_bookkeeping s).
  - eexists. split; [done|]. apply (wellFormed_bookkeeping s); [| |done].
    + unfold _onKeyDown. destruct (_isMounted s); [|done].
      apply focusSubsequentItem_bookkeeping.
    + apply cellStore_activeCells, onKeyDown_cellStore.
  - eexists. split; [done|]. apply (wellFormed_bookkeeping s);
      [apply screenReaderStateChanged_bookkeeping
      |apply screenReaderStateChanged_activeCells|done].
  - destruct (_deferred s) as [|[] rest]; [by exists s| |].
    + apply afterRender_wellFormed. by apply (wellFormed_bookkeeping s).
    + unfold afterAnimationStop. simpl. destruct (_isMounted s); [|by eexists].
      destruct (_ && _); [|by eexists].
      apply (reconcile_wellFormed (set_deferred rest s) s); [done|done|apply Hw].
Qed.

Lemma run_wellFormed events s :
  Forall validEvent events → wellFormed s →
  ∃ s', run events s = Some s' ∧ wellFormed s'.
Proof.
  intros He. revert s. induction He as [|e events He Hes IH]; intros s Hw; simpl.
  { by exists s. }
  destruct (handle_wellFormed e s He Hw) as (s1 & -> & H1). simpl. by apply IH.
Qed.


(** X5. Every item of the render block has an active cell.  Under the
    same conditions, in the state any run leads to, each index of the
    render block holds an item of the list, that item has an active
    cell, and no other item of the block shares its key; so rendering
    and the reconciliation of corrections find the cell of every item
    they visit. *)
Theorem render_block_cells_present platform props events s :
  validProps props → Forall validEvent events →
  constructor platform props ≫= run events = Some s →
  blockCellsPresent (_props s) s ∧ blockKeysDistinct (_props s) s.
Proof.
  intros Hprops He. destruct (constructor_wellFormed platform props Hprops) as (s0 & -> & H0).
  simpl. destruct (run_wellFormed events s0 He H0) as (s' & -> & Hw). intros [= <-].
  destruct Hw as ((Hu & _) & _ & _ & _ & Hp). split.
  - by apply present_blockCellsPresent.
  - by apply uniqueKeys_blockKeysDistinct.
Qed.


(** ** A run that pools cells *)

(** The view of sixty templated rows is filled and scrolled down by 2000,
    which moves the cells of the first rows to the recycling pool; a
    height is reported for a row of declared height; the list is replaced
    by rows 5 to 44; the view renders and recalculates. The run ends with
    16 active cells and 25 cells in the pool. *)
Definition pooling : list Event :=
  filled ++ [Scroll 2000 0; RunDeferred; Render; LayoutItem (keyOf 45) 70;
             ReceiveProps (propsOf (templatedItem <$> seq 5 40)); Render; RunDeferred].

Lemma pooling_completes : completes rows pooling = true.
Proof. vm_compute. reflexivity. Qed.

Lemma virtual_keys_never_shared_witness :
  NoDup (CellInfo.virtualKey <$> _recycledCells (stateAfter rows pooling)).
Proof.
  refine (proj1 (proj2 (virtual_keys_never_shared web rows pooling _ _))).
  apply completes_stateAfter. vm_compute. reflexivity.
Defined.

Lemma recycling_pool_within_capacity_witness :
  Z.of_nat (length (_recycledCells (stateAfter rows pooling)))
  ≤ _maxRecycledCells (stateAfter rows pooling).
Proof.
  refine (proj1 (recycling_pool_within_capacity web rows pooling _ _)).
  apply completes_stateAfter. vm_compute. reflexivity.
Defined.

Lemma render_block_within_list_witness :
  0 ≤ _itemsAboveRenderBlock (stateAfter rows pooling)
  ∧ 0 ≤ _itemsInRenderBlock (stateAfter rows pooling)
  ∧ 0 ≤ _itemsBelowRenderBlock (stateAfter rows pooling)
  ∧ _itemsAboveRenderBlock (stateAfter rows pooling)
    + _itemsInRenderBlock (stateAfter rows pooling)
    ≤ Z.of_nat (length (itemList (_props (stateAfter rows pooling)))).
Proof.
  refine (render_block_within_list web rows pooling _ _).
  apply completes_stateAfter. vm_compute. reflexivity.
Defined.


Lemma render_block_cells_present_witness :
  blockCellsPresent (_props (stateAfter rows pooling)) (stateAfter rows pooling).
Proof.
  refine (proj1 (render_block_cells_present web rows pooling _ _ _ _)).
  - apply (bool_decide_eq_true_1 _). vm_compute. reflexivity.
  - apply (bool_decide_eq_true_1 _). vm_compute. reflexivity.
  - apply completes_stateAfter. vm_compute. reflexivity.
Defined.

Lemma overdraw_within_cull_margin_witness :
  (_calcOverdrawAmount (stateAfter rows pooling) < cullMargin (stateAfter rows pooling))%Q.
Proof.
  refine (proj2 (proj2 (proj2 (proj2 (overdraw_within_cull_margin web rows pooling _ _))))).
  apply completes_stateAfter. vm_compute. reflexivity.
Defined.


(** * Measurements in flight *)

(** A step of recalculation that asks for at most one more measurement
    and withdraws none. *)
Definition asksOneMore (s s' : VirtualListView) : Prop :=
  _pendingMeasurements s ⊆ _pendingMeasurements s'
  ∧ (size (_pendingMeasurements s') ≤ S (size (_pendingMeasurements s)))%nat.

(** A loop of recalculation that stops asking at the ceiling. *)
Definition throttled (s s' : VirtualListView) : Prop :=
  _pendingMeasurements s ⊆ _pendingMeasurements s'
  ∧ (size (_pendingMeasurements s')
     ≤ size (_pendingMeasurements s) `max` _maxSimultaneousMeasures)%nat.

Lemma cellsOnly_pendingMeasurements s s' :
  cellsOnly s s' → _pendingMeasurements s' = _pendingMeasurements s.
Proof. by intros (ac & rc & nk & d & hc & ->). Qed.

Lemma size_add_one (X : gset string) k : (size (X ∪ {[k]}) ≤ S (size X))%nat.
Proof.
  rewrite size_union_alt.
  assert (size ({[k]} ∖ X) ≤ size ({[k]} : gset string))%nat as H
    by (apply subseteq_size, subseteq_difference_l; done).
  rewrite size_singleton in H. lia.
Qed.

Lemma awaitMeasurement_asksOneMore item s : asksOneMore s (awaitMeasurement item s).
Proof.
  unfold asksOneMore, awaitMeasurement. destruct (_isItemHeightKnown s item); simpl.
  - split; [done|lia].
  - split; [apply union_subseteq_l|apply size_add_one].
Qed.

Lemma cullFromTop_pendingMeasurements fuel props line s s' :
  cullFromTop fuel props line s = Some s' →
  _pendingMeasurements s' = _pendingMeasurements s.
Proof.
  revert s. induction fuel as [|fuel IH]; intros s; simpl.
  { by intros [= ->]. }
  destruct (_itemsInRenderBlock s >? 0); [|by intros [= ->]].
  destruct (itemAt props _) as [item|]; [simpl|done].
  destruct (negb _); [by intros [= ->]|].
  destruct (ZgeQ _ _); [by intros [= ->]|].
  intros H%IH. rewrite H.
  by rewrite (cellsOnly_pendingMeasurements _ _ (recycleCell_cellsOnly _ _)).
Qed.

Lemma cullFromBottom_pendingMeasurements fuel props line s s' :
  cullFromBottom fuel props line s = Some s' →
  _pendingMeasurements s' = _pendingMeasurements s.
Proof.
  revert s. induction fuel as [|fuel IH]; intros s; simpl.
  { by intros [= ->]. }
  destruct (_itemsInRenderBlock s >? 0); [|by intros [= ->]].
  destruct (itemAt props _) as [item|]; [simpl|done].
  destruct (negb _); [by intros [= ->]|].
  destruct (ZleQ _ _); [by intros [= ->]|].
  intros H%IH. rewrite H.
  by rewrite (cellsOnly_pendingMeasurements _ _ (recycleCell_cellsOnly _ _)).
Qed.

Lemma seedRenderBlock_asksOneMore props limit s :
  asksOneMore s (seedRenderBlock props limit s).
Proof.
  unfold seedRenderBlock, asksOneMore.
  change (_pendingMeasurements (recomputeBlockHeights props ?x))
    with (_pendingMeasurements x).
  destruct (findFirstInRenderBlock _ _ _ _ _) as [[[i item] y]|]; [|split; [done|simpl; lia]].
  match goal with
  | |- context [awaitMeasurement item ?x] =>
      destruct (awaitMeasurement_asksOneMore item x) as [H1 H2]; revert H1 H2
  end.
  rewrite (cellsOnly_pendingMeasurements _ _ (allocateCell_cellsOnly _ _ _ _ _ _ _ _)).
  simpl. done.
Qed.

Lemma buildItem_asksOneMore props idx above topY bottomY s topY' bottomY' s' :
  buildItem props idx above topY bottomY s = Some (topY', bottomY', s') →
  asksOneMore s s'.
Proof.
  unfold buildItem, asksOneMore.
  destruct (itemAt props idx) as [item|]; [simpl|done].
  destruct above, (_isItemHeightKnown s item); intros [= _ _ <-];
    rewrite (cellsOnly_pendingMeasurements _ _ (allocateCell_cellsOnly _ _ _ _ _ _ _ _));
    simpl; (split; [done|lia]) || (split; [apply union_subseteq_l|apply size_add_one]).
Qed.

Lemma throttled_refl s : throttled s s.
Proof. split; [done|lia]. Qed.

Lemma throttled_step s s1 s' :
  (size (_pendingMeasurements s) < _maxSimultaneousMeasures)%nat →
  asksOneMore s s1 → throttled s1 s' → throttled s s'.
Proof.
  unfold throttled, asksOneMore, _maxSimultaneousMeasures.
  intros Hlt [H1 H2] [H3 H4]. split; [by transitivity (_pendingMeasurements s1)|lia].
Qed.

Lemma growAtBottom_throttled fuel props limit topY bottomY s topY' bottomY' s' :
  growAtBottom fuel props limit topY bottomY s = Some (topY', bottomY', s') →
  throttled s s'.
Proof.
  revert topY bottomY s. induction fuel as [|fuel IH]; intros topY bottomY s; simpl.
  { intros [= _ _ ->]. apply throttled_refl. }
  destruct (_ <? _)%nat eqn:Hlt; [|intros [= _ _ ->]; apply throttled_refl].
  destruct (_ || _); [intros [= _ _ ->]; apply throttled_refl|].
  destruct (buildItem _ _ _ _ _ _) as [[[t b] s1]|] eqn:E; [simpl|done].
  intros H%IH. apply Nat.ltb_lt in Hlt.
  eapply throttled_step; [exact Hlt|by eapply buildItem_asksOneMore|exact H].
Qed.

Lemma growAtTop_throttled fuel props limit topY bottomY s topY' bottomY' s' :
  growAtTop fuel props limit topY bottomY s = Some (topY', bottomY', s') →
  throttled s s'.
Proof.
  revert topY bottomY s. induction fuel as [|fuel IH]; intros topY bottomY s; simpl.
  { intros [= _ _ ->]. apply throttled_refl. }
  destruct (_ <? _)%nat eqn:Hlt; [|intros [= _ _ ->]; apply throttled_refl].
  destruct (_ || _); [intros [= _ _ ->]; apply throttled_refl|].
  destruct (buildItem _ _ _ _ _ _) as [[[t b] s1]|] eqn:E; [simpl|done].
  intros H%IH. apply Nat.ltb_lt in Hlt.
  eapply throttled_step; [exact Hlt|by eapply buildItem_asksOneMore|exact H].
Qed.

(** X7. Measurements are throttled.  A recalculation withdraws no
    pending measurement and leaves at most [_maxSimultaneousMeasures]
    (16) of them pending, unless more were pending before it, in which
    case it returns at once and changes nothing. *)
Theorem measurements_throttled props s s' :
  _calcNewRenderedItemState props s = Some s' →
  _pendingMeasurements s ⊆ _pendingMeasurements s'
  ∧ (size (_pendingMeasurements s')
     ≤ size (_pendingMeasurements s) `max` _maxSimultaneousMeasures)%nat
  ∧ (_pendingMeasurements s ≠ ∅ → s' = s).
Proof.
  unfold _calcNewRenderedItemState.
  destruct (_layoutHeight s =? 0); [intros [= <-]; split; [done|split; [lia|done]]|].
  destruct (_ =? _)%nat; [intros [= <-]; split; [done|split; [lia|done]]|].
  destruct (0 <? size (_pendingMeasurements s))%nat eqn:Hpending;
    [intros [= <-]; split; [done|split; [lia|done]]|].
  apply Nat.ltb_ge in Hpending.
  assert (_pendingMeasurements s = ∅) as Hempty
    by (apply leibniz_equiv, size_empty_iff; lia).
  destruct (cullFromTop _ _ _ _) as [s1|] eqn:E1; [simpl|done].
  destruct (cullFromBottom _ _ _ _) as [s2|] eqn:E2; [simpl|done].
  apply cullFromTop_pendingMeasurements in E1.
  apply cullFromBottom_pendingMeasurements in E2.
  set (s3 := if _itemsInRenderBlock s2 =? 0 then _ else s2).
  assert (asksOneMore s2 s3) as [_ H3].
  { subst s3. destruct (_itemsInRenderBlock s2 =? 0).
    - apply seedRenderBlock_asksOneMore.
    - split; [done|lia]. }
  clearbody s3.
  destruct (repositionItems _ _ _ _ _) as [[y4 s4]|] eqn:E4; [simpl|done].
  apply repositionItems_cellsOnly, cellsOnly_pendingMeasurements in E4.
  set (s5 := if negb _ then _ else s4).
  assert (_pendingMeasurements s5 = _pendingMeasurements s4) as E5
    by (subst s5; by destruct (negb _)).
  clearbody s5.
  destruct (growAtBottom _ _ _ _ _ _) as [[[t6 b6] s6]|] eqn:E6; [simpl|done].
  apply growAtBottom_throttled in E6 as [_ H6].
  destruct (growAtTop _ _ _ _ _ _) as [[[t7 b7] s7]|] eqn:E7; [simpl|done].
  apply growAtTop_throttled in E7 as [_ H7].
  assert (size (_pendingMeasurements s7) ≤ _maxSimultaneousMeasures)%nat as Hsize.
  { rewrite E5, E4 in H6. rewrite E2, E1, Hempty, size_empty in H3.
    unfold _maxSimultaneousMeasures in *. lia. }
  assert (∀ x, _pendingMeasurements x = _pendingMeasurements s7 →
            _pendingMeasurements s ⊆ _pendingMeasurements x
            ∧ (size (_pendingMeasurements x)
               ≤ size (_pendingMeasurements s) `max` _maxSimultaneousMeasures)%nat
            ∧ (_pendingMeasurements s ≠ ∅ → x = s)) as Hdone.
  { intros x ->. rewrite Hempty. split; [apply empty_subseteq|]. split; [lia|done]. }
  destruct (_ && _); [|intros [= <-]; by apply Hdone].
  unfold _popInvisibleIntoView.
  destruct (popItems _ _ _ _) as [s8|] eqn:E8; [simpl|done].
  apply popItems_cellsOnly, cellsOnly_pendingMeasurements in E8.
  intros [= <-]. apply Hdone. simpl. exact E8.
Qed.

(** Sixty rows whose heights are all to be measured, mounted, and about
    to be laid out in a viewport 2000 high, which forty rows would fill:
    the recalculation that follows asks for sixteen measurements and
    stops. *)
Definition measuredRows : Props := propsOf (measuredItem <$> seq 0 60).

Definition beforeFirstLayout : VirtualListView :=
  set_layoutHeight 2000 (stateAfter measuredRows [Mount false]).

Definition afterFirstLayout : VirtualListView :=
  default beforeFirstLayout (_calcNewRenderedItemState measuredRows beforeFirstLayout).

Lemma measurements_throttled_witness :
  (size (_pendingMeasurements afterFirstLayout)
   ≤ size (_pendingMeasurements beforeFirstLayout) `max` _maxSimultaneousMeasures)%nat
  ∧ size (_pendingMeasurements afterFirstLayout) = 16%nat.
Proof.
  split; [|vm_compute; reflexivity].
  refine (proj1 (proj2 (measurements_throttled measuredRows beforeFirstLayout
                          afterFirstLayout _))).
  apply default_Some. vm_compute. reflexivity.
Defined.


(** * After the view is unmounted *)

(** The callbacks that are guarded by [_isMounted]: the two layout
    reports, the animation notifications, the arrow keys and the deferred
    tasks. *)
Definition guardedByMount (e : Event) : bool :=
  match e with
  | LayoutContainer _ _ | LayoutItem _ _ | AnimateStartStopItem _ _ | KeyDown _
  | RunDeferred => true
  | _ => false
  end.

Lemma set_deferred_id s : set_deferred (_deferred s) s = s.
Proof. by destruct s. Qed.

Lemma handle_unmounted e s :
  _isMounted s = false → guardedByMount e = true →
  handle e s = Some (if e is RunDeferred then set_deferred (tail (_deferred s)) s else s).
Proof.
  intros Hm He. destruct e; try discriminate He; simpl.
  - unfold _onLayoutContainer. by rewrite Hm.
  - unfold _onLayoutItem. by rewrite Hm.
  - unfold _onAnimateStartStopItem. by rewrite Hm.
  - unfold _onKeyDown. by rewrite Hm.
  - destruct (_deferred s) as [|task rest] eqn:E.
    + simpl. by rewrite <- E, set_deferred_id.
    + simpl. destruct task; unfold afterRender, afterAnimationStop; simpl; by rewrite Hm.
Qed.

(** X8. An unmounted view ignores late callbacks.  Once the view is
    unmounted, any sequence of layout reports, animation notifications,
    arrow keys and deferred tasks returns and changes nothing but the
    queue of deferred tasks, of which the tasks run are dropped: no cell
    moves, no counter changes and no call is made into the host. *)
Theorem unmounted_view_is_inert events s :
  _isMounted s = false → Forall (λ e, guardedByMount e = true) events →
  ∃ n, run events s = Some (set_deferred (drop n (_deferred s)) s).
Proof.
  intros Hm He. revert s Hm. induction He as [|e events He Hes IH]; intros s Hm; simpl.
  { exists 0%nat. by rewrite drop_0, set_deferred_id. }
  rewrite (handle_unmounted e s Hm He). simpl.
  destruct e; try discriminate He; try apply IH, Hm.
  destruct (IH (set_deferred (tail (_deferred s)) s) Hm) as [n ->].
  exists (S n). f_equal. simpl.
  replace (drop n (tail (_deferred s))) with (drop (S n) (_deferred s))
    by (destruct (_deferred s); simpl; [by destruct n|done]).
  reflexivity.
Qed.

(** A view that was filled and then unmounted, with a deferred task
    still queued, and what reaches it afterwards. *)
Definition unmounted : VirtualListView :=
  stateAfter rows [Mount false; LayoutContainer 300 500; Unmount].

Definition lateCallbacks : list Event :=
  [LayoutItem (keyOf 3) 80; RunDeferred; LayoutContainer 300 900; KeyDown Down;
   AnimateStartStopItem (keyOf 3) false; RunDeferred].

Lemma unmounted_view_is_inert_witness :
  ∃ n, run lateCallbacks unmounted = Some (set_deferred (drop n (_deferred unmounted)) unmounted).
Proof.
  refine (unmounted_view_is_inert lateCallbacks unmounted _ _).
  - vm_compute. reflexivity.
  - repeat constructor.
Defined.

(** * The focused and the selected key after an update *)

Lemma someItemHasKey_true props k :
  someItemHasKey props (Some k) = true ↔ k ∈ ItemInfo.key <$> itemList props.
Proof.
  unfold someItemHasKey. rewrite existsb_exists. split.
  - intros (item & Hitem%list_elem_of_In & E%String.eqb_eq). apply list_elem_of_fmap.
    by exists item.
  - intros (item & -> & Hitem)%list_elem_of_fmap. exists item.
    split; [by apply list_elem_of_In|apply String.eqb_refl].
Qed.

Lemma componentWillReceiveProps_props nextProps s s' :
  UNSAFE_componentWillReceiveProps nextProps s = Some s' → _props s' = nextProps.
Proof.
  unfold UNSAFE_componentWillReceiveProps.
  destruct (negb _); [|by intros [= <-]].
  destruct (_updateStateFromProps _ _ _); [simpl|done]. by intros [= <-].
Qed.

(** X9. After an update of the properties neither the focused nor the
    selected key names a removed item: each of them is undefined, the
    empty string, or the key of an item of the new list. *)
Theorem focus_and_selection_follow_the_list nextProps s s' :
  handle (ReceiveProps nextProps) s = Some s' →
  _props s' = nextProps
  ∧ ∀ k, lastFocusedItemKey (_state s') = Some k ∨ selectedItemKey (_state s') = Some k →
      k = "" ∨ k ∈ ItemInfo.key <$> itemList nextProps.
Proof.
  simpl. destruct (UNSAFE_componentWillReceiveProps nextProps s) as [s1|] eqn:E; [|done].
  apply componentWillReceiveProps_props in E. simpl. intros [= <-]. split; [exact E|].
  unfold UNSAFE_componentWillUpdate. simpl. rewrite E.
  assert (∀ key k,
            (if truthy key && negb (someItemHasKey nextProps key) then None else key)
            = Some k → k = "" ∨ k ∈ ItemInfo.key <$> itemList nextProps) as H.
  { intros [key|] k; [|done]. unfold truthy.
    destruct (String.eqb_spec key "") as [->|Hne].
    - intros [= <-]. by left.
    - destruct (someItemHasKey nextProps (Some key)) eqn:Hk.
      + intros [= <-]. right. by apply someItemHasKey_true.
      + intros [=]. }
  intros k [Hk|Hk]; by eapply H.
Qed.

(** The sixth row is selected and focused; then the list is replaced by
    one that starts at the eleventh row. *)
Definition sixthSelected : VirtualListView :=
  stateAfter rows [ItemSelected (templatedItem 5)].

Definition firstTenRemoved : Props := propsOf (templatedItem <$> seq 10 20).

Lemma focus_and_selection_follow_the_list_witness :
  selectedItemKey (_state sixthSelected) = Some (keyOf 5)
  ∧ selectedItemKey
      (_state (default sixthSelected (handle (ReceiveProps firstTenRemoved) sixthSelected)))
    = None.
Proof.
  split; [vm_compute; reflexivity|].
  assert (handle (ReceiveProps firstTenRemoved) sixthSelected
          = Some (default sixthSelected (handle (ReceiveProps firstTenRemoved) sixthSelected)))
    as E by (apply default_Some; vm_compute; reflexivity).
  destruct (focus_and_selection_follow_the_list _ _ _ E) as [_ H].
  destruct (selectedItemKey _) as [k|] eqn:Hk; [exfalso|done].
  destruct (H k (or_intror eq_refl)) as [->|Hin].
  - vm_compute in Hk. discriminate Hk.
  - revert Hk Hin. vm_compute. intros [=].
Defined.


(** * Scrolling to an item *)

(** The search of [_scrollToItemKey] keeps the index it has when no item
    carries the key, and ends on the last item that does. *)
Lemma lastIndexOfKey_absent items idx key indexToSelect :
  key ∉ ItemInfo.key <$> items →
  lastIndexOfKey items idx key indexToSelect = indexToSelect.
Proof.
  revert idx indexToSelect. induction items as [|item items IH]; intros idx acc Hnot;
    simpl; [done|].
  rewrite fmap_cons, not_elem_of_cons in Hnot. destruct Hnot as [Hne Hnot].
  rewrite IH by done. destruct (String.eqb_spec (ItemInfo.key item) key); [|done].
  congruence.
Qed.

Lemma lastIndexOfKey_last items idx key indexToSelect i item :
  items !! i = Some item → ItemInfo.key item = key →
  (∀ j item', (i < j)%nat → items !! j = Some item' → ItemInfo.key item' ≠ key) →
  lastIndexOfKey items idx key indexToSelect = Some (idx + Z.of_nat i).
Proof.
  revert idx indexToSelect i. induction items as [|item0 items IH]; intros idx acc i Hi Hk Hlast;
    [done|].
  destruct i as [|i]; simpl in *.
  - injection Hi as ->. rewrite Hk, String.eqb_refl.
    rewrite lastIndexOfKey_absent; [f_equal; lia|].
    intros (item' & E & [j Hj]%list_elem_of_lookup)%list_elem_of_fmap.
    by apply (Hlast (S j) item' ltac:(lia)).
  - rewrite (IH (idx + 1) _ i Hi Hk); [f_equal; lia|].
    intros j item' Hj Hitem'. apply (Hlast (S j) item'); [lia|done].
Qed.

(** X10. Scrolling to an item by its key.  [_scrollToItemKey] does
    nothing when no item of the list carries the key.  When the last item
    that carries it is at index [i] and the view is mounted, it makes one
    call into the scroll view, not animated, to the sum of the heights of
    the items before [i] less [keyboardFocusScrollOffset], and changes
    nothing else; [selectItemKey] with [scrollToItem] does so after it has
    made the key the focused and the selected one. *)
Theorem scroll_to_item_key s key :
  (key ∉ ItemInfo.key <$> itemList (_props s) → _scrollToItemKey key s = s)
  ∧ (∀ i item,
       itemList (_props s) !! i = Some item → ItemInfo.key item = key →
       (∀ j item', (i < j)%nat → itemList (_props s) !! j = Some item' →
          ItemInfo.key item' ≠ key) →
       _isMounted s = true →
       let top := sumHeightOf (_heightCache s) (take i (itemList (_props s)))
                  - keyboardFocusScrollOffset (_props s) in
       _scrollToItemKey key s = call (ScrollViewSetScrollTop top false) s
       ∧ selectItemKey key true s
         = call (ScrollViewSetScrollTop top false)
             (set_state {| lastFocusedItemKey := Some key;
                           isFocused := isFocused (_state s);
                           selectedItemKey := Some key |} s)).
Proof.
  split.
  - intros Hnot. unfold _scrollToItemKey. by rewrite lastIndexOfKey_absent.
  - intros i item Hi Hk Hlast Hm top.
    assert (∀ x, bookkeeping x = bookkeeping s → _isMounted x = true →
              _scrollToItemKey key x = call (ScrollViewSetScrollTop top false) x) as H.
    { intros x Hb Hx. unfold _scrollToItemKey, _scrollToItemIndex, scrollToTop.
      unfold bookkeeping in Hb. injection Hb as Hp _ _ _ _ _ _ Hc _.
      rewrite Hp, (lastIndexOfKey_last _ 0 key None i item Hi Hk Hlast), Hx.
      rewrite calcHeightOfItems_rangeHeight, Hc. subst top. do 3 f_equal.
      rewrite rangeHeight_slice by lia. by rewrite drop_0. }
    split; [by apply H|]. unfold selectItemKey. by apply H.
Qed.

Lemma scroll_to_item_key_witness :
  _scrollToItemKey (keyOf 7) (stateAfter rows filled)
  = call (ScrollViewSetScrollTop 350 false) (stateAfter rows filled).
Proof.
  destruct (scroll_to_item_key (stateAfter rows filled) (keyOf 7)) as [_ H].
  refine (proj1 (H 7%nat (templatedItem 7) _ _ _ _)).
  - vm_compute. reflexivity.
  - reflexivity.
  - intros j item' Hj Hitem' E.
    assert (uniqueKeys (_props (stateAfter rows filled))) as Hu
      by (apply (bool_decide_eq_true_1 _); vm_compute; reflexivity).
    assert (j = 7%nat); [|lia].
    apply (NoDup_lookup _ _ _ (keyOf 7) Hu).
    + by rewrite list_lookup_fmap, Hitem', <- E.
    + vm_compute. reflexivity.
  - vm_compute. reflexivity.
Defined.


(** * The cells of the render block are stacked *)














(** * The cells of the pool *)

(** A cell that can wait in the pool: it is hidden, and it has a template
    and a constant height, by which [_allocateCell] finds it again. *)
Definition reusable (c : VirtualCellInfo) : Prop :=
  CellInfo.isVisible c = false
  ∧ truthy (CellInfo.itemTemplate c) = true
  ∧ CellInfo.isHeightConstant c = true.

Definition poolReusable (store : CellStore) : Prop :=
  let '(_, rc, _, _, _, _, _) := store in Forall reusable rc.

Lemma reusable_setCellTopAndVisibility k v y a s :
  storeInvariant poolReusable s →
  storeInvariant poolReusable (_setCellTopAndVisibility k v y a s).
Proof.
  unfold storeInvariant. rewrite setCellTopAndVisibility_cellStore.
  by destruct (_activeCells s !! k).
Qed.

Lemma reusable_allocateCell k t i c h y v s :
  storeInvariant poolReusable s →
  storeInvariant poolReusable (_allocateCell k t i c h y v s).
Proof.
  unfold storeInvariant. rewrite allocateCell_cellStore. intros H.
  destruct (existingCell s k t c h) as [[newCell pool]|] eqn:E; [|done].
  apply existingCell_Some in E as [[Hk ->]|(Hk & j & Hj & ->)]; [done|].
  simpl in *. by apply Forall_delete.
Qed.

Lemma reusable_recycleCell k s :
  storeInvariant poolReusable s →
  storeInvariant poolReusable (_recycleCell k s).
Proof.
  unfold storeInvariant. rewrite recycleCell_cellStore.
  destruct (_activeCells s !! k) as [c|]; [|done].
  intros H. simpl in *. unfold pooled.
  destruct (_maxRecycledCells s >? 0); [simpl|exact H].
  destruct (truthy _) eqn:Ht; [simpl|exact H].
  destruct (CellInfo.isHeightConstant c) eqn:Hc; [|exact H].
  assert (Forall reusable
            (_recycledCells s ++ [CellInfo.setTopAndVisibility false (CellInfo.top c) c]))
    as Hpool.
  { apply Forall_app. split; [exact H|]. apply Forall_singleton. by destruct c. }
  destruct (_ >? _); [|exact Hpool].
  by apply Forall_delete.
Qed.

Lemma reusable_markShouldUpdate k s :
  storeInvariant poolReusable s →
  storeInvariant poolReusable (markShouldUpdate k s).
Proof.
  unfold storeInvariant. rewrite markShouldUpdate_cellStore.
  by destruct (_activeCells s !! k).
Qed.

Lemma reusable_render s s' :
  render s = Some s' →
  storeInvariant poolReusable s → storeInvariant poolReusable s'.
Proof.
  intros (Ha & Hr & Hn & Hm & Hp & He & Ht)%render_cellStore.
  unfold storeInvariant, cellStore. rewrite Hr. simpl.
  rewrite Forall_fmap. intros H. eapply Forall_impl; [exact H|]. by intros [].
Qed.

Lemma reusable_setupForAccessibility s :
  storeInvariant poolReusable s →
  storeInvariant poolReusable (_setupForAccessibility s).
Proof.
  unfold storeInvariant, _setupForAccessibility. intros H. simpl in H.
  destruct (_isNativeIOS _ || _); [|exact H].
  destruct (0 <? _)%nat; simpl; [constructor|exact H].
Qed.

Lemma reusable_tearDownForAccessibility s :
  storeInvariant poolReusable s →
  storeInvariant poolReusable (_tearDownForAccessibility s).
Proof.
  unfold storeInvariant, _tearDownForAccessibility. intros H. simpl in H.
  by destruct (_isNativeIOS _ || _).
Qed.

Lemma reusable_newView platform props :
  storeInvariant poolReusable (initialTuning props true (newView platform props)).
Proof. unfold initialTuning. destruct (_ && _); constructor. Qed.

(** X12. The cells of the pool are hidden and reusable.  After any run of
    a constructed view every cell in the recycling pool is invisible, has
    an item template and has a constant height: a cell is not left
    showing once it is recycled, and no cell is pooled that
    [_allocateCell] could never take back. *)
Theorem pooled_cells_hidden_and_reusable platform props events s c :
  constructor platform props ≫= run events = Some s →
  c ∈ _recycledCells s →
  CellInfo.isVisible c = false
  ∧ CellInfo.itemTemplate c ≠ None ∧ CellInfo.itemTemplate c ≠ Some ""
  ∧ CellInfo.isHeightConstant c = true.
Proof.
  intros H Hc.
  pose proof (reachable_keeps poolReusable reusable_setCellTopAndVisibility
    reusable_allocateCell reusable_recycleCell reusable_markShouldUpdate
    reusable_render reusable_setupForAccessibility
    reusable_tearDownForAccessibility reusable_newView _ _ _ _ H) as Hpool.
  unfold storeInvariant, cellStore, poolReusable in Hpool.
  rewrite Forall_forall in Hpool. destruct (Hpool c Hc) as (H1 & H2 & H3).
  split; [exact H1|]. split; [|split; [|exact H3]]; intros E; rewrite E in H2; done.
Qed.

Lemma pooled_cells_hidden_and_reusable_witness :
  length (_recycledCells (stateAfter rows pooling)) = 25%nat
  ∧ Forall (λ c, CellInfo.isVisible c = false) (_recycledCells (stateAfter rows pooling)).
Proof.
  split; [vm_compute; reflexivity|].
  apply Forall_forall. intros c Hc.
  refine (proj1 (pooled_cells_hidden_and_reusable web rows pooling _ c _ Hc)).
  apply completes_stateAfter. vm_compute. reflexivity.
Defined.


(** * The elements [render] returns *)

(** An entry of [cellList] in [render]: a cell, with the item it shows and
    the index of that item, or with neither for a recycled cell.  [item]
    holds the fields [item] and [itemIndex], which are set together. *)
Module CellEntry.
Record t := mk {
  cellInfo : VirtualCellInfo;
  item : option (ItemInfo.t * Z)
}.
End CellEntry.

(** The props of a [VirtualListCell] element that [render] computes from
    the cell, its item and the state of the view.  [key] is the number of
    the virtual key, with [true] when [_accessibilityVirtualKeyPrefix] is
    put before it; [onLayout] tells whether the element is given
    [_onLayoutItem].  The other props of the element are the callbacks of
    the view and props the view passes on, the same for every cell. *)
Module CellElement.
Record t := mk {
  key : bool * nat;
  onLayout : bool;
  itemKey : option string;
  item : option ItemInfo.t;
  width : Z;
  top : Z;
  isVisible : bool;
  isActive : bool;
  isFocused : bool;
  isSelected : bool;
  tabIndex : Z;
  shouldUpdate : bool;
  isScreenReaderModeEnabled : bool
}.
End CellElement.

(** The first [for] loop of [render] over the [n] items of the render
    block not yet visited: the entries of the active cells. *)
Fixpoint blockEntries (n : nat) (i : Z) (s : VirtualListView) :
    option (list CellEntry.t) :=
  match n with
  | O => Some []
  | S n =>
      let itemIndex := _itemsAboveRenderBlock s + i in
      item ← itemAt (_props s) itemIndex;
      virtualCellInfo ← _activeCells s !! ItemInfo.key item;
      rest ← blockEntries n (i + 1) s;
      Some ({| CellEntry.cellInfo := virtualCellInfo;
               CellEntry.item := Some (item, itemIndex) |} :: rest)
  end.

(** [cellList] before it is sorted: the cells of the render block, then
    the recycled cells. *)
Definition renderCellList (s : VirtualListView) : option (list CellEntry.t) :=
  block ← blockEntries (Z.to_nat (_itemsInRenderBlock s)) 0 s;
  Some (block
        ++ ((λ virtualCellInfo,
               {| CellEntry.cellInfo := virtualCellInfo; CellEntry.item := None |})
            <$> _recycledCells s)).

(** The comparison function given to [sort]. *)
Definition byVirtualKey (a b : CellEntry.t) : Z :=
  if (CellInfo.virtualKey (CellEntry.cellInfo a)
      <? CellInfo.virtualKey (CellEntry.cellInfo b))%nat
  then 1 else -1.

(** [Number.MAX_VALUE], which is a whole number. *)
Definition Number_MAX_VALUE : Z := 2 ^ 1024 - 2 ^ 971.

(** [_.minBy(l, f)]: the first element of [l] at which [f] is least, and
    [None] for an empty list. *)
Definition minBy {A : Type} (f : A → Z) (l : list A) : option A :=
  match l with
  | [] => None
  | x :: l => Some (foldl (λ result value, if f value <? f result then value else result) x l)
  end.

(** The iteratee [render] gives to [_.minBy]. *)
Definition focusOrder (cell : CellEntry.t) : Z :=
  match CellEntry.item cell with
  | Some (item, itemIndex) =>
      if ItemInfo.isNavigable item then itemIndex else Number_MAX_VALUE
  | None => Number_MAX_VALUE
  end.

(** [focusIndex]: the index of the item to give the tab stop to while no
    item has been focused. *)
Definition focusIndexOf (s : VirtualListView) (cellList : list CellEntry.t) : option Z :=
  match lastFocusedItemKey (_state s) with
  | None =>
      itemToFocus ← minBy focusOrder cellList;
      snd <$> CellEntry.item itemToFocus
  | Some _ => None
  end.

Definition tabIndexValue (s : VirtualListView) (focusIndex : option Z)
    (cell : CellEntry.t) : Z :=
  match CellEntry.item cell with
  | Some (item, itemIndex) =>
      if ItemInfo.isNavigable item then
        if bool_decide (Some itemIndex = focusIndex) then 0
        else if bool_decide (Some (ItemInfo.key item) = lastFocusedItemKey (_state s))
             then 0 else -1
      else -1
  | None => -1
  end.

(** The element made for one entry of the sorted [cellList].  [reset]
    holds the keys of the items whose cell an earlier iteration of the
    loop has set [shouldUpdate] to [false] on: an entry of the same item
    shares that cell. *)
Definition elementOf (s : VirtualListView) (focusIndex : option Z) (reset : gset string)
    (cell : CellEntry.t) : CellElement.t :=
  let cellInfo := CellEntry.cellInfo cell in
  let item : option ItemInfo.t := fst <$> CellEntry.item cell in
  let cellShouldUpdate :=
    match item with
    | Some item =>
        if bool_decide (ItemInfo.key item ∈ reset) then false
        else CellInfo.shouldUpdate cellInfo
    | None => CellInfo.shouldUpdate cellInfo
    end in
  {| CellElement.key := (_isAndroidScreenReaderEnabled s, CellInfo.virtualKey cellInfo);
     CellElement.onLayout := negb (CellInfo.isHeightConstant cellInfo);
     CellElement.itemKey := ItemInfo.key <$> item;
     CellElement.item := item;
     CellElement.width := _contentWidth s;
     CellElement.top := CellInfo.top cellInfo;
     CellElement.isVisible := CellInfo.isVisible cellInfo;
     CellElement.isActive := if item is Some _ then true else false;
     CellElement.isFocused :=
       match item with
       | Some item => bool_decide (Some (ItemInfo.key item) = lastFocusedItemKey (_state s))
       | None => false
       end;
     CellElement.isSelected :=
       match item with
       | Some item =>
           ItemInfo.isNavigable item
           && bool_decide (Some (ItemInfo.key item) = selectedItemKey (_state s))
       | None => false
       end;
     CellElement.tabIndex := tabIndexValue s focusIndex cell;
     CellElement.shouldUpdate :=
       negb (skipRenderIfItemUnchanged (_props s)) || cellShouldUpdate;
     CellElement.isScreenReaderModeEnabled := _isAndroidScreenReaderEnabled s |}.

(** The last [for] loop of [render], over the sorted [cellList]. *)
Fixpoint cellElements (s : VirtualListView) (focusIndex : option Z) (reset : gset string)
    (cellList : list CellEntry.t) : list CellElement.t :=
  match cellList with
  | [] => []
  | cell :: rest =>
      elementOf s focusIndex reset cell
      :: cellElements s focusIndex
           (match CellEntry.item cell with
            | Some (item, _) => reset ∪ {[ItemInfo.key item]}
            | None => reset
            end) rest
  end.

(** [itemsRendered], the children [render] returns, for a host whose
    [Array.prototype.sort] is [sort]. *)
Definition itemsRendered
    (sort : (CellEntry.t → CellEntry.t → Z) → list CellEntry.t → list CellEntry.t)
    (s : VirtualListView) : option (list CellElement.t) :=
  cellList ← renderCellList s;
  let cellList := sort byVirtualKey cellList in
  let focusIndex := focusIndexOf s cellList in
  Some (cellElements s focusIndex ∅ cellList).

(** An insertion sort, as a host may implement [sort]. *)
Fixpoint insertBy {A : Type} (compareFn : A → A → Z) (x : A) (l : list A) : list A :=
  match l with
  | [] => [x]
  | y :: rest =>
      if compareFn x y <=? 0 then x :: l else y :: insertBy compareFn x rest
  end.

Definition insertionSort {A : Type} (compareFn : A → A → Z) (l : list A) : list A :=
  foldr (insertBy compareFn) [] l.

Lemma insertBy_Permutation {A} (compareFn : A → A → Z) x l :
  insertBy compareFn x l ≡ₚ x :: l.
Proof.
  induction l as [|y l IH]; simpl; [done|].
  destruct (_ <=? _); [done|]. rewrite IH. apply Permutation_swap.
Qed.

Lemma insertionSort_Permutation {A} (compareFn : A → A → Z) l :
  insertionSort compareFn l ≡ₚ l.
Proof.
  induction l as [|x l IH]; simpl; [done|].
  rewrite insertBy_Permutation. by rewrite IH.
Qed.

(** ** The entries *)

Definition entryIndex (cell : CellEntry.t) : option Z := snd <$> CellEntry.item cell.

Lemma blockEntries_spec n i s block :
  blockEntries n i s = Some block →
  entryIndex <$> block = Some <$> seqZ (_itemsAboveRenderBlock s + i) (Z.of_nat n)
  ∧ Forall (λ cell, ∃ item itemIndex,
              CellEntry.item cell = Some (item, itemIndex)
              ∧ _itemsAboveRenderBlock s + i ≤ itemIndex
                < _itemsAboveRenderBlock s + i + Z.of_nat n
              ∧ itemAt (_props s) itemIndex = Some item
              ∧ _activeCells s !! ItemInfo.key item = Some (CellEntry.cellInfo cell)) block.
Proof.
  revert i block. induction n as [|n IH]; intros i block; simpl.
  { intros [= <-]. split; [done|constructor]. }
  destruct (itemAt _ _) as [item|] eqn:Hitem; [simpl|done].
  destruct (_activeCells s !! _) as [cell|] eqn:Hcell; [simpl|done].
  destruct (blockEntries n (i + 1) s) as [rest|] eqn:E; [simpl|done].
  intros [= <-]. apply IH in E as [E1 E2]. split.
  - rewrite fmap_cons, E1. rewrite (seqZ_cons _ (Z.of_nat (S n))) by lia.
    replace (Z.succ (_itemsAboveRenderBlock s + i)) with (_itemsAboveRenderBlock s + (i + 1))
      by lia.
    replace (Z.pred (Z.of_nat (S n))) with (Z.of_nat n) by lia. done.
  - constructor.
    + exists item, (_itemsAboveRenderBlock s + i). simpl. repeat split; (done || lia).
    + eapply Forall_impl; [exact E2|]. simpl.
      intros c (item' & idx & H1 & H2 & H3 & H4). exists item', idx.
      repeat split; (done || lia).
Qed.

Lemma blockEntries_complete n i s block j :
  blockEntries n i s = Some block → i ≤ j < i + Z.of_nat n →
  ∃ cell item, cell ∈ block
    ∧ CellEntry.item cell = Some (item, _itemsAboveRenderBlock s + j)
    ∧ itemAt (_props s) (_itemsAboveRenderBlock s + j) = Some item.
Proof.
  revert i block. induction n as [|n IH]; intros i block; simpl; [lia|].
  destruct (itemAt (_props s) (_itemsAboveRenderBlock s + i)) as [item|] eqn:Hitem;
    [simpl|done].
  destruct (_activeCells s !! _) as [cell|] eqn:Hcell; [simpl|done].
  destruct (blockEntries n (i + 1) s) as [rest|] eqn:E; [simpl|done].
  intros [= <-] Hj. destruct (decide (j = i)) as [->|Hne].
  - eexists _, item. split; [apply list_elem_of_here|]. done.
  - destruct (IH _ _ E) as (c & item' & H1 & H2 & H3); [lia|].
    exists c, item'. split; [by apply list_elem_of_further|done].
Qed.

(** ** The elements *)

Lemma elem_of_cellElements s focusIndex reset cellList e :
  e ∈ cellElements s focusIndex reset cellList →
  ∃ cell reset', cell ∈ cellList ∧ e = elementOf s focusIndex reset' cell.
Proof.
  revert reset. induction cellList as [|cell rest IH]; intros reset; simpl.
  { by intros ?%elem_of_nil. }
  intros [->|H]%elem_of_cons.
  - exists cell, reset. split; [apply list_elem_of_here|done].
  - apply IH in H as (c & r & H1 & H2). exists c, r.
    split; [by apply list_elem_of_further|done].
Qed.

Lemma cellElements_complete s focusIndex reset cellList cell :
  cell ∈ cellList →
  ∃ reset', elementOf s focusIndex reset' cell ∈ cellElements s focusIndex reset cellList.
Proof.
  revert reset. induction cellList as [|c rest IH]; intros reset; simpl.
  { by intros ?%elem_of_nil. }
  intros [->|H]%elem_of_cons.
  - exists reset. apply list_elem_of_here.
  - edestruct IH as [r Hr]; [exact H|]. exists r. apply list_elem_of_further, Hr.
Qed.

Lemma cellElements_tabIndex s focusIndex reset cellList :
  CellElement.tabIndex <$> cellElements s focusIndex reset cellList
  = tabIndexValue s focusIndex <$> cellList.
Proof.
  revert reset. induction cellList as [|c rest IH]; intros reset; simpl; [done|].
  by rewrite IH.
Qed.

Lemma cellElements_key s focusIndex reset cellList :
  CellElement.key <$> cellElements s focusIndex reset cellList
  = (λ cell, (_isAndroidScreenReaderEnabled s,
              CellInfo.virtualKey (CellEntry.cellInfo cell))) <$> cellList.
Proof.
  revert reset. induction cellList as [|c rest IH]; intros reset; simpl; [done|].
  by rewrite IH.
Qed.

Lemma length_cellElements s focusIndex reset cellList :
  length (cellElements s focusIndex reset cellList) = length cellList.
Proof.
  revert reset. induction cellList as [|c rest IH]; intros reset; simpl; [done|].
  by rewrite IH.
Qed.

(** ** [_.minBy] *)

Lemma minBy_spec {A} (f : A → Z) l x :
  minBy f l = Some x → x ∈ l ∧ ∀ y, y ∈ l → f x ≤ f y.
Proof.
  destruct l as [|x0 l]; [done|]. simpl. intros [= <-].
  assert (∀ l x0, let r := foldl (λ result value, if f value <? f result then value else result)
                             x0 l in
            (r = x0 ∨ r ∈ l) ∧ f r ≤ f x0 ∧ ∀ y, y ∈ l → f r ≤ f y) as H.
  { clear. induction l as [|v l IH]; intros x0; simpl.
    { split; [by left|]. split; [lia|]. by intros y ?%elem_of_nil. }
    destruct (IH (if f v <? f x0 then v else x0)) as (H1 & H2 & H3).
    destruct (Z.ltb_spec (f v) (f x0)) as [Hlt|Hge].
    - split; [right; destruct H1 as [->|H1];
              [apply list_elem_of_here|by apply list_elem_of_further]|].
      split; [lia|]. intros y [->|Hy]%elem_of_cons; [done|by apply H3].
    - split; [destruct H1 as [H1|H1]; [by left|right; by apply list_elem_of_further]|].
      split; [done|]. intros y [->|Hy]%elem_of_cons; [lia|by apply H3]. }
  destruct (H l x0) as (H1 & H2 & H3). split.
  - destruct H1 as [->|H1]; [apply list_elem_of_here|by apply list_elem_of_further].
  - intros y [->|Hy]%elem_of_cons; [done|by apply H3].
Qed.

Lemma minBy_is_Some {A} (f : A → Z) l x : x ∈ l → is_Some (minBy f l).
Proof. destruct l; [by intros ?%elem_of_nil|]. by eexists. Qed.

(** At most one element of a list passes a test that settles the value of
    a function which differs on every two elements. *)
Lemma length_filter_unique {A B} (P : A → Prop) `{!∀ x, Decision (P x)} (g : A → B) l :
  NoDup (g <$> l) →
  (∀ x y, x ∈ l → y ∈ l → P x → P y → g x = g y) →
  (length (filter P l) ≤ 1)%nat.
Proof.
  induction l as [|x l IH]; [simpl; lia|].
  rewrite fmap_cons, NoDup_cons. intros [Hx Hl] Hsame.
  rewrite filter_cons. destruct (decide (P x)) as [HP|HP].
  - destruct (filter P l) as [|y rest] eqn:E; [simpl; lia|]. exfalso.
    assert (y ∈ filter P l) as [HPy Hy]%list_elem_of_filter
      by (rewrite E; apply list_elem_of_here).
    apply Hx. rewrite (Hsame x y); [by apply list_elem_of_fmap_2|apply list_elem_of_here|
                                    by apply list_elem_of_further|done|done].
  - apply IH; [done|]. intros a b Ha Hb. apply Hsame; by apply list_elem_of_further.
Qed.

(** ** The tab stop *)

(** The item at index [i] is the one that is to receive the keyboard
    focus: the navigable item of the render block that was focused last,
    or the first navigable item of the render block while none was. *)
Definition tabStopAt (s : VirtualListView) (i : Z) (item : ItemInfo.t) : Prop :=
  inRenderBlock s i ∧ itemAt (_props s) i = Some item
  ∧ ItemInfo.isNavigable item = true
  ∧ match lastFocusedItemKey (_state s) with
    | Some key => ItemInfo.key item = key
    | None =>
        ∀ j item', inRenderBlock s j → itemAt (_props s) j = Some item' →
          ItemInfo.isNavigable item' = true → i ≤ j
    end.

(** The entries of a list are those of the items of the render block. *)
Definition entriesOfBlock (s : VirtualListView) (l : list CellEntry.t) : Prop :=
  (∀ c item i, c ∈ l → CellEntry.item c = Some (item, i) →
     inRenderBlock s i ∧ itemAt (_props s) i = Some item)
  ∧ (∀ i item, inRenderBlock s i → itemAt (_props s) i = Some item →
       ∃ c, c ∈ l ∧ CellEntry.item c = Some (item, i)).

Lemma entriesOfBlock_Permutation s l l' :
  l ≡ₚ l' → entriesOfBlock s l' → entriesOfBlock s l.
Proof.
  intros Hp [H1 H2]. split.
  - intros c item i Hc. apply H1. by rewrite <- Hp.
  - intros i item Hi Hitem. destruct (H2 i item Hi Hitem) as (c & Hc & E).
    exists c. by rewrite Hp.
Qed.

Lemma renderCellList_spec s cellList :
  renderCellList s = Some cellList →
  entriesOfBlock s cellList
  ∧ ∃ block,
      cellList
      = block ++ ((λ c, {| CellEntry.cellInfo := c; CellEntry.item := None |})
                  <$> _recycledCells s)
      ∧ NoDup (entryIndex <$> block)
      ∧ length block = Z.to_nat (_itemsInRenderBlock s)
      ∧ Forall (λ cell, ∃ item itemIndex,
                  CellEntry.item cell = Some (item, itemIndex)
                  ∧ inRenderBlock s itemIndex
                  ∧ itemAt (_props s) itemIndex = Some item
                  ∧ _activeCells s !! ItemInfo.key item = Some (CellEntry.cellInfo cell))
          block.
Proof.
  unfold renderCellList.
  destruct (blockEntries _ _ _) as [block|] eqn:E; [simpl|done]. intros [= <-].
  pose proof (blockEntries_spec _ _ _ _ E) as [Hidx Hblock].
  assert (Forall (λ cell, ∃ item itemIndex,
                    CellEntry.item cell = Some (item, itemIndex)
                    ∧ inRenderBlock s itemIndex
                    ∧ itemAt (_props s) itemIndex = Some item
                    ∧ _activeCells s !! ItemInfo.key item = Some (CellEntry.cellInfo cell))
            block) as Hblock'.
  { eapply Forall_impl; [exact Hblock|]. simpl.
    intros c (item & idx & H1 & H2 & H3 & H4). exists item, idx.
    unfold inRenderBlock. repeat split; (done || lia). }
  split; [split|].
  - intros c item i [Hc|Hc]%elem_of_app E'.
    + rewrite Forall_forall in Hblock'.
      destruct (Hblock' c Hc) as (item' & idx & H1 & H2 & H3 & _).
      rewrite E' in H1. by injection H1 as <- <-.
    + apply list_elem_of_fmap in Hc as (c0 & -> & _). done.
  - intros i item Hi Hitem. unfold inRenderBlock in Hi.
    destruct (blockEntries_complete _ _ _ _ (i - _itemsAboveRenderBlock s) E)
      as (c & item' & Hc & H1 & H2); [lia|].
    replace (_itemsAboveRenderBlock s + (i - _itemsAboveRenderBlock s)) with i in * by lia.
    exists c. split; [apply elem_of_app; by left|]. congruence.
  - exists block. split; [done|]. split; [|split; [|exact Hblock']].
    + rewrite Hidx. apply (NoDup_fmap_2 _), NoDup_seqZ.
    + apply (f_equal length) in Hidx. rewrite !length_fmap, length_seqZ in Hidx. lia.
Qed.

Lemma tabIndexValue_tabStop s cellList cell :
  Z.of_nat (length (itemList (_props s))) ≤ Number_MAX_VALUE →
  entriesOfBlock s cellList → cell ∈ cellList →
  tabIndexValue s (focusIndexOf s cellList) cell = 0
  ↔ ∃ i item, CellEntry.item cell = Some (item, i) ∧ tabStopAt s i item.
Proof.
  intros Hmax [Hsound Hcomplete] Hcell. unfold tabIndexValue, focusIndexOf, tabStopAt.
  destruct (lastFocusedItemKey (_state s)) as [k|]; cbv beta iota.
  - split.
    + destruct (CellEntry.item cell) as [[item i]|] eqn:E; [|done].
      destruct (ItemInfo.isNavigable item) eqn:Hnav; [|done].
      destruct (Hsound _ _ _ Hcell E) as [Hi Hitem].
      rewrite (bool_decide_eq_false_2 (Some i = None)) by done.
      destruct (bool_decide_reflect (Some (ItemInfo.key item) = Some k)) as [[= ?]|];
        [|done].
      intros _. by exists i, item.
    + intros (i & item & -> & Hi & Hitem & -> & <-).
      rewrite (bool_decide_eq_false_2 (Some i = None)) by done.
      by rewrite bool_decide_eq_true_2.
  - destruct (minBy_is_Some focusOrder _ _ Hcell) as [x Hx]. rewrite Hx.
    cbn [mbind option_bind].
    apply minBy_spec in Hx as [Hxl Hmin]. split.
    + destruct (CellEntry.item cell) as [[item i]|] eqn:E; [|done].
      destruct (ItemInfo.isNavigable item) eqn:Hnav; [|done].
      destruct (Hsound _ _ _ Hcell E) as [Hi Hitem].
      rewrite (bool_decide_eq_false_2 (Some (ItemInfo.key item) = None)) by done.
      destruct (bool_decide_reflect (Some i = snd <$> CellEntry.item x)) as [Hfocus|];
        [|done].
      intros _. exists i, item. split; [done|]. split; [done|]. split; [done|].
      split; [done|].
      destruct (CellEntry.item x) as [[itemx ix]|] eqn:Ex; [|done].
      injection Hfocus as <-.
      destruct (Hsound _ _ _ Hxl Ex) as [_ Hitemx].
      assert (itemx = item) as -> by congruence.
      intros j item' Hj Hitem' Hnav'.
      destruct (Hcomplete j item' Hj Hitem') as (c & Hc & Ec).
      specialize (Hmin c Hc). unfold focusOrder in Hmin.
      by rewrite Ex, Ec, Hnav, Hnav' in Hmin.
    + intros (i & item & E & Hi & Hitem & Hnav & Hfirst). rewrite E, Hnav.
      pose proof (Hmin cell Hcell) as Hle. unfold focusOrder in Hle.
      rewrite E, Hnav in Hle.
      pose proof (itemAt_range _ _ _ Hitem) as Hrange.
      destruct (CellEntry.item x) as [[itemx ix]|] eqn:Ex; [|lia].
      destruct (ItemInfo.isNavigable itemx) eqn:Hnavx; [|lia].
      destruct (Hsound _ _ _ Hxl Ex) as [Hix Hitemx].
      pose proof (Hfirst ix itemx Hix Hitemx Hnavx) as Hge.
      simpl. rewrite bool_decide_eq_true_2; [done|]. f_equal. lia.
Qed.

Lemma filter_cellElements_tabIndex s focusIndex reset cellList :
  length (filter (λ e, CellElement.tabIndex e = 0) (cellElements s focusIndex reset cellList))
  = length (filter (λ cell, tabIndexValue s focusIndex cell = 0) cellList).
Proof.
  revert reset. induction cellList as [|c rest IH]; intros reset; simpl; [done|].
  rewrite !filter_cons. simpl.
  destruct (decide (tabIndexValue s focusIndex c = 0)); simpl; by rewrite IH.
Qed.

Lemma filter_recycledEntries s focusIndex (recycledCells : list VirtualCellInfo) :
  filter (λ cell, tabIndexValue s focusIndex cell = 0)
    ((λ c, {| CellEntry.cellInfo := c; CellEntry.item := None |}) <$> recycledCells)
  = [].
Proof.
  induction recycledCells as [|c rc IH]; [done|].
  rewrite fmap_cons, filter_cons_False; [exact IH|]. done.
Qed.

(** X13. One tab stop.  [render] gives [tabIndex] 0 to at most one of the
    cells it returns, whatever order the host's [sort] leaves them in:
    to the cell of the navigable item of the render block that was
    focused last or, while no item has been focused, to the cell of the
    first navigable item of the render block; and that cell is among the
    cells returned.  Every other cell has [tabIndex] -1. *)
Theorem single_tab_stop sort s elements :
  (∀ compareFn cellList, sort compareFn cellList ≡ₚ cellList) →
  uniqueKeys (_props s) →
  Z.of_nat (length (itemList (_props s))) ≤ Number_MAX_VALUE →
  itemsRendered sort s = Some elements →
  (length (filter (λ e, CellElement.tabIndex e = 0%Z) elements) ≤ 1)%nat
  ∧ (∀ e, e ∈ elements →
       CellElement.tabIndex e = 0 ∨ CellElement.tabIndex e = -1)
  ∧ (∀ e, e ∈ elements → CellElement.tabIndex e = 0 →
       ∃ i item, CellElement.item e = Some item ∧ tabStopAt s i item)
  ∧ (∀ i item, tabStopAt s i item →
       ∃ e, e ∈ elements ∧ CellElement.item e = Some item ∧ CellElement.tabIndex e = 0).
Proof.
  intros Hsort Hu Hmax. unfold itemsRendered.
  destruct (renderCellList s) as [cellList|] eqn:E; [simpl|done]. intros [= <-].
  apply renderCellList_spec in E as (Hentries & block & -> & Hnodup & _ & Hblock).
  set (cellList := block ++ _) in *.
  pose proof (Hsort byVirtualKey cellList) as Hperm.
  set (sorted := sort byVirtualKey cellList) in *.
  pose proof (entriesOfBlock_Permutation _ _ _ Hperm Hentries) as Hsorted.
  pose proof (λ cell, tabIndexValue_tabStop s sorted cell Hmax Hsorted) as Htab.
  split; [|split; [|split]].
  - rewrite filter_cellElements_tabIndex, Hperm. subst cellList.
    rewrite filter_app, length_app.
    match goal with
    | |- (_ + length ?l ≤ 1)%nat => replace l with (@nil CellEntry.t)
    end.
    2:{ symmetry. apply filter_recycledEntries. }
    rewrite Nat.add_0_r.
    apply (length_filter_unique _ entryIndex); [exact Hnodup|].
    intros x y Hx Hy Px Py.
    assert (x ∈ sorted ∧ y ∈ sorted) as [Hxs Hys].
    { rewrite Hperm. split; apply elem_of_app; by left. }
    apply (Htab x Hxs) in Px as (i & item & Ex & Hi & Hitem & Hnav & Hfocus).
    apply (Htab y Hys) in Py as (j & item' & Ey & Hj & Hitem' & Hnav' & Hfocus').
    unfold entryIndex. rewrite Ex, Ey. simpl. f_equal.
    destruct (lastFocusedItemKey (_state s)) as [k|].
    + apply (uniqueKeys_index _ _ _ _ _ Hu Hitem Hitem'). congruence.
    + pose proof (Hfocus j item' Hj Hitem' Hnav').
      pose proof (Hfocus' i item Hi Hitem Hnav). lia.
  - intros e (cell & reset & Hcell & ->)%elem_of_cellElements. simpl.
    unfold tabIndexValue. destruct (CellEntry.item cell) as [[item i]|]; [|by right].
    destruct (ItemInfo.isNavigable item); [|by right].
    destruct (bool_decide _); [by left|]. destruct (bool_decide _); [by left|by right].
  - intros e (cell & reset & Hcell & ->)%elem_of_cellElements. simpl.
    intros (i & item & Ecell & Hstop)%(Htab cell Hcell).
    exists i, item. by rewrite Ecell.
  - intros i item Hstop. destruct Hsorted as [_ Hcomplete].
    destruct (Hcomplete i item) as (cell & Hcell & Ecell); [apply Hstop|apply Hstop|].
    destruct (cellElements_complete s (focusIndexOf s sorted) ∅ sorted cell Hcell)
      as [reset He].
    eexists. split; [exact He|]. simpl. rewrite Ecell. split; [done|].
    apply (Htab cell Hcell). by exists i, item.
Qed.

(** ** The keys of the elements *)

Lemma blockEntries_is_Some n i s :
  (∀ j, i ≤ j < i + Z.of_nat n →
     ∃ item, itemAt (_props s) (_itemsAboveRenderBlock s + j) = Some item
             ∧ ItemInfo.key item ∈ activeKeys s) →
  is_Some (blockEntries n i s).
Proof.
  revert i. induction n as [|n IH]; intros i H; simpl; [by eexists|].
  destruct (H i) as (item & Hitem & [cell Hcell]%elem_of_activeKeys); [lia|].
  rewrite Hitem. simpl. rewrite Hcell. simpl.
  destruct (IH (i + 1)) as [rest ->]; [|by eexists].
  intros j Hj. apply H. lia.
Qed.

Lemma NoDup_fmap_by {A B C} (f : A → B) (g : A → C) l :
  NoDup (g <$> l) →
  (∀ x y, x ∈ l → y ∈ l → f x = f y → g x = g y) →
  NoDup (f <$> l).
Proof.
  induction l as [|x l IH]; [constructor|].
  rewrite !fmap_cons, !NoDup_cons. intros [Hx Hl] Hsame. split.
  - intros (y & Hxy & Hy)%list_elem_of_fmap. apply Hx.
    rewrite (Hsame x y); [by apply list_elem_of_fmap_2|apply list_elem_of_here|
                          by apply list_elem_of_further|done].
  - apply IH; [done|]. intros a b Ha Hb. apply Hsame; by apply list_elem_of_further.
Qed.

(** X14. The cells [render] returns.  After any run of a view that is
    given item lists of distinct keys, [render] returns one cell for each
    item of the render block and one for each cell of the pool, no two of
    them under the same React key, whatever order the host's [sort]
    leaves them in; and every cell is active or invisible, which is what
    [VirtualListCell] asserts of the props it receives. *)
Theorem rendered_cells_keyed sort platform props events s :
  (∀ compareFn cellList, sort compareFn cellList ≡ₚ cellList) →
  validProps props → Forall validEvent events →
  constructor platform props ≫= run events = Some s →
  ∃ elements,
    itemsRendered sort s = Some elements
    ∧ NoDup (CellElement.key <$> elements)
    ∧ Z.of_nat (length elements)
      = _itemsInRenderBlock s + Z.of_nat (length (_recycledCells s))
    ∧ ∀ e, e ∈ elements →
        CellElement.isActive e = true ∨ CellElement.isVisible e = false.
Proof.
  intros Hsort Hprops He Hrun.
  pose proof (reachable_keeps distinctVirtualKeys distinct_setCellTopAndVisibility
    distinct_allocateCell distinct_recycleCell distinct_markShouldUpdate
    distinct_render distinct_setupForAccessibility
    distinct_tearDownForAccessibility distinct_newView _ _ _ _ Hrun)
    as (Hactive & Hpool & Hapart & _ & _).
  pose proof (reachable_keeps poolReusable reusable_setCellTopAndVisibility
    reusable_allocateCell reusable_recycleCell reusable_markShouldUpdate
    reusable_render reusable_setupForAccessibility
    reusable_tearDownForAccessibility reusable_newView _ _ _ _ Hrun) as Hhidden.
  unfold storeInvariant, cellStore, poolReusable in Hhidden.
  rewrite Forall_forall in Hhidden.
  destruct (constructor_wellFormed platform props Hprops) as (s0 & E0 & H0).
  rewrite E0 in Hrun. simpl in Hrun.
  destruct (run_wellFormed events s0 He H0) as (s' & E' & Hw).
  rewrite E' in Hrun. injection Hrun as ->.
  destruct Hw as ((Hu & _) & _ & _ & (_ & Hin & _) & Hpresent).
  unfold itemsRendered.
  destruct (renderCellList s) as [cellList|] eqn:E.
  2:{ exfalso. unfold renderCellList in E.
      destruct (blockEntries_is_Some (Z.to_nat (_itemsInRenderBlock s)) 0 s) as [b Hb].
      - intros j Hj. apply Hpresent. lia.
      - by rewrite Hb in E. }
  simpl. eexists. split; [done|].
  apply renderCellList_spec in E as (_ & block & -> & Hnodup & Hlen & Hblock).
  rewrite Forall_forall in Hblock.
  set (cellList := block ++ _) in *.
  pose proof (Hsort byVirtualKey cellList) as Hperm.
  set (sorted := sort byVirtualKey cellList) in *.
  split; [|split].
  - rewrite cellElements_key, Hperm.
    rewrite (list_fmap_compose (λ cell, CellInfo.virtualKey (CellEntry.cellInfo cell))
               (pair (_isAndroidScreenReaderEnabled s))).
    apply (NoDup_fmap_2 _). subst cellList. rewrite fmap_app, <- list_fmap_compose.
    apply NoDup_app. split; [|split].
    + apply (NoDup_fmap_by _ entryIndex); [exact Hnodup|].
      intros x y Hx Hy Hvk.
      destruct (Hblock x Hx) as (item & i & Ex & _ & Hitem & Hcell).
      destruct (Hblock y Hy) as (item' & j & Ey & _ & Hitem' & Hcell').
      unfold entryIndex. rewrite Ex, Ey. simpl. f_equal.
      apply (uniqueKeys_index _ _ _ _ _ Hu Hitem Hitem').
      by apply (Hactive _ _ _ _ Hcell Hcell').
    + intros vk (x & -> & Hx)%list_elem_of_fmap (c & Hvk & Hc)%list_elem_of_fmap.
      destruct (Hblock x Hx) as (item & i & Ex & _ & Hitem & Hcell).
      by apply (Hapart _ _ c Hcell Hc).
    + exact Hpool.
  - rewrite length_cellElements, Hperm. subst cellList.
    rewrite length_app, length_fmap, Hlen. lia.
  - intros e (cell & reset & Hcell & ->)%elem_of_cellElements. simpl.
    rewrite Hperm in Hcell. apply elem_of_app in Hcell as [Hcell|Hcell].
    + destruct (Hblock cell Hcell) as (item & i & -> & _). by left.
    + apply list_elem_of_fmap in Hcell as (c & -> & Hc). right. simpl.
      apply (Hhidden c Hc).
Qed.

(** Sixty rows of which all but the first two are navigable, filled into
    a viewport: no row has been focused, and the third row gets the tab
    stop. *)
Definition menuRow (n : nat) : ItemInfo.t :=
  {| ItemInfo.key := keyOf n; ItemInfo.height := 50; ItemInfo.measureHeight := false;
     ItemInfo.template := Some "row"; ItemInfo.isNavigable := (2 <=? n)%nat |}.

Definition menu : VirtualListView :=
  stateAfter (propsOf (menuRow <$> seq 0 60)) filled.

Definition menuElements : list CellElement.t :=
  default [] (itemsRendered (@insertionSort CellEntry.t) menu).

Lemma single_tab_stop_witness :
  (length (filter (λ e, CellElement.tabIndex e = 0%Z) menuElements) ≤ 1)%nat
  ∧ CellElement.itemKey
    <$> filter (λ e, CellElement.tabIndex e = 0%Z) menuElements = [Some (keyOf 2)].
Proof.
  split; [|vm_compute; reflexivity].
  refine (proj1 (single_tab_stop (@insertionSort CellEntry.t) menu menuElements _ _ _ _)).
  - intros compareFn cellList. apply insertionSort_Permutation.
  - apply (bool_decide_eq_true_1 _). vm_compute. reflexivity.
  - vm_compute. discriminate.
  - apply default_Some. vm_compute. reflexivity.
Defined.

Lemma rendered_cells_keyed_witness :
  ∃ elements,
    itemsRendered (@insertionSort CellEntry.t) (stateAfter rows pooling) = Some elements
    ∧ NoDup (CellElement.key <$> elements)
    ∧ Z.of_nat (length elements)
      = _itemsInRenderBlock (stateAfter rows pooling)
        + Z.of_nat (length (_recycledCells (stateAfter rows pooling))).
Proof.
  destruct (rendered_cells_keyed (@insertionSort CellEntry.t) web rows pooling
              (stateAfter rows pooling)) as (elements & H1 & H2 & H3 & _).
  - intros compareFn cellList. apply insertionSort_Permutation.
  - apply (bool_decide_eq_true_1 _). vm_compute. reflexivity.
  - apply (bool_decide_eq_true_1 _). vm_compute. reflexivity.
  - apply completes_stateAfter. vm_compute. reflexivity.
  - exists elements. exact (conj H1 (conj H2 H3)).
Defined.


(** * Waiting for measurements *)

(** What stays as it is while the view waits for a measurement: the
    render block, the flag of the initial fill, the item list and the set
    of the items that have a cell. *)
Definition frozen (s : VirtualListView) :=
  (_itemsAboveRenderBlock s, _itemsInRenderBlock s, _isInitialFillComplete s,
   itemList (_props s), activeKeys s).

(** The same, with the measurements awaited. *)
Definition waiting (s : VirtualListView) := (frozen s, _pendingMeasurements s).

Lemma cellsOnly_waiting s s' :
  cellsOnly s s' → activeKeys s' = activeKeys s → waiting s' = waiting s.
Proof.
  intros (ac & rc & nk & d & hc & ->) H. unfold waiting, frozen. rewrite H. done.
Qed.

Lemma setCellTopAndVisibility_waiting k v y a s :
  waiting (_setCellTopAndVisibility k v y a s) = waiting s.
Proof.
  apply cellsOnly_waiting;
    [apply setCellTopAndVisibility_cellsOnly|apply setCellTopAndVisibility_activeKeys].
Qed.

Lemma scrollToTop_waiting a y s : waiting (scrollToTop a y s) = waiting s.
Proof. unfold scrollToTop. by split_cases. Qed.

Lemma scrollToItemKey_waiting k s : waiting (_scrollToItemKey k s) = waiting s.
Proof.
  unfold _scrollToItemKey, _scrollToItemIndex. destruct (lastIndexOfKey _ _ _ _); [|done].
  apply scrollToTop_waiting.
Qed.

Lemma focusSubsequentItem_waiting d v r s :
  waiting (snd (_focusSubsequentItem d v r s)) = waiting s.
Proof.
  unfold _focusSubsequentItem.
  destruct (match findIndex _ _ with Some _ => _ | None => _ end) as [[k vk]|].
  - simpl. destruct (_activeCells s !! k) as [c|]; [|done].
    destruct (CellInfo.cellRef c) as [m|]; [|done].
    destruct (CellInfo.propsItemKey m); [|done].
    destruct (_ && _); [|done]. by rewrite scrollToItemKey_waiting.
  - destruct (findIndex _ _); [done|]. destruct (lastFocusedItemKey _); [|done].
    destruct r; [|done]. destruct (_itemMap s !! _); [|done].
    simpl. unfold scrollToTop. by split_cases.
Qed.

Lemma renderIfDirty_waiting s : waiting (_renderIfDirty s) = waiting s.
Proof. unfold _renderIfDirty. by split_cases. Qed.

Lemma setFocusIfNeeded_waiting s : waiting (_setFocusIfNeeded s) = waiting s.
Proof.
  unfold _setFocusIfNeeded. destruct (_pendingFocusDirection s) as [d|]; [|done].
  apply (focusSubsequentItem_waiting d false false s).
Qed.

Lemma shiftCells_waiting n props i s s' :
  shiftCells n props i s = Some s' → waiting s' = waiting s.
Proof.
  revert i s. induction n as [|n IH]; intros i s; simpl.
  { by intros [= ->]. }
  destruct (itemAt props _) as [item|]; [simpl|done].
  destruct (_activeCells s !! _) as [c|]; [simpl|done].
  intros H%IH. rewrite H. apply setCellTopAndVisibility_waiting.
Qed.

Lemma reconcileCorrections_waiting props s s' :
  _reconcileCorrections props s = Some s' → waiting s' = waiting s.
Proof.
  unfold _reconcileCorrections.
  destruct (_ <? _)%nat; [by intros [= <-]|].
  destruct (_ >? _); [|by intros [= <-]].
  destruct (shiftCells _ _ _ _) as [s1|] eqn:E; [simpl|done].
  apply shiftCells_waiting in E. by intros [= <-].
Qed.

Lemma renderBlockCells_waiting n i s s' :
  renderBlockCells n i s = Some s' → waiting s' = waiting s.
Proof.
  revert i s. induction n as [|n IH]; intros i s; simpl.
  { by intros [= ->]. }
  destruct (itemAt _ _) as [item|]; [simpl|done].
  destruct (_activeCells s !! _) as [c|] eqn:Hc; [simpl|done].
  intros H%IH. rewrite H. unfold waiting, frozen, activeKeys.
  destruct (ItemInfo.isNavigable item); simpl;
    rewrite dom_insert_lookup_L by (by exists c); done.
Qed.

Lemma render_waiting s s' : render s = Some s' → waiting s' = waiting s.
Proof.
  unfold render. destruct (renderBlockCells _ _ _) as [s1|] eqn:E; [simpl|done].
  apply renderBlockCells_waiting in E. by intros [= <-].
Qed.

Lemma setupForAccessibility_waiting s : waiting (_setupForAccessibility s) = waiting s.
Proof. unfold _setupForAccessibility. by split_cases. Qed.

Lemma componentDidMount_waiting b s : waiting (componentDidMount b s) = waiting s.
Proof.
  unfold componentDidMount.
  assert (∀ x, waiting x = waiting s →
               waiting match initialSelectedKey (_props x) with
                       | Some k => if negb (String.eqb k "") then _scrollToItemKey k x
                                   else x
                       | None => x
                       end = waiting s) as H.
  { intros x Hx. destruct (initialSelectedKey _); [|done]. destruct (negb _); [|done].
    by rewrite scrollToItemKey_waiting. }
  apply H. destruct b; [|done]. simpl.
  change (waiting (_setupForAccessibility s) = waiting s).
  apply setupForAccessibility_waiting.
Qed.

Lemma screenReaderStateChanged_waiting b s :
  waiting (_screenReaderStateChanged b s) = waiting s.
Proof.
  unfold _screenReaderStateChanged, _tearDownForAccessibility. destruct b.
  - rewrite renderIfDirty_waiting.
    destruct (_isNativeAndroid _); [|apply setupForAccessibility_waiting].
    change (waiting (_setupForAccessibility s) = waiting s).
    apply setupForAccessibility_waiting.
  - by split_cases.
Qed.

(** Recalculation returns at once while a measurement is awaited. *)
Lemma calc_waits props s k :
  k ∈ _pendingMeasurements s → _calcNewRenderedItemState props s = Some s.
Proof.
  intros Hk. unfold _calcNewRenderedItemState.
  destruct (_ =? _); [done|]. destruct (_ =? _)%nat; [done|].
  destruct (0 <? _)%nat eqn:E; [done|]. apply Nat.ltb_ge in E.
  assert (size (_pendingMeasurements s) = 0%nat) as H%size_empty_inv by lia.
  by apply H in Hk.
Qed.

Lemma calcAndReconcile_waiting k s s' :
  k ∈ _pendingMeasurements s →
  (s ← _calcNewRenderedItemState (_props s) s;
   _reconcileCorrections (_props (_renderIfDirty s)) (_renderIfDirty s)) = Some s' →
  waiting s' = waiting s.
Proof.
  intros Hk. rewrite (calc_waits _ _ _ Hk). simpl.
  intros H%reconcileCorrections_waiting. by rewrite H, renderIfDirty_waiting.
Qed.

Lemma onScroll_waiting k y x s s' :
  k ∈ _pendingMeasurements s → _onScroll y x s = Some s' → waiting s' = waiting s.
Proof.
  intros Hk. unfold _onScroll. destruct (_ =? _); [by intros [= <-]|].
  intros H. by apply (calcAndReconcile_waiting k (set_lastScrollTop y s)) in H.
Qed.

Lemma onLayoutContainer_waiting k w h s s' :
  k ∈ _pendingMeasurements s → _onLayoutContainer w h s = Some s' →
  waiting s' = waiting s.
Proof.
  intros Hk. unfold _onLayoutContainer. destruct (negb _); [by intros [= <-]|].
  set (s1 := if negb (_ =? _layoutWidth s) then _ else s).
  assert (waiting s1 = waiting s) as H1.
  { subst s1. unfold _resizeAllItems. by split_cases. }
  clearbody s1. destruct (negb _); [|by intros [= <-]].
  intros H. apply (calcAndReconcile_waiting k (set_layoutHeight h s1)) in H.
  - by rewrite H.
  - change (k ∈ (waiting s1).2). by rewrite H1.
Qed.

Lemma afterRender_waiting k s s' :
  k ∈ _pendingMeasurements s → afterRender s = Some s' → waiting s' = waiting s.
Proof.
  intros Hk. unfold afterRender. destruct (_isMounted s); [|by intros [= <-]].
  rewrite (calc_waits _ _ _ Hk). simpl.
  destruct (_reconcileCorrections _ _) as [s2|] eqn:E2; [simpl|done].
  intros [= <-]. apply reconcileCorrections_waiting in E2.
  by rewrite setFocusIfNeeded_waiting, E2, renderIfDirty_waiting.
Qed.

Lemma afterAnimationStop_waiting s s' :
  afterAnimationStop s = Some s' → waiting s' = waiting s.
Proof.
  unfold afterAnimationStop. destruct (_isMounted s); [|by intros [= <-]].
  destruct (_ && _); [|by intros [= <-]]. apply reconcileCorrections_waiting.
Qed.

(** New props with the same item list change no more than the props. *)
Lemma componentWillReceiveProps_waiting nextProps s s' :
  itemList nextProps = itemList (_props s) →
  UNSAFE_componentWillReceiveProps nextProps s = Some s' → waiting s' = waiting s.
Proof.
  intros Hlist. unfold UNSAFE_componentWillReceiveProps, _updateStateFromProps.
  destruct (negb (bool_decide (_props s = nextProps))).
  - simpl. rewrite bool_decide_eq_true_2 by done. simpl. intros [= <-].
    unfold waiting, frozen. simpl. rewrite Hlist.
    change ((_itemsAboveRenderBlock (_renderIfDirty s), _itemsInRenderBlock (_renderIfDirty s),
             _isInitialFillComplete (_renderIfDirty s), itemList (_props s),
             activeKeys (_renderIfDirty s), _pendingMeasurements (_renderIfDirty s))
            = waiting s).
    pose proof (renderIfDirty_waiting s) as H. unfold waiting, frozen in H.
    injection H as -> -> -> _ -> ->. done.
  - simpl. intros [= <-]. unfold waiting, frozen. simpl. by rewrite Hlist.
Qed.

(** A report for another item leaves the awaited one awaited. *)
Lemma onLayoutItem_waits k itemKey newHeight s s' :
  itemKey ≠ k → k ∈ _pendingMeasurements s →
  _onLayoutItem itemKey newHeight s = Some s' →
  frozen s' = frozen s ∧ k ∈ _pendingMeasurements s'.
Proof.
  intros Hne Hk. unfold _onLayoutItem.
  destruct (negb (_isMounted s)); [by intros [= <-]|].
  destruct (_itemMap s !! itemKey) as [idx|]; [|by intros [= <-]].
  destruct (itemAt _ _) as [item|]; [simpl|done].
  destruct (negb _); [by intros [= <-]|].
  destruct (_ || _); [by intros [= <-]|].
  set (r := if negb (_ =? newHeight) then _ else _).
  assert (∀ b s1, r = Some (b, s1) → waiting s1 = waiting s) as Hr.
  { subst r. intros b s1. destruct (negb _); [|by intros [= _ <-]].
    simpl. destruct (_isInitialFillComplete s); [|by intros [= _ <-]].
    destruct (foundVisibleItemBefore _ _ _ _) as [[]|]; simpl; [| |done];
      by intros [= _ <-]. }
  destruct r as [[b s1]|]; [simpl|done]. specialize (Hr _ _ eq_refl).
  set (s2 := set_pendingMeasurements _ s1).
  assert (frozen s2 = frozen s ∧ k ∈ _pendingMeasurements s2) as [H2 Hk2].
  { subst s2. split.
    - transitivity (frozen s1); [done|]. exact (f_equal fst Hr).
    - simpl. apply elem_of_difference. split; [|by intros ->%elem_of_singleton].
      change (k ∈ (waiting s1).2). by rewrite Hr. }
  clearbody s2.
  assert (∀ x, waiting x = waiting s2 → frozen x = frozen s ∧ k ∈ _pendingMeasurements x)
    as Hdone.
  { intros x Hx. split.
    - rewrite <- H2. exact (f_equal fst Hx).
    - change (k ∈ (waiting x).2). by rewrite Hx. }
  destruct (_ || _).
  - rewrite (calc_waits _ _ _ Hk2). simpl. intros H%reconcileCorrections_waiting.
    apply Hdone. by rewrite H, renderIfDirty_waiting.
  - intros H%reconcileCorrections_waiting. by apply Hdone.
Qed.

(** The events that neither change the item list nor report the height of
    the item [k]. *)
Definition quiet (k : string) (items : list ItemInfo.t) (e : Event) : Prop :=
  match e with
  | ReceiveProps nextProps => itemList nextProps = items
  | LayoutItem itemKey _ => itemKey ≠ k
  | _ => True
  end.

#[global] Instance quiet_dec k items e : Decision (quiet k items e).
Proof. destruct e; simpl; apply _. Defined.

Lemma handle_waits k e s s' :
  k ∈ _pendingMeasurements s → quiet k (itemList (_props s)) e →
  handle e s = Some s' →
  frozen s' = frozen s ∧ k ∈ _pendingMeasurements s'.
Proof.
  intros Hk Hq.
  assert (∀ x, waiting x = waiting s → frozen x = frozen s ∧ k ∈ _pendingMeasurements x)
    as Hdone.
  { intros x Hx. split; [exact (f_equal fst Hx)|].
    change (k ∈ (waiting x).2). by rewrite Hx. }
  destruct e; simpl.
  - destruct (render s) as [s1|] eqn:E; [simpl|done]. intros [= <-].
    apply Hdone. rewrite componentDidMount_waiting. by apply render_waiting.
  - destruct (UNSAFE_componentWillReceiveProps _ _) as [s1|] eqn:E; [simpl|done].
    intros [= <-]. apply (componentWillReceiveProps_waiting _ _ _ Hq) in E.
    apply Hdone. by rewrite <- E.
  - destruct (render s) as [s1|] eqn:E; [simpl|done]. intros [= <-].
    apply Hdone. apply render_waiting in E. by rewrite <- E.
  - intros [= <-]. by apply Hdone.
  - intros H. apply Hdone. by apply (onLayoutContainer_waiting k) in H.
  - by apply onLayoutItem_waits.
  - intros [= <-]. apply Hdone. unfold _onAnimateStartStopItem. by split_cases.
  - intros H. apply Hdone. by apply (onScroll_waiting k) in H.
  - intros [= <-]. apply Hdone. unfold _onItemFocused. by split_cases.
  - intros [= <-]. by apply Hdone.
  - intros [= <-]. apply Hdone. unfold _onKeyDown. destruct (_isMounted s); [|done].
    apply focusSubsequentItem_waiting.
  - intros [= <-]. apply Hdone. apply screenReaderStateChanged_waiting.
  - destruct (_deferred s) as [|task rest]; [by intros [= <-]|].
    destruct task; intros H; apply Hdone.
    + by apply (afterRender_waiting k) in H.
    + by apply afterAnimationStop_waiting in H.
Qed.

(** X15. The view waits for the measurements it has asked for.  While the
    height of an item is awaited, no scroll, resize, report for another
    item, render, deferred task, focus or screen-reader event moves the
    render block, allocates or recycles a cell, or completes the initial
    fill; and none of them ends the wait.  The wait for an item ends only
    with a report of its own height or with a change of the item list. *)
Theorem view_waits_for_measurement k events s s' :
  k ∈ _pendingMeasurements s →
  Forall (quiet k (itemList (_props s))) events →
  run events s = Some s' →
  k ∈ _pendingMeasurements s'
  ∧ _itemsAboveRenderBlock s' = _itemsAboveRenderBlock s
  ∧ _itemsInRenderBlock s' = _itemsInRenderBlock s
  ∧ _isInitialFillComplete s' = _isInitialFillComplete s
  ∧ itemList (_props s') = itemList (_props s)
  ∧ dom (_activeCells s') = dom (_activeCells s).
Proof.
  intros Hk Hq Hrun.
  assert (frozen s' = frozen s ∧ k ∈ _pendingMeasurements s') as [H1 H2].
  { revert s Hk Hq Hrun. induction events as [|e events IH]; intros s Hk Hq; simpl.
    { by intros [= <-]. }
    apply Forall_cons in Hq as [He Hq].
    destruct (handle e s) as [s1|] eqn:E; [simpl|done].
    destruct (handle_waits k e s s1 Hk He E) as [F1 Hk1]. intros Hrun.
    destruct (IH s1) as [F2 Hk2]; [done| |done|].
    - replace (itemList (_props s1)) with (itemList (_props s)); [done|].
      unfold frozen in F1. by injection F1.
    - split; [by rewrite F2|done]. }
  split; [exact H2|]. unfold frozen, activeKeys in H1. by injection H1.
Qed.

(** Sixty rows to be measured are mounted and laid out in a viewport 500
    high, and ten measurements are asked for.  Before any height is
    reported, five rows are put in front of the list: rows 5 to 9 leave
    the render block and lose their cells, but stay awaited. *)
Definition listChangedWhileMeasuring : VirtualListView :=
  stateAfter (propsOf (measuredItem <$> seq 0 60))
    [Mount false; LayoutContainer 300 500; Render; RunDeferred;
     ReceiveProps (propsOf (measuredItem <$> (seq 100 5 ++ seq 0 60))); Render; RunDeferred].

(** The heights of the ten rows of the render block are reported, and the
    view is rendered, scrolled and resized. *)
Definition reportsAndScrolls : list Event :=
  ((λ n, LayoutItem (keyOf n) 40) <$> (seq 100 5 ++ seq 0 5))
  ++ [RunDeferred; Render; RunDeferred; Scroll 100 0; RunDeferred;
      LayoutContainer 300 600; Render; RunDeferred].

Lemma view_waits_for_measurement_witness :
  _activeCells listChangedWhileMeasuring !! keyOf 7 = None
  ∧ keyOf 7 ∈ _pendingMeasurements
                (default listChangedWhileMeasuring
                   (run reportsAndScrolls listChangedWhileMeasuring))
  ∧ _isInitialFillComplete
      (default listChangedWhileMeasuring (run reportsAndScrolls listChangedWhileMeasuring))
    = false.
Proof.
  split; [vm_compute; reflexivity|].
  destruct (view_waits_for_measurement (keyOf 7) reportsAndScrolls
              listChangedWhileMeasuring
              (default listChangedWhileMeasuring
                 (run reportsAndScrolls listChangedWhileMeasuring)))
    as (H1 & _ & _ & H2 & _).
  - apply (bool_decide_eq_true_1 _). vm_compute. reflexivity.
  - apply (bool_decide_eq_true_1 _). vm_compute. reflexivity.
  - apply default_Some. vm_compute. reflexivity.
  - split; [exact H1|]. rewrite H2. vm_compute. reflexivity.
Defined.


(** * The cells that survive a change of the item list *)

(** [c'] is the cell [c], possibly moved, shown, hidden or marked for an
    update: it has the same virtual key and the same mounted component,
    and the properties it was allocated with. *)
Definition sameCell (c c' : VirtualCellInfo) : Prop :=
  CellInfo.virtualKey c' = CellInfo.virtualKey c
  ∧ CellInfo.cellRef c' = CellInfo.cellRef c
  ∧ CellInfo.itemTemplate c' = CellInfo.itemTemplate c
  ∧ CellInfo.isHeightConstant c' = CellInfo.isHeightConstant c
  ∧ CellInfo.height c' = CellInfo.height c
  ∧ CellInfo.cachedItemKey c' = CellInfo.cachedItemKey c.

(** The item of key [k] still has the cell [c]. *)
Definition heldAt (k : string) (c : VirtualCellInfo) (s : VirtualListView) : Prop :=
  ∃ c', _activeCells s !! k = Some c' ∧ sameCell c c'.

(** The item of key [k] has the cell [c] or none. *)
Definition keptAt (k : string) (c : VirtualCellInfo) (s : VirtualListView) : Prop :=
  ∀ c', _activeCells s !! k = Some c' → sameCell c c'.

Lemma heldAt_keptAt k c s : heldAt k c s → keptAt k c s.
Proof. intros (c1 & H1 & H2) c' Hc'. congruence. Qed.

Lemma heldAt_ext k c s s' :
  _activeCells s' !! k = _activeCells s !! k → heldAt k c s → heldAt k c s'.
Proof. unfold heldAt. by intros ->. Qed.

Lemma keptAt_ext k c s s' :
  _activeCells s' !! k = _activeCells s !! k → keptAt k c s → keptAt k c s'.
Proof. unfold keptAt. by intros ->. Qed.

Lemma markShouldUpdate_lookup k s k' :
  _activeCells (markShouldUpdate k s) !! k'
  = if decide (k' = k) then CellInfo.setShouldUpdate true <$> _activeCells s !! k
    else _activeCells s !! k'.
Proof.
  unfold markShouldUpdate. destruct (_activeCells s !! k) as [c|] eqn:E; simpl.
  - destruct (decide (k' = k)) as [->|Hne];
      [by rewrite lookup_insert_eq|by rewrite lookup_insert_ne].
  - destruct (decide (k' = k)) as [->|Hne]; [by rewrite E|done].
Qed.

Lemma recycleIfActive_lookup k s k' :
  _activeCells (recycleIfActive k s) !! k'
  = if decide (k' = k) then None else _activeCells s !! k'.
Proof.
  unfold recycleIfActive. destruct (_activeCells s !! k) as [c|] eqn:E.
  - pose proof (f_equal (λ store, store.1.1.1.1.1.1) (recycleCell_cellStore k s)) as H.
    simpl in H. rewrite E in H. simpl in H. rewrite H.
    destruct (decide (k' = k)) as [->|Hne];
      [by rewrite lookup_delete_eq|by rewrite lookup_delete_ne].
  - destruct (decide (k' = k)) as [->|Hne]; [by rewrite E|done].
Qed.

Lemma markShouldUpdate_heldAt k c k' s :
  heldAt k c s → heldAt k c (markShouldUpdate k' s).
Proof.
  intros (c1 & H1 & H2). unfold heldAt. rewrite markShouldUpdate_lookup.
  destruct (decide (k = k')) as [<-|Hne]; [|by exists c1].
  rewrite H1. simpl. eexists. split; [done|]. by destruct c1.
Qed.

Lemma setCellTopAndVisibility_heldAt k c k' v y a s :
  heldAt k c s → heldAt k c (_setCellTopAndVisibility k' v y a s).
Proof.
  intros (c1 & H1 & H2). unfold heldAt. rewrite setCellTopAndVisibility_lookup.
  destruct (decide (k = k')) as [<-|Hne]; [|by exists c1].
  rewrite H1. simpl. eexists. split; [done|]. by destruct c1.
Qed.

(** The first loop marks cells and takes none away. *)
Lemma buildItemMap_heldAt k c items i m s :
  heldAt k c s → heldAt k c (buildItemMap items i m s).2.
Proof.
  revert i m s. induction items as [|item items IH]; intros i m s H; simpl; [done|].
  apply IH. destruct (_activeCells s !! ItemInfo.key item); [|done].
  destruct (_itemMap s !! ItemInfo.key item); [|by apply markShouldUpdate_heldAt].
  destruct (_ || _); [by apply markShouldUpdate_heldAt|done].
Qed.

Lemma stopTrackingItem_lookup item i s k :
  _activeCells (stopTrackingItem item i s) !! k
  = if decide (k = ItemInfo.key item) then None else _activeCells s !! k.
Proof.
  unfold stopTrackingItem. rewrite recycleIfActive_lookup.
  destruct (decide _); [done|]. by destruct (_ <? _).
Qed.

(** The second loop takes away the cells of the deleted items only. *)
Lemma stopTrackingDeleted_cells k c oldItems i (newItemMap : gmap string nat) s :
  (is_Some (newItemMap !! k) → heldAt k c s →
   heldAt k c (stopTrackingDeleted oldItems i newItemMap s))
  ∧ (keptAt k c s → keptAt k c (stopTrackingDeleted oldItems i newItemMap s)).
Proof.
  revert i s. induction oldItems as [|item oldItems IH]; intros i s; simpl; [done|].
  destruct (newItemMap !! ItemInfo.key item) as [j|] eqn:E; [apply IH|].
  set (s1 := if bool_decide _ then refocusAfterRemoval s else s).
  assert (_activeCells s1 = _activeCells s) as H1.
  { subst s1. destruct (bool_decide _); [|done].
    apply cellStore_activeCells, refocusAfterRemoval_cellStore. }
  clearbody s1. split.
  - intros Hk Hheld. apply IH; [done|]. apply (heldAt_ext k c s); [|done].
    rewrite stopTrackingItem_lookup, H1. rewrite decide_False; [done|].
    intros ->. rewrite E in Hk. by destruct Hk.
  - intros Hkept. apply IH. intros c'. rewrite stopTrackingItem_lookup, H1.
    destruct (decide _); [done|]. apply Hkept.
Qed.

(** The third loop, on an item of another key. *)
Lemma placeItem_lookup_ne props item i tl bl h y looking s k :
  k ≠ ItemInfo.key item →
  _activeCells (placeItem props item i tl bl h y looking s).2 !! k = _activeCells s !! k.
Proof.
  intros Hne. unfold placeItem. destruct (ZleQ _ _); simpl.
  { by rewrite recycleIfActive_lookup, decide_False. }
  set (s1 := if looking then _ else s).
  assert (_activeCells s1 = _activeCells s) as H1 by (subst s1; by destruct looking).
  clearbody s1. destruct (ZltQ _ _); simpl.
  2:{ rewrite recycleIfActive_lookup, decide_False by done. by rewrite H1. }
  destruct (_activeCells s1 !! ItemInfo.key item) as [c0|]; simpl.
  - rewrite setCellTopAndVisibility_lookup, decide_False by done. simpl. by rewrite H1.
  - rewrite (cellStore_activeCells _ _ (awaitMeasurement_cellStore _ _)).
    rewrite allocateCell_lookup_ne by done. simpl. by rewrite H1.
Qed.

(** The third loop, on the item itself: its cell is moved or recycled. *)
Lemma placeItem_keptAt props item i tl bl h y looking s c :
  heldAt (ItemInfo.key item) c s →
  keptAt (ItemInfo.key item) c (placeItem props item i tl bl h y looking s).2.
Proof.
  intros Hheld. unfold placeItem. destruct (ZleQ _ _); simpl.
  { intros c'. by rewrite recycleIfActive_lookup, decide_True. }
  set (s1 := if looking then _ else s).
  assert (_activeCells s1 = _activeCells s) as H1 by (subst s1; by destruct looking).
  clearbody s1. destruct (ZltQ _ _); simpl.
  2:{ intros c'. by rewrite recycleIfActive_lookup, decide_True. }
  destruct Hheld as (c1 & Hc1 & Hsame). rewrite H1, Hc1.
  apply heldAt_keptAt, setCellTopAndVisibility_heldAt. exists c1. simpl. by rewrite H1.
Qed.

Lemma determineRenderBlock_keptAt k c props items i tl bl y looking s :
  NoDup (ItemInfo.key <$> items) →
  (k ∈ ItemInfo.key <$> items → heldAt k c s) →
  (k ∉ ItemInfo.key <$> items → keptAt k c s) →
  keptAt k c (determineRenderBlock props items i tl bl y looking s).
Proof.
  revert i y looking s. induction items as [|item items IH]; intros i y looking s; simpl.
  { intros _ _ H. apply H, not_elem_of_nil. }
  rewrite NoDup_cons. intros [Hitem Hnodup] Hin Hout.
  destruct (placeItem _ _ _ _ _ _ _ _ _) as [looking' s1] eqn:E.
  pose proof (f_equal snd E) as E2. simpl in E2.
  apply IH; [done| |].
  - intros Hk. assert (k ≠ ItemInfo.key item) as Hne by (by intros ->).
    apply (heldAt_ext k c s).
    + rewrite <- E2. by apply placeItem_lookup_ne.
    + apply Hin. by apply list_elem_of_further.
  - intros Hk. destruct (decide (k = ItemInfo.key item)) as [->|Hne].
    + rewrite <- E2. apply placeItem_keptAt, Hin, list_elem_of_here.
    + apply (keptAt_ext k c s).
      * rewrite <- E2. by apply placeItem_lookup_ne.
      * apply Hout. by apply not_elem_of_cons.
Qed.

(** X16. A cell that survives a change of the item list is the same cell.
    When [_handleItemListChange] is given a list of distinct keys, an
    item that had a cell and has one afterwards has the cell it had: the
    same virtual key, hence the same React key, and the same mounted
    component; the change moves, hides or marks the cell, and never swaps
    it for another. *)
Theorem surviving_cell_is_same_cell props s k c c' :
  uniqueKeys props →
  _activeCells s !! k = Some c →
  _activeCells (_handleItemListChange props s) !! k = Some c' →
  CellInfo.virtualKey c' = CellInfo.virtualKey c
  ∧ CellInfo.cellRef c' = CellInfo.cellRef c
  ∧ CellInfo.itemTemplate c' = CellInfo.itemTemplate c
  ∧ CellInfo.isHeightConstant c' = CellInfo.isHeightConstant c
  ∧ CellInfo.height c' = CellInfo.height c
  ∧ CellInfo.cachedItemKey c' = CellInfo.cachedItemKey c.
Proof.
  intros Hu Hc Hc'. change (sameCell c c'). revert c' Hc'.
  change (keptAt k c (_handleItemListChange props s)).
  assert (heldAt k c s) as H0 by (by exists c).
  unfold _handleItemListChange.
  pose proof (buildItemMap_fst (itemList props) 0 ∅ s) as Hmap.
  pose proof (buildItemMap_heldAt k c (itemList props) 0 ∅ s H0) as H1.
  destruct (buildItemMap _ _ _ _) as [newItemMap s1]. simpl in Hmap, H1. subst newItemMap.
  cbv zeta.
  set (s2 := stopTrackingDeleted _ _ _ s1).
  destruct (stopTrackingDeleted_cells k c (itemList (_props s1)) 0
              (indexItems (itemList props) 0 ∅) s1) as [Hheld Hkept].
  fold s2 in Hheld, Hkept. clearbody s2.
  assert (keptAt k c (determineRenderBlockBounds props s2)) as H3.
  { unfold determineRenderBlockBounds. apply determineRenderBlock_keptAt; [exact Hu| |].
    - intros Hk. apply (heldAt_ext k c s2); [done|]. apply Hheld; [|done].
      destruct (indexItems (itemList props) 0 ∅ !! k) eqn:E; [done|].
      apply indexItems_lookup_None in E as [_ E]. done.
    - intros _. apply (keptAt_ext k c s2); [done|]. by apply Hkept, heldAt_keptAt. }
  set (s3 := determineRenderBlockBounds props s2) in *. clearbody s3.
  apply (keptAt_ext k c s3); [|done].
  unfold prepopulateContainerHeight. by destruct (_ =? 0).
Qed.

(** The filled view of sixty rows is given the rows 5 to 44: the cell of
    row 7 stays, under the same virtual key. *)
Lemma surviving_cell_is_same_cell_witness :
  CellInfo.virtualKey
  <$> _activeCells (_handleItemListChange (propsOf (templatedItem <$> seq 5 40))
                      (stateAfter rows filled)) !! keyOf 7
  = CellInfo.virtualKey <$> _activeCells (stateAfter rows filled) !! keyOf 7
  ∧ is_Some (_activeCells (stateAfter rows filled) !! keyOf 7).
Proof.
  destruct (_activeCells (stateAfter rows filled) !! keyOf 7) as [c|] eqn:Hc;
    [|vm_compute in Hc; discriminate].
  destruct (_activeCells (_handleItemListChange (propsOf (templatedItem <$> seq 5 40))
                            (stateAfter rows filled)) !! keyOf 7) as [c'|] eqn:Hc';
    [|vm_compute in Hc'; discriminate].
  split; [|by eexists]. simpl. f_equal.
  refine (proj1 (surviving_cell_is_same_cell _ _ _ c c' _ Hc Hc')).
  apply (bool_decide_eq_true_1 _). vm_compute. reflexivity.
Defined.


(** * The items whose height is tracked *)

(** The view tracks a height for [k]: it has a measured height in the
    cache, or a measurement is awaited. *)
Definition tracksHeightOf (s : VirtualListView) (k : string) : Prop :=
  is_Some (_heightCache s !! k) ∨ k ∈ _pendingMeasurements s.

(** Every key the view tracks a height for satisfies [P]. *)
Definition named (P : string → Prop) (s : VirtualListView) : Prop :=
  ∀ k, tracksHeightOf s k → P k.

(** The key of an item of the list. *)
Definition listed (props : Props) (k : string) : Prop :=
  k ∈ ItemInfo.key <$> itemList props.

Definition measures (s : VirtualListView) := (_heightCache s, _pendingMeasurements s).

Lemma named_ext P s s' : measures s' = measures s → named P s → named P s'.
Proof. unfold named, tracksHeightOf, measures. by intros [= -> ->]. Qed.

Lemma cellsOnly_measures s s' : cellsOnly s s' → measures s' = measures s.
Proof. by intros (ac & rc & nk & d & hc & ->). Qed.

Lemma bookkeeping_measures s s' :
  bookkeeping s' = bookkeeping s → waiting s' = waiting s → measures s' = measures s.
Proof.
  unfold bookkeeping, waiting, measures. intros B W. congruence.
Qed.

Lemma keepsSum_measures s s' :
  keepsSum s s' → _pendingMeasurements s' = _pendingMeasurements s →
  measures s' = measures s.
Proof.
  unfold measures. intros [_ H%calcInputs_heightCache] ->. by rewrite H.
Qed.

Lemma awaitMeasurement_named P item s :
  P (ItemInfo.key item) → named P s → named P (awaitMeasurement item s).
Proof.
  intros HP Hs. unfold awaitMeasurement. destruct (_isItemHeightKnown s item); [done|].
  intros k [H|H]; simpl in H.
  - apply Hs. by left.
  - apply elem_of_union in H as [H|H]; [apply Hs; by right|].
    by apply elem_of_singleton in H as ->.
Qed.

Lemma itemAt_listed props i item : itemAt props i = Some item → listed props (ItemInfo.key item).
Proof.
  intros [_ H]%itemAt_Some. apply list_elem_of_fmap_2. by eapply list_elem_of_lookup_2.
Qed.

(** ** Recalculation *)

Lemma findFirstInRenderBlock_elem s items i0 y limit i item y' :
  findFirstInRenderBlock s items i0 y limit = Some (i, item, y') → item ∈ items.
Proof.
  revert i0 y. induction items as [|x items IH]; intros i0 y; simpl; [done|].
  destruct (ZgtQ _ _).
  - intros [= _ <- _]. apply list_elem_of_here.
  - intros H%IH. by apply list_elem_of_further.
Qed.

Lemma seedRenderBlock_named props limit s :
  named (listed props) s → named (listed props) (seedRenderBlock props limit s).
Proof.
  intros Hs. unfold seedRenderBlock.
  match goal with
  | |- named _ (recomputeBlockHeights props ?x) =>
      apply (named_ext _ x); [done|]
  end.
  destruct (findFirstInRenderBlock _ _ _ _ _) as [[[i item] y]|] eqn:E; [|done].
  apply findFirstInRenderBlock_elem in E. apply awaitMeasurement_named.
  - by apply list_elem_of_fmap_2.
  - eapply named_ext; [|exact Hs].
    by rewrite (cellsOnly_measures _ _ (allocateCell_cellsOnly _ _ _ _ _ _ _ _)).
Qed.

Lemma buildItem_named props idx above topY bottomY s topY' bottomY' s' :
  buildItem props idx above topY bottomY s = Some (topY', bottomY', s') →
  named (listed props) s → named (listed props) s'.
Proof.
  unfold buildItem. destruct (itemAt props idx) as [item|] eqn:Hitem; [simpl|done].
  apply itemAt_listed in Hitem. intros E Hs.
  assert (∀ x, measures x = measures s →
            named (listed props)
              (if _isItemHeightKnown s item then x
               else set_pendingMeasurements (_pendingMeasurements x ∪ {[ItemInfo.key item]}) x))
    as Hawait.
  { intros x Hx. destruct (_isItemHeightKnown s item); [by apply (named_ext _ s)|].
    intros k [H|H]; simpl in H.
    - apply Hs. left. unfold measures in Hx. by injection Hx as <- _.
    - apply elem_of_union in H as [H|H]; [|by apply elem_of_singleton in H as ->].
      apply Hs. right. unfold measures in Hx. by injection Hx as _ <-. }
  destruct above; injection E as _ _ <-;
    (eapply named_ext; [apply cellsOnly_measures, allocateCell_cellsOnly|]);
    match goal with
    | |- named _ (if _ then ?x else _) => exact (Hawait x eq_refl)
    end.
Qed.

Lemma growAtBottom_named fuel props limit topY bottomY s topY' bottomY' s' :
  growAtBottom fuel props limit topY bottomY s = Some (topY', bottomY', s') →
  named (listed props) s → named (listed props) s'.
Proof.
  revert topY bottomY s. induction fuel as [|fuel IH]; intros topY bottomY s; simpl.
  { by intros [= _ _ ->]. }
  destruct (_ <? _)%nat; [|by intros [= _ _ ->]].
  destruct (_ || _); [by intros [= _ _ ->]|].
  destruct (buildItem _ _ _ _ _ _) as [[[t b] s1]|] eqn:E; [simpl|done].
  intros H Hs. apply (IH _ _ _ H). by eapply buildItem_named.
Qed.

Lemma growAtTop_named fuel props limit topY bottomY s topY' bottomY' s' :
  growAtTop fuel props limit topY bottomY s = Some (topY', bottomY', s') →
  named (listed props) s → named (listed props) s'.
Proof.
  revert topY bottomY s. induction fuel as [|fuel IH]; intros topY bottomY s; simpl.
  { by intros [= _ _ ->]. }
  destruct (_ <? _)%nat; [|by intros [= _ _ ->]].
  destruct (_ || _); [by intros [= _ _ ->]|].
  destruct (buildItem _ _ _ _ _ _) as [[[t b] s1]|] eqn:E; [simpl|done].
  intros H Hs. apply (IH _ _ _ H). by eapply buildItem_named.
Qed.

Lemma calc_named props s s' :
  _calcNewRenderedItemState props s = Some s' →
  named (listed props) s → named (listed props) s'.
Proof.
  unfold _calcNewRenderedItemState.
  destruct (_layoutHeight s =? 0); [by intros [= <-]|].
  destruct (_ =? _)%nat; [by intros [= <-]|].
  destruct (_ <? _)%nat; [by intros [= <-]|].
  destruct (cullFromTop _ _ _ _) as [s1|] eqn:E1; [simpl|done].
  destruct (cullFromBottom _ _ _ _) as [s2|] eqn:E2; [simpl|done].
  pose proof (keepsSum_measures _ _ (cullFromTop_keepsSum _ _ _ _ _ E1)
                (cullFromTop_pendingMeasurements _ _ _ _ _ E1)) as M1.
  pose proof (keepsSum_measures _ _ (cullFromBottom_keepsSum _ _ _ _ _ E2)
                (cullFromBottom_pendingMeasurements _ _ _ _ _ E2)) as M2.
  set (s3 := if _itemsInRenderBlock s2 =? 0 then _ else s2).
  destruct (repositionItems _ _ _ _ _) as [[y4 s4]|] eqn:E4; [simpl|done].
  apply repositionItems_cellsOnly, cellsOnly_measures in E4.
  set (s5 := if negb _ then _ else s4).
  destruct (growAtBottom _ _ _ _ _ _) as [[[t6 b6] s6]|] eqn:E6; [simpl|done].
  destruct (growAtTop _ _ _ _ _ _) as [[[t7 b7] s7]|] eqn:E7; [simpl|done].
  intros E Hs.
  assert (named (listed props) s3) as H3.
  { subst s3. destruct (_ =? 0).
    - apply seedRenderBlock_named. eapply named_ext; [|exact Hs]. by rewrite M2, M1.
    - eapply named_ext; [|exact Hs]. by rewrite M2, M1. }
  assert (named (listed props) s5) as H5.
  { apply (named_ext _ s3); [|done]. subst s5. by destruct (negb _). }
  apply (growAtBottom_named _ _ _ _ _ _ _ _ _ E6) in H5.
  apply (growAtTop_named _ _ _ _ _ _ _ _ _ E7) in H5.
  revert E. destruct (_ && _); [|by intros [= <-]].
  unfold _popInvisibleIntoView.
  destruct (popItems _ _ _ _) as [s8|] eqn:E8; [simpl|done].
  apply popItems_cellsOnly, cellsOnly_measures in E8.
  intros [= <-]. apply (named_ext _ s7); [|done]. exact E8.
Qed.

(** ** A change of the item list *)

Lemma buildItemMap_measures items i m s :
  measures (buildItemMap items i m s).2 = measures s.
Proof.
  revert i m s. induction items as [|item items IH]; intros i m s; simpl; [done|].
  rewrite IH. destruct (_activeCells s !! _); [|done].
  destruct (_itemMap s !! _);
    [destruct (_ || _); [|done]|];
    apply cellsOnly_measures, markShouldUpdate_cellsOnly.
Qed.

Lemma refocusAfterRemoval_measures s : measures (refocusAfterRemoval s) = measures s.
Proof.
  unfold refocusAfterRemoval.
  pose proof (focusSubsequentItem_bookkeeping Down false false s) as B1.
  pose proof (focusSubsequentItem_waiting Down false false s) as W1.
  destruct (_focusSubsequentItem Down false false s) as [[] s1]; simpl in B1, W1;
    [by apply bookkeeping_measures|].
  pose proof (focusSubsequentItem_bookkeeping Up false false s1) as B2.
  pose proof (focusSubsequentItem_waiting Up false false s1) as W2.
  destruct (_focusSubsequentItem Up false false s1) as [[] s2]; simpl in B2, W2.
  - apply bookkeeping_measures; congruence.
  - transitivity (measures s2); [done|]. apply bookkeeping_measures; congruence.
Qed.

(** The second loop forgets the heights of the deleted items and tracks
    no other height than before. *)
Lemma stopTrackingDeleted_named P oldItems i (newItemMap : gmap string nat) s :
  named P s →
  named (λ k, P k ∧ (k ∈ ItemInfo.key <$> oldItems → is_Some (newItemMap !! k)))
    (stopTrackingDeleted oldItems i newItemMap s).
Proof.
  revert P i s. induction oldItems as [|item oldItems IH]; intros P i s Hs; simpl.
  { intros k Hk. split; [by apply Hs|]. by intros ?%elem_of_nil. }
  destruct (newItemMap !! ItemInfo.key item) as [j|] eqn:E.
  - intros k Hk. destruct (IH P (i + 1) s Hs k Hk) as [H1 H2]. split; [done|].
    intros [->|H]%elem_of_cons; [by rewrite E|by apply H2].
  - set (s1 := if bool_decide _ then refocusAfterRemoval s else s).
    assert (measures s1 = measures s) as M1.
    { subst s1. destruct (bool_decide _); [apply refocusAfterRemoval_measures|done]. }
    clearbody s1.
    assert (named (λ k, P k ∧ k ≠ ItemInfo.key item) (stopTrackingItem item i s1)) as H1.
    { unfold stopTrackingItem.
      eapply named_ext; [apply cellsOnly_measures, recycleIfActive_cellsOnly|].
      unfold measures in M1. injection M1 as Mc Mp.
      intros k [H|H]; simpl in H.
      - assert (is_Some (_heightCache s1 !! k) ∧ k ≠ ItemInfo.key item) as [H' Hne].
        { destruct (_ <? _); simpl in H;
            (destruct (decide (k = ItemInfo.key item)) as [->|Hne];
             [rewrite lookup_delete_eq in H; by destruct H
             |rewrite lookup_delete_ne in H by done; done]). }
        split; [|done]. apply Hs. left. by rewrite <- Mc.
      - assert (k ∈ _pendingMeasurements s1 ∧ k ≠ ItemInfo.key item) as [H' Hne].
        { destruct (_ <? _); simpl in H;
            apply elem_of_difference in H as [H Hne]; (split; [done|]);
            intros ->; apply Hne; by apply elem_of_singleton. }
        split; [|done]. apply Hs. right. by rewrite <- Mp. }
    intros k Hk. destruct (IH _ (i + 1) _ H1 k Hk) as [[HP Hne] H2]. split; [done|].
    intros [->|H]%elem_of_cons; [done|by apply H2].
Qed.

Lemma placeItem_named props item i tl bl h y looking s :
  listed props (ItemInfo.key item) →
  named (listed props) s →
  named (listed props) (placeItem props item i tl bl h y looking s).2.
Proof.
  intros Hitem Hs. unfold placeItem. destruct (ZleQ _ _); simpl.
  { eapply named_ext; [apply cellsOnly_measures, recycleIfActive_cellsOnly|done]. }
  set (s1 := if looking then _ else s).
  assert (named (listed props) s1) as H1.
  { apply (named_ext _ s); [|done]. subst s1. by destruct looking. }
  clearbody s1. destruct (ZltQ _ _); simpl.
  2:{ eapply named_ext; [apply cellsOnly_measures, recycleIfActive_cellsOnly|done]. }
  destruct (_activeCells s1 !! ItemInfo.key item) as [c0|]; simpl.
  - eapply named_ext; [apply cellsOnly_measures, setCellTopAndVisibility_cellsOnly|].
    by apply (named_ext _ s1).
  - apply awaitMeasurement_named; [done|].
    eapply named_ext; [apply cellsOnly_measures, allocateCell_cellsOnly|].
    by apply (named_ext _ s1).
Qed.

Lemma determineRenderBlock_named props items i tl bl y looking s :
  (∀ item, item ∈ items → listed props (ItemInfo.key item)) →
  named (listed props) s →
  named (listed props) (determineRenderBlock props items i tl bl y looking s).
Proof.
  revert i y looking s. induction items as [|item items IH]; intros i y looking s Hitems Hs;
    simpl; [done|].
  pose proof (placeItem_named props item i tl bl (_getHeightOfItem s (Some item))
                (y + _getHeightOfItem s (Some item)) looking s) as H.
  destruct (placeItem _ _ _ _ _ _ _ _ _) as [looking' s1]. simpl in H.
  apply IH.
  - intros x Hx. apply Hitems. by apply list_elem_of_further.
  - apply H; [|done]. apply Hitems, list_elem_of_here.
Qed.

(** After the change the view tracks heights for items of the new list
    only. *)
Lemma handleItemListChange_named props s :
  named (listed (_props s)) s → named (listed props) (_handleItemListChange props s).
Proof.
  intros Hs. unfold _handleItemListChange.
  pose proof (buildItemMap_fst (itemList props) 0 ∅ s) as Hmap.
  pose proof (buildItemMap_measures (itemList props) 0 ∅ s) as M1.
  pose proof (buildItemMap_props (itemList props) 0 ∅ s) as P1.
  destruct (buildItemMap _ _ _ _) as [newItemMap s1]. simpl in Hmap, M1, P1. subst newItemMap.
  cbv zeta. rewrite P1.
  assert (named (listed (_props s)) s1) as H1 by (by apply (named_ext _ s)).
  apply (stopTrackingDeleted_named _ (itemList (_props s)) 0
           (indexItems (itemList props) 0 ∅)) in H1.
  set (s2 := stopTrackingDeleted _ _ _ s1) in *. clearbody s2.
  assert (named (listed props) s2) as H2.
  { intros k Hk. destruct (H1 k Hk) as [Hold Hnew]. specialize (Hnew Hold).
    destruct (indexItems (itemList props) 0 ∅ !! k) eqn:E; [|by destruct Hnew].
    unfold listed. destruct (decide (k ∈ ItemInfo.key <$> itemList props)); [done|].
    assert (indexItems (itemList props) 0 ∅ !! k = None) as E'
      by (by apply indexItems_lookup_None).
    congruence. }
  assert (named (listed props) (determineRenderBlockBounds props s2)) as H3.
  { unfold determineRenderBlockBounds. apply determineRenderBlock_named.
    - intros item Hitem. by apply list_elem_of_fmap_2.
    - by apply (named_ext _ s2). }
  set (s3 := determineRenderBlockBounds props s2) in *. clearbody s3.
  apply (named_ext _ s3); [|done].
  unfold prepopulateContainerHeight. by destruct (_ =? 0).
Qed.

(** ** The handlers *)

Lemma named_itemList props props' s :
  itemList props' = itemList props → named (listed props) s → named (listed props') s.
Proof. unfold named, listed. by intros ->. Qed.

Lemma updateStateFromProps_named props initialBuild s s' :
  named (listed (_props s)) s →
  _updateStateFromProps props initialBuild s = Some s' →
  named (listed props) s'.
Proof.
  intros Hs. unfold _updateStateFromProps.
  set (s1 := if initialBuild && _ then _ else s).
  assert (named (listed (_props s1)) s1 ∧ _props s1 = _props s) as [H1 P1].
  { subst s1. by destruct (_ && _). }
  clearbody s1.
  destruct (initialBuild || negb (bool_decide (itemList (_props s1) = itemList props)))
    eqn:Hc.
  - destruct (_calcNewRenderedItemState _ _) as [s2|] eqn:E; [simpl|done].
    intros [= <-].
    apply (named_ext _ s2);
      [apply bookkeeping_measures;
       [apply renderIfDirty_bookkeeping|apply renderIfDirty_waiting]|].
    apply (calc_named _ _ _ E). by apply handleItemListChange_named.
  - simpl. intros [= <-].
    apply orb_false_iff in Hc as [_ Hc]. apply negb_false_iff, bool_decide_eq_true in Hc.
    apply (named_ext _ s1);
      [apply bookkeeping_measures;
       [apply renderIfDirty_bookkeeping|apply renderIfDirty_waiting]|].
    by apply (named_itemList (_props s1)).
Qed.

(** Recalculation writes none of its inputs. *)
Lemma calc_calcInputs props s s' :
  _calcNewRenderedItemState props s = Some s' → calcInputs s' = calcInputs s.
Proof.
  unfold _calcNewRenderedItemState.
  destruct (_layoutHeight s =? 0); [by intros [= <-]|].
  destruct (_ =? _)%nat; [by intros [= <-]|].
  destruct (_ <? _)%nat; [by intros [= <-]|].
  destruct (cullFromTop _ _ _ _) as [s1|] eqn:E1; [simpl|done].
  destruct (cullFromBottom _ _ _ _) as [s2|] eqn:E2; [simpl|done].
  apply cullFromTop_keepsSum in E1 as [_ C1].
  apply cullFromBottom_keepsSum in E2 as [_ C2].
  set (s3 := if _itemsInRenderBlock s2 =? 0 then _ else s2).
  assert (calcInputs s3 = calcInputs s) as C3.
  { subst s3. destruct (_ =? 0); [|congruence].
    match goal with
    | |- calcInputs (seedRenderBlock props ?limit s2) = _ =>
        destruct (seedRenderBlock_sum props limit s2) as [_ ->]
    end.
    congruence. }
  clearbody s3.
  destruct (repositionItems _ _ _ _ _) as [[y4 s4]|] eqn:E4; [simpl|done].
  apply repositionItems_cellsOnly, cellsOnly_calcInputs in E4.
  set (s5 := if negb _ then _ else s4).
  assert (calcInputs s5 = calcInputs s) as C5.
  { transitivity (calcInputs s4); [|congruence]. subst s5. by destruct (negb _). }
  clearbody s5.
  destruct (growAtBottom _ _ _ _ _ _) as [[[t6 b6] s6]|] eqn:E6; [simpl|done].
  destruct (growAtTop _ _ _ _ _ _) as [[[t7 b7] s7]|] eqn:E7; [simpl|done].
  apply growAtBottom_keepsSum in E6 as [_ C6].
  apply growAtTop_keepsSum in E7 as [_ C7].
  destruct (_ && _); [|intros [= <-]; congruence].
  destruct (_popInvisibleIntoView props s7) as [s8|] eqn:E8; [simpl|done].
  apply popInvisibleIntoView_keepsSum in E8 as [_ C8].
  intros [= <-]. transitivity (calcInputs s8); [done|congruence].
Qed.

Lemma calcAndReconcile_named s s' :
  named (listed (_props s)) s →
  (s1 ← _calcNewRenderedItemState (_props s) s;
   _reconcileCorrections (_props (_renderIfDirty s1)) (_renderIfDirty s1)) = Some s' →
  named (listed (_props s')) s'.
Proof.
  intros Hs. destruct (_calcNewRenderedItemState _ _) as [s1|] eqn:E1; [simpl|done].
  intros E2. apply (calc_named _ _ _ E1) in Hs.
  apply calc_calcInputs, calcInputs_props in E1.
  rewrite (bookkeeping_props _ _ (reconcileCorrections_bookkeeping _ _ _ E2)).
  rewrite (bookkeeping_props _ _ (renderIfDirty_bookkeeping s1)), E1.
  apply (named_ext _ (_renderIfDirty s1)).
  - apply bookkeeping_measures;
      [by eapply reconcileCorrections_bookkeeping|by eapply reconcileCorrections_waiting].
  - apply (named_ext _ s1); [|done].
    apply bookkeeping_measures; [apply renderIfDirty_bookkeeping|apply renderIfDirty_waiting].
Qed.

Lemma onLayoutContainer_named w h s s' :
  named (listed (_props s)) s → _onLayoutContainer w h s = Some s' →
  named (listed (_props s')) s'.
Proof.
  intros Hs. unfold _onLayoutContainer. destruct (negb (_isMounted s)); [by intros [= <-]|].
  set (s1 := if negb (_ =? _layoutWidth s) then _ else s).
  assert (named (listed (_props s1)) s1) as H1.
  { subst s1. destruct (negb _); [|done]. unfold _resizeAllItems. simpl.
    by destruct (_ && _). }
  clearbody s1. destruct (negb _); [|by intros [= <-]].
  apply (calcAndReconcile_named (set_layoutHeight h s1)). exact H1.
Qed.

Lemma onScroll_named y x s s' :
  named (listed (_props s)) s → _onScroll y x s = Some s' → named (listed (_props s')) s'.
Proof.
  intros Hs. unfold _onScroll. destruct (_ =? _); [by intros [= <-]|].
  apply (calcAndReconcile_named (set_lastScrollTop y s)). exact Hs.
Qed.

(** A height is stored for an item of the list only. *)
Lemma onLayoutItem_named k h s s' :
  itemMapInSync s → named (listed (_props s)) s → _onLayoutItem k h s = Some s' →
  named (listed (_props s')) s'.
Proof.
  intros Hsync Hs. unfold _onLayoutItem.
  destruct (negb (_isMounted s)); [by intros [= <-]|].
  destruct (_itemMap s !! k) as [idx|] eqn:Hidx; [|by intros [= <-]].
  destruct (itemAt _ _) as [item|]; [simpl|done].
  destruct (negb _); [by intros [= <-]|].
  assert (listed (_props s) k) as Hk.
  { destruct (itemMapInSync_lookup _ _ _ Hsync Hidx) as (item' & Hitem' & <-).
    apply list_elem_of_fmap_2. by eapply list_elem_of_lookup_2. }
  set (s0 := set_heightCache _ s).
  assert (named (listed (_props s0)) s0) as H0.
  { subst s0. intros k' [H|H]; simpl in H.
    - destruct (decide (k' = k)) as [->|Hne]; [done|].
      rewrite lookup_insert_ne in H by done. apply Hs. by left.
    - apply Hs. by right. }
  clearbody s0.
  destruct (_ || _); [by intros [= <-]|].
  set (r := if negb (_ =? h) then _ else _).
  assert (∀ b s1, r = Some (b, s1) → named (listed (_props s1)) s1) as Hr.
  { subst r. intros b s1. destruct (negb _); [|by intros [= _ <-]].
    destruct (_isInitialFillComplete _); [|intros [= _ <-]; exact H0].
    destruct (foundVisibleItemBefore _ _ _ _) as [[]|]; simpl; [| |done];
      intros [= _ <-]; exact H0. }
  destruct r as [[b s1]|]; [simpl|done]. specialize (Hr _ _ eq_refl).
  set (s2 := set_pendingMeasurements _ s1).
  assert (named (listed (_props s2)) s2 ∧ _props s1 = _props s2) as [H2 P2].
  { split; [|done]. subst s2. simpl. intros k' [H|H]; simpl in H.
    - apply Hr. by left.
    - apply elem_of_difference in H as [H _]. apply Hr. by right. }
  clearbody s2. rewrite P2.
  destruct (_ || _).
  - destruct (_calcNewRenderedItemState _ s2) as [s3|] eqn:E3; [simpl|done].
    intros H. apply (calcAndReconcile_named s2); [done|]. by rewrite E3.
  - simpl. intros H.
    rewrite (bookkeeping_props _ _ (reconcileCorrections_bookkeeping _ _ _ H)).
    apply (named_ext _ s2); [|done].
    apply bookkeeping_measures;
      [by eapply reconcileCorrections_bookkeeping|by eapply reconcileCorrections_waiting].
Qed.

Lemma afterRender_named s s' :
  named (listed (_props s)) s → afterRender s = Some s' → named (listed (_props s')) s'.
Proof.
  intros Hs. unfold afterRender. destruct (_isMounted s); [|by intros [= <-]].
  destruct (_calcNewRenderedItemState _ _) as [s1|] eqn:E1; [simpl|done].
  destruct (_reconcileCorrections _ _) as [s2|] eqn:E2; [simpl|done].
  intros [= <-]. rewrite (bookkeeping_props _ _ (setFocusIfNeeded_bookkeeping s2)).
  apply (named_ext _ s2);
    [apply bookkeeping_measures;
     [apply setFocusIfNeeded_bookkeeping|apply setFocusIfNeeded_waiting]|].
  apply (calcAndReconcile_named s). { exact Hs. }
  rewrite E1. simpl. exact E2.
Qed.

Lemma componentWillReceiveProps_named nextProps s s' :
  named (listed (_props s)) s →
  UNSAFE_componentWillReceiveProps nextProps s = Some s' →
  named (listed (_props s')) s'.
Proof.
  intros Hs. unfold UNSAFE_componentWillReceiveProps.
  destruct (negb (bool_decide (_props s = nextProps))) eqn:Hc.
  - destruct (_updateStateFromProps _ _ _) as [s1|] eqn:E; [simpl|done].
    apply updateStateFromProps_named in E; [|done]. by intros [= <-].
  - simpl. intros [= <-]. apply negb_false_iff, bool_decide_eq_true in Hc.
    simpl. by rewrite <- Hc.
Qed.

Lemma handle_named e s s' :
  consistent s → named (listed (_props s)) s → handle e s = Some s' →
  named (listed (_props s')) s'.
Proof.
  intros [_ Hsync] Hs.
  assert (∀ x, bookkeeping x = bookkeeping s → waiting x = waiting s →
            named (listed (_props x)) x) as Hdone.
  { intros x B W. rewrite (bookkeeping_props _ _ B).
    apply (named_ext _ s); [by apply bookkeeping_measures|done]. }
  destruct e; simpl.
  - destruct (render s) as [s1|] eqn:E; [simpl|done]. intros [= <-].
    apply Hdone.
    + rewrite componentDidMount_bookkeeping. by apply render_bookkeeping.
    + rewrite componentDidMount_waiting. by apply render_waiting.
  - destruct (UNSAFE_componentWillReceiveProps _ _) as [s1|] eqn:E; [simpl|done].
    intros [= <-]. by apply (componentWillReceiveProps_named _ _ _ Hs) in E.
  - destruct (render s) as [s1|] eqn:E; [simpl|done]. intros [= <-].
    apply (Hdone (componentDidUpdate s1)).
    + transitivity (bookkeeping s1); [done|]. by apply render_bookkeeping.
    + transitivity (waiting s1); [done|]. by apply render_waiting.
  - intros [= <-]. by apply Hdone.
  - by apply onLayoutContainer_named.
  - by apply onLayoutItem_named.
  - intros [= <-]. apply Hdone; unfold _onAnimateStartStopItem; by split_cases.
  - by apply onScroll_named.
  - intros [= <-]. apply Hdone; unfold _onItemFocused; by split_cases.
  - intros [= <-]. by apply Hdone.
  - intros [= <-]. unfold _onKeyDown. destruct (_isMounted s); [|by apply Hdone].
    apply Hdone; [apply focusSubsequentItem_bookkeeping|apply focusSubsequentItem_waiting].
  - intros [= <-].
    apply Hdone;
      [apply screenReaderStateChanged_bookkeeping|apply screenReaderStateChanged_waiting].
  - destruct (_deferred s) as [|[] rest]; [by intros [= <-]| |].
    + apply (afterRender_named (set_deferred rest s)). exact Hs.
    + intros H. apply Hdone.
      * transitivity (bookkeeping (set_deferred rest s)); [|done]. revert H.
        unfold afterAnimationStop. simpl. destruct (_isMounted s); [|by intros [= <-]].
        destruct (_ && _); [|by intros [= <-]]. apply reconcileCorrections_bookkeeping.
      * transitivity (waiting (set_deferred rest s)); [|done].
        by apply afterAnimationStop_waiting.
Qed.

Lemma constructor_named platform props s :
  constructor platform props = Some s → named (listed (_props s)) s.
Proof.
  unfold constructor.
  destruct (_updateStateFromProps _ _ _) as [s1|] eqn:E; [simpl|done].
  pose proof E as E'. apply updateStateFromProps_named in E.
  2:{ intros k [[h H]|H]; simpl in H;
        [by rewrite lookup_empty in H|by apply elem_of_empty in H]. }
  intros [= <-]. simpl.
  replace (_props s1) with props; [done|].
  revert E'. unfold _updateStateFromProps. simpl.
  destruct (_calcNewRenderedItemState _ _) as [s2|] eqn:E2; [simpl|done].
  apply calc_calcInputs, calcInputs_props in E2. intros [= <-].
  rewrite (bookkeeping_props _ _ (renderIfDirty_bookkeeping s2)), E2.
  rewrite handleItemListChange_props. by destruct (skipRenderIfItemUnchanged props).
Qed.

(** X17. The view tracks heights for the items of its list only.  After
    any run of a constructed view, every key that has a height in the
    height cache and every key whose measurement is awaited is the key of
    an item of the current list: the height of an item is forgotten when
    the item leaves the list, and a report for an item that is not in the
    list is not stored. *)
Theorem heights_tracked_for_listed_items platform props events s k :
  constructor platform props ≫= run events = Some s →
  is_Some (_heightCache s !! k) ∨ k ∈ _pendingMeasurements s →
  k ∈ ItemInfo.key <$> itemList (_props s).
Proof.
  destruct (constructor platform props) as [s0|] eqn:E0; [simpl|done].
  pose proof (constructor_consistent _ _ _ E0) as C0.
  apply constructor_named in E0. intros Hrun. revert k.
  change (named (listed (_props s)) s).
  revert s0 E0 C0 Hrun. induction events as [|e events IH]; intros s0 H0 C0; simpl.
  { by intros [= <-]. }
  destruct (handle e s0) as [s1|] eqn:E1; [simpl|done].
  apply IH; [by eapply handle_named|by eapply handle_consistent].
Qed.

(** Sixty measured rows: the first ten heights are reported, then the
    first five rows are removed from the list. *)
Definition reportsThenRemoval : list Event :=
  [Mount false; LayoutContainer 300 500; Render; RunDeferred]
  ++ ((λ n, LayoutItem (keyOf n) 40) <$> seq 0 10)
  ++ [RunDeferred; Render; RunDeferred;
      ReceiveProps (propsOf (measuredItem <$> seq 5 55)); Render; RunDeferred].

Definition afterRemoval : VirtualListView :=
  stateAfter (propsOf (measuredItem <$> seq 0 60)) reportsThenRemoval.

Lemma heights_tracked_for_listed_items_witness :
  _heightCache afterRemoval !! keyOf 2 = None
  ∧ is_Some (_heightCache afterRemoval !! keyOf 7)
  ∧ keyOf 7 ∈ ItemInfo.key <$> itemList (_props afterRemoval).
Proof.
  split; [vm_compute; reflexivity|].
  assert (is_Some (_heightCache afterRemoval !! keyOf 7)) as H.
  { apply (bool_decide_eq_true_1 _). vm_compute. reflexivity. }
  split; [exact H|].
  apply (heights_tracked_for_listed_items web (propsOf (measuredItem <$> seq 0 60))
           reportsThenRemoval afterRemoval (keyOf 7)).
  - apply completes_stateAfter. vm_compute. reflexivity.
  - left. exact H.
Defined.

(** * Keyboard navigation *)

(** The items of the render block, in list order, and the keys of the
    navigable ones. *)
Definition renderBlockItems (s : VirtualListView) : list ItemInfo.t :=
  take (Z.to_nat (_itemsInRenderBlock s))
    (drop (Z.to_nat (_itemsAboveRenderBlock s)) (itemList (_props s))).

Definition navigableKeys (s : VirtualListView) : list string :=
  ItemInfo.key <$> filter (λ item, ItemInfo.isNavigable item = true) (renderBlockItems s).

(** What the key handler reads of a state. *)
Definition navigation (s : VirtualListView) :=
  (_props s, _state s, _isMounted s, _itemsAboveRenderBlock s, _itemsInRenderBlock s).

(** A cell whose element was mounted for the item of key [k]. *)
Definition mountedFor (k : string) (c : VirtualCellInfo) : Prop :=
  CellInfo.cellRef c = Some {| CellInfo.propsItemKey := Some k |}.

Lemma renderBlockCells_navigation n i s s' :
  renderBlockCells n i s = Some s' → navigation s' = navigation s.
Proof.
  revert i s. induction n as [|n IH]; intros i s; simpl; [by intros [= <-]|].
  destruct (itemAt _ _) as [item|]; [simpl|done].
  destruct (_activeCells s !! _) as [c|]; [simpl|done].
  intros H. apply IH in H. rewrite H. by destruct (ItemInfo.isNavigable item).
Qed.

(** The first loop of [render] walks the render block in list order. *)
Lemma renderBlockCells_navigable n i s s' :
  0 ≤ _itemsAboveRenderBlock s + i → renderBlockCells n i s = Some s' →
  (_navigatableItemsRendered s').*1
  = (_navigatableItemsRendered s).*1
    ++ (ItemInfo.key <$> filter (λ item, ItemInfo.isNavigable item = true)
          (take n (drop (Z.to_nat (_itemsAboveRenderBlock s + i)) (itemList (_props s))))).
Proof.
  revert i s. induction n as [|n IH]; intros i s Hi; simpl.
  { intros [= <-]. by rewrite app_nil_r. }
  destruct (itemAt _ _) as [item|] eqn:Hitem; [simpl|done].
  destruct (_activeCells s !! _) as [c|]; [simpl|done].
  apply itemAt_Some in Hitem as [_ Hitem].
  rewrite (drop_S _ _ _ Hitem). simpl. rewrite filter_cons.
  intros H. apply IH in H; [|by destruct (ItemInfo.isNavigable item); simpl; lia].
  rewrite H. clear H.
  destruct (ItemInfo.isNavigable item) eqn:Hnav; simpl;
    replace (Z.to_nat (_itemsAboveRenderBlock s + (i + 1)))
      with (S (Z.to_nat (_itemsAboveRenderBlock s + i))) by lia.
  - by rewrite fmap_app, <- app_assoc.
  - done.
Qed.

(** A cell rendered once stays mounted for its key, with its virtual key,
    while the loop goes on. *)
Lemma renderBlockCells_keeps n i s s' k c :
  renderBlockCells n i s = Some s' →
  _activeCells s !! k = Some c → mountedFor k c →
  ∃ c', _activeCells s' !! k = Some c' ∧ mountedFor k c'
        ∧ CellInfo.virtualKey c' = CellInfo.virtualKey c.
Proof.
  revert i s c. induction n as [|n IH]; intros i s c; simpl.
  { intros [= <-] Hc Hm. by exists c. }
  destruct (itemAt _ _) as [item|]; [simpl|done].
  destruct (_activeCells s !! ItemInfo.key item) as [c0|] eqn:Hc0; [simpl|done].
  intros H Hc Hm.
  match type of H with
  | renderBlockCells _ _ ?x = _ =>
      assert (∃ c1, _activeCells x !! k = Some c1 ∧ mountedFor k c1
                    ∧ CellInfo.virtualKey c1 = CellInfo.virtualKey c)
        as (c1 & Hc1 & Hm1 & Hv1)
  end.
  { destruct (decide (ItemInfo.key item = k)) as [<-|E].
    - rewrite Hc in Hc0. injection Hc0 as <-. eexists.
      split; [destruct (ItemInfo.isNavigable item); simpl; apply lookup_insert_eq|].
      split; reflexivity.
    - exists c.
      split; [destruct (ItemInfo.isNavigable item); simpl; by rewrite lookup_insert_ne|].
      by split. }
  destruct (IH _ _ _ H Hc1 Hm1) as (c' & H1 & H2 & H3).
  exists c'. split; [exact H1|]. split; [exact H2|congruence].
Qed.

(** Every entry the loop adds names a cell mounted for its key. *)
Lemma renderBlockCells_mounted n i s s' k vk :
  renderBlockCells n i s = Some s' →
  (k, vk) ∈ _navigatableItemsRendered s' →
  (k, vk) ∈ _navigatableItemsRendered s
  ∨ ∃ c, _activeCells s' !! k = Some c ∧ mountedFor k c ∧ CellInfo.virtualKey c = vk.
Proof.
  revert i s. induction n as [|n IH]; intros i s; simpl.
  { intros [= <-] H. by left. }
  destruct (itemAt _ _) as [item|]; [simpl|done].
  destruct (_activeCells s !! ItemInfo.key item) as [c0|] eqn:Hc0; [simpl|done].
  intros H Hin. pose proof H as Hkeep.
  apply IH in H; [|exact Hin]. destruct H as [H|H]; [|by right].
  destruct (ItemInfo.isNavigable item); simpl in H; [|by left].
  apply elem_of_app in H as [H|H]; [by left|].
  apply list_elem_of_singleton in H. injection H as -> ->. right.
  destruct (renderBlockCells_keeps _ _ _ _ (ItemInfo.key item)
              (CellInfo.setShouldUpdate false
                 (CellInfo.setCellRef
                    (Some {| CellInfo.propsItemKey := Some (ItemInfo.key item) |}) c0))
              Hkeep) as (c' & H1 & H2 & H3).
  - simpl. apply lookup_insert_eq.
  - reflexivity.
  - exists c'. split; [exact H1|]. split; [exact H2|]. rewrite H3. reflexivity.
Qed.

Lemma render_navigable s s' :
  0 ≤ _itemsAboveRenderBlock s → handle Render s = Some s' →
  navigation s' = navigation s
  ∧ (_navigatableItemsRendered s').*1 = navigableKeys s
  ∧ ∀ k vk, (k, vk) ∈ _navigatableItemsRendered s' →
      ∃ c, _activeCells s' !! k = Some c ∧ mountedFor k c ∧ CellInfo.virtualKey c = vk.
Proof.
  intros Habove. simpl. unfold render.
  destruct (renderBlockCells _ _ _) as [s1|] eqn:E; [simpl|done]. intros [= <-].
  split; [by apply renderBlockCells_navigation in E|]. split.
  - apply renderBlockCells_navigable in E; [|simpl; lia]. simpl in E.
    simpl. rewrite E. unfold navigableKeys, renderBlockItems.
    by rewrite Z.add_0_r.
  - intros k vk Hin. simpl in Hin.
    destruct (renderBlockCells_mounted _ _ _ _ _ _ E Hin) as [H|H]; [|exact H].
    simpl in H. by apply elem_of_nil in H.
Qed.

Lemma navigableKeys_NoDup s : uniqueKeys (_props s) → NoDup (navigableKeys s).
Proof.
  unfold uniqueKeys, navigableKeys, renderBlockItems. intros H.
  eapply sublist_NoDup; [exact H|]. apply fmap_sublist.
  etrans; [apply sublist_filter|]. etrans; [apply sublist_take|apply sublist_drop].
Qed.

(** X18. The arrow keys walk the navigable items of the render block in
    list order.  Once a mounted view whose list has distinct keys, and
    whose render block starts at an index that is not negative, has been
    rendered, the navigation list holds the keys of the navigable items of
    the render block, in the order of the item list.  With the focus on
    one of them, an arrow key focuses the cell of its neighbour in that
    order (the next one for the down arrow, the previous one for the up
    arrow) and scrolls to it; at the end of the list in the direction of
    the key, the key press changes nothing. *)
Theorem arrow_keys_follow_list_order s s' focused position :
  uniqueKeys (_props s) → 0 ≤ _itemsAboveRenderBlock s → _isMounted s = true →
  handle Render s = Some s' →
  lastFocusedItemKey (_state s) = Some focused →
  navigableKeys s !! position = Some focused →
  (_navigatableItemsRendered s').*1 = navigableKeys s
  ∧ (∀ direction next target,
       match direction with Down => next = S position | Up => position = S next end →
       navigableKeys s !! next = Some target → target ≠ EmptyString →
       ∃ cell, _activeCells s' !! target = Some cell
         ∧ _onKeyDown direction s'
           = _scrollToItemKey target (call (CellFocus (CellInfo.virtualKey cell)) s'))
  ∧ (navigableKeys s !! S position = None → _onKeyDown Down s' = s')
  ∧ (position = 0%nat → _onKeyDown Up s' = s').
Proof.
  intros Huniq Habove Hmounted Hrender Hfocus Hpos.
  destruct (render_navigable _ _ Habove Hrender) as (Hnav & Hkeys & Hcells).
  assert (_state s' = _state s ∧ _isMounted s' = _isMounted s) as [Hstate Hm].
  { unfold navigation in Hnav. split; congruence. }
  assert (findIndex (isLastFocused s') (_navigatableItemsRendered s') = Some position)
    as Hindex.
  { apply focusedPosition_first. exists focused. rewrite Hstate, Hkeys.
    split; [done|]. split; [done|]. intros j Hj Hj'.
    pose proof (NoDup_lookup _ _ _ _ (navigableKeys_NoDup _ Huniq) Hj' Hpos). lia. }
  assert (length (_navigatableItemsRendered s') = length (navigableKeys s)) as Hlen.
  { by rewrite <- Hkeys, length_fmap. }
  split; [exact Hkeys|]. split; [|split].
  - intros direction next target Hnext Htarget Hne.
    assert (Z.of_nat position + directionValue direction = Z.of_nat next) as Hz.
    { destruct direction; simpl; lia. }
    pose proof (lookup_lt_Some _ _ _ Htarget) as Hlt.
    rewrite <- Hkeys, list_lookup_fmap in Htarget.
    destruct (_navigatableItemsRendered s' !! next) as [[k vk]|] eqn:Hentry; [|done].
    injection Htarget as ->.
    destruct (Hcells target vk) as (cell & Hcell & Href & Hvk).
    { by eapply list_elem_of_lookup_2. }
    exists cell. split; [exact Hcell|].
    unfold _onKeyDown, _focusSubsequentItem. rewrite Hm, Hmounted, Hindex, Hz.
    rewrite (proj2 (Z.gtb_gt _ _)) by lia. rewrite (proj2 (Z.ltb_lt _ _)) by lia.
    simpl. rewrite Nat2Z.id, Hentry, Hcell, Href. simpl.
    rewrite Hvk. destruct (String.eqb target "") eqn:E; [|done].
    by apply String.eqb_eq in E.
  - intros Hend. apply lookup_ge_None in Hend.
    unfold _onKeyDown, _focusSubsequentItem. rewrite Hm, Hmounted, Hindex. simpl.
    rewrite (proj2 (Z.ltb_ge _ _)) by lia. rewrite andb_false_r. done.
  - intros ->. unfold _onKeyDown, _focusSubsequentItem.
    rewrite Hm, Hmounted, Hindex. simpl. done.
Qed.

(** The menu with the focus on row 5, and the view once rendered again. *)
Definition focusedMenu : VirtualListView :=
  stateAfter (propsOf (menuRow <$> seq 0 60)) (filled ++ [ItemFocused (Some (menuRow 5))]).

Definition focusedMenuRendered : VirtualListView :=
  default focusedMenu (handle Render focusedMenu).

Lemma arrow_keys_follow_list_order_witness :
  navigableKeys focusedMenu !! 3%nat = Some (keyOf 5)
  ∧ (_navigatableItemsRendered focusedMenuRendered).*1 = navigableKeys focusedMenu
  ∧ ∃ cell, _activeCells focusedMenuRendered !! keyOf 6 = Some cell
      ∧ _onKeyDown Down focusedMenuRendered
        = _scrollToItemKey (keyOf 6)
            (call (CellFocus (CellInfo.virtualKey cell)) focusedMenuRendered).
Proof.
  assert (navigableKeys focusedMenu !! 3%nat = Some (keyOf 5)) as Hpos
    by (vm_compute; reflexivity).
  split; [exact Hpos|].
  destruct (arrow_keys_follow_list_order focusedMenu focusedMenuRendered (keyOf 5) 3)
    as (H1 & H2 & _).
  - apply (bool_decide_eq_true_1 _). vm_compute. reflexivity.
  - vm_compute. discriminate.
  - vm_compute. reflexivity.
  - apply default_Some. vm_compute. reflexivity.
  - vm_compute. reflexivity.
  - exact Hpos.
  - split; [exact H1|]. apply (H2 Down 4%nat (keyOf 6)).
    + reflexivity.
    + vm_compute. reflexivity.
    + vm_compute. discriminate.
Defined.

(** * The active cells are the cells of the render block *)

(** The keys [cells] all belong to items at the [n] indices from [a] on. *)
Definition confinedTo (props : Props) (a n : Z) (cells : gset string) : Prop :=
  ∀ k, k ∈ cells →
    ∃ i item, a ≤ i < a + n ∧ itemAt props i = Some item ∧ ItemInfo.key item = k.

(** No cell is active for an item outside the render block. *)
Definition confined (props : Props) (s : VirtualListView) : Prop :=
  0 ≤ _itemsInRenderBlock s
  ∧ confinedTo props (_itemsAboveRenderBlock s) (_itemsInRenderBlock s) (activeKeys s).

Lemma confined_ext props s s' :
  blockRange s' = blockRange s → activeKeys s' = activeKeys s →
  confined props s → confined props s'.
Proof. unfold confined, blockRange. intros [= -> ->] ->. done. Qed.

Lemma waiting_confined props s s' :
  waiting s' = waiting s → confined props s → confined props s'.
Proof.
  unfold waiting, frozen. intros [= Ha Hn _ _ Hk _]. apply confined_ext; [|done].
  unfold blockRange. by rewrite Ha, Hn.
Qed.

Lemma confined_itemList props props' s :
  itemList props' = itemList props → confined props s → confined props' s.
Proof.
  unfold confined, confinedTo, itemAt. intros ->. done.
Qed.

(** An empty render block has no active cell. *)
Lemma confined_empty props s k :
  confined props s → _itemsInRenderBlock s = 0 → k ∉ activeKeys s.
Proof. intros [_ H] Hn Hk. destruct (H k Hk) as (i & _ & Hi & _). lia. Qed.

Lemma cullFromTop_confined fuel props line s s' :
  cullFromTop fuel props line s = Some s' → confined props s → confined props s'.
Proof.
  revert s. induction fuel as [|fuel IH]; intros s; simpl.
  { by intros [= ->]. }
  destruct (_itemsInRenderBlock s >? 0) eqn:Hin; [|by intros [= ->]].
  destruct (itemAt props _) as [item|] eqn:Hitem; [simpl|done].
  destruct (negb _); [by intros [= ->]|].
  destruct (ZgeQ _ _); [by intros [= ->]|].
  intros H [Hn Hc]. apply IH in H; [done|]. clear H IH.
  apply Z.gtb_lt in Hin. unfold confined.
  match goal with
  | |- context [_recycleCell ?k ?x] =>
      rewrite recycleCell_activeKeys;
      destruct (blockRange_parts _ _ (recycleCell_counters k x)) as [-> ->]
  end.
  simpl. split; [lia|]. intros k [Hk Hne]%elem_of_difference.
  destruct (Hc k Hk) as (i & item' & Hi & Hitem' & Hkey).
  exists i, item'. split; [|done].
  destruct (decide (i = _itemsAboveRenderBlock s)) as [->|]; [|lia].
  exfalso. apply Hne, elem_of_singleton. congruence.
Qed.

Lemma cullFromBottom_confined fuel props line s s' :
  cullFromBottom fuel props line s = Some s' → confined props s → confined props s'.
Proof.
  revert s. induction fuel as [|fuel IH]; intros s; simpl.
  { by intros [= ->]. }
  destruct (_itemsInRenderBlock s >? 0) eqn:Hin; [|by intros [= ->]].
  destruct (itemAt props _) as [item|] eqn:Hitem; [simpl|done].
  destruct (negb _); [by intros [= ->]|].
  destruct (ZleQ _ _); [by intros [= ->]|].
  intros H [Hn Hc]. apply IH in H; [done|]. clear H IH.
  apply Z.gtb_lt in Hin. unfold confined.
  match goal with
  | |- context [_recycleCell ?k ?x] =>
      rewrite recycleCell_activeKeys;
      destruct (blockRange_parts _ _ (recycleCell_counters k x)) as [-> ->]
  end.
  simpl. split; [lia|]. intros k [Hk Hne]%elem_of_difference.
  destruct (Hc k Hk) as (i & item' & Hi & Hitem' & Hkey).
  exists i, item'. split; [|done].
  destruct (decide (i = _itemsAboveRenderBlock s + _itemsInRenderBlock s - 1))
    as [->|]; [|lia].
  exfalso. apply Hne, elem_of_singleton. congruence.
Qed.

Lemma awaitMeasurement_extent item s :
  blockRange (awaitMeasurement item s) = blockRange s
  ∧ activeKeys (awaitMeasurement item s) = activeKeys s.
Proof. unfold awaitMeasurement. by destruct (_isItemHeightKnown s item). Qed.

(** The seed pass, on an empty render block. *)
Lemma seedRenderBlock_confined props limit s :
  _itemsInRenderBlock s = 0 → confined props s →
  confined props (seedRenderBlock props limit s).
Proof.
  intros Hn Hc. unfold seedRenderBlock.
  assert (activeKeys s = ∅) as Hempty.
  { apply set_eq. intros k. split; [|by intros ?%elem_of_empty].
    intros Hk. by apply (confined_empty props s k) in Hk. }
  apply (confined_ext _
           match findFirstInRenderBlock (set_itemsAboveRenderBlock 0 s) (itemList props) 0
                   (_heightAboveRenderAdjustment s) limit with
           | Some (i, item, yPosition) =>
               awaitMeasurement item
                 (_allocateCell (ItemInfo.key item) (ItemInfo.template item) i
                    (negb (ItemInfo.measureHeight item)) (ItemInfo.height item)
                    (yPosition
                     - _getHeightOfItem (set_itemsAboveRenderBlock 0 s) (Some item))
                    (_shouldShowItem (set_itemsAboveRenderBlock 0 s) item)
                    (set_itemsInRenderBlock 1
                       (set_itemsAboveRenderBlock i (set_itemsAboveRenderBlock 0 s))))
           | None => set_itemsAboveRenderBlock 0 s
           end); [done|done|].
  destruct (findFirstInRenderBlock _ _ _ _ _) as [[[i item] y]|] eqn:E.
  - apply (findFirstInRenderBlock_spec props) in E as (Hitem & Hi & _); [|done|done].
    destruct (awaitMeasurement_extent item
                (_allocateCell (ItemInfo.key item) (ItemInfo.template item) i
                   (negb (ItemInfo.measureHeight item)) (ItemInfo.height item)
                   (y - _getHeightOfItem (set_itemsAboveRenderBlock 0 s) (Some item))
                   (_shouldShowItem (set_itemsAboveRenderBlock 0 s) item)
                   (set_itemsInRenderBlock 1
                      (set_itemsAboveRenderBlock i (set_itemsAboveRenderBlock 0 s)))))
      as [Hr Hk].
    unfold confined. rewrite Hk, allocateCell_activeKeys.
    destruct (blockRange_parts _ _ Hr) as [-> ->].
    match goal with
    | |- context [_allocateCell ?k ?t ?i ?c ?h ?y ?v ?x] =>
        destruct (blockRange_parts _ _ (allocateCell_counters k t i c h y v x)) as [-> ->]
    end.
    simpl. split; [lia|]. intros k Hin. exists i, item. split; [lia|]. split; [done|].
    apply elem_of_union in Hin as [Hin|Hin]; [by apply elem_of_singleton in Hin|].
    change (k ∈ activeKeys s) in Hin. rewrite Hempty in Hin. by apply elem_of_empty in Hin.
  - split; [simpl; lia|]. intros k Hk. change (k ∈ activeKeys s) in Hk.
    rewrite Hempty in Hk. by apply elem_of_empty in Hk.
Qed.

Lemma repositionItems_extent n props i y s y' s' :
  repositionItems n props i y s = Some (y', s') →
  blockRange s' = blockRange s ∧ activeKeys s' = activeKeys s.
Proof.
  intros H. split; [by eapply cellsOnly_blockRange, repositionItems_cellsOnly|].
  revert i y s H. induction n as [|n IH]; intros i y s; simpl.
  { by intros [= _ ->]. }
  destruct (itemAt props _) as [item|]; [simpl|done].
  intros H%IH. rewrite H. apply setCellTopAndVisibility_activeKeys.
Qed.

Lemma popItems_extent n props i s s' :
  popItems n props i s = Some s' →
  blockRange s' = blockRange s ∧ activeKeys s' = activeKeys s.
Proof.
  intros H. split; [by eapply cellsOnly_blockRange, popItems_cellsOnly|].
  revert i s H. induction n as [|n IH]; intros i s; simpl.
  { by intros [= ->]. }
  destruct (itemAt props _) as [item|]; [simpl|done].
  destruct (_activeCells s !! _) as [c|]; [simpl|done].
  intros H%IH. rewrite H. apply setCellTopAndVisibility_activeKeys.
Qed.

(** One more item at an end of the render block, with its cell. *)
Lemma buildItem_confined props idx (above : bool) topY bottomY s topY' bottomY' s' :
  idx = (if above then _itemsAboveRenderBlock s - 1
         else _itemsAboveRenderBlock s + _itemsInRenderBlock s) →
  buildItem props idx above topY bottomY s = Some (topY', bottomY', s') →
  confined props s → confined props s'.
Proof.
  intros Hidx. unfold buildItem.
  destruct (itemAt props idx) as [item|] eqn:Hitem; [simpl|done].
  intros H [Hn Hc].
  assert (blockRange s'
          = (if above then _itemsAboveRenderBlock s - 1 else _itemsAboveRenderBlock s,
             _itemsInRenderBlock s + 1)
          ∧ activeKeys s' = {[ItemInfo.key item]} ∪ activeKeys s) as [Hr Hk].
  { destruct above, (_isItemHeightKnown s item); injection H as _ _ <-;
      rewrite allocateCell_activeKeys, allocateCell_counters; done. }
  unfold confined. rewrite Hk. injection Hr as -> ->.
  split; [lia|]. intros k [Hin|Hin]%elem_of_union.
  - apply elem_of_singleton in Hin as ->. exists idx, item.
    split; [destruct above; lia|done].
  - destruct (Hc k Hin) as (i & item' & Hi & Hitem' & Hkey).
    exists i, item'. split; [destruct above; lia|done].
Qed.

Lemma growAtBottom_confined fuel props limit topY bottomY s topY' bottomY' s' :
  growAtBottom fuel props limit topY bottomY s = Some (topY', bottomY', s') →
  confined props s → confined props s'.
Proof.
  revert topY bottomY s. induction fuel as [|fuel IH]; intros topY bottomY s; simpl.
  { by intros [= _ _ ->]. }
  destruct (_ <? _)%nat; [|by intros [= _ _ ->]].
  destruct (_ || _); [by intros [= _ _ ->]|].
  destruct (buildItem _ _ _ _ _ _) as [[[t b] s1]|] eqn:E; [simpl|done].
  intros H Hc. apply (IH _ _ _ H).
  exact (buildItem_confined props _ false _ _ s _ _ s1 eq_refl E Hc).
Qed.

Lemma growAtTop_confined fuel props limit topY bottomY s topY' bottomY' s' :
  growAtTop fuel props limit topY bottomY s = Some (topY', bottomY', s') →
  confined props s → confined props s'.
Proof.
  revert topY bottomY s. induction fuel as [|fuel IH]; intros topY bottomY s; simpl.
  { by intros [= _ _ ->]. }
  destruct (_ <? _)%nat; [|by intros [= _ _ ->]].
  destruct (_ || _); [by intros [= _ _ ->]|].
  destruct (buildItem _ _ _ _ _ _) as [[[t b] s1]|] eqn:E; [simpl|done].
  intros H Hc. apply (IH _ _ _ H).
  exact (buildItem_confined props _ true _ _ s _ _ s1 eq_refl E Hc).
Qed.

(** Recalculation gives cells to the items it takes into the render block
    and takes the cells of the items it culls. *)
Lemma calc_confined props s s' :
  _calcNewRenderedItemState props s = Some s' → confined props s → confined props s'.
Proof.
  unfold _calcNewRenderedItemState. intros H Hc. revert H.
  destruct (_layoutHeight s =? 0); [by intros [= <-]|].
  destruct (_ =? _)%nat; [by intros [= <-]|].
  destruct (_ <? _)%nat; [by intros [= <-]|].
  destruct (cullFromTop _ _ _ _) as [s1|] eqn:E1; [simpl|done].
  destruct (cullFromBottom _ _ _ _) as [s2|] eqn:E2; [simpl|done].
  apply cullFromTop_confined in E1; [|done].
  apply cullFromBottom_confined in E2; [|done]. clear Hc E1.
  set (s3 := if _itemsInRenderBlock s2 =? 0 then _ else s2).
  assert (confined props s3) as H3.
  { subst s3. destruct (_ =? 0) eqn:E; [|done].
    apply seedRenderBlock_confined; [by apply Z.eqb_eq|done]. }
  clearbody s3. clear E2.
  destruct (repositionItems _ _ _ _ _) as [[y4 s4]|] eqn:E4; [simpl|done].
  apply repositionItems_extent in E4 as [R4 K4].
  set (s5 := if negb _ then _ else s4).
  assert (confined props s5) as H5.
  { apply (confined_ext _ s3); [| |done]; subst s5; by destruct (negb _). }
  clearbody s5.
  destruct (growAtBottom _ _ _ _ _ _) as [[[t6 b6] s6]|] eqn:E6; [simpl|done].
  destruct (growAtTop _ _ _ _ _ _) as [[[t7 b7] s7]|] eqn:E7; [simpl|done].
  apply growAtBottom_confined in E6; [|done].
  apply growAtTop_confined in E7; [|done].
  destruct (_ && _); [|by intros [= <-]].
  unfold _popInvisibleIntoView.
  destruct (popItems _ _ _ _) as [s8|] eqn:E8; [simpl|done].
  apply popItems_extent in E8 as [R8 K8]. intros [= <-].
  by apply (confined_ext _ s7).
Qed.

(** ** A new item list *)

(** The state of the third loop of [_handleItemListChange] before it
    visits index [i]: a cell is active for an item of the render block or
    for an item the loop has not visited yet. *)
Definition confinedUpTo (props : Props) (i : Z) (s : VirtualListView) : Prop :=
  0 ≤ _itemsInRenderBlock s
  ∧ ∀ k, k ∈ activeKeys s →
      ∃ j item,
        (_itemsAboveRenderBlock s ≤ j < _itemsAboveRenderBlock s + _itemsInRenderBlock s
         ∨ i ≤ j)
        ∧ itemAt props j = Some item ∧ ItemInfo.key item = k.

Lemma markShouldUpdate_activeKeys k s : activeKeys (markShouldUpdate k s) = activeKeys s.
Proof.
  unfold markShouldUpdate, activeKeys. destruct (_activeCells s !! k) as [c|] eqn:E; [|done].
  simpl. apply dom_insert_lookup_L. by exists c.
Qed.

Lemma buildItemMap_activeKeys items i m s :
  activeKeys (snd (buildItemMap items i m s)) = activeKeys s.
Proof.
  revert i m s. induction items as [|item items IH]; intros i m s; simpl; [done|].
  rewrite IH. destruct (_activeCells s !! _); [|done].
  destruct (_itemMap s !! _); [|apply markShouldUpdate_activeKeys].
  destruct (_ || _); [apply markShouldUpdate_activeKeys|done].
Qed.

(** The second loop leaves no cell to a deleted item. *)
Lemma stopTrackingDeleted_activeKeys oldItems i (m : gmap string nat) s k :
  k ∈ activeKeys (stopTrackingDeleted oldItems i m s) →
  k ∈ activeKeys s ∧ (k ∈ ItemInfo.key <$> oldItems → is_Some (m !! k)).
Proof.
  revert i s. induction oldItems as [|item oldItems IH]; intros i s; simpl.
  { intros Hk. split; [done|]. by intros ?%elem_of_nil. }
  destruct (m !! ItemInfo.key item) as [j|] eqn:E.
  - intros [H1 H2]%IH. split; [done|]. intros [->|H]%elem_of_cons; [by exists j|auto].
  - set (s1 := if bool_decide _ then refocusAfterRemoval s else s).
    assert (_activeCells s1 = _activeCells s) as H1.
    { subst s1. destruct (bool_decide _); [|done].
      apply cellStore_activeCells, refocusAfterRemoval_cellStore. }
    clearbody s1. intros [Hk Hm]%IH.
    apply elem_of_activeKeys in Hk. rewrite stopTrackingItem_lookup in Hk.
    destruct (decide (k = ItemInfo.key item)) as [->|Hne]; [by destruct Hk|].
    split; [apply elem_of_activeKeys; by rewrite <- H1|].
    intros [->|H]%elem_of_cons; [done|auto].
Qed.

Lemma placeItem_confinedUpTo props item i top bottom h y looking s :
  itemAt props i = Some item →
  placedUpTo props top bottom i y looking s →
  confinedUpTo props i s →
  confinedUpTo props (i + 1) (snd (placeItem props item i top bottom h (y + h) looking s)).
Proof.
  intros Hitem Hpl [Hn Hc].
  assert (∀ k j item', k ≠ ItemInfo.key item → i ≤ j → itemAt props j = Some item' →
            ItemInfo.key item' = k → i + 1 ≤ j) as Hnext.
  { intros k j item' Hne Hj Hitem' Hkey.
    destruct (decide (j = i)) as [->|]; [|lia]. congruence. }
  unfold placeItem. destruct (ZleQ (y + h) top); [simpl|cbv zeta].
  { split.
    - by destruct (blockRange_parts _ _ (cellsOnly_blockRange _ _
        (recycleIfActive_cellsOnly (ItemInfo.key item) s))) as [_ ->].
    - rewrite recycleIfActive_activeKeys.
      destruct (blockRange_parts _ _ (cellsOnly_blockRange _ _
        (recycleIfActive_cellsOnly (ItemInfo.key item) s))) as [-> ->].
      intros k [Hk Hne%not_elem_of_singleton]%elem_of_difference.
      destruct (Hc k Hk) as (j & item' & [Hj|Hj] & Hitem' & Hkey);
        exists j, item'; (split; [|done]); [by left|right; by eapply Hnext]. }
  set (s1 := if looking then set_itemsAboveRenderBlock i s else s).
  assert (activeKeys s1 = activeKeys s ∧ _itemsInRenderBlock s1 = _itemsInRenderBlock s
          ∧ _activeCells s1 = _activeCells s) as (K1 & N1 & A1)
    by (subst s1; by destruct looking).
  replace (y + h - h) with y by lia.
  destruct (ZltQ y bottom) eqn:Hbottom.
  - apply ZltQ_true in Hbottom.
    assert (_itemsAboveRenderBlock s1 + _itemsInRenderBlock s1 = i
            ∧ ∀ j, _itemsAboveRenderBlock s ≤ j
                     < _itemsAboveRenderBlock s + _itemsInRenderBlock s →
                   _itemsAboveRenderBlock s1 ≤ j < i) as [Hend Hstart].
    { subst s1. destruct looking; simpl.
      - destruct Hpl as [Ha Hz]. split; [lia|]. intros j Hj. lia.
      - destruct Hpl as (_ & _ & _ & _ & [He|He] & _); [split; [lia|intros j Hj; lia]|].
        exfalso. apply (Qlt_not_le _ _ Hbottom He). }
    assert (∀ x, blockRange x = (_itemsAboveRenderBlock s1, _itemsInRenderBlock s1 + 1) →
                 activeKeys x ⊆ {[ItemInfo.key item]} ∪ activeKeys s →
                 confinedUpTo props (i + 1) x) as Hgoal.
    { intros x [= Ha Hx] Hsub. unfold confinedUpTo. rewrite Ha, Hx. split; [lia|].
      intros k [Hk|Hk]%Hsub%elem_of_union.
      - apply elem_of_singleton in Hk as ->. exists i, item. split; [left; lia|done].
      - destruct (Hc k Hk) as (j & item' & [Hj|Hj] & Hitem' & Hkey);
          exists j, item'; (split; [|done]).
        + left. specialize (Hstart j Hj). lia.
        + destruct (decide (j = i)) as [->|]; [left; lia|right; lia]. }
    destruct (_activeCells (set_itemsInRenderBlock _ s1) !! ItemInfo.key item)
      as [c|] eqn:E; simpl; apply Hgoal.
    + by rewrite setCellTopAndVisibility_counters.
    + rewrite setCellTopAndVisibility_activeKeys.
      change (activeKeys s1 ⊆ {[ItemInfo.key item]} ∪ activeKeys s).
      rewrite K1. apply union_subseteq_r.
    + match goal with
      | |- context [awaitMeasurement ?it ?x] =>
          destruct (awaitMeasurement_extent it x) as [-> _]
      end.
      by rewrite allocateCell_counters.
    + match goal with
      | |- context [awaitMeasurement ?it ?x] =>
          destruct (awaitMeasurement_extent it x) as [_ ->]
      end.
      rewrite allocateCell_activeKeys.
      change ({[ItemInfo.key item]} ∪ activeKeys s1 ⊆ {[ItemInfo.key item]} ∪ activeKeys s).
      by rewrite K1.
  - simpl. split.
    + destruct (blockRange_parts _ _ (cellsOnly_blockRange _ _
        (recycleIfActive_cellsOnly (ItemInfo.key item) s1))) as [_ ->]. lia.
    + rewrite recycleIfActive_activeKeys, K1.
      destruct (blockRange_parts _ _ (cellsOnly_blockRange _ _
        (recycleIfActive_cellsOnly (ItemInfo.key item) s1))) as [-> ->].
      intros k [Hk Hne%not_elem_of_singleton]%elem_of_difference.
      destruct (Hc k Hk) as (j & item' & [Hj|Hj] & Hitem' & Hkey);
        exists j, item'; (split; [|done]); [|right; by eapply Hnext].
      left. subst s1. destruct looking; [|done].
      destruct Hpl as [Ha Hz]. lia.
Qed.

Lemma determineRenderBlock_confined props items i top bottom y looking s :
  uniqueKeys props → 0 ≤ i → drop (Z.to_nat i) (itemList props) = items →
  (∀ item, item ∈ items → 0 ≤ heightOf (_heightCache s) item) →
  placedUpTo props top bottom i y looking s → confinedUpTo props i s →
  confined props (determineRenderBlock props items i top bottom y looking s).
Proof.
  intros Hu. revert i y looking s.
  induction items as [|item items IH]; intros i y looking s Hi Hdrop Hh Hpl Hc; simpl.
  { destruct Hc as [Hn Hc]. split; [done|]. intros k Hk.
    destruct (Hc k Hk) as (j & item' & [Hj|Hj] & Hitem' & Hkey); [by exists j, item'|].
    exfalso. apply itemAt_Some in Hitem' as [_ Hitem'].
    apply lookup_lt_Some in Hitem'.
    assert (length (drop (Z.to_nat i) (itemList props)) = 0%nat) as Hlen
      by (by rewrite Hdrop).
    rewrite length_drop in Hlen. lia. }
  assert (itemAt props i = Some item) as Hitem.
  { apply itemAt_Some. split; [done|].
    rewrite <- (Nat.add_0_r (Z.to_nat i)), <- lookup_drop, Hdrop. done. }
  rewrite getHeightOfItem_heightOf.
  assert (0 ≤ heightOf (_heightCache s) item) as Hh0
    by (apply Hh, elem_of_cons; by left).
  pose proof (placeItem_placedUpTo props Hu item i top bottom _ y looking s
                Hitem Hh0 Hpl) as H.
  pose proof (placeItem_confinedUpTo props item i top bottom
                (heightOf (_heightCache s) item) y looking s Hitem Hpl Hc) as H'.
  pose proof (placeItem_calcInputs props item i top bottom (heightOf (_heightCache s) item)
                (y + heightOf (_heightCache s) item) looking s) as Hcalc.
  destruct (placeItem _ _ _ _ _ _ _ _ _) as [looking' s1]. simpl in H, H', Hcalc.
  apply IH; [lia| | |exact H|exact H'].
  - replace (Z.to_nat (i + 1)) with (Z.to_nat i + 1)%nat by lia.
    by rewrite <- drop_drop, Hdrop.
  - intros item' Hitem'. rewrite (calcInputs_heightCache _ _ Hcalc).
    apply Hh, elem_of_cons. by right.
Qed.

(** A change of the item list leaves cells to the items of the new render
    block only. *)
Lemma handleItemListChange_confined props s :
  uniqueKeys props → declaredHeights props → cachedHeights s →
  confined (_props s) s → confined props (_handleItemListChange props s).
Proof.
  intros Hu Hd Hs [_ Hc]. unfold _handleItemListChange.
  pose proof (buildItemMap_cachedHeights (itemList props) 0 ∅ s Hs) as H1.
  pose proof (buildItemMap_activeKeys (itemList props) 0 ∅ s) as K1.
  pose proof (buildItemMap_props (itemList props) 0 ∅ s) as P1.
  pose proof (buildItemMap_fst (itemList props) 0 ∅ s) as M1.
  destruct (buildItemMap _ _ _ _) as [m s1]. simpl in H1, K1, P1, M1. cbv zeta.
  assert (∀ k, k ∈ activeKeys (stopTrackingDeleted (itemList (_props s1)) 0 m s1) →
            k ∈ ItemInfo.key <$> itemList props) as K2.
  { intros k [Hk Hm]%stopTrackingDeleted_activeKeys. rewrite K1 in Hk.
    destruct (Hc k Hk) as (j & item & _ & [_ Hitem]%itemAt_Some & Hkey).
    destruct Hm as [n Hn].
    { rewrite P1, <- Hkey. apply list_elem_of_fmap_2. by eapply list_elem_of_lookup_2. }
    destruct (decide (k ∈ ItemInfo.key <$> itemList props)) as [|Hnot]; [done|].
    assert (m !! k = None) as Hnone
      by (rewrite M1; by apply indexItems_lookup_None). congruence. }
  apply (stopTrackingDeleted_cachedHeights (itemList (_props s1)) 0 m) in H1.
  set (s2 := stopTrackingDeleted _ _ _ _) in *. clearbody s2.
  assert (confined props (determineRenderBlockBounds props s2)) as H3.
  { unfold determineRenderBlockBounds. cbv zeta.
    apply determineRenderBlock_confined; [done|done|done| |done|].
    - intros item Hitem. by apply (heightOf_nonneg props s2).
    - split; [done|]. intros k Hk. change (k ∈ activeKeys s2) in Hk.
      apply K2, list_elem_of_fmap in Hk as (item & -> & Hitem).
      apply list_elem_of_lookup in Hitem as [j Hj].
      exists (Z.of_nat j), item. split; [right; lia|]. split; [|done].
      apply itemAt_Some. split; [lia|]. by rewrite Nat2Z.id. }
  set (s3 := determineRenderBlockBounds props s2) in *. clearbody s3.
  apply (confined_ext _ s3); [| |done];
    unfold prepopulateContainerHeight; by destruct (_ =? 0).
Qed.

(** ** Every handler *)

Lemma calcAndReconcile_confined s s' :
  confined (_props s) s →
  (s1 ← _calcNewRenderedItemState (_props s) s;
   _reconcileCorrections (_props (_renderIfDirty s1)) (_renderIfDirty s1)) = Some s' →
  confined (_props s') s'.
Proof.
  intros Hs. destruct (_calcNewRenderedItemState _ _) as [s1|] eqn:E1; [simpl|done].
  intros E2. apply (calc_confined _ _ _ E1) in Hs.
  apply calc_calcInputs, calcInputs_props in E1.
  rewrite (bookkeeping_props _ _ (reconcileCorrections_bookkeeping _ _ _ E2)).
  rewrite (bookkeeping_props _ _ (renderIfDirty_bookkeeping s1)), E1.
  apply (waiting_confined _ (_renderIfDirty s1)); [by eapply reconcileCorrections_waiting|].
  apply (waiting_confined _ s1); [apply renderIfDirty_waiting|done].
Qed.

Lemma onLayoutContainer_confined w h s s' :
  confined (_props s) s → _onLayoutContainer w h s = Some s' → confined (_props s') s'.
Proof.
  intros Hs. unfold _onLayoutContainer. destruct (negb (_isMounted s)); [by intros [= <-]|].
  set (s1 := if negb (_ =? _layoutWidth s) then _ else s).
  assert (confined (_props s1) s1) as H1.
  { subst s1. destruct (negb _); [|done]. unfold _resizeAllItems. simpl.
    destruct (_ && _); exact Hs. }
  clearbody s1. destruct (negb _); [|by intros [= <-]].
  apply (calcAndReconcile_confined (set_layoutHeight h s1)). exact H1.
Qed.

Lemma onScroll_confined y x s s' :
  confined (_props s) s → _onScroll y x s = Some s' → confined (_props s') s'.
Proof.
  intros Hs. unfold _onScroll. destruct (_ =? _); [by intros [= <-]|].
  apply (calcAndReconcile_confined (set_lastScrollTop y s)). exact Hs.
Qed.

Lemma onLayoutItem_confined k h s s' :
  confined (_props s) s → _onLayoutItem k h s = Some s' → confined (_props s') s'.
Proof.
  intros Hs. unfold _onLayoutItem.
  destruct (negb (_isMounted s)); [by intros [= <-]|].
  destruct (_itemMap s !! k) as [idx|] eqn:Hidx; [|by intros [= <-]].
  destruct (itemAt _ _) as [item|]; [simpl|done].
  destruct (negb _); [by intros [= <-]|].
  set (s0 := set_heightCache _ s).
  assert (confined (_props s0) s0) as H0 by exact Hs.
  clearbody s0.
  destruct (_ || _); [by intros [= <-]|].
  set (r := if negb (_ =? h) then _ else _).
  assert (∀ b s1, r = Some (b, s1) → confined (_props s1) s1) as Hr.
  { subst r. intros b s1. destruct (negb _); [|by intros [= _ <-]].
    destruct (_isInitialFillComplete _); [|intros [= _ <-]; exact H0].
    destruct (foundVisibleItemBefore _ _ _ _) as [[]|]; simpl; [| |done];
      intros [= _ <-]; exact H0. }
  destruct r as [[b s1]|]; [simpl|done]. specialize (Hr _ _ eq_refl).
  set (s2 := set_pendingMeasurements _ s1).
  assert (confined (_props s2) s2 ∧ _props s1 = _props s2) as [H2 P2] by done.
  clearbody s2. rewrite P2.
  destruct (_ || _).
  - destruct (_calcNewRenderedItemState _ s2) as [s3|] eqn:E3; [simpl|done].
    intros H. apply (calcAndReconcile_confined s2); [done|]. by rewrite E3.
  - simpl. intros H.
    rewrite (bookkeeping_props _ _ (reconcileCorrections_bookkeeping _ _ _ H)).
    apply (waiting_confined _ s2); [by eapply reconcileCorrections_waiting|done].
Qed.

Lemma afterRender_confined s s' :
  confined (_props s) s → afterRender s = Some s' → confined (_props s') s'.
Proof.
  intros Hs. unfold afterRender. destruct (_isMounted s); [|by intros [= <-]].
  destruct (_calcNewRenderedItemState _ _) as [s1|] eqn:E1; [simpl|done].
  destruct (_reconcileCorrections _ _) as [s2|] eqn:E2; [simpl|done].
  intros [= <-]. rewrite (bookkeeping_props _ _ (setFocusIfNeeded_bookkeeping s2)).
  apply (waiting_confined _ s2); [apply setFocusIfNeeded_waiting|].
  apply (calcAndReconcile_confined s). { exact Hs. }
  rewrite E1. simpl. exact E2.
Qed.

Lemma updateStateFromProps_confined props initialBuild s s' :
  validProps props → cachedHeights s → confined (_props s) s →
  _updateStateFromProps props initialBuild s = Some s' → confined props s'.
Proof.
  intros [Hu Hd] Hcache Hs. unfold _updateStateFromProps.
  set (s1 := if initialBuild && _ then _ else s).
  assert (confined (_props s1) s1 ∧ cachedHeights s1) as [H1 C1]
    by (subst s1; by destruct (_ && _)).
  clearbody s1.
  destruct (initialBuild || negb (bool_decide (itemList (_props s1) = itemList props)))
    eqn:Hc.
  - destruct (_calcNewRenderedItemState _ _) as [s2|] eqn:E; [simpl|done].
    intros [= <-]. apply (waiting_confined _ s2); [apply renderIfDirty_waiting|].
    apply (calc_confined _ _ _ E). by apply handleItemListChange_confined.
  - simpl. intros [= <-]. apply (waiting_confined _ s1); [apply renderIfDirty_waiting|].
    apply orb_false_iff in Hc as [_ Hc]. apply negb_false_iff, bool_decide_eq_true in Hc.
    by apply (confined_itemList (_props s1)).
Qed.

Lemma componentWillReceiveProps_confined nextProps s s' :
  validProps nextProps → cachedHeights s → confined (_props s) s →
  UNSAFE_componentWillReceiveProps nextProps s = Some s' → confined (_props s') s'.
Proof.
  intros Hprops Hcache Hs. unfold UNSAFE_componentWillReceiveProps.
  destruct (negb (bool_decide (_props s = nextProps))) eqn:Hc.
  - destruct (_updateStateFromProps _ _ _) as [s1|] eqn:E; [simpl|done].
    apply updateStateFromProps_confined in E; [|done..]. intros [= <-]. exact E.
  - simpl. intros [= <-]. apply negb_false_iff, bool_decide_eq_true in Hc.
    rewrite <- Hc. exact Hs.
Qed.

Lemma handle_confined e s s' :
  validEvent e → wellFormed s → confined (_props s) s → handle e s = Some s' →
  confined (_props s') s'.
Proof.
  intros He (_ & Hcache & _) Hs.
  assert (∀ x, bookkeeping x = bookkeeping s → waiting x = waiting s →
            confined (_props x) x) as Hdone.
  { intros x B W. rewrite (bookkeeping_props _ _ B). by apply (waiting_confined _ s). }
  destruct e; simpl.
  - destruct (render s) as [s1|] eqn:E; [simpl|done]. intros [= <-].
    apply Hdone.
    + rewrite componentDidMount_bookkeeping. by apply render_bookkeeping.
    + rewrite componentDidMount_waiting. by apply render_waiting.
  - destruct (UNSAFE_componentWillReceiveProps _ _) as [s1|] eqn:E; [simpl|done].
    intros [= <-]. by apply (componentWillReceiveProps_confined _ _ _ He Hcache Hs) in E.
  - destruct (render s) as [s1|] eqn:E; [simpl|done]. intros [= <-].
    apply (Hdone (componentDidUpdate s1)).
    + transitivity (bookkeeping s1); [done|]. by apply render_bookkeeping.
    + transitivity (waiting s1); [done|]. by apply render_waiting.
  - intros [= <-]. by apply Hdone.
  - by apply onLayoutContainer_confined.
  - by apply onLayoutItem_confined.
  - intros [= <-]. apply Hdone; unfold _onAnimateStartStopItem; by split_cases.
  - by apply onScroll_confined.
  - intros [= <-]. apply Hdone; unfold _onItemFocused; by split_cases.
  - intros [= <-]. by apply Hdone.
  - intros [= <-]. unfold _onKeyDown. destruct (_isMounted s); [|by apply Hdone].
    apply Hdone; [apply focusSubsequentItem_bookkeeping|apply focusSubsequentItem_waiting].
  - intros [= <-].
    apply Hdone;
      [apply screenReaderStateChanged_bookkeeping|apply screenReaderStateChanged_waiting].
  - destruct (_deferred s) as [|[] rest]; [by intros [= <-]| |].
    + apply (afterRender_confined (set_deferred rest s)). exact Hs.
    + intros H. apply Hdone.
      * transitivity (bookkeeping (set_deferred rest s)); [|done]. revert H.
        unfold afterAnimationStop. simpl. destruct (_isMounted s); [|by intros [= <-]].
        destruct (_ && _); [|by intros [= <-]]. apply reconcileCorrections_bookkeeping.
      * transitivity (waiting (set_deferred rest s)); [|done].
        by apply afterAnimationStop_waiting.
Qed.

Lemma constructor_confined platform props s :
  validProps props → constructor platform props = Some s → confined (_props s) s.
Proof.
  intros Hprops Hc. rewrite (constructor_props _ _ _ Hc). revert Hc. unfold constructor.
  destruct (_updateStateFromProps _ _ _) as [s1|] eqn:E; [simpl|done].
  apply updateStateFromProps_confined in E; [|done| |].
  - intros [= <-]. exact E.
  - intros k h H. simpl in H. by rewrite lookup_empty in H.
  - split; [done|]. intros k Hk. unfold activeKeys in Hk. simpl in Hk.
    rewrite dom_empty_L in Hk. by apply elem_of_empty in Hk.
Qed.

Lemma run_confined events s s' :
  Forall validEvent events → wellFormed s → confined (_props s) s →
  run events s = Some s' → wellFormed s' ∧ confined (_props s') s'.
Proof.
  intros He. revert s. induction He as [|e events He Hes IH]; intros s Hw Hc; simpl.
  { by intros [= <-]. }
  destruct (handle_wellFormed e s He Hw) as (s1 & E & H1). rewrite E. simpl.
  apply IH; [done|]. exact (handle_confined e s s1 He Hw Hc E).
Qed.

(** ** The cells and the block *)

Lemma elem_of_renderBlockItems s item :
  0 ≤ _itemsAboveRenderBlock s →
  item ∈ renderBlockItems s ↔
  ∃ i, _itemsAboveRenderBlock s ≤ i < _itemsAboveRenderBlock s + _itemsInRenderBlock s
       ∧ itemAt (_props s) i = Some item.
Proof.
  intros Ha. unfold renderBlockItems. rewrite elem_of_take. split.
  - intros (p & Hp & Hlt). rewrite lookup_drop in Hp.
    exists (_itemsAboveRenderBlock s + Z.of_nat p). split; [lia|].
    apply itemAt_Some. split; [lia|].
    by replace (Z.to_nat (_itemsAboveRenderBlock s + Z.of_nat p))
      with (Z.to_nat (_itemsAboveRenderBlock s) + p)%nat by lia.
  - intros (i & Hi & [_ Hitem]%itemAt_Some).
    exists (Z.to_nat (i - _itemsAboveRenderBlock s)). split; [|lia].
    rewrite lookup_drop.
    by replace (Z.to_nat (_itemsAboveRenderBlock s)
                + Z.to_nat (i - _itemsAboveRenderBlock s))%nat with (Z.to_nat i) by lia.
Qed.

(** X19. The active cells are the cells of the render block.  When the
    item lists have distinct keys and no declared or reported height is
    negative, in every state a run of events leads to, the keys that
    have an active cell are exactly the keys of the items of the render
    block, and there are as many active cells as items in the render
    block: no cell stays active for an item that has left the render
    block or the list. *)
Theorem active_cells_are_the_render_block platform props events s :
  validProps props → Forall validEvent events →
  constructor platform props ≫= run events = Some s →
  dom (_activeCells s) = list_to_set (ItemInfo.key <$> renderBlockItems s)
  ∧ Z.of_nat (size (dom (_activeCells s))) = _itemsInRenderBlock s.
Proof.
  intros Hprops He.
  destruct (constructor_wellFormed platform props Hprops) as (s0 & E0 & W0).
  rewrite E0. simpl. intros Hrun.
  destruct (run_confined events s0 s He W0 (constructor_confined _ _ _ Hprops E0) Hrun)
    as [([Hu _] & _ & _ & (Ha & Hn & Hb & Hsum) & Hpresent) [_ Hconfined]].
  assert (dom (_activeCells s) = list_to_set (ItemInfo.key <$> renderBlockItems s)) as Hdom.
  { apply set_eq. intros k. rewrite elem_of_list_to_set, list_elem_of_fmap. split.
    - intros Hk. destruct (Hconfined k Hk) as (i & item & Hi & Hitem & Hkey).
      exists item. split; [done|]. apply elem_of_renderBlockItems; [done|]. by exists i.
    - intros (item & -> & Hitem). apply elem_of_renderBlockItems in Hitem; [|done].
      destruct Hitem as (i & Hi & Hitem).
      destruct (Hpresent i Hi) as (item' & Hitem' & Hcell).
      assert (item' = item) as -> by congruence. exact Hcell. }
  split; [exact Hdom|]. rewrite Hdom, size_list_to_set.
  - rewrite length_fmap. unfold renderBlockItems.
    rewrite length_take, length_drop. unfold blockCountersSum in Hsum. lia.
  - unfold uniqueKeys in Hu. eapply sublist_NoDup; [exact Hu|]. apply fmap_sublist.
    unfold renderBlockItems. etrans; [apply sublist_take|apply sublist_drop].
Qed.

Lemma active_cells_are_the_render_block_witness :
  Z.of_nat (size (dom (_activeCells (stateAfter rows pooling))))
  = _itemsInRenderBlock (stateAfter rows pooling).
Proof.
  refine (proj2 (active_cells_are_the_render_block web rows pooling
                   (stateAfter rows pooling) _ _ _)).
  - apply (bool_decide_eq_true_1 _). vm_compute. reflexivity.
  - apply (bool_decide_eq_true_1 _). vm_compute. reflexivity.
  - apply completes_stateAfter. vm_compute. reflexivity.
Defined.

(** * Cells stay hidden until measured *)

(** Whether the cell of key [k] is visible, if the key has a cell. *)
Definition shown (s : VirtualListView) (k : string) : option bool :=
  CellInfo.isVisible <$> _activeCells s !! k.

(** What [_shouldShowItem] reads. *)
Definition showInputs (s : VirtualListView) :=
  (_heightCache s, _isInitialFillComplete s).

(** A visible cell belongs to an item that is to be shown. *)
Definition discreetAt (s : VirtualListView) (item : ItemInfo.t) : Prop :=
  shown s (ItemInfo.key item) = Some true → _shouldShowItem s item = true.

Definition discreet (props : Props) (s : VirtualListView) : Prop :=
  ∀ item, item ∈ itemList props → discreetAt s item.

Lemma showInputs_shouldShowItem s s' item :
  showInputs s' = showInputs s → _shouldShowItem s' item = _shouldShowItem s item.
Proof.
  unfold showInputs, _shouldShowItem, _isItemHeightKnown. by intros [= -> ->].
Qed.

Lemma cellsOnly_showInputs s s' : cellsOnly s s' → showInputs s' = showInputs s.
Proof. by intros (ac & rc & nk & d & hc & ->). Qed.

Lemma uniqueKeys_elem props item item' :
  uniqueKeys props → item ∈ itemList props → item' ∈ itemList props →
  ItemInfo.key item' = ItemInfo.key item → item' = item.
Proof.
  intros Hu [i Hi]%list_elem_of_lookup [j Hj]%list_elem_of_lookup Hk.
  assert (j = i) as ->; [|congruence].
  apply (NoDup_lookup _ _ _ (ItemInfo.key item) Hu); rewrite list_lookup_fmap.
  - rewrite Hj. simpl. by rewrite Hk.
  - by rewrite Hi.
Qed.

Lemma itemAt_elem props i item : itemAt props i = Some item → item ∈ itemList props.
Proof. intros [_ H]%itemAt_Some. by eapply list_elem_of_lookup_2. Qed.

(** A step that shows nothing more and hides no item to show. *)
Lemma discreet_frame props s s' :
  (∀ item, _shouldShowItem s item = true → _shouldShowItem s' item = true) →
  (∀ k, shown s' k = shown s k) → discreet props s → discreet props s'.
Proof.
  intros Hshow Hshown H item Hitem. unfold discreetAt. rewrite Hshown.
  intros Hv. by apply Hshow, H.
Qed.

(** A step that writes the cell of one item of the list. *)
Lemma discreet_write props s s' item :
  uniqueKeys props → item ∈ itemList props →
  showInputs s' = showInputs s →
  (∀ k, k ≠ ItemInfo.key item → shown s' k = shown s k) →
  discreetAt s' item →
  discreet props s → discreet props s'.
Proof.
  intros Hu Hitem Hin Hne Hat H item' Hitem'.
  destruct (decide (ItemInfo.key item' = ItemInfo.key item)) as [E|E].
  - by rewrite (uniqueKeys_elem props item item' Hu Hitem Hitem' E).
  - unfold discreetAt. rewrite (Hne _ E), (showInputs_shouldShowItem _ _ _ Hin).
    by apply H.
Qed.

Lemma shown_setCellTopAndVisibility k v y a s k' :
  shown (_setCellTopAndVisibility k v y a s) k'
  = if decide (k' = k) then (λ _, v) <$> shown s k else shown s k'.
Proof.
  unfold shown. rewrite setCellTopAndVisibility_lookup.
  destruct (decide (k' = k)); [|done]. by destruct (_activeCells s !! k).
Qed.

Lemma shown_allocateCell k t i c h y v s k' :
  shown (_allocateCell k t i c h y v s) k'
  = if decide (k' = k) then Some v else shown s k'.
Proof.
  unfold shown. destruct (decide (k' = k)) as [->|Hne].
  - destruct (allocateCell_lookup_eq k t i c h y v s) as (cell & -> & _ & <-). done.
  - by rewrite allocateCell_lookup_ne.
Qed.

Lemma recycleCell_recycleIfActive k s : _recycleCell k s = recycleIfActive k s.
Proof.
  unfold recycleIfActive. destruct (_activeCells s !! k) eqn:E; [done|].
  unfold _recycleCell. by rewrite E.
Qed.

Lemma shown_recycleIfActive k s k' :
  shown (recycleIfActive k s) k' = if decide (k' = k) then None else shown s k'.
Proof. unfold shown. rewrite recycleIfActive_lookup. by destruct (decide (k' = k)). Qed.

Lemma shown_recycleCell k s k' :
  shown (_recycleCell k s) k' = if decide (k' = k) then None else shown s k'.
Proof. rewrite recycleCell_recycleIfActive. apply shown_recycleIfActive. Qed.

(** The three writes of a cell, for an item of the list. *)
Lemma setCellTopAndVisibility_discreet props item x y a s :
  uniqueKeys props → item ∈ itemList props → showInputs x = showInputs s →
  discreet props s →
  discreet props
    (_setCellTopAndVisibility (ItemInfo.key item) (_shouldShowItem x item) y a s).
Proof.
  intros Hu Hitem Hx. assert (showInputs (_setCellTopAndVisibility (ItemInfo.key item)
                                 (_shouldShowItem x item) y a s) = showInputs s) as Hin
    by apply cellsOnly_showInputs, setCellTopAndVisibility_cellsOnly.
  apply (discreet_write props s _ item Hu Hitem Hin).
  - intros k Hne. by rewrite shown_setCellTopAndVisibility, decide_False.
  - unfold discreetAt. rewrite shown_setCellTopAndVisibility, decide_True by done.
    rewrite (showInputs_shouldShowItem _ _ item Hin), (showInputs_shouldShowItem _ _ item Hx).
    destruct (shown s (ItemInfo.key item)); [|done]. simpl. by intros [= ->].
Qed.

Lemma allocateCell_discreet props item i x y s :
  uniqueKeys props → item ∈ itemList props → showInputs x = showInputs s →
  discreet props s →
  discreet props
    (_allocateCell (ItemInfo.key item) (ItemInfo.template item) i
       (negb (ItemInfo.measureHeight item)) (ItemInfo.height item) y
       (_shouldShowItem x item) s).
Proof.
  intros Hu Hitem Hx.
  assert (showInputs (_allocateCell (ItemInfo.key item) (ItemInfo.template item) i
            (negb (ItemInfo.measureHeight item)) (ItemInfo.height item) y
            (_shouldShowItem x item) s) = showInputs s) as Hin
    by apply cellsOnly_showInputs, allocateCell_cellsOnly.
  apply (discreet_write props s _ item Hu Hitem Hin).
  - intros k Hne. by rewrite shown_allocateCell, decide_False.
  - unfold discreetAt. rewrite shown_allocateCell, decide_True by done.
    rewrite (showInputs_shouldShowItem _ _ item Hin), (showInputs_shouldShowItem _ _ item Hx).
    by intros [= ->].
Qed.

Lemma recycleIfActive_discreet props k s :
  discreet props s → discreet props (recycleIfActive k s).
Proof.
  intros H item Hitem. unfold discreetAt.
  rewrite shown_recycleIfActive,
    (showInputs_shouldShowItem s (recycleIfActive k s) item
       (cellsOnly_showInputs _ _ (recycleIfActive_cellsOnly k s))).
  destruct (decide _); [done|]. by apply H.
Qed.

Lemma recycleCell_discreet props k s :
  discreet props s → discreet props (_recycleCell k s).
Proof. rewrite recycleCell_recycleIfActive. apply recycleIfActive_discreet. Qed.

(** A state that differs in fields the cells and [_shouldShowItem] do not
    read. *)
Lemma discreet_ext props s s' :
  showInputs s' = showInputs s → _activeCells s' = _activeCells s →
  discreet props s → discreet props s'.
Proof.
  intros Hin Hc. apply discreet_frame.
  - intros item. by rewrite (showInputs_shouldShowItem _ _ _ Hin).
  - intros k. unfold shown. by rewrite Hc.
Qed.

Lemma awaitMeasurement_discreet props item s :
  discreet props s → discreet props (awaitMeasurement item s).
Proof.
  apply discreet_ext; unfold awaitMeasurement; by destruct (_isItemHeightKnown s item).
Qed.

(** ** Recalculation *)

Lemma cullFromTop_discreet fuel props line s s' :
  cullFromTop fuel props line s = Some s' → discreet props s → discreet props s'.
Proof.
  revert s. induction fuel as [|fuel IH]; intros s; simpl.
  { by intros [= ->]. }
  destruct (_itemsInRenderBlock s >? 0); [|by intros [= ->]].
  destruct (itemAt props _) as [item|]; [simpl|done].
  destruct (negb _); [by intros [= ->]|].
  destruct (ZgeQ _ _); [by intros [= ->]|].
  intros H Hs. apply (IH _ H). apply recycleCell_discreet.
  by apply (discreet_ext props s).
Qed.

Lemma cullFromBottom_discreet fuel props line s s' :
  cullFromBottom fuel props line s = Some s' → discreet props s → discreet props s'.
Proof.
  revert s. induction fuel as [|fuel IH]; intros s; simpl.
  { by intros [= ->]. }
  destruct (_itemsInRenderBlock s >? 0); [|by intros [= ->]].
  destruct (itemAt props _) as [item|]; [simpl|done].
  destruct (negb _); [by intros [= ->]|].
  destruct (ZleQ _ _); [by intros [= ->]|].
  intros H Hs. apply (IH _ H). apply recycleCell_discreet.
  by apply (discreet_ext props s).
Qed.

Lemma seedRenderBlock_discreet props limit s :
  uniqueKeys props → discreet props s → discreet props (seedRenderBlock props limit s).
Proof.
  intros Hu Hs. unfold seedRenderBlock.
  match goal with
  | |- discreet props (recomputeBlockHeights props ?x) =>
      apply (discreet_ext props x); [done|done|]
  end.
  destruct (findFirstInRenderBlock _ _ _ _ _) as [[[i item] y]|] eqn:E; [|exact Hs].
  apply findFirstInRenderBlock_elem in E.
  apply awaitMeasurement_discreet, allocateCell_discreet; [done|done|done|exact Hs].
Qed.

Lemma repositionItems_discreet n props i y s y' s' :
  uniqueKeys props →
  repositionItems n props i y s = Some (y', s') → discreet props s → discreet props s'.
Proof.
  intros Hu. revert i y s. induction n as [|n IH]; intros i y s; simpl.
  { by intros [= _ ->]. }
  destruct (itemAt props _) as [item|] eqn:Hitem; [simpl|done].
  intros H Hs. apply (IH _ _ _ H).
  apply setCellTopAndVisibility_discreet; [done|by eapply itemAt_elem|done|done].
Qed.

Lemma popItems_discreet n props i s s' :
  uniqueKeys props →
  popItems n props i s = Some s' → discreet props s → discreet props s'.
Proof.
  intros Hu. revert i s. induction n as [|n IH]; intros i s; simpl.
  { by intros [= ->]. }
  destruct (itemAt props _) as [item|] eqn:Hitem; [simpl|done].
  destruct (_activeCells s !! _) as [c|]; [simpl|done].
  intros H Hs. apply (IH _ _ H).
  apply setCellTopAndVisibility_discreet; [done|by eapply itemAt_elem|done|done].
Qed.

Lemma buildItem_discreet props idx (above : bool) topY bottomY s topY' bottomY' s' :
  uniqueKeys props →
  buildItem props idx above topY bottomY s = Some (topY', bottomY', s') →
  discreet props s → discreet props s'.
Proof.
  intros Hu. unfold buildItem.
  destruct (itemAt props idx) as [item|] eqn:Hitem; [simpl|done].
  apply itemAt_elem in Hitem. intros H Hs.
  destruct above, (_isItemHeightKnown s item) eqn:Hk; injection H as _ _ <-;
    (apply allocateCell_discreet; [done|done|done|]);
    by apply (discreet_ext props s).
Qed.

Lemma growAtBottom_discreet fuel props limit topY bottomY s topY' bottomY' s' :
  uniqueKeys props →
  growAtBottom fuel props limit topY bottomY s = Some (topY', bottomY', s') →
  discreet props s → discreet props s'.
Proof.
  intros Hu. revert topY bottomY s.
  induction fuel as [|fuel IH]; intros topY bottomY s; simpl.
  { by intros [= _ _ ->]. }
  destruct (_ <? _)%nat; [|by intros [= _ _ ->]].
  destruct (_ || _); [by intros [= _ _ ->]|].
  destruct (buildItem _ _ _ _ _ _) as [[[t b] s1]|] eqn:E; [simpl|done].
  intros H Hs. apply (IH _ _ _ H). by eapply buildItem_discreet.
Qed.

Lemma growAtTop_discreet fuel props limit topY bottomY s topY' bottomY' s' :
  uniqueKeys props →
  growAtTop fuel props limit topY bottomY s = Some (topY', bottomY', s') →
  discreet props s → discreet props s'.
Proof.
  intros Hu. revert topY bottomY s.
  induction fuel as [|fuel IH]; intros topY bottomY s; simpl.
  { by intros [= _ _ ->]. }
  destruct (_ <? _)%nat; [|by intros [= _ _ ->]].
  destruct (_ || _); [by intros [= _ _ ->]|].
  destruct (buildItem _ _ _ _ _ _) as [[[t b] s1]|] eqn:E; [simpl|done].
  intros H Hs. apply (IH _ _ _ H). by eapply buildItem_discreet.
Qed.

(** Completing the initial fill hides nothing that was to be shown. *)
Lemma popInvisibleIntoView_discreet props s s' :
  uniqueKeys props →
  _popInvisibleIntoView props s = Some s' → discreet props s → discreet props s'.
Proof.
  intros Hu. unfold _popInvisibleIntoView. intros H Hs.
  apply (popItems_discreet _ _ _ _ _ Hu H).
  apply (discreet_frame props s); [|done|done].
  intros item. unfold _shouldShowItem, _isItemHeightKnown. simpl.
  destruct (negb (ItemInfo.measureHeight item) || _);
    by destruct (_isInitialFillComplete s).
Qed.

Lemma calc_discreet props s s' :
  uniqueKeys props →
  _calcNewRenderedItemState props s = Some s' → discreet props s → discreet props s'.
Proof.
  intros Hu. unfold _calcNewRenderedItemState. intros H Hc. revert H.
  destruct (_layoutHeight s =? 0); [by intros [= <-]|].
  destruct (_ =? _)%nat; [by intros [= <-]|].
  destruct (_ <? _)%nat; [by intros [= <-]|].
  destruct (cullFromTop _ _ _ _) as [s1|] eqn:E1; [simpl|done].
  destruct (cullFromBottom _ _ _ _) as [s2|] eqn:E2; [simpl|done].
  apply cullFromTop_discreet in E1; [|done].
  apply cullFromBottom_discreet in E2; [|done]. clear Hc E1.
  set (s3 := if _itemsInRenderBlock s2 =? 0 then _ else s2).
  assert (discreet props s3) as H3.
  { subst s3. destruct (_ =? 0); [|done]. by apply seedRenderBlock_discreet. }
  clearbody s3. clear E2.
  destruct (repositionItems _ _ _ _ _) as [[y4 s4]|] eqn:E4; [simpl|done].
  apply repositionItems_discreet in E4; [|done|done].
  set (s5 := if negb _ then _ else s4).
  assert (discreet props s5) as H5.
  { apply (discreet_ext _ s4); [| |done]; subst s5; by destruct (negb _). }
  clearbody s5.
  destruct (growAtBottom _ _ _ _ _ _) as [[[t6 b6] s6]|] eqn:E6; [simpl|done].
  destruct (growAtTop _ _ _ _ _ _) as [[[t7 b7] s7]|] eqn:E7; [simpl|done].
  apply growAtBottom_discreet in E6; [|done|done].
  apply growAtTop_discreet in E7; [|done|done].
  destruct (_ && _); [|by intros [= <-]].
  destruct (_popInvisibleIntoView props s7) as [s8|] eqn:E8; [simpl|done].
  apply popInvisibleIntoView_discreet in E8; [|done|done]. intros [= <-].
  by apply (discreet_ext _ s8).
Qed.

(** ** A new item list *)

Lemma awaitMeasurement_shown item s k : shown (awaitMeasurement item s) k = shown s k.
Proof. unfold awaitMeasurement. by destruct (_isItemHeightKnown s item). Qed.

Lemma awaitMeasurement_showInputs item s :
  showInputs (awaitMeasurement item s) = showInputs s.
Proof. unfold awaitMeasurement. by destruct (_isItemHeightKnown s item). Qed.

(** The body of the third loop writes the cell of its item only, and
    leaves it hidden unless the item is to be shown. *)
Lemma placeItem_writes props item i top bottom h y looking s :
  showInputs (snd (placeItem props item i top bottom h y looking s)) = showInputs s
  ∧ (∀ k, k ≠ ItemInfo.key item →
       shown (snd (placeItem props item i top bottom h y looking s)) k = shown s k)
  ∧ discreetAt (snd (placeItem props item i top bottom h y looking s)) item.
Proof.
  unfold placeItem. destruct (ZleQ y top); [simpl|cbv zeta].
  { split; [apply cellsOnly_showInputs, recycleIfActive_cellsOnly|]. split.
    - intros k Hne. by rewrite shown_recycleIfActive, decide_False.
    - unfold discreetAt. by rewrite shown_recycleIfActive, decide_True. }
  set (s1 := if looking then set_itemsAboveRenderBlock i s else s).
  assert (showInputs s1 = showInputs s ∧ ∀ k, shown s1 k = shown s k) as [I1 S1]
    by (subst s1; by destruct looking).
  clearbody s1. destruct (ZltQ _ _); [|simpl].
  - set (s2 := set_itemsInRenderBlock _ s1).
    assert (showInputs s2 = showInputs s ∧ ∀ k, shown s2 k = shown s k) as [I2 S2]
      by done.
    clearbody s2.
    destruct (_activeCells s2 !! ItemInfo.key item) as [c|] eqn:E; simpl.
    + pose proof (setCellTopAndVisibility_cellsOnly (ItemInfo.key item)
                    (_shouldShowItem s2 item) (y - h) (animateChanges props) s2) as Hc.
      split; [|split].
      * rewrite <- I2. by apply cellsOnly_showInputs.
      * intros k Hne. by rewrite shown_setCellTopAndVisibility, decide_False, S2.
      * unfold discreetAt.
        rewrite shown_setCellTopAndVisibility, decide_True by done.
        rewrite (cellsOnly_shouldShowItem _ _ item Hc).
        destruct (shown s2 (ItemInfo.key item)); [|done]. simpl. by intros [= ->].
    + pose proof (allocateCell_cellsOnly (ItemInfo.key item) (ItemInfo.template item) i
                    (negb (ItemInfo.measureHeight item)) (ItemInfo.height item) (y - h)
                    (_shouldShowItem s2 item) s2) as Hc.
      split; [|split].
      * rewrite awaitMeasurement_showInputs, <- I2. by apply cellsOnly_showInputs.
      * intros k Hne.
        by rewrite awaitMeasurement_shown, shown_allocateCell, decide_False, S2.
      * unfold discreetAt.
        rewrite awaitMeasurement_shown, shown_allocateCell, decide_True by done.
        rewrite (showInputs_shouldShowItem _ _ item (awaitMeasurement_showInputs _ _)).
        rewrite (cellsOnly_shouldShowItem _ _ item Hc).
        by intros [= ->].
  - split; [|split].
    + rewrite <- I1. apply cellsOnly_showInputs, recycleIfActive_cellsOnly.
    + intros k Hne. by rewrite shown_recycleIfActive, decide_False, S1.
    + unfold discreetAt. by rewrite shown_recycleIfActive, decide_True.
Qed.

(** The items the third loop has visited. *)
Definition settledUpTo (props : Props) (i : Z) (s : VirtualListView) : Prop :=
  ∀ j item, 0 ≤ j < i → itemAt props j = Some item → discreetAt s item.

Lemma determineRenderBlock_discreet props items i top bottom y looking s :
  uniqueKeys props → 0 ≤ i → drop (Z.to_nat i) (itemList props) = items →
  settledUpTo props i s →
  discreet props (determineRenderBlock props items i top bottom y looking s).
Proof.
  intros Hu. revert i y looking s.
  induction items as [|item items IH]; intros i y looking s Hi Hdrop Hs; simpl.
  { intros item [j Hj]%list_elem_of_lookup. apply (Hs (Z.of_nat j)).
    - assert (length (drop (Z.to_nat i) (itemList props)) = 0%nat) as Hlen
        by (by rewrite Hdrop).
      rewrite length_drop in Hlen. apply lookup_lt_Some in Hj. lia.
    - apply itemAt_Some. split; [lia|]. by rewrite Nat2Z.id. }
  assert (itemAt props i = Some item) as Hitem.
  { apply itemAt_Some. split; [done|].
    rewrite <- (Nat.add_0_r (Z.to_nat i)), <- lookup_drop, Hdrop. done. }
  destruct (placeItem_writes props item i top bottom (_getHeightOfItem s (Some item))
              (y + _getHeightOfItem s (Some item)) looking s) as (Hin & Hne & Hat).
  destruct (placeItem _ _ _ _ _ _ _ _ _) as [looking' s1]. simpl in Hin, Hne, Hat.
  apply IH; [lia| |].
  - replace (Z.to_nat (i + 1)) with (Z.to_nat i + 1)%nat by lia.
    by rewrite <- drop_drop, Hdrop.
  - intros j item' Hj Hitem'. destruct (decide (j = i)) as [->|Hji].
    + assert (item' = item) as -> by congruence. exact Hat.
    + unfold discreetAt. rewrite (showInputs_shouldShowItem _ _ _ Hin), Hne.
      * apply (Hs j); [lia|done].
      * intros E. apply Hji. by apply (uniqueKeys_index props j i item' item).
Qed.

(** A change of the item list sets the visibility of every cell it
    keeps. *)
Lemma handleItemListChange_discreet props s :
  uniqueKeys props → discreet props (_handleItemListChange props s).
Proof.
  intros Hu. unfold _handleItemListChange.
  destruct (buildItemMap _ _ _ _) as [m s1]. cbv zeta.
  set (s2 := stopTrackingDeleted _ _ _ _). clearbody s2.
  assert (discreet props (determineRenderBlockBounds props s2)) as H3.
  { unfold determineRenderBlockBounds. cbv zeta.
    apply determineRenderBlock_discreet; [done|done|done|]. intros j item Hj. lia. }
  set (s3 := determineRenderBlockBounds props s2) in *. clearbody s3.
  apply (discreet_ext _ s3); [| |done];
    unfold prepopulateContainerHeight; by destruct (_ =? 0).
Qed.

(** ** Every handler *)

(** A step that writes neither a cell nor what [_shouldShowItem] reads. *)
Lemma quiet_discreet props s s' :
  bookkeeping s' = bookkeeping s → waiting s' = waiting s →
  _activeCells s' = _activeCells s → discreet props s → discreet props s'.
Proof.
  intros B W. apply discreet_ext. unfold showInputs, bookkeeping, waiting, frozen in *.
  congruence.
Qed.

Lemma shiftCells_shown n props i s s' k :
  shiftCells n props i s = Some s' → shown s' k = shown s k.
Proof.
  revert i s. induction n as [|n IH]; intros i s; simpl.
  { by intros [= ->]. }
  destruct (itemAt props _) as [item|]; [simpl|done].
  destruct (_activeCells s !! ItemInfo.key item) as [c|] eqn:Hc; [simpl|done].
  intros H%IH. rewrite H, shown_setCellTopAndVisibility.
  destruct (decide _) as [->|]; [|done]. unfold shown. by rewrite Hc.
Qed.

Lemma reconcileCorrections_discreet p props s s' :
  _reconcileCorrections p s = Some s' → discreet props s → discreet props s'.
Proof.
  intros H. pose proof (reconcileCorrections_bookkeeping _ _ _ H) as B.
  pose proof (reconcileCorrections_waiting _ _ _ H) as W.
  apply discreet_frame.
  - intros item. rewrite (showInputs_shouldShowItem s s'); [done|].
    unfold showInputs, bookkeeping, waiting, frozen in *. congruence.
  - intros k. revert H. unfold _reconcileCorrections.
    destruct (_ <? _)%nat; [by intros [= <-]|].
    destruct (_ >? _); [|by intros [= <-]].
    destruct (shiftCells _ _ _ _) as [s1|] eqn:E; [simpl|done].
    intros [= <-]. by apply (shiftCells_shown _ _ _ _ _ k) in E.
Qed.

Lemma renderBlockCells_shown n i s s' k :
  renderBlockCells n i s = Some s' → shown s' k = shown s k.
Proof.
  revert i s. induction n as [|n IH]; intros i s; simpl.
  { by intros [= ->]. }
  destruct (itemAt _ _) as [item|]; [simpl|done].
  destruct (_activeCells s !! ItemInfo.key item) as [c|] eqn:Hc; [simpl|done].
  intros H%IH. rewrite H. unfold shown.
  destruct (ItemInfo.isNavigable item); simpl;
    (destruct (decide (k = ItemInfo.key item)) as [->|Hne];
     [by rewrite lookup_insert_eq, Hc|by rewrite lookup_insert_ne]).
Qed.

Lemma render_discreet props s s' :
  render s = Some s' → discreet props s → discreet props s'.
Proof.
  intros H. pose proof (render_bookkeeping _ _ H) as B.
  pose proof (render_waiting _ _ H) as W.
  apply discreet_frame.
  - intros item. rewrite (showInputs_shouldShowItem s s'); [done|].
    unfold showInputs, bookkeeping, waiting, frozen in *. congruence.
  - intros k. revert H. unfold render.
    destruct (renderBlockCells _ _ _) as [s1|] eqn:E; [simpl|done].
    intros [= <-]. by apply (renderBlockCells_shown _ _ _ _ k) in E.
Qed.

Lemma renderIfDirty_discreet props s : discreet props s → discreet props (_renderIfDirty s).
Proof.
  apply quiet_discreet;
    [apply renderIfDirty_bookkeeping|apply renderIfDirty_waiting
    |apply cellStore_activeCells, renderIfDirty_cellStore].
Qed.

Lemma calcAndReconcile_discreet s s' :
  uniqueKeys (_props s) → discreet (_props s) s →
  (s1 ← _calcNewRenderedItemState (_props s) s;
   _reconcileCorrections (_props (_renderIfDirty s1)) (_renderIfDirty s1)) = Some s' →
  discreet (_props s') s'.
Proof.
  intros Hu Hs. destruct (_calcNewRenderedItemState _ _) as [s1|] eqn:E1; [simpl|done].
  intros E2. apply (calc_discreet _ _ _ Hu E1) in Hs.
  apply calc_calcInputs, calcInputs_props in E1.
  rewrite (bookkeeping_props _ _ (reconcileCorrections_bookkeeping _ _ _ E2)).
  rewrite (bookkeeping_props _ _ (renderIfDirty_bookkeeping s1)), E1.
  apply (reconcileCorrections_discreet _ _ _ _ E2). by apply renderIfDirty_discreet.
Qed.

Lemma onLayoutContainer_discreet w h s s' :
  uniqueKeys (_props s) → discreet (_props s) s → _onLayoutContainer w h s = Some s' →
  discreet (_props s') s'.
Proof.
  intros Hu Hs. unfold _onLayoutContainer.
  destruct (negb (_isMounted s)); [by intros [= <-]|].
  set (s1 := if negb (_ =? _layoutWidth s) then _ else s).
  assert (discreet (_props s1) s1 ∧ _props s1 = _props s) as [H1 P1].
  { subst s1. destruct (negb _); [|done]. unfold _resizeAllItems. simpl.
    destruct (_ && _); (split; [exact Hs|done]). }
  clearbody s1. destruct (negb _); [|by intros [= <-]].
  apply (calcAndReconcile_discreet (set_layoutHeight h s1)); [|exact H1].
  simpl. by rewrite P1.
Qed.

Lemma onScroll_discreet y x s s' :
  uniqueKeys (_props s) → discreet (_props s) s → _onScroll y x s = Some s' →
  discreet (_props s') s'.
Proof.
  intros Hu Hs. unfold _onScroll. destruct (_ =? _); [by intros [= <-]|].
  apply (calcAndReconcile_discreet (set_lastScrollTop y s)); [exact Hu|exact Hs].
Qed.

(** A height that becomes known hides nothing. *)
Lemma onLayoutItem_discreet k h s s' :
  uniqueKeys (_props s) → discreet (_props s) s → _onLayoutItem k h s = Some s' →
  discreet (_props s') s'.
Proof.
  intros Hu Hs. unfold _onLayoutItem.
  destruct (negb (_isMounted s)); [by intros [= <-]|].
  destruct (_itemMap s !! k) as [idx|] eqn:Hidx; [|by intros [= <-]].
  destruct (itemAt _ _) as [item|]; [simpl|done].
  destruct (negb _); [by intros [= <-]|].
  set (s0 := set_heightCache _ s).
  assert (discreet (_props s0) s0 ∧ _props s0 = _props s) as [H0 P0].
  { split; [|done]. subst s0. apply (discreet_frame _ s); [|done|exact Hs].
    intros item'. unfold _shouldShowItem, _isItemHeightKnown. simpl.
    destruct (decide (ItemInfo.key item' = k)) as [->|Hne].
    - rewrite lookup_insert_eq. destruct (_heightCache s !! _); [done|].
      by destruct (negb (ItemInfo.measureHeight item')).
    - by rewrite lookup_insert_ne. }
  clearbody s0.
  destruct (_ || _); [by intros [= <-]|].
  set (r := if negb (_ =? h) then _ else _).
  assert (∀ b s1, r = Some (b, s1) → discreet (_props s1) s1 ∧ _props s1 = _props s)
    as Hr.
  { subst r. intros b s1. destruct (negb _); [|by intros [= _ <-]].
    destruct (_isInitialFillComplete _); [|intros [= _ <-]; split; [exact H0|exact P0]].
    destruct (foundVisibleItemBefore _ _ _ _) as [[]|]; simpl; [| |done];
      intros [= _ <-]; (split; [exact H0|exact P0]). }
  destruct r as [[b s1]|]; [simpl|done]. destruct (Hr _ _ eq_refl) as [H1 P1].
  set (s2 := set_pendingMeasurements _ s1).
  assert (discreet (_props s2) s2 ∧ _props s1 = _props s2) as [H2 P2] by done.
  clearbody s2. rewrite P2.
  destruct (_ || _).
  - destruct (_calcNewRenderedItemState _ s2) as [s3|] eqn:E3; [simpl|done].
    intros H. apply (calcAndReconcile_discreet s2); [congruence|done|]. by rewrite E3.
  - simpl. intros H.
    rewrite (bookkeeping_props _ _ (reconcileCorrections_bookkeeping _ _ _ H)).
    by apply (reconcileCorrections_discreet _ _ _ _ H).
Qed.

Lemma afterRender_discreet s s' :
  uniqueKeys (_props s) → discreet (_props s) s → afterRender s = Some s' →
  discreet (_props s') s'.
Proof.
  intros Hu Hs. unfold afterRender. destruct (_isMounted s); [|by intros [= <-]].
  destruct (_calcNewRenderedItemState _ _) as [s1|] eqn:E1; [simpl|done].
  destruct (_reconcileCorrections _ _) as [s2|] eqn:E2; [simpl|done].
  intros [= <-]. rewrite (bookkeeping_props _ _ (setFocusIfNeeded_bookkeeping s2)).
  apply (quiet_discreet _ s2);
    [apply setFocusIfNeeded_bookkeeping|apply setFocusIfNeeded_waiting
    |apply setFocusIfNeeded_activeCells|].
  apply (calcAndReconcile_discreet s); [exact Hu|exact Hs|].
  rewrite E1. simpl. exact E2.
Qed.

Lemma updateStateFromProps_discreet props initialBuild s s' :
  uniqueKeys props → discreet (_props s) s →
  _updateStateFromProps props initialBuild s = Some s' → discreet props s'.
Proof.
  intros Hu Hs. unfold _updateStateFromProps.
  set (s1 := if initialBuild && _ then _ else s).
  assert (discreet (_props s1) s1) as H1 by (subst s1; by destruct (_ && _)).
  clearbody s1.
  destruct (initialBuild || negb (bool_decide (itemList (_props s1) = itemList props)))
    eqn:Hc.
  - destruct (_calcNewRenderedItemState _ _) as [s2|] eqn:E; [simpl|done].
    intros [= <-]. apply renderIfDirty_discreet.
    apply (calc_discreet _ _ _ Hu E). by apply handleItemListChange_discreet.
  - simpl. intros [= <-]. apply renderIfDirty_discreet.
    apply orb_false_iff in Hc as [_ Hc]. apply negb_false_iff, bool_decide_eq_true in Hc.
    unfold discreet. rewrite <- Hc. exact H1.
Qed.

Lemma componentWillReceiveProps_discreet nextProps s s' :
  uniqueKeys nextProps → discreet (_props s) s →
  UNSAFE_componentWillReceiveProps nextProps s = Some s' → discreet (_props s') s'.
Proof.
  intros Hu Hs. unfold UNSAFE_componentWillReceiveProps.
  destruct (negb (bool_decide (_props s = nextProps))) eqn:Hc.
  - destruct (_updateStateFromProps _ _ _) as [s1|] eqn:E; [simpl|done].
    apply updateStateFromProps_discreet in E; [|done..]. intros [= <-]. exact E.
  - simpl. intros [= <-]. apply negb_false_iff, bool_decide_eq_true in Hc.
    rewrite <- Hc. exact Hs.
Qed.

Lemma handle_discreet e s s' :
  validEvent e → wellFormed s → discreet (_props s) s → handle e s = Some s' →
  discreet (_props s') s'.
Proof.
  intros He ([Hu _] & _) Hs.
  assert (∀ x, bookkeeping x = bookkeeping s → waiting x = waiting s →
            _activeCells x = _activeCells s → discreet (_props x) x) as Hdone.
  { intros x B W A. rewrite (bookkeeping_props _ _ B). by apply (quiet_discreet _ s). }
  destruct e; simpl.
  - destruct (render s) as [s1|] eqn:E; [simpl|done]. intros [= <-].
    rewrite (bookkeeping_props _ _ (componentDidMount_bookkeeping _ _)).
    apply (quiet_discreet _ s1);
      [apply componentDidMount_bookkeeping|apply componentDidMount_waiting
      |apply componentDidMount_activeCells|].
    rewrite (bookkeeping_props _ _ (render_bookkeeping _ _ E)).
    by apply (render_discreet _ _ _ E).
  - destruct (UNSAFE_componentWillReceiveProps _ _) as [s1|] eqn:E; [simpl|done].
    intros [= <-].
    by apply (componentWillReceiveProps_discreet _ _ _ (proj1 He) Hs) in E.
  - destruct (render s) as [s1|] eqn:E; [simpl|done]. intros [= <-].
    change (discreet (_props s1) s1).
    rewrite (bookkeeping_props _ _ (render_bookkeeping _ _ E)).
    by apply (render_discreet _ _ _ E).
  - intros [= <-]. by apply Hdone.
  - by apply onLayoutContainer_discreet.
  - by apply onLayoutItem_discreet.
  - intros [= <-]. apply Hdone; unfold _onAnimateStartStopItem; by split_cases.
  - by apply onScroll_discreet.
  - intros [= <-]. apply Hdone; unfold _onItemFocused; by split_cases.
  - intros [= <-]. by apply Hdone.
  - intros [= <-]. apply Hdone.
    + unfold _onKeyDown. destruct (_isMounted s); [|done].
      apply focusSubsequentItem_bookkeeping.
    + unfold _onKeyDown. destruct (_isMounted s); [|done].
      apply focusSubsequentItem_waiting.
    + apply cellStore_activeCells, onKeyDown_cellStore.
  - intros [= <-].
    apply Hdone;
      [apply screenReaderStateChanged_bookkeeping|apply screenReaderStateChanged_waiting
      |apply screenReaderStateChanged_activeCells].
  - destruct (_deferred s) as [|[] rest]; [by intros [= <-]| |].
    + apply (afterRender_discreet (set_deferred rest s)); [exact Hu|exact Hs].
    + unfold afterAnimationStop. simpl. destruct (_isMounted s); [|by intros [= <-]].
      destruct (_ && _); [|by intros [= <-]]. intros H.
      rewrite (bookkeeping_props _ _ (reconcileCorrections_bookkeeping _ _ _ H)).
      by apply (reconcileCorrections_discreet _ _ _ _ H).
Qed.

Lemma constructor_discreet platform props s :
  uniqueKeys props → constructor platform props = Some s → discreet (_props s) s.
Proof.
  intros Hu Hc. rewrite (constructor_props _ _ _ Hc). revert Hc. unfold constructor.
  destruct (_updateStateFromProps _ _ _) as [s1|] eqn:E; [simpl|done].
  apply updateStateFromProps_discreet in E; [|done|].
  - intros [= <-]. exact E.
  - intros item _. unfold discreetAt, shown. simpl. by rewrite lookup_empty.
Qed.

Lemma run_discreet events s s' :
  Forall validEvent events → wellFormed s → discreet (_props s) s →
  run events s = Some s' → discreet (_props s') s'.
Proof.
  intros He. revert s. induction He as [|e events He Hes IH]; intros s Hw Hc; simpl.
  { by intros [= <-]. }
  destruct (handle_wellFormed e s He Hw) as (s1 & E & H1). rewrite E. simpl.
  apply IH; [done|]. exact (handle_discreet e s s1 He Hw Hc E).
Qed.

(** X20. A cell is visible only for a measured item, after the initial
    fill.  When the item lists have distinct keys and no declared or
    reported height is negative, in every state a run of events leads to,
    an item of the list whose active cell is visible has a known height
    (it is not to be measured, or its height is in the height cache), and
    the initial fill is complete. *)
Theorem cells_hidden_until_measured platform props events s item cell :
  validProps props → Forall validEvent events →
  constructor platform props ≫= run events = Some s →
  item ∈ itemList (_props s) → _activeCells s !! ItemInfo.key item = Some cell →
  CellInfo.isVisible cell = true →
  _isInitialFillComplete s = true ∧ _isItemHeightKnown s item = true.
Proof.
  intros Hprops He.
  destruct (constructor_wellFormed platform props Hprops) as (s0 & E0 & W0).
  rewrite E0. simpl. intros Hrun Hitem Hcell Hvisible.
  pose proof (run_discreet events s0 s He W0
                (constructor_discreet _ _ _ (proj1 Hprops) E0) Hrun item Hitem) as H.
  unfold discreetAt, shown in H. rewrite Hcell in H. simpl in H.
  rewrite Hvisible in H. specialize (H eq_refl). unfold _shouldShowItem in H.
  destruct (_isItemHeightKnown s item), (_isInitialFillComplete s); done.
Qed.

(** The cell of the fourth row once the first screen is filled. *)
Definition fourthCell : VirtualCellInfo :=
  {| CellInfo.cellRef := Some {| CellInfo.propsItemKey := Some (keyOf 3) |};
     CellInfo.virtualKey := 4;
     CellInfo.itemTemplate := Some "row"%string;
     CellInfo.isHeightConstant := true;
     CellInfo.height := 50;
     CellInfo.cachedItemKey := keyOf 3;
     CellInfo.top := 150;
     CellInfo.isVisible := true;
     CellInfo.shouldUpdate := false |}.

Lemma cells_hidden_until_measured_witness :
  _isInitialFillComplete (stateAfter rows filled) = true
  ∧ _isItemHeightKnown (stateAfter rows filled) (templatedItem 3) = true.
Proof.
  apply (cells_hidden_until_measured web rows filled (stateAfter rows filled)
           (templatedItem 3) fourthCell).
  - apply (bool_decide_eq_true_1 _). vm_compute. reflexivity.
  - apply (bool_decide_eq_true_1 _). vm_compute. reflexivity.
  - apply completes_stateAfter. vm_compute. reflexivity.
  - apply (bool_decide_eq_true_1 _). vm_compute. reflexivity.
  - vm_compute. reflexivity.
  - reflexivity.
Defined.
